(** * Chactivity: exploration memory engine

    A shallow embedding of the UI-tree normaliser ([app/base/core/xml_util.py]),
    the helper functions it uses ([app/base/base/util.py]) and the
    Status / Activity / ActivityManager memory
    ([app/base/core/activity_status_memory.py], [persist_knowledge.py]),
    followed by the properties established about them.

    Conventions of the embedding.
    - Python [str] is [string]; a character is a code point below 256.
    - Python [int] is [Z]; list positions and tree depths are [nat].
    - [WeightType] is [float] in the source.  Every weight the program writes
      is an integer-valued float of small magnitude (the constants of class
      [Weight] and sums of them, clamped to 0..100), on which float arithmetic
      is exact; weights are modelled on [Z].
    - A raised exception is a value of [result]; functions that cannot raise
      are plain functions.
    - An lxml element is a node of a rose tree; a reference to an element of a
      tree is the path (child positions from the root) that leads to it.
    - Objects with identity (Status) live in a store indexed by object id.
    - The functions of [XmlUtil] and [Memory] that take a tree take the
      content of the lxml object; the module [Objects] has the tree objects
      themselves, which [Status.__init__] rewrites in place, and the cache
      that [functools.lru_cache] keeps for [make_element_description_list]. *)

From Stdlib Require Import ZArith Lia List Bool Ascii String.
From stdpp Require Import base option list gmap strings pretty.

Import ListNotations.
Local Open Scope string_scope.
Local Open Scope list_scope.
Local Open Scope Z_scope.

(* ===================================================================== *)
(** ** Exceptions *)
(* ===================================================================== *)

Module Py.

(** The exceptions that the modelled code raises.  [Dangling] is of the
    model only: a reference that names no object, which Python cannot hold. *)
Inductive exc : Type :=
| KeyError
| AssertionError
| ValueError
| Dangling.

Inductive result (A : Type) : Type :=
| Ok (a : A)
| Raise (e : exc).

Arguments Ok {A} a.
Arguments Raise {A} e.

Definition bind {A B : Type} (m : result A) (k : A -> result B) : result B :=
  match m with
  | Ok a => k a
  | Raise e => Raise e
  end.

(** [d[k]] on a dict: KeyError when the key is absent. *)
Definition subscript {A : Type} (o : option A) : result A :=
  match o with
  | Some a => Ok a
  | None => Raise KeyError
  end.

Definition is_ok {A : Type} (m : result A) : bool :=
  match m with
  | Ok _ => true
  | Raise _ => false
  end.

(** [for x in l: body], where the body may raise. *)
Fixpoint for_each {A S : Type} (body : A -> S -> result S) (l : list A) (s : S)
  : result S :=
  match l with
  | [] => Ok s
  | x :: rest => bind (body x s) (for_each body rest)
  end.

End Py.

Import Py.

#[global] Instance result_ret : MRet Py.result := fun A a => Py.Ok a.
#[global] Instance result_bind : MBind Py.result := fun A B k m => Py.bind m k.

(* ===================================================================== *)
(** ** app/base/base/util.py *)
(* ===================================================================== *)

Module Util.

(** The double quote character, and a string holding it. *)
Definition dquote_char : ascii := ascii_of_nat 34.
Definition dquote : string := String dquote_char EmptyString.

(** [str.isspace] on code points below 256 (what [str.strip] removes). *)
Definition isspace (c : ascii) : bool :=
  let n := nat_of_ascii c in
  ((9 <=? n) && (n <=? 13) || (28 <=? n) && (n <=? 32)
   || (n =? 133) || (n =? 160))%nat.

(** [str.isprintable] on code points below 256. *)
Definition isprintable (c : ascii) : bool :=
  let n := nat_of_ascii c in
  ((32 <=? n) && (n <=? 126) || (161 <=? n) && negb (n =? 173))%nat.

Fixpoint string_forall (p : ascii -> bool) (s : string) : bool :=
  match s with
  | EmptyString => true
  | String c r => p c && string_forall p r
  end.

Fixpoint string_filter (p : ascii -> bool) (s : string) : string :=
  match s with
  | EmptyString => EmptyString
  | String c r => if p c then String c (string_filter p r) else string_filter p r
  end.

Fixpoint lstrip (s : string) : string :=
  match s with
  | EmptyString => EmptyString
  | String c r => if isspace c then lstrip r else s
  end.

Definition string_rev (s : string) : string :=
  string_of_list_ascii (rev (list_ascii_of_string s)).

(** [s.strip()] *)
Definition strip (s : string) : string :=
  string_rev (lstrip (string_rev (lstrip s))).

Definition str_eqb (a b : string) : bool := bool_decide (a = b).

Definition str_in (a : string) (l : list string) : bool := bool_decide (a ∈ l).

(** Truthiness of a string: non-empty. *)
Definition truthy (s : string) : bool := negb (str_eqb s EmptyString).

(** [is_str_contentful]: not [None] and not empty after [strip]. *)
Definition is_str_contentful (s : option string) : bool :=
  match s with
  | None => false
  | Some s => negb (str_eqb (strip s) EmptyString)
  end.

(** [make_str_printable]: drop every non-printable character. *)
Definition make_str_printable (s : string) : string :=
  string_filter isprintable s.

(** [make_list_unique]: [list(dict.fromkeys(l))], the first occurrence of
    each value, in order. *)
Fixpoint make_list_unique_from (seen : list string) (l : list string)
  : list string :=
  match l with
  | [] => []
  | x :: r =>
      if str_in x seen then make_list_unique_from seen r
      else x :: make_list_unique_from (x :: seen) r
  end.

Definition make_list_unique (l : list string) : list string :=
  make_list_unique_from [] l.

(** [make_list_unique_and_printable] *)
Definition make_list_unique_and_printable (l : list string) : list string :=
  filter (fun i => truthy i = true)
         (make_list_unique (map make_str_printable l)).

(** [concat_strings(strings, middle)] for the two strings it supports. *)
Definition concat_strings (a b : string) (middle : string) : string :=
  match truthy a, truthy b with
  | true, false => a
  | false, true => b
  | false, false => EmptyString
  | true, true => dquote +:+ a +:+ dquote +:+ middle +:+ dquote +:+ b +:+ dquote
  end.

(** [true(x)]: [x == "true"]. *)
Definition true_ (x : option string) : bool :=
  match x with
  | Some s => str_eqb s "true"
  | None => false
  end.

(** [s.split(sep)] for a one-character separator. *)
Fixpoint split_on (sep : ascii) (s : string) : list string :=
  match s with
  | EmptyString => [EmptyString]
  | String c r =>
      if Ascii.eqb c sep then EmptyString :: split_on sep r
      else match split_on sep r with
           | [] => [String c EmptyString]
           | h :: t => String c h :: t
           end
  end.

(** [s.split(sep, 1)[-1]]: what follows the first separator, or all of [s]
    when there is none. *)
Fixpoint after_first (sep : ascii) (s : string) : option string :=
  match s with
  | EmptyString => None
  | String c r => if Ascii.eqb c sep then Some r else after_first sep r
  end.

(** [make_short_resource_id] *)
Definition make_short_resource_id (res_id : option string) : string :=
  match res_id with
  | None => EmptyString
  | Some s =>
      if truthy s then default s (after_first "/"%char s) else EmptyString
  end.

(** [s.find(c)]: position of the first [c], or -1. *)
Fixpoint find_char (c : ascii) (s : string) : Z :=
  match s with
  | EmptyString => -1
  | String d r =>
      if Ascii.eqb d c then 0
      else let k := find_char c r in if k <? 0 then -1 else k + 1
  end.

(** [s[:k]] with Python's meaning of a negative [k]. *)
Definition slice_to (s : string) (k : Z) : string :=
  let n := Z.of_nat (String.length s) in
  let stop := if k <? 0 then Z.max 0 (n + k) else Z.min k n in
  substring 0 (Z.to_nat stop) s.

(** [sep.join(parts)] *)
Fixpoint join (sep : string) (parts : list string) : string :=
  match parts with
  | [] => EmptyString
  | [p] => p
  | p :: rest => p +:+ sep +:+ join sep rest
  end.

(** [get_full_activity_name] *)
Definition get_full_activity_name (package_name activity_name : string) : string :=
  if String.prefix "." activity_name then package_name +:+ activity_name
  else activity_name.

End Util.

(* ===================================================================== *)
(** ** The UI tree *)
(* ===================================================================== *)

Module Xml.

(** The attributes of one element.  [attrib] holds the string attributes in
    document order.  The two attributes that the normaliser keeps JSON-encoded
    ([child_texts] and [near_texts], written with [json.dumps] and read back
    with [json.loads]) are held decoded; [None] is an absent attribute. *)
Record Attrs : Type := MkAttrs {
  tag : string;
  attrib : list (string * string);
  child_texts : option (list string);
  near_texts : option (list string);
}.

#[warnings="-register-all"]
Inductive XmlElement : Type :=
| Node (a : Attrs) (children : list XmlElement).

Definition attrs (t : XmlElement) : Attrs :=
  match t with Node a _ => a end.

Definition children (t : XmlElement) : list XmlElement :=
  match t with Node _ cs => cs end.

(** [element.get(k)] *)
Fixpoint assoc_get (l : list (string * string)) (k : string) : option string :=
  match l with
  | [] => None
  | (k', v) :: r => if Util.str_eqb k' k then Some v else assoc_get r k
  end.

(** [element.set(k, v)]: in place when the key exists, appended otherwise. *)
Fixpoint assoc_set (k v : string) (l : list (string * string))
  : list (string * string) :=
  match l with
  | [] => [(k, v)]
  | (k', v') :: r =>
      if Util.str_eqb k' k then (k, v) :: r else (k', v') :: assoc_set k v r
  end.

Definition get (a : Attrs) (k : string) : option string := assoc_get (attrib a) k.

(** [element.get(k, "")] *)
Definition get_d (a : Attrs) (k : string) : string := default EmptyString (get a k).

(** [k in element.attrib] *)
Definition has (a : Attrs) (k : string) : bool :=
  match get a k with Some _ => true | None => false end.

Definition set (k v : string) (a : Attrs) : Attrs :=
  MkAttrs (tag a) (assoc_set k v (attrib a)) (child_texts a) (near_texts a).

Definition set_child_texts (l : list string) (a : Attrs) : Attrs :=
  MkAttrs (tag a) (attrib a) (Some l) (near_texts a).

Definition set_near_texts (l : list string) (a : Attrs) : Attrs :=
  MkAttrs (tag a) (attrib a) (child_texts a) (Some l).

(** [json.loads(element.get("child_texts", "[]"))] and the same for
    [near_texts]. *)
Definition child_texts_of (a : Attrs) : list string := default [] (child_texts a).
Definition near_texts_of (a : Attrs) : list string := default [] (near_texts a).

(** A reference to an element: the child positions that lead to it. *)
Definition Path : Type := list nat.

Fixpoint get_node (t : XmlElement) (p : Path) : option XmlElement :=
  match p with
  | [] => Some t
  | i :: p' =>
      match children t !! i with
      | Some c => get_node c p'
      | None => None
      end
  end.

(** The element that [p] refers to, rewritten by [f]. *)
Fixpoint update_node (f : XmlElement -> XmlElement) (p : Path) (t : XmlElement)
  : XmlElement :=
  match p with
  | [] => f t
  | i :: p' =>
      match t with
      | Node a cs =>
          match cs !! i with
          | Some c => Node a (<[i := update_node f p' c]> cs)
          | None => t
          end
      end
  end.

Definition on_attrs (f : Attrs -> Attrs) (t : XmlElement) : XmlElement :=
  match t with Node a cs => Node (f a) cs end.

Definition update_attrs (f : Attrs -> Attrs) (p : Path) (t : XmlElement)
  : XmlElement := update_node (on_attrs f) p t.

Definition get_attrs (t : XmlElement) (p : Path) : option Attrs :=
  attrs <$> get_node t p.

(** Every element of the tree rewritten by [f]. *)
Fixpoint map_attrs (f : Attrs -> Attrs) (t : XmlElement) : XmlElement :=
  match t with
  | Node a cs => Node (f a) (map (map_attrs f) cs)
  end.

(** Does some element of the tree satisfy [p]? *)
Fixpoint exists_attrs (p : Attrs -> bool) (t : XmlElement) : bool :=
  match t with
  | Node a cs => p a || existsb (exists_attrs p) cs
  end.

End Xml.

(* ===================================================================== *)
(** ** What the engine takes from its host *)
(* ===================================================================== *)

(** Library functions and configuration that the repository calls but does
    not define: [hashlib.sha256(..).hexdigest()], lxml's [etree.tostring] and
    [getpath], Python's [repr] of a list of strings (as an f-string prints
    it), and the flag [config.app.core.filter_by_status_weight]. *)
Class Host : Type := MkHost {
  hashlib_sha256 : string -> string;
  etree_tostring : Xml.XmlElement -> string;
  etree_getpath : Xml.XmlElement -> Xml.Path -> string;
  repr_list : list string -> string;
  filter_by_status_weight : bool;
}.

(* ===================================================================== *)
(** ** app/base/base/const.py *)
(* ===================================================================== *)

Module Const.

(** The constants below are Python sets; they are listed in the order of
    their source text.  Python iterates a set of strings in an order that
    is fixed within one process and can differ from one process to the
    next.  The membership tests and the passes that write one attribute per
    member do not depend on it; the descriptions, and the action keys made
    of them, list the texts in the order of [TEXT_ATTRIBUTES], so that the
    ones computed here are those of a process that iterates it as listed,
    and what is established about stored keys holds within one process. *)
Definition TEXT_VIEW : list string :=
  [ "android.widget.EditText";
    "android.widget.AutoCompleteTextView";
    "android.widget.MultiAutoCompleteTextView";
    "android.inputmethodservice.ExtractEditText" ].

Definition PASS_DOWN_ATTRIBUTES : list string :=
  [ "clickable"; "long-clickable"; "scrollable" ].

Definition MUST_DIFFERENT_ATTRIBUTES : list string := [ "index"; "bounds" ].

Definition ALL_ATTRIBUTES : list string :=
  [ "index"; "package"; "class"; "text"; "resource-id"; "checkable";
    "checked"; "clickable"; "enabled"; "focusable"; "focused";
    "long-clickable"; "password"; "scrollable"; "selected"; "bounds";
    "displayed" ].

Definition OVERRIDE_CHILD_TEXT_CLASSES : list string := [ "TextInputLayout" ].

Definition TEXT_ATTRIBUTES : list string := [ "text"; "content-desc" ].

End Const.

(* ===================================================================== *)
(** ** app/base/device/commands *)
(* ===================================================================== *)

Module Commands.

Import Xml.

(** [is_element_inputable] (xml_util.py) *)
Definition is_element_inputable (a : Attrs) : bool :=
  match get a "class" with
  | Some c => Util.str_in c Const.TEXT_VIEW
  | None => false
  end.

(** [get_available_commands_for_xml_element]: the registered commands with
    [perform_on_element], in registration order (click, input, submit,
    scroll), each asked for its prompt description. *)
Definition get_available_commands_for_xml_element (a : Attrs) : list string :=
  (if Util.true_ (get a "clickable") then ["click"] else [])
  ++ (if is_element_inputable a then ["input"] else [])
  ++ (if is_element_inputable a then ["submit"] else [])
  ++ (if Util.true_ (get a "scrollable") then ["scroll"] else []).

(** [any(l)] on a list of strings. *)
Definition any_str (l : list string) : bool := existsb Util.truthy l.

End Commands.

(* ===================================================================== *)
(** ** app/base/core/xml_util.py *)
(* ===================================================================== *)

Module XmlUtil.

Import Xml.

Section WithHost.
Context `{Host}.

Definition not_in (l : list string) (i : string) : bool := negb (Util.str_in i l).

(** The text attributes that enter a description. *)
Definition text_parts (a : Attrs) (ignore_text_for_inputable : bool)
  : list string :=
  flat_map
    (fun attr =>
       if Util.is_str_contentful (get a attr) then
         if ignore_text_for_inputable && Util.str_eqb attr "text"
            && Commands.is_element_inputable a
         then []
         else [get_d a attr]
       else [])
    Const.TEXT_ATTRIBUTES.

Definition resource_id_part (a : Attrs) : list string :=
  match get a "resource-id" with
  | Some r =>
      if Util.truthy r
      then ["resource_id: " +:+ Util.make_short_resource_id (Some r)]
      else []
  | None => []
  end.

(** One turn of the loop over [child_texts] and [near_texts] in
    [make_element_description_list]. *)
Definition add_texts_attr (extend : bool) (label : string)
    (val : option (list string)) (content_list : list string) : list string :=
  match val with
  | None => content_list
  | Some [] => content_list
  | Some l =>
      let attr_val_list :=
        Util.make_list_unique_and_printable (map (substring 0 100) l) in
      let attr_val_list := List.filter (not_in content_list) attr_val_list in
      match attr_val_list with
      | [] => content_list
      | _ =>
          if extend then content_list ++ attr_val_list
          else content_list
               ++ [label +:+ ": "
                   +:+ repr_list (List.filter (not_in content_list) attr_val_list)]
      end
  end.

(** [list.remove(x)] when [x] may be absent is guarded by [x in l] in the
    source; this removes the first occurrence, if any. *)
Fixpoint remove_first (x : string) (l : list string) : list string :=
  match l with
  | [] => []
  | y :: r => if Util.str_eqb y x then r else y :: remove_first x r
  end.

(** The body of [make_element_description_list]: the list that a call
    computes when the cache of [functools.lru_cache], which the source puts
    around the function, has no entry for it.
    [Objects.make_element_description_list] is the call through the
    cache. *)
Definition make_element_description_list (a : Attrs)
    (ignore_common_attrs no_wrap_child_texts ignore_text_for_inputable
     no_near_texts : bool) : list string :=
  let content_list := text_parts a ignore_text_for_inputable in
  let content_list := content_list ++ resource_id_part a in
  let content_list :=
    add_texts_attr no_wrap_child_texts "child texts" (child_texts a) content_list in
  let content_list :=
    if no_near_texts then content_list
    else add_texts_attr false "near texts" (near_texts a) content_list in
  let content_list := Util.make_list_unique_and_printable content_list in
  if ignore_common_attrs then remove_first "(no text)" content_list
  else content_list.

(** [merge_text_parts] *)
Definition merge_text_parts (strings : list string) : string :=
  Util.join ", "
    (map (fun i => Util.dquote +:+ i +:+ Util.dquote)
         (List.filter Util.truthy strings)).

(** The body of [make_element_description] on an element of a tree, from
    the list that [make_element_description_list] computes.  (For the
    module's [StubElementForNoDescriptionRequired], which is an element of
    no tree, the source returns the empty string before anything else; and
    it memoises this function too, so that a repeated call gets the
    description computed at the first one.) *)
Definition make_element_description (a : Attrs)
    (ignore_common_attrs direct_text_only ignore_text_for_inputable : bool)
  : string :=
  let content_list :=
    make_element_description_list a ignore_common_attrs false
      ignore_text_for_inputable false in
  let content_list := List.filter Util.truthy content_list in
  if direct_text_only then
    match content_list with
    | x :: _ => x
    | [] => "an element without text"
    end
  else merge_text_parts content_list.

(** [filter_xpath_remove_index] *)
Definition filter_xpath_remove_index (xpath : string) : string :=
  let parts := Util.split_on "/"%char xpath in
  let parts := map (fun i => Util.slice_to i (Util.find_char "["%char i)) parts in
  Util.join "/" parts.

(** [_traverse_xml] / [traverse_xml]: every element that carries [depth],
    children before their parent, with the number of such elements on the
    way from the root (the element included). *)
Fixpoint _traverse_xml (path : Path) (key_depth : nat) (t : XmlElement)
  : list (Path * nat) :=
  match t with
  | Node a cs =>
      let key_depth := if has a "depth" then S key_depth else key_depth in
      let below :=
        (fix go (i : nat) (l : list XmlElement) : list (Path * nat) :=
           match l with
           | [] => []
           | c :: r => _traverse_xml (path ++ [i]) key_depth c ++ go (S i) r
           end) 0%nat cs in
      if has a "depth" then below ++ [(path, key_depth)] else below
  end.

Definition traverse_xml (t : XmlElement) : list (Path * nat) :=
  _traverse_xml [] 0 t.

(** The call [make_element_description_list(node, ignore_common_attrs=True,
    no_wrap_child_texts=True, no_near_texts=True)] of [_indent_xml]. *)
Definition own_texts (a : Attrs) : list string :=
  make_element_description_list a true true false true.

(** The detection function that [Status.init_element_tree] passes to
    [indent_xml]. *)
Definition detection_function_actionable (a : Attrs) : bool :=
  Commands.any_str (Commands.get_available_commands_for_xml_element a).

(** [_indent_xml].  [following] are the siblings that
    [xml_tree.itersiblings()] yields: lxml iterates the FOLLOWING siblings
    (its [preceding] argument defaults to [False]); they have not been
    visited yet when the element is.  The result is the rewritten element,
    the count of key elements in it, and the key elements found, in the
    order in which the detection function meets them. *)
Fixpoint _indent_xml (root : XmlElement) (path : Path)
    (following : list XmlElement) (depth : nat) (t : XmlElement)
  : XmlElement * nat * list Path :=
  match t with
  | Node a cs =>
      let '(cs', child_key_count, found) :=
        (fix go (i : nat) (l : list XmlElement)
           : list XmlElement * nat * list Path :=
           match l with
           | [] => ([], 0%nat, [])
           | c :: r =>
               let '(c', k, f) := _indent_xml root (path ++ [i]) r (S depth) c in
               let '(r', k', f') := go (S i) r in
               (c' :: r', (k + k')%nat, f ++ f')
           end) 0%nat cs in
      let child_texts0 := own_texts a in
      let near :=
        Util.make_list_unique_and_printable
          (flat_map (fun node => own_texts (attrs node)) following) in
      let a := set_near_texts near a in
      let is_this_important := detection_function_actionable a in
      let a := set "child_key_count" (pretty child_key_count) a in
      let a :=
        if is_this_important
        then set "xpath" (etree_getpath root path) (set "depth" (pretty depth) a)
        else a in
      let total := if is_this_important then S child_key_count else child_key_count in
      let from_children :=
        flat_map (fun c => if has (attrs c) "depth" then []
                           else child_texts_of (attrs c)) cs' in
      let texts := List.filter (not_in near) (child_texts0 ++ from_children) in
      (Node (set_child_texts texts a) cs',
       total,
       if is_this_important then found ++ [path] else found)
  end.

(** [indent_xml] on the root of a snapshot, which has no sibling. *)
Definition indent_xml (t : XmlElement) : XmlElement * list Path :=
  let '(t', _, found) := _indent_xml t [] [] 0 t in (t', found).

(** [do_func_on_every_element]: [func] on the element, then on each of its
    children as [func] left them.  [func] rewrites the subtree it is given
    and keeps its shape; the recursion follows the shape of the tree. *)
Fixpoint do_func_on_shape (func : XmlElement -> XmlElement)
    (shape t : XmlElement) : XmlElement :=
  match shape with
  | Node _ shape_children =>
      match func t with
      | Node a cs =>
          Node a
            ((fix go (ss ts : list XmlElement) : list XmlElement :=
                match ss, ts with
                | s :: ss', c :: ts' => do_func_on_shape func s c :: go ss' ts'
                | _, _ => ts
                end) shape_children cs)
      end
  end.

Definition do_func_on_every_element (t : XmlElement)
    (func : XmlElement -> XmlElement) : XmlElement :=
  do_func_on_shape func t t.

(** [remove_attr_on_every_element]: a new tree in which each of the
    attributes [attrs_], where present, holds the empty string.  (It is
    called with sets of string attributes only.) *)
Definition remove_attr (attrs_ : list string) (a : Attrs) : Attrs :=
  fold_left (fun a attr => if has a attr then set attr EmptyString a else a)
            attrs_ a.

Definition remove_attr_on_every_element (t : XmlElement) (attrs_ : list string)
  : XmlElement :=
  do_func_on_every_element t (on_attrs (remove_attr attrs_)).

(** [get_xml_hash] *)
Definition get_xml_hash (t : XmlElement) : string :=
  hashlib_sha256 (etree_tostring t).

(** [pass_down_actionable]: the function applied to every element. *)
Definition pass_down_actionable_func (t : XmlElement) : XmlElement :=
  match t with
  | Node a cs =>
      let list_group := ["android.widget.RelativeLayout"; "android.view.ViewGroup"] in
      let in_group :=
        match get a "class" with
        | Some c => Util.str_in c list_group
        | None => false
        end in
      if negb in_group then t
      else if (length cs <? 2)%nat then t
      else
        let parent_has_attrs :=
          List.filter (fun i => Util.true_ (get a i)) Const.PASS_DOWN_ATTRIBUTES in
        match parent_has_attrs with
        | [] => t
        | _ =>
            let a := fold_left (fun a attr => set attr "false" a) parent_has_attrs a in
            let has_text (c : XmlElement) :=
              Util.true_ (Some (Util.strip (get_d (attrs c) "text"))) in
            let any_child_has_text := existsb has_text cs in
            let update (c : XmlElement) :=
              if any_child_has_text && negb (has_text c) then c
              else
                on_attrs
                  (fun ca =>
                     let ca :=
                       set "content-desc"
                         (Util.concat_strings (get_d ca "content-desc")
                            (get_d a "content-desc") " under ") ca in
                     let ca :=
                       set "text"
                         (Util.concat_strings (get_d ca "text") (get_d a "text")
                            " under ") ca in
                     fold_left (fun ca attr => set attr "true" ca)
                               parent_has_attrs ca)
                  c in
            Node a (map update cs)
        end
  end.

Definition pass_down_actionable (t : XmlElement) : XmlElement :=
  do_func_on_every_element t pass_down_actionable_func.

(** [pass_container_text_down]: the function applied to every element. *)
Definition pass_container_text_down_func (t : XmlElement) : XmlElement :=
  match t with
  | Node a cs =>
      let in_classes :=
        match get a "class" with
        | Some c => Util.str_in c Const.OVERRIDE_CHILD_TEXT_CLASSES
        | None => false
        end in
      if negb in_classes then t
      else
        let element_attr :=
          flat_map (fun k => match get a k with
                             | Some v => if Util.truthy v then [(k, v)] else []
                             | None => []
                             end) Const.TEXT_ATTRIBUTES in
        match element_attr with
        | [] => t
        | _ =>
            let all_texts := "Description: " +:+ Util.join ", " (map snd element_attr) in
            let lacks (ca : Attrs) := Util.str_eqb (get_d ca "content-desc") EmptyString in
            let set_to_child := existsb (exists_attrs lacks) cs in
            let cs :=
              map (map_attrs (fun ca => if lacks ca
                                        then set "content-desc" all_texts ca
                                        else ca)) cs in
            if set_to_child then
              let a := fold_left (fun a kv => set (fst kv) EmptyString a) element_attr a in
              Node (set "abort_pass_up" "true" a) cs
            else Node a cs
        end
  end.

Definition pass_container_text_down (t : XmlElement) : XmlElement :=
  do_func_on_every_element t pass_container_text_down_func.

(** [merge_children_text_desc] returns its argument on its first line. *)
Definition merge_children_text_desc (t : XmlElement) : XmlElement := t.

(** [pass_down_child_texts]: one turn of the loop over the key elements. *)
Definition pass_down_child_texts_step (key_element : Path) (t : XmlElement)
  : XmlElement :=
  match key_element with
  | [] => t
  | _ =>
      let parent_path := removelast key_element in
      match get_node t parent_path with
      | None => t
      | Some parent =>
          if Util.truthy (get_d (attrs parent) "depth") then t
          else
            let parent_child_texts := child_texts_of (attrs parent) in
            match parent_child_texts with
            | [] => t
            | _ =>
                let merge (ca : Attrs) :=
                  let child_child_texts := child_texts_of ca in
                  if bool_decide (child_child_texts = parent_child_texts) then ca
                  else
                    set_child_texts
                      (Util.make_list_unique_and_printable
                         (List.filter (not_in (near_texts_of ca))
                                 (parent_child_texts ++ child_child_texts)))
                      ca in
                update_node
                  (fun p => match p with
                            | Node pa pcs => Node pa (map (on_attrs merge) pcs)
                            end)
                  parent_path t
            end
      end
  end.

Definition pass_down_child_texts (t : XmlElement) (key_elements : list Path)
  : XmlElement :=
  fold_left (fun t p => pass_down_child_texts_step p t) key_elements t.

(** [keep_only_one_res_id_in_child_texts]: the loop over a copy of
    [child_texts], removing from the list itself. *)
Fixpoint drop_later_res_ids (copy : list string) (has_resource_id : bool)
    (child_texts : list string) : list string :=
  match copy with
  | [] => child_texts
  | child_text :: rest =>
      if String.prefix "resource_id: " child_text then
        if has_resource_id
        then drop_later_res_ids rest true (remove_first child_text child_texts)
        else drop_later_res_ids rest true child_texts
      else drop_later_res_ids rest has_resource_id child_texts
  end.

Definition keep_only_one_res_id (a : Attrs) : Attrs :=
  let texts := child_texts_of a in
  if (length texts <=? 1)%nat then a
  else set_child_texts (drop_later_res_ids texts false texts) a.

Definition keep_only_one_res_id_in_child_texts (t : XmlElement)
    (key_elements : list Path) : XmlElement :=
  fold_left (fun t p => update_attrs keep_only_one_res_id p t) key_elements t.

(** [remove_duplicate_near_texts]: the first loop gathers the near texts of
    all the elements, the second filters each element's list by it. *)
Definition all_direct_near_texts (t : XmlElement) (elements : list Path)
  : list string :=
  flat_map (fun p => match get_attrs t p with
                     | Some a => near_texts_of a
                     | None => []
                     end) elements.

Definition filter_near_texts (all_texts : list string) (a : Attrs) : Attrs :=
  set_near_texts (List.filter (not_in all_texts) (near_texts_of a)) a.

Definition remove_duplicate_near_texts (t : XmlElement) (elements : list Path)
  : XmlElement :=
  let all_texts := all_direct_near_texts t elements in
  fold_left (fun t p => update_attrs (filter_near_texts all_texts) p t) elements t.

End WithHost.

End XmlUtil.

(* ===================================================================== *)
(** ** app/base/core/persist_knowledge.py, activity_status_memory.py *)
(* ===================================================================== *)

Module Memory.

Import Xml.

(** *** StatusLevel and Weight *)

Inductive StatusLevel : Type :=
| TEXT
| ATTRIBUTE_IGNORE_TEXT
| ATTRIBUTE_IGNORE_TEXT_AND_DESC
| LAYOUT_IGNORE_ATTRIBUTE
| ACTIVITY_IGNORE_LAYOUT
| PACKAGE.

(** The value of the [IntEnum] member. *)
Definition level_value (l : StatusLevel) : Z :=
  match l with
  | TEXT => 0
  | ATTRIBUTE_IGNORE_TEXT => 1
  | ATTRIBUTE_IGNORE_TEXT_AND_DESC => 2
  | LAYOUT_IGNORE_ATTRIBUTE => 3
  | ACTIVITY_IGNORE_LAYOUT => 4
  | PACKAGE => 5
  end.

(** [str(status_level)]: an [IntEnum] member prints as its value. *)
Definition level_str (l : StatusLevel) : string := pretty (level_value l).

Definition DEFAULT_STATUS_LEVEL : StatusLevel := ATTRIBUTE_IGNORE_TEXT.
Definition STATUS_EXPLODED_MAX : nat := 10.

Module Weight.
Definition DISABLED_FOREVER : Z := -990.
Definition MIN : Z := 0.
Definition MAX : Z := 100.
Definition DEFAULT : Z := MAX.
Definition EACH_ACTION : Z := -40.
Definition EACH_NON_ACTION : Z := 15.
Definition ENTER_CIRCLE : Z := -20.
Definition EXIT_CIRCLE : Z := -40.
Definition EACH_ACTION_ON_GLOBAL : Z := -50.
Definition EACH_NON_ACTION_ON_GLOBAL : Z := 6.
End Weight.

Definition SPECIAL_WEIGHT_SKIP_CHECK : list Z := [Weight.DISABLED_FOREVER].

(** [weight in SPECIAL_WEIGHT_SKIP_CHECK] *)
Definition skip_check (weight : Z) : bool :=
  bool_decide (weight ∈ SPECIAL_WEIGHT_SKIP_CHECK).

(** [min(Weight.MAX, max(Weight.MIN, weight))] *)
Definition clamp (weight : Z) : Z := Z.min Weight.MAX (Z.max Weight.MIN weight).

(** The rule shared by [Status.update_element_weight] and
    [ActivityManager._set_action_weight]. *)
Definition new_weight_for (current_weight : option Z) (weight : Z) : Z :=
  if skip_check weight then weight
  else match current_weight with
       | Some c => if skip_check c then c else clamp weight
       | None => clamp weight
       end.

(** *** Records *)

Module PersistKnowledge.
Record t : Type := Mk {
  activity_description : gmap string (option string);
  invalid_actions : list string;
}.
End PersistKnowledge.

Module ActivityManager.
Record t : Type := Mk {
  package_name : string;
  persist_knowledge : PersistKnowledge.t;
  action_weights : gmap string Z;
  filled_texts : gmap string string;
  operated_elements_description : gset string;
}.
End ActivityManager.

Module Activity.
(** [statuses] holds references to Status objects. *)
Record t : Type := Mk {
  package_name : string;
  activity_name : string;
  statuses : list nat;
  status_level : StatusLevel;
  description : option string;
  is_description_fixed : bool;
}.
End Activity.

Module Status.
(** [_all_elements] and [elements_to_this] hold references to elements of
    [xml_tree]; [element_depths] is a dict whose iteration order (insertion
    order) matters; [from_status] is a reference to a Status object. *)
Record t : Type := Mk {
  xml : string;
  xml_tree : XmlElement;
  status_level : StatusLevel;
  hash : string;
  step_count : Z;
  _all_elements : list (Path * nat);
  _xpath_to_element : gmap string Path;
  element_weights : gmap string Z;
  element_depths : list (string * Z);
  elements_to_this : list Path;
  from_status : option nat;
  has_inputed : bool;
}.

Definition with_weights (w : gmap string Z) (s : t) : t :=
  Mk (xml s) (xml_tree s) (status_level s) (hash s) (step_count s)
     (_all_elements s) (_xpath_to_element s) w (element_depths s)
     (elements_to_this s) (from_status s) (has_inputed s).

Definition with_depths (d : list (string * Z)) (s : t) : t :=
  Mk (xml s) (xml_tree s) (status_level s) (hash s) (step_count s)
     (_all_elements s) (_xpath_to_element s) (element_weights s) d
     (elements_to_this s) (from_status s) (has_inputed s).

Definition with_elements_to_this (l : list Path) (s : t) : t :=
  Mk (xml s) (xml_tree s) (status_level s) (hash s) (step_count s)
     (_all_elements s) (_xpath_to_element s) (element_weights s)
     (element_depths s) l (from_status s) (has_inputed s).

Definition with_from_status (f : option nat) (s : t) : t :=
  Mk (xml s) (xml_tree s) (status_level s) (hash s) (step_count s)
     (_all_elements s) (_xpath_to_element s) (element_weights s)
     (element_depths s) (elements_to_this s) f (has_inputed s).

Definition with_has_inputed (b : bool) (s : t) : t :=
  Mk (xml s) (xml_tree s) (status_level s) (hash s) (step_count s)
     (_all_elements s) (_xpath_to_element s) (element_weights s)
     (element_depths s) (elements_to_this s) (from_status s) b.
End Status.

(** The element a reference stands for; a reference into another tree
    finds no attribute at all. *)
Definition no_attrs : Attrs := MkAttrs EmptyString [] None None.

Definition element (s : Status.t) (p : Path) : Attrs :=
  default no_attrs (get_attrs (Status.xml_tree s) p).

(** [element.attrib[k]] *)
Definition attrib_at (a : Attrs) (k : string) : result string :=
  subscript (get a k).

(** *** Status: the weight table *)

(** [Status.update_element_weight] *)
Definition update_element_weight (xpath : string) (weight : Z) (s : Status.t)
  : Status.t :=
  let current_weight := Status.element_weights s !! xpath in
  let new_weight := new_weight_for current_weight weight in
  Status.with_weights (<[xpath := new_weight]> (Status.element_weights s)) s.

(** [Status.add_element_weight] *)
Definition add_element_weight (xpath : string) (weight : Z) (s : Status.t)
  : result Status.t :=
  current ← subscript (Status.element_weights s !! xpath);
  Ok (update_element_weight xpath (current + weight) s).

(** [Status.get_weight]: the argument is a path string or an element. *)
Definition get_weight (s : Status.t) (element : string + Attrs) : result Z :=
  xpath ← match element with
          | inl xpath => Ok xpath
          | inr el => attrib_at el "xpath"
          end;
  subscript (Status.element_weights s !! xpath).

(** [Status._init_element_weights] *)
Definition _init_element_weights (s : Status.t) : result Status.t :=
  s ← for_each
        (fun (ed : Path * nat) (s : Status.t) =>
           xpath ← attrib_at (element s (fst ed)) "xpath";
           Ok (update_element_weight xpath Weight.DEFAULT s))
        (Status._all_elements s) s;
  Ok (update_element_weight "back" Weight.DEFAULT s).

(** [Status.single_ban_element] *)
Definition single_ban_element (xpath_or_command : string) (s : Status.t)
  : Status.t :=
  update_element_weight xpath_or_command Weight.DISABLED_FOREVER s.

(** *** Status: hashing and construction *)

Section WithHost.
Context `{Host}.

(** [Status.calc_hash] *)
Definition calc_hash (xml_tree : XmlElement) (status_level : StatusLevel)
    (activity : option Activity.t) : result string :=
  hash ← match status_level with
         | TEXT => Ok (XmlUtil.get_xml_hash xml_tree)
         | ATTRIBUTE_IGNORE_TEXT =>
             Ok (XmlUtil.get_xml_hash
                   (XmlUtil.remove_attr_on_every_element xml_tree
                      ("text" :: Const.MUST_DIFFERENT_ATTRIBUTES)))
         | ATTRIBUTE_IGNORE_TEXT_AND_DESC =>
             Ok (XmlUtil.get_xml_hash
                   (XmlUtil.remove_attr_on_every_element xml_tree
                      (Const.TEXT_ATTRIBUTES ++ Const.MUST_DIFFERENT_ATTRIBUTES)))
         | LAYOUT_IGNORE_ATTRIBUTE =>
             Ok (XmlUtil.get_xml_hash
                   (XmlUtil.remove_attr_on_every_element xml_tree
                      Const.ALL_ATTRIBUTES))
         | ACTIVITY_IGNORE_LAYOUT =>
             match activity with
             | Some a => Ok (Activity.activity_name a)
             | None => Raise AssertionError
             end
         | PACKAGE =>
             match activity with
             | Some a => Ok (Activity.package_name a)
             | None => Raise AssertionError
             end
         end;
  Ok (level_str status_level +:+ hash).

(** [Status.init_element_tree]: the normalisation pipeline, as a function
    of the content of the tree object.  The source rewrites [self.xml_tree]
    in place; the result is what the object holds afterwards when none of
    its elements had a cached description list
    ([ObjectProps.init_element_tree_on_fresh]), as in a tree that was just
    parsed.  [Objects.init_element_tree] is the pass on a tree object. *)
Definition init_element_tree (xml_tree : XmlElement) : XmlElement :=
  let t := XmlUtil.pass_down_actionable xml_tree in
  let t := XmlUtil.pass_container_text_down t in
  let '(t, current_found_elements) := XmlUtil.indent_xml t in
  let t := XmlUtil.merge_children_text_desc t in
  let t := XmlUtil.pass_down_child_texts t current_found_elements in
  let t := XmlUtil.keep_only_one_res_id_in_child_texts t current_found_elements in
  XmlUtil.remove_duplicate_near_texts t current_found_elements.

(** [Status.get_elements(disable_weight=True)]: with the weight test
    disabled no random number is drawn and every displayed key element is
    returned. *)
Definition get_elements_disable_weight (xml_tree : XmlElement)
  : list (Path * nat) :=
  if negb filter_by_status_weight then XmlUtil.traverse_xml xml_tree
  else
    List.filter
      (fun ed => Util.true_
                   (get (default no_attrs (get_attrs xml_tree (fst ed))) "displayed"))
      (XmlUtil.traverse_xml xml_tree).

(** [Status.__init__], as a function of the content of the tree object it
    is given: the Status that the constructor makes of a tree that was just
    parsed ([ObjectProps.Status_init_on_fresh]).  The hash is taken of the
    tree as given, the Status keeps the normalised tree.  The constructor
    leaves the normalised tree in the caller's object as well:
    [Objects.Status__init__] is the constructor on a tree object. *)
Definition Status__init__ (activity : Activity.t) (xml : string)
    (xml_tree : XmlElement) (step_count : Z) (status_level : StatusLevel)
    (from_status : option nat) : result Status.t :=
  hash ← calc_hash xml_tree status_level (Some activity);
  let tree := init_element_tree xml_tree in
  let all_elements := get_elements_disable_weight tree in
  xpath_to_element ←
    for_each
      (fun (ed : Path * nat) (m : gmap string Path) =>
         xpath ← attrib_at (default no_attrs (get_attrs tree (fst ed))) "xpath";
         Ok (<[xpath := fst ed]> m))
      all_elements ∅;
  s ← _init_element_weights
        (Status.Mk xml tree status_level hash step_count all_elements
           xpath_to_element ∅ [] [] None false);
  Ok (Status.with_from_status from_status s).

(** *** The object store *)

(** Status objects by identity; [next_oid] is the identity the next
    constructed object gets. *)
Record Heap : Type := MkHeap {
  objects : gmap nat Status.t;
  next_oid : nat;
}.

Definition empty_heap : Heap := MkHeap ∅ 0.

(** *** Activity *)

(** [Activity.__init__], given the description the knowledge store holds. *)
Definition Activity__init__ (package_name activity_name : string)
    (manager : ActivityManager.t) (status_level : StatusLevel) : Activity.t :=
  let full := Util.get_full_activity_name package_name activity_name in
  Activity.Mk package_name full [] status_level
    (default None
       (PersistKnowledge.activity_description
          (ActivityManager.persist_knowledge manager) !! full))
    false.

(** [Activity._last_status] *)
Definition _last_status (a : Activity.t) : option nat :=
  last (Activity.statuses a).

(** The scan of [Activity._get_status]: the first Status of the list whose
    hash is the given one. *)
Definition status_with_hash (h : Heap) (hash : string) (ids : list nat)
  : option nat :=
  List.find
    (fun id => match objects h !! id with
               | Some status => Util.str_eqb (Status.hash status) hash
               | None => false
               end)
    ids.

(** [Activity._get_status]: a candidate Status is constructed (and takes the
    next identity); when a Status of the Activity has its hash the candidate
    is dropped and that Status is returned, otherwise the candidate is. *)
Definition _get_status (a : Activity.t) (h : Heap) (xml : string)
    (xml_tree : XmlElement) (step_count : Z) : result (nat * Heap) :=
  this_status ← Status__init__ a xml xml_tree step_count (Activity.status_level a) None;
  let oid := next_oid h in
  match status_with_hash h (Status.hash this_status) (Activity.statuses a) with
  | Some status => Ok (status, MkHeap (objects h) (S oid))
  | None => Ok (oid, MkHeap (<[oid := this_status]> (objects h)) (S oid))
  end.

(** [Activity.add_status], as a function of the content of the tree
    object it is given.  [xml_tree] is the tree as the driver captured it:
    every caller parses the page source anew for each call, and the Status
    keeps the tree that [init_element_tree] made of it.  A call with a tree
    object that an earlier call was given finds the normalised tree in it:
    [Objects.add_status] is the function on tree objects. *)
Definition add_status (a : Activity.t) (h : Heap) (xml : string)
    (xml_tree : XmlElement) (step_count : Z)
  : result (Activity.t * Heap * nat) :=
  '(this_status, h) ← _get_status a h xml xml_tree step_count;
  if bool_decide (this_status ∈ Activity.statuses a) then Ok (a, h, this_status)
  else
    let h := MkHeap (alter (Status.with_from_status (_last_status a))
                           this_status (objects h))
                    (next_oid h) in
    Ok (Activity.Mk (Activity.package_name a) (Activity.activity_name a)
          (Activity.statuses a ++ [this_status]) (Activity.status_level a)
          (Activity.description a) (Activity.is_description_fixed a),
        h, this_status).

(** [Activity.is_status_exploded] *)
Definition is_status_exploded (a : Activity.t) : bool :=
  (STATUS_EXPLODED_MAX <? length (Activity.statuses a))%nat.

End WithHost.

(** *** ActivityManager *)

Section Manager.
Context `{Host}.

Definition with_action_weights (w : gmap string Z) (m : ActivityManager.t)
  : ActivityManager.t :=
  ActivityManager.Mk (ActivityManager.package_name m)
    (ActivityManager.persist_knowledge m) w (ActivityManager.filled_texts m)
    (ActivityManager.operated_elements_description m).

(** [PersistKnowledge.add_invalid_action] *)
Definition add_invalid_action (unique_id : string) (k : PersistKnowledge.t)
  : PersistKnowledge.t :=
  if Util.str_in unique_id (PersistKnowledge.invalid_actions k) then k
  else PersistKnowledge.Mk (PersistKnowledge.activity_description k)
         (PersistKnowledge.invalid_actions k ++ [unique_id]).

(** [ActivityManager.add_operated_element] *)
Definition add_operated_element (el : Attrs) (m : ActivityManager.t)
  : ActivityManager.t :=
  ActivityManager.Mk (ActivityManager.package_name m)
    (ActivityManager.persist_knowledge m) (ActivityManager.action_weights m)
    (ActivityManager.filled_texts m)
    ({[ XmlUtil.make_element_description el false false true ]}
       ∪ ActivityManager.operated_elements_description m).

(** [ActivityManager.add_filled_text] *)
Definition add_filled_text (element_description text : string)
    (m : ActivityManager.t) : ActivityManager.t :=
  ActivityManager.Mk (ActivityManager.package_name m)
    (ActivityManager.persist_knowledge m) (ActivityManager.action_weights m)
    (<[element_description := text]> (ActivityManager.filled_texts m))
    (ActivityManager.operated_elements_description m).

(** [ActivityManager.filled_text_for] *)
Definition filled_text_for (element_description : string)
    (m : ActivityManager.t) : option string :=
  ActivityManager.filled_texts m !! element_description.

(** [ActivityManager.get_action_key] *)
Definition get_action_key (el : Attrs) (command : string) : result string :=
  xpath ← attrib_at el "xpath";
  Ok (XmlUtil.filter_xpath_remove_index xpath
      +:+ XmlUtil.make_element_description el false false false
      +:+ command).

(** [ActivityManager._set_action_weight]; [setdefault] reads the entry,
    which it first creates at [Weight.DEFAULT] when there is none. *)
Definition _set_action_weight (xpath_and_desc : string) (weight : Z)
    (m : ActivityManager.t) : ActivityManager.t :=
  let current_weight :=
    default Weight.DEFAULT (ActivityManager.action_weights m !! xpath_and_desc) in
  let new_weight := new_weight_for (Some current_weight) weight in
  with_action_weights
    (<[xpath_and_desc := new_weight]> (ActivityManager.action_weights m)) m.

(** [ActivityManager.update_action_weight] *)
Definition update_action_weight (el : Attrs) (command : string) (weight : Z)
    (m : ActivityManager.t) : result ActivityManager.t :=
  xpath_and_desc ← get_action_key el command;
  Ok (_set_action_weight xpath_and_desc weight m).

(** [ActivityManager.add_action_weight] *)
Definition add_action_weight (el : Attrs) (command : string) (weight : Z)
    (m : ActivityManager.t) : result ActivityManager.t :=
  xpath_and_desc ← get_action_key el command;
  let current :=
    default Weight.DEFAULT (ActivityManager.action_weights m !! xpath_and_desc) in
  let m :=
    with_action_weights
      (<[xpath_and_desc := current]> (ActivityManager.action_weights m)) m in
  update_action_weight el command (current + weight) m.

(** [ActivityManager.on_action_action] *)
Definition on_action_action (el : Attrs) (command : string)
    (m : ActivityManager.t) : result ActivityManager.t :=
  add_action_weight el command Weight.EACH_ACTION_ON_GLOBAL m.

(** [ActivityManager.on_action_non_action] *)
Definition on_action_non_action (el : Attrs) (command : string)
    (m : ActivityManager.t) : result ActivityManager.t :=
  key ← get_action_key el command;
  match ActivityManager.action_weights m !! key with
  | None => Ok m
  | Some _ => add_action_weight el command Weight.EACH_NON_ACTION_ON_GLOBAL m
  end.

(** The names of [CommandManager.all_command_list], in registration order. *)
Definition all_command_names : list string :=
  [ "click"; "back"; "input"; "submit"; "scroll"; "sleep"; "monkey" ].

(** [ActivityManager.global_ban_action] with a command. *)
Definition global_ban_command (el : Attrs) (command : string)
    (m : ActivityManager.t) : result ActivityManager.t :=
  unique_id ← get_action_key el command;
  let m :=
    ActivityManager.Mk (ActivityManager.package_name m)
      (add_invalid_action unique_id (ActivityManager.persist_knowledge m))
      (ActivityManager.action_weights m) (ActivityManager.filled_texts m)
      (ActivityManager.operated_elements_description m) in
  update_action_weight el command Weight.DISABLED_FOREVER m.

(** [ActivityManager.global_ban_action]: without a command, every
    registered command is banned in turn. *)
Definition global_ban_action (el : Attrs) (command : option string)
    (m : ActivityManager.t) : result ActivityManager.t :=
  match command with
  | None => for_each (global_ban_command el) all_command_names m
  | Some command => global_ban_command el command m
  end.

(** [ActivityManager.__init__]: the invalid actions of the knowledge store
    start out banned. *)
Definition ActivityManager__init__ (persist_knowledge : PersistKnowledge.t)
    (package_name : string) : ActivityManager.t :=
  fold_left
    (fun m invalid_action =>
       _set_action_weight invalid_action Weight.DISABLED_FOREVER m)
    (PersistKnowledge.invalid_actions persist_knowledge)
    (ActivityManager.Mk package_name persist_knowledge ∅ ∅ ∅).

(** *** Status.on_element_action *)

(** The state a step works on: the Status objects and the one
    ActivityManager that their Activities share. *)
Record Engine : Type := MkEngine {
  heap : gmap nat Status.t;
  manager : ActivityManager.t;
}.

(** The object a reference stands for. *)
Definition deref (e : Engine) (oid : nat) : result Status.t :=
  match heap e !! oid with
  | Some s => Ok s
  | None => Raise Dangling
  end.

Definition store (oid : nat) (s : Status.t) (e : Engine) : Engine :=
  MkEngine (<[oid := s]> (heap e)) (manager e).

(** [d[k] = v] on a dict, which keeps the place of a key it has. *)
Fixpoint dict_set (k : string) (v : Z) (d : list (string * Z))
  : list (string * Z) :=
  match d with
  | [] => [(k, v)]
  | (k', v') :: r =>
      if Util.str_eqb k' k then (k', v) :: r else (k', v') :: dict_set k v r
  end.

(** The search for the entry of greatest depth in [on_element_action]:
    the state is [(max_element, max_depth)], started at [(None, -1)]. *)
Definition max_depth_step (acc : option string * Z) (entry : string * Z)
  : option string * Z :=
  if snd acc <? snd entry then (Some (fst entry), snd entry) else acc.

Definition find_max_depth (element_depths : list (string * Z))
  : option string * Z :=
  fold_left max_depth_step element_depths (None, -1).

(** Lines 275-285: what is recorded about the action. *)
Definition record_action (self : nat) (elem : Path) (step_number : Z)
    (command : string) (extra : gmap string string) (e : Engine)
  : result Engine :=
  s ← deref e self;
  let el := element s elem in
  let m := add_operated_element el (manager e) in
  let s :=
    if bool_decide (elem ∈ Status.elements_to_this s) then s
    else Status.with_elements_to_this (Status.elements_to_this s ++ [elem]) s in
  '(m, s) ← (if Util.str_eqb command "input" then
               text ← subscript (extra !! "text");
               Ok (add_filled_text
                     (XmlUtil.make_element_description el false false true) text m,
                   Status.with_has_inputed true s)
             else Ok (m, s));
  xpath ← attrib_at el "xpath";
  let s := Status.with_depths (dict_set xpath step_number (Status.element_depths s)) s in
  Ok (MkEngine (<[self := s]> (heap e)) m).

(** Lines 286-296: the penalties for going back to an earlier status.
    [new_status] is read only when [useful] holds. *)
Definition punish_circle (self : nat) (xpath : string) (new_status : nat)
    (useful : bool) (e : Engine) : result Engine :=
  if useful then
    s ← deref e self;
    n ← deref e new_status;
    if Status.step_count n <? Status.step_count s then
      e ← match fst (find_max_depth (Status.element_depths n)) with
          | Some max_element =>
              n ← add_element_weight max_element Weight.ENTER_CIRCLE n;
              Ok (store new_status n e)
          | None => Ok e
          end;
      s ← deref e self;
      s ← add_element_weight xpath Weight.EXIT_CIRCLE s;
      Ok (store self s e)
    else Ok e
  else Ok e.

(** Lines 298-316: one turn of the loop over the key elements. *)
Definition group_step (prompt command : string) (useful : bool)
    (ed : Path * nat) (st : Status.t * ActivityManager.t)
  : result (Status.t * ActivityManager.t) :=
  let '(s, m) := st in
  let el := element s (fst ed) in
  current_xpath ← attrib_at el "xpath";
  w ← subscript (Status.element_weights s !! current_xpath);
  if skip_check w then Ok (s, m)
  else
    p ← attrib_at el "prompt";
    if Util.str_eqb p prompt then
      if useful then
        s ← add_element_weight current_xpath Weight.EACH_ACTION s;
        m ← on_action_action el command m;
        Ok (s, m)
      else
        m ← global_ban_action el (Some command) m;
        Ok (s, m)
    else
      s ← add_element_weight current_xpath Weight.EACH_NON_ACTION s;
      m ← on_action_non_action el command m;
      Ok (s, m).

Definition update_group (self : nat) (prompt command : string) (useful : bool)
    (e : Engine) : result Engine :=
  s ← deref e self;
  '(s, m) ← for_each (group_step prompt command useful)
                     (Status._all_elements s) (s, manager e);
  Ok (MkEngine (<[self := s]> (heap e)) m).

(** [Status.on_element_action], called on the Status [self] the step
    started from; [elem] is an element of its tree. *)
Definition on_element_action (self : nat) (elem : Path) (step_number : Z)
    (new_status : nat) (command : string) (useful : bool)
    (extra : gmap string string) (e : Engine) : result Engine :=
  e ← record_action self elem step_number command extra e;
  s ← deref e self;
  xpath ← attrib_at (element s elem) "xpath";
  e ← punish_circle self xpath new_status useful e;
  s ← deref e self;
  prompt ← attrib_at (element s elem) "prompt";
  update_group self prompt command useful e.

End Manager.

End Memory.

(* ===================================================================== *)
(** ** Sequences of calls on a weight table *)
(* ===================================================================== *)

Module Calls.

Import Memory.

(** A call of [update_element_weight] or of [add_element_weight]. *)
Inductive weight_call : Type :=
| UpdateWeight (xpath : string) (weight : Z)
| AddWeight (xpath : string) (weight : Z).

Definition call (c : weight_call) (s : Status.t) : result Status.t :=
  match c with
  | UpdateWeight xpath weight => Ok (update_element_weight xpath weight s)
  | AddWeight xpath weight => add_element_weight xpath weight s
  end.

(** The Status after the call: [add_element_weight] raises KeyError before
    it writes anything, so a call that raises leaves the Status as it was. *)
Definition after_call (c : weight_call) (s : Status.t) : Status.t :=
  match call c s with
  | Ok s' => s'
  | Raise _ => s
  end.

Definition after_calls (cs : list weight_call) (s : Status.t) : Status.t :=
  fold_left (fun s c => after_call c s) cs s.

(** The value that the call hands to [update_element_weight], if it gets
    that far. *)
Definition written_value (c : weight_call) (s : Status.t) : option Z :=
  match c with
  | UpdateWeight _ weight => Some weight
  | AddWeight xpath weight =>
      (fun current => current + weight) <$> Status.element_weights s !! xpath
  end.

(** No call of the sequence writes [DISABLED_FOREVER]. *)
Fixpoint no_ban_written (cs : list weight_call) (s : Status.t) : Prop :=
  match cs with
  | [] => True
  | c :: rest =>
      written_value c s ≠ Some Weight.DISABLED_FOREVER
      ∧ no_ban_written rest (after_call c s)
  end.

End Calls.

(* ===================================================================== *)
(** ** Sample data *)
(* ===================================================================== *)

Module Sample.

Import Xml Memory.

(** A host for the examples: the hash of a text is the text itself, a tree
    serialises to its root tag, a path prints as its child positions. *)
#[local] Instance host : Host :=
  MkHost (fun s => s)
         (fun t => tag (attrs t))
         (fun _ p => "/hierarchy" +:+ Util.join EmptyString (map (fun i => "/*[" +:+ pretty (S i) +:+ "]") p))
         (fun l => "[" +:+ Util.join ", " l +:+ "]")
         true.

Definition leaf (tg : string) (kv : list (string * string)) : XmlElement :=
  Node (MkAttrs tg kv None None) [].

(** A screen with a label and a button after it. *)
Definition label_then_button : XmlElement :=
  Node (MkAttrs "hierarchy" [] None None)
    [ leaf "android.widget.TextView"
        [("class", "android.widget.TextView"); ("text", "Hello");
         ("displayed", "true")];
      leaf "android.widget.Button"
        [("class", "android.widget.Button"); ("text", "");
         ("clickable", "true"); ("displayed", "true")] ].

(** The same two elements in the other order. *)
Definition button_then_label : XmlElement :=
  Node (MkAttrs "hierarchy" [] None None)
    [ leaf "android.widget.Button"
        [("class", "android.widget.Button"); ("text", "");
         ("clickable", "true"); ("displayed", "true")];
      leaf "android.widget.TextView"
        [("class", "android.widget.TextView"); ("text", "Hello");
         ("displayed", "true")] ].

Definition manager0 : ActivityManager.t :=
  ActivityManager__init__ (PersistKnowledge.Mk ∅ []) "com.example".

Definition activity0 : Activity.t :=
  Activity__init__ "com.example" ".Main" manager0 DEFAULT_STATUS_LEVEL.

End Sample.

(* ===================================================================== *)
(** ** Properties of the weight table *)
(* ===================================================================== *)

Module WeightProps.

Import Xml Memory Calls.

Lemma skip_check_true (w : Z) :
  skip_check w = true <-> w = Weight.DISABLED_FOREVER.
Proof.
  unfold skip_check, SPECIAL_WEIGHT_SKIP_CHECK.
  rewrite bool_decide_eq_true. rewrite list_elem_of_singleton. reflexivity.
Qed.

Lemma skip_check_false (w : Z) :
  skip_check w = false <-> w ≠ Weight.DISABLED_FOREVER.
Proof.
  rewrite <- skip_check_true. destruct (skip_check w); split; congruence.
Qed.

Lemma clamp_range (w : Z) : Weight.MIN <= clamp w <= Weight.MAX.
Proof. unfold clamp, Weight.MIN, Weight.MAX. lia. Qed.

Lemma clamp_not_ban (w : Z) : clamp w ≠ Weight.DISABLED_FOREVER.
Proof.
  pose proof (clamp_range w) as Hr.
  unfold Weight.MIN, Weight.MAX, Weight.DISABLED_FOREVER in *. lia.
Qed.

Lemma new_weight_for_ban (current : option Z) :
  new_weight_for current Weight.DISABLED_FOREVER = Weight.DISABLED_FOREVER.
Proof. reflexivity. Qed.

Lemma new_weight_for_sticky (weight : Z) :
  new_weight_for (Some Weight.DISABLED_FOREVER) weight = Weight.DISABLED_FOREVER.
Proof.
  unfold new_weight_for. destruct (skip_check weight) eqn:E.
  - now apply skip_check_true.
  - reflexivity.
Qed.

Lemma new_weight_for_clamp (current : option Z) (weight : Z) :
  weight ≠ Weight.DISABLED_FOREVER ->
  (forall c, current = Some c -> c ≠ Weight.DISABLED_FOREVER) ->
  new_weight_for current weight = clamp weight.
Proof.
  intros Hw Hc. unfold new_weight_for.
  apply skip_check_false in Hw. rewrite Hw.
  destruct current as [c|]; [|reflexivity].
  specialize (Hc c eq_refl). apply skip_check_false in Hc. now rewrite Hc.
Qed.

Lemma update_lookup_same (s : Status.t) (xpath : string) (weight : Z) :
  Status.element_weights (update_element_weight xpath weight s) !! xpath
  = Some (new_weight_for (Status.element_weights s !! xpath) weight).
Proof. unfold update_element_weight. simpl. apply lookup_insert_eq. Qed.

Lemma update_lookup_other (s : Status.t) (xpath other : string) (weight : Z) :
  xpath ≠ other ->
  Status.element_weights (update_element_weight xpath weight s) !! other
  = Status.element_weights s !! other.
Proof. intros Hne. unfold update_element_weight. simpl. now apply lookup_insert_ne. Qed.

Lemma add_element_weight_ok (s : Status.t) (xpath : string) (weight current : Z) :
  Status.element_weights s !! xpath = Some current ->
  add_element_weight xpath weight s
  = Ok (update_element_weight xpath (current + weight) s).
Proof. intros Hc. unfold add_element_weight. now rewrite Hc. Qed.

Lemma add_element_weight_missing (s : Status.t) (xpath : string) (weight : Z) :
  Status.element_weights s !! xpath = None ->
  add_element_weight xpath weight s = Raise KeyError.
Proof. intros Hc. unfold add_element_weight. now rewrite Hc. Qed.

(** A banned entry survives any single call. *)
Lemma after_call_keeps_ban (c : weight_call) (s : Status.t) (p : string) :
  Status.element_weights s !! p = Some Weight.DISABLED_FOREVER ->
  Status.element_weights (after_call c s) !! p = Some Weight.DISABLED_FOREVER.
Proof.
  intros Hp.
  assert (Hupd : forall q w,
             Status.element_weights (update_element_weight q w s) !! p
             = Some Weight.DISABLED_FOREVER).
  { intros q w. destruct (decide (q = p)) as [->|Hne].
    - rewrite update_lookup_same, Hp. now rewrite new_weight_for_sticky.
    - now rewrite update_lookup_other. }
  destruct c as [q w|q d]; unfold after_call; simpl.
  - apply Hupd.
  - unfold add_element_weight.
    destruct (Status.element_weights s !! q) as [cur|]; simpl; [apply Hupd|exact Hp].
Qed.

Lemma after_calls_keep_ban (cs : list weight_call) (s : Status.t) (p : string) :
  Status.element_weights s !! p = Some Weight.DISABLED_FOREVER ->
  Status.element_weights (after_calls cs s) !! p = Some Weight.DISABLED_FOREVER.
Proof.
  revert s. induction cs as [|c cs IH]; intros s Hp; simpl.
  - exact Hp.
  - apply IH. now apply after_call_keeps_ban.
Qed.

(** *** Results of monadic code *)

Lemma bind_Ok {A B : Type} (m : result A) (k : A -> result B) (b : B) :
  (m ≫= k) = Ok b -> exists a, m = Ok a /\ k a = Ok b.
Proof.
  unfold mbind, result_bind, Py.bind. destruct m as [a|e]; intros Hk.
  - now exists a.
  - discriminate.
Qed.

Lemma ret_bind {A B : Type} (a : A) (k : A -> result B) :
  (Ok a ≫= k) = k a.
Proof. reflexivity. Qed.

Lemma for_each_cons {A S : Type} (body : A -> S -> result S)
    (x : A) (l : list A) (s : S) :
  for_each body (x :: l) s = Py.bind (body x s) (for_each body l).
Proof. reflexivity. Qed.

Lemma for_each_cons_Ok {A S : Type} (body : A -> S -> result S)
    (x : A) (l : list A) (s s' : S) :
  for_each body (x :: l) s = Ok s' ->
  exists s1, body x s = Ok s1 /\ for_each body l s1 = Ok s'.
Proof.
  simpl. unfold Py.bind. destruct (body x s) as [s1|e]; intros Hl.
  - now exists s1.
  - discriminate.
Qed.

(** *** A fresh weight table *)

(** Every stored weight is the default. *)
Definition all_default (s : Status.t) : Prop :=
  forall p w, Status.element_weights s !! p = Some w -> w = Weight.DEFAULT.

Lemma new_weight_for_default (current : option Z) :
  (forall c, current = Some c -> c = Weight.DEFAULT) ->
  new_weight_for current Weight.DEFAULT = Weight.DEFAULT.
Proof.
  intros Hc. destruct current as [c|]; [|reflexivity].
  now rewrite (Hc c eq_refl).
Qed.

Lemma update_default_same (s : Status.t) (xpath : string) :
  all_default s ->
  Status.element_weights (update_element_weight xpath Weight.DEFAULT s) !! xpath
  = Some Weight.DEFAULT.
Proof.
  intros Hs. rewrite update_lookup_same. f_equal.
  apply new_weight_for_default. intros c Hc. now apply (Hs xpath).
Qed.

Lemma update_default_all (s : Status.t) (xpath : string) :
  all_default s -> all_default (update_element_weight xpath Weight.DEFAULT s).
Proof.
  intros Hs p w. destruct (decide (xpath = p)) as [->|Hne].
  - rewrite update_default_same by assumption. congruence.
  - rewrite update_lookup_other by assumption. apply Hs.
Qed.

(** The keys of the table held by the elements of a list of references. *)
Definition xpath_of (t : XmlElement) (ed : Path * nat) : option string :=
  get (default no_attrs (get_attrs t (fst ed))) "xpath".

Lemma init_loop_spec (l : list (Path * nat)) (s0 s : Status.t) :
  for_each
    (fun (ed : Path * nat) (s : Status.t) =>
       xpath ← attrib_at (element s (fst ed)) "xpath";
       Ok (update_element_weight xpath Weight.DEFAULT s)) l s0 = Ok s ->
  all_default s0 ->
  all_default s
  /\ Status.xml_tree s = Status.xml_tree s0
  /\ Status._all_elements s = Status._all_elements s0
  /\ (forall ed, ed ∈ l ->
        exists xpath, xpath_of (Status.xml_tree s0) ed = Some xpath
                      /\ Status.element_weights s !! xpath = Some Weight.DEFAULT)
  /\ (forall p, is_Some (Status.element_weights s !! p) ->
        is_Some (Status.element_weights s0 !! p)
        \/ exists ed, ed ∈ l /\ xpath_of (Status.xml_tree s0) ed = Some p).
Proof.
  revert s0. induction l as [|ed l IH]; intros s0 Hrun Hall.
  - simpl in Hrun. injection Hrun as <-.
    repeat split; try assumption; try reflexivity.
    + intros ed Hin. inversion Hin.
    + intros p Hp. now left.
  - apply for_each_cons_Ok in Hrun as (s1 & Hbody & Hrest).
    apply bind_Ok in Hbody as (xpath & Hx & Hupd).
    injection Hupd as <-.
    unfold attrib_at, element, subscript in Hx.
    destruct (get (default no_attrs (get_attrs (Status.xml_tree s0) ed.1)) "xpath")
      as [x|] eqn:Ex; [|discriminate].
    injection Hx as ->.
    specialize (IH _ Hrest (update_default_all s0 xpath Hall))
      as (Hall' & Htree & Hels & Hin & Hdom).
    simpl in Htree, Hels.
    repeat split; try assumption.
    + intros ed' Hed'. apply elem_of_cons in Hed' as [->|Hed'].
      * exists xpath. split; [exact Ex|].
        destruct (Status.element_weights s !! xpath) as [w|] eqn:Ew.
        -- now rewrite (Hall' xpath w Ew).
        -- exfalso.
           (* the entry written first is still there *)
           clear - Hrest Ew Hall.
           assert (Hkeep : forall l (a b : Status.t) q,
                      for_each
                        (fun (ed : Path * nat) (s : Status.t) =>
                           xpath ← attrib_at (element s (fst ed)) "xpath";
                           Ok (update_element_weight xpath Weight.DEFAULT s)) l a
                      = Ok b ->
                      is_Some (Status.element_weights a !! q) ->
                      is_Some (Status.element_weights b !! q)).
           { clear. induction l as [|e l IHl]; intros a b q Hr Hq.
             - simpl in Hr. now injection Hr as <-.
             - apply for_each_cons_Ok in Hr as (a1 & Hb & Hr).
               apply bind_Ok in Hb as (x & _ & Hu). injection Hu as <-.
               apply (IHl _ _ _ Hr).
               destruct (decide (x = q)) as [->|Hne].
               + rewrite update_lookup_same. eauto.
               + now rewrite update_lookup_other. }
           pose proof (Hkeep _ _ _ xpath Hrest) as Hk.
           rewrite update_lookup_same in Hk. rewrite Ew in Hk.
           destruct Hk as [? Hk]; [eauto|discriminate].
      * now apply Hin.
    + intros p Hp. destruct (Hdom p Hp) as [Hold|(ed' & Hed' & Hxp)].
      * destruct (decide (xpath = p)) as [->|Hne].
        -- right. exists ed. split; [apply elem_of_cons; now left|exact Ex].
        -- left. now rewrite update_lookup_other in Hold.
      * right. exists ed'. split; [apply elem_of_cons; now right|exact Hxp].
Qed.

Lemma init_element_weights_spec (s0 s : Status.t) :
  _init_element_weights s0 = Ok s ->
  all_default s0 ->
  all_default s
  /\ Status.xml_tree s = Status.xml_tree s0
  /\ Status._all_elements s = Status._all_elements s0
  /\ Status.hash s = Status.hash s0
  /\ Status.element_weights s !! "back" = Some Weight.DEFAULT
  /\ (forall ed, ed ∈ Status._all_elements s0 ->
        exists xpath, xpath_of (Status.xml_tree s0) ed = Some xpath
                      /\ Status.element_weights s !! xpath = Some Weight.DEFAULT)
  /\ (forall p, is_Some (Status.element_weights s !! p) ->
        is_Some (Status.element_weights s0 !! p) \/ p = "back"
        \/ exists ed, ed ∈ Status._all_elements s0
                      /\ xpath_of (Status.xml_tree s0) ed = Some p).
Proof.
  intros Hinit Hall. unfold _init_element_weights in Hinit.
  apply bind_Ok in Hinit as (s1 & Hloop & Hback). injection Hback as <-.
  assert (Hhash : Status.hash s1 = Status.hash s0).
  { clear - Hloop. revert Hloop. generalize (Status._all_elements s0).
    intros l. revert s0. induction l as [|e l IHl]; intros a Hr.
    - simpl in Hr. now injection Hr as <-.
    - apply for_each_cons_Ok in Hr as (a1 & Hb & Hr).
      apply bind_Ok in Hb as (x & _ & Hu). injection Hu as <-.
      now rewrite (IHl _ Hr). }
  apply init_loop_spec in Hloop as (Hall1 & Htree & Hels & Hin & Hdom);
    [|exact Hall].
  repeat split.
  - now apply update_default_all.
  - exact Htree.
  - exact Hels.
  - exact Hhash.
  - now apply update_default_same.
  - intros ed Hed. destruct (Hin ed Hed) as (xpath & Hx & Hw).
    exists xpath. split; [exact Hx|].
    destruct (decide ("back" = xpath)) as [<-|Hne].
    + now apply update_default_same.
    + now rewrite update_lookup_other.
  - intros p Hp. destruct (decide ("back" = p)) as [<-|Hne]; [right; now left|].
    rewrite update_lookup_other in Hp by assumption.
    destruct (Hdom p Hp) as [Hold|Hnew]; [now left|right; now right].
Qed.

Section FreshStatus.
Context `{Host}.

(** What [Status.__init__] leaves in the weight table. *)
Lemma Status_init_weights (activity : Activity.t) (xml : string)
    (xml_tree : XmlElement) (step_count : Z) (status_level : StatusLevel)
    (from_status : option nat) (s : Status.t) :
  Status__init__ activity xml xml_tree step_count status_level from_status = Ok s ->
  all_default s
  /\ Status.element_weights s !! "back" = Some Weight.DEFAULT
  /\ (forall ed, ed ∈ Status._all_elements s ->
        exists xpath, xpath_of (Status.xml_tree s) ed = Some xpath
                      /\ Status.element_weights s !! xpath = Some Weight.DEFAULT)
  /\ (forall p, is_Some (Status.element_weights s !! p) ->
        p = "back"
        \/ exists ed, ed ∈ Status._all_elements s
                      /\ xpath_of (Status.xml_tree s) ed = Some p).
Proof.
  intros Hinit. unfold Status__init__ in Hinit.
  apply bind_Ok in Hinit as (hash & _ & Hinit).
  apply bind_Ok in Hinit as (x2e & _ & Hinit).
  apply bind_Ok in Hinit as (s1 & Hw & Hret). injection Hret as <-.
  apply init_element_weights_spec in Hw
    as (Hall & Htree & Hels & _ & Hback & Hin & Hdom).
  2:{ intros p w Hp. simpl in Hp. rewrite lookup_empty in Hp. discriminate. }
  simpl in *. rewrite Htree, Hels. repeat split; try assumption.
  intros p Hp. destruct (Hdom p Hp) as [Hold|Hnew]; [|exact Hnew].
  rewrite lookup_empty in Hold. destruct Hold as [? Hold]. discriminate.
Qed.

(** What [Status.__init__] leaves as the hash. *)
Lemma Status_init_hash (activity : Activity.t) (xml : string)
    (xml_tree : XmlElement) (step_count : Z) (status_level : StatusLevel)
    (from_status : option nat) (s : Status.t) :
  Status__init__ activity xml xml_tree step_count status_level from_status = Ok s ->
  calc_hash xml_tree status_level (Some activity) = Ok (Status.hash s).
Proof.
  intros Hinit. unfold Status__init__ in Hinit.
  apply bind_Ok in Hinit as (hash & Hhash & Hinit).
  apply bind_Ok in Hinit as (x2e & _ & Hinit).
  apply bind_Ok in Hinit as (s1 & Hw & Hret). injection Hret as <-.
  apply init_element_weights_spec in Hw as (_ & _ & _ & Hh & _).
  2:{ intros p w Hp. simpl in Hp. rewrite lookup_empty in Hp. discriminate. }
  simpl in *. now rewrite Hh.
Qed.

(** The weight table that [Status.__init__] returns with. *)
Lemma fresh_status_table (activity : Activity.t) (xml : string)
    (xml_tree : XmlElement) (step_count : Z) (status_level : StatusLevel)
    (from_status : option nat) (s : Status.t) :
  Status__init__ activity xml xml_tree step_count status_level from_status = Ok s ->
  Status.element_weights s !! "back" = Some Weight.MAX
  /\ (forall ed, ed ∈ Status._all_elements s ->
        exists xpath, get (element s (fst ed)) "xpath" = Some xpath
                      /\ Status.element_weights s !! xpath = Some Weight.MAX)
  /\ (forall p, is_Some (Status.element_weights s !! p) ->
        p = "back"
        \/ exists ed, ed ∈ Status._all_elements s
                      /\ get (element s (fst ed)) "xpath" = Some p)
  /\ get_weight s (inl "back") = Ok Weight.MAX
  /\ Status.element_weights (single_ban_element "back" s) !! "back"
     = Some Weight.DISABLED_FOREVER.
Proof.
  intros Hinit.
  destruct (Status_init_weights _ _ _ _ _ _ _ Hinit) as (Hall & Hback & Hin & Hdom).
  repeat split.
  - exact Hback.
  - exact Hin.
  - exact Hdom.
  - unfold get_weight. simpl. unfold Weight.DEFAULT in Hback. now rewrite Hback.
  - unfold single_ban_element. rewrite update_lookup_same. reflexivity.
Qed.

End FreshStatus.

(** *** Sticky ban *)

(** C4.  Once the weight of a path is DISABLED_FOREVER: an
    [update_element_weight] with another value leaves it there, an
    [add_element_weight] on it returns and leaves it there whatever the
    delta, an explicit DISABLED_FOREVER write confirms it, and so it is
    still there after any sequence of calls on the table. *)
Theorem disabled_forever_is_sticky (s : Status.t) (p : string) :
  Status.element_weights s !! p = Some Weight.DISABLED_FOREVER ->
  (forall weight, weight ≠ Weight.DISABLED_FOREVER ->
     Status.element_weights (update_element_weight p weight s) !! p
     = Some Weight.DISABLED_FOREVER)
  /\ (forall weight, exists s',
        add_element_weight p weight s = Ok s'
        /\ Status.element_weights s' !! p = Some Weight.DISABLED_FOREVER)
  /\ Status.element_weights
       (update_element_weight p Weight.DISABLED_FOREVER s) !! p
     = Some Weight.DISABLED_FOREVER
  /\ (forall cs, Status.element_weights (after_calls cs s) !! p
                 = Some Weight.DISABLED_FOREVER).
Proof.
  intros Hp. repeat split.
  - intros weight _. rewrite update_lookup_same, Hp.
    now rewrite new_weight_for_sticky.
  - intros weight.
    exists (update_element_weight p (Weight.DISABLED_FOREVER + weight) s). split.
    + apply add_element_weight_ok. exact Hp.
    + rewrite update_lookup_same, Hp. now rewrite new_weight_for_sticky.
  - rewrite update_lookup_same. reflexivity.
  - intros cs. now apply after_calls_keep_ban.
Qed.

(** *** Bounds *)

Definition in_range (s : Status.t) : Prop :=
  forall p w, Status.element_weights s !! p = Some w ->
              Weight.MIN <= w <= Weight.MAX.

Lemma all_default_in_range (s : Status.t) : all_default s -> in_range s.
Proof.
  intros Hs p w Hp. rewrite (Hs p w Hp).
  unfold Weight.DEFAULT, Weight.MIN, Weight.MAX. lia.
Qed.

Lemma update_in_range (s : Status.t) (q : string) (weight : Z) :
  in_range s -> weight ≠ Weight.DISABLED_FOREVER ->
  in_range (update_element_weight q weight s).
Proof.
  intros Hs Hw p w. destruct (decide (q = p)) as [->|Hne].
  - rewrite update_lookup_same. intros Hp. injection Hp as <-.
    rewrite new_weight_for_clamp; [apply clamp_range|exact Hw|].
    intros c Hc. specialize (Hs p c Hc).
    unfold Weight.MIN, Weight.MAX, Weight.DISABLED_FOREVER in *. lia.
  - rewrite update_lookup_other by assumption. apply Hs.
Qed.

Lemma after_call_in_range (c : weight_call) (s : Status.t) :
  in_range s -> written_value c s ≠ Some Weight.DISABLED_FOREVER ->
  in_range (after_call c s).
Proof.
  intros Hs Hw. destruct c as [q w|q d]; unfold after_call; simpl in *.
  - apply update_in_range; [exact Hs|congruence].
  - unfold add_element_weight.
    destruct (Status.element_weights s !! q) as [cur|]; simpl in *; [|exact Hs].
    apply update_in_range; [exact Hs|congruence].
Qed.

Lemma after_calls_in_range (cs : list weight_call) (s : Status.t) :
  in_range s -> no_ban_written cs s -> in_range (after_calls cs s).
Proof.
  revert s. induction cs as [|c cs IH]; intros s Hs Hcs; simpl in *.
  - exact Hs.
  - destruct Hcs as [Hc Hcs]. apply IH; [|exact Hcs].
    now apply after_call_in_range.
Qed.

(** The bounds, from the table that [Status.__init__] returns with. *)
Lemma weights_in_bounds_from `{Host} (activity : Activity.t) (xml : string)
    (xml_tree : XmlElement) (step_count : Z) (status_level : StatusLevel)
    (from_status : option nat) (s : Status.t) (cs : list weight_call) :
  Status__init__ activity xml xml_tree step_count status_level from_status = Ok s ->
  no_ban_written cs s ->
  forall p w, Status.element_weights (after_calls cs s) !! p = Some w ->
              0 <= w <= 100.
Proof.
  intros Hinit Hcs.
  destruct (Status_init_weights _ _ _ _ _ _ _ Hinit) as (Hall & _).
  exact (after_calls_in_range cs s (all_default_in_range s Hall) Hcs).
Qed.

(** *** Weight queries *)

(** C9.  [get_weight] on a path returns the stored weight when the table
    has the path and raises KeyError when it has not; no default is
    returned.  Given an element, it does the same for the element's
    [xpath] attribute. *)
Theorem get_weight_fails_on_missing_path (s : Status.t) (p : string) (el : Attrs) :
  get_weight s (inl p)
  = match Status.element_weights s !! p with
    | Some w => Ok w
    | None => Raise KeyError
    end
  /\ get_weight s (inr el)
     = match get el "xpath" with
       | Some xpath => get_weight s (inl xpath)
       | None => Raise KeyError
       end.
Proof.
  split.
  - unfold get_weight. simpl.
    now destruct (Status.element_weights s !! p).
  - unfold get_weight, attrib_at. simpl.
    now destruct (get el "xpath").
Qed.

End WeightProps.

(** A Status whose [back] entry has been banned. *)
Definition banned_back : Memory.Status.t :=
  Memory.single_ban_element "back"
    (Memory.Status.Mk EmptyString Sample.label_then_button Memory.TEXT "0" 0
       [] ∅ {[ "back" := 100 ]} [] [] None false).

(** C4 at a Status whose [back] entry is banned. *)
Lemma disabled_forever_is_sticky_witness :
  Memory.Status.element_weights banned_back !! "back"
  = Some Memory.Weight.DISABLED_FOREVER
  /\ Memory.Status.element_weights
       (Calls.after_calls
          [Calls.AddWeight "back" 15; Calls.UpdateWeight "back" 100]
          banned_back) !! "back"
     = Some Memory.Weight.DISABLED_FOREVER.
Proof.
  split; [vm_compute; reflexivity|].
  apply (WeightProps.disabled_forever_is_sticky banned_back "back").
  vm_compute; reflexivity.
Defined.

(* ===================================================================== *)
(** ** Properties of hashing and of status deduplication *)
(* ===================================================================== *)

(** The levels whose hash is taken from the owning Activity. *)
Definition needs_activity (l : Memory.StatusLevel) : bool :=
  match l with
  | Memory.ACTIVITY_IGNORE_LAYOUT | Memory.PACKAGE => true
  | _ => false
  end.

Module HashProps.

Import Xml Memory.

(** The text before the hash body is the one digit of the level. *)
Lemma level_str_digit (l : StatusLevel) :
  level_str l
  = String (ascii_of_nat (48 + Z.to_nat (level_value l))) EmptyString.
Proof. destruct l; vm_compute; reflexivity. Qed.

Lemma level_prefix_differs (l1 l2 : StatusLevel) (body1 body2 : string) :
  l1 ≠ l2 -> level_str l1 +:+ body1 ≠ level_str l2 +:+ body2.
Proof.
  intros Hne Heq. rewrite !level_str_digit in Heq. simpl in Heq.
  injection Heq as Hc _. apply Hne.
  destruct l1, l2; try reflexivity; vm_compute in Hc; discriminate.
Qed.

Section WithHost.
Context `{Host}.

(** The text that [calc_hash] puts after the level digit. *)
Definition hash_body (xml_tree : XmlElement) (l : StatusLevel)
    (a : Activity.t) : string :=
  match l with
  | TEXT => XmlUtil.get_xml_hash xml_tree
  | ATTRIBUTE_IGNORE_TEXT =>
      XmlUtil.get_xml_hash
        (XmlUtil.remove_attr_on_every_element xml_tree
           ("text" :: Const.MUST_DIFFERENT_ATTRIBUTES))
  | ATTRIBUTE_IGNORE_TEXT_AND_DESC =>
      XmlUtil.get_xml_hash
        (XmlUtil.remove_attr_on_every_element xml_tree
           (Const.TEXT_ATTRIBUTES ++ Const.MUST_DIFFERENT_ATTRIBUTES))
  | LAYOUT_IGNORE_ATTRIBUTE =>
      XmlUtil.get_xml_hash
        (XmlUtil.remove_attr_on_every_element xml_tree Const.ALL_ATTRIBUTES)
  | ACTIVITY_IGNORE_LAYOUT => Activity.activity_name a
  | PACKAGE => Activity.package_name a
  end.

Lemma calc_hash_with_activity (xml_tree : XmlElement) (l : StatusLevel)
    (a : Activity.t) :
  calc_hash xml_tree l (Some a) = Ok (level_str l +:+ hash_body xml_tree l a).
Proof. destruct l; reflexivity. Qed.

Lemma calc_hash_without_activity (xml_tree : XmlElement) (l : StatusLevel)
    (a : Activity.t) :
  needs_activity l = false ->
  calc_hash xml_tree l None = calc_hash xml_tree l (Some a).
Proof. destruct l; simpl; intros Hl; try discriminate; reflexivity. Qed.

(** C6.  For two distinct levels, one tree and one Activity (present
    whenever one of the levels reads it), [calc_hash] returns at both levels
    and the two hashes differ, whatever the serialiser and the digest
    produce: each is prefixed with the digit of its level. *)
Theorem calc_hash_levels_never_collide (xml_tree : XmlElement)
    (l1 l2 : StatusLevel) (activity : option Activity.t) :
  l1 ≠ l2 ->
  (needs_activity l1 || needs_activity l2 = true -> is_Some activity) ->
  exists h1 h2,
    calc_hash xml_tree l1 activity = Ok h1
    /\ calc_hash xml_tree l2 activity = Ok h2
    /\ h1 ≠ h2.
Proof.
  intros Hne Hact.
  destruct activity as [a|].
  - exists (level_str l1 +:+ hash_body xml_tree l1 a),
           (level_str l2 +:+ hash_body xml_tree l2 a).
    rewrite !calc_hash_with_activity. repeat split.
    now apply level_prefix_differs.
  - assert (Hn : needs_activity l1 || needs_activity l2 = false).
    { destruct (needs_activity l1 || needs_activity l2); [|reflexivity].
      destruct (Hact eq_refl) as [? Hs]. discriminate. }
    apply orb_false_iff in Hn as [Hn1 Hn2].
    pose (a := Activity.Mk EmptyString EmptyString [] TEXT None false).
    rewrite (calc_hash_without_activity _ _ a Hn1),
            (calc_hash_without_activity _ _ a Hn2).
    exists (level_str l1 +:+ hash_body xml_tree l1 a),
           (level_str l2 +:+ hash_body xml_tree l2 a).
    rewrite !calc_hash_with_activity. repeat split.
    now apply level_prefix_differs.
Qed.

End WithHost.

End HashProps.

(** C6 at the sample screen, under a host whose serialiser gives both levels
    the same text: the bodies coincide and the hashes differ. *)
Lemma calc_hash_levels_never_collide_witness :
  Memory.TEXT ≠ Memory.LAYOUT_IGNORE_ATTRIBUTE
  /\ @HashProps.hash_body Sample.host Sample.label_then_button Memory.TEXT
       Sample.activity0
     = @HashProps.hash_body Sample.host Sample.label_then_button
         Memory.LAYOUT_IGNORE_ATTRIBUTE Sample.activity0
  /\ exists h1 h2,
       @Memory.calc_hash Sample.host Sample.label_then_button Memory.TEXT None
       = Ok h1
       /\ @Memory.calc_hash Sample.host Sample.label_then_button
            Memory.LAYOUT_IGNORE_ATTRIBUTE None = Ok h2
       /\ h1 ≠ h2.
Proof.
  split; [discriminate|]. split; [vm_compute; reflexivity|].
  apply (@HashProps.calc_hash_levels_never_collide Sample.host
           Sample.label_then_button Memory.TEXT Memory.LAYOUT_IGNORE_ATTRIBUTE
           None).
  - discriminate.
  - simpl. discriminate.
Defined.

Module DedupProps.

Import Xml Memory.

(** The loop of [_init_element_weights] returns exactly when every
    reference holds an [xpath]. *)
Lemma init_loop_ok (t : XmlElement) (l : list (Path * nat)) (s0 : Status.t) :
  Status.xml_tree s0 = t ->
  (forall ed, ed ∈ l -> is_Some (WeightProps.xpath_of t ed)) ->
  exists s,
    for_each
      (fun (ed : Path * nat) (s : Status.t) =>
         xpath ← attrib_at (element s (fst ed)) "xpath";
         Ok (update_element_weight xpath Weight.DEFAULT s)) l s0 = Ok s.
Proof.
  revert s0. induction l as [|ed l IH]; intros s0 Ht Hl.
  - exists s0. reflexivity.
  - destruct (Hl ed) as [x Hx]; [apply elem_of_cons; now left|].
    destruct (IH (update_element_weight x Weight.DEFAULT s0)) as [s Hs].
    + exact Ht.
    + intros ed' Hed'. apply Hl. apply elem_of_cons. now right.
    + exists s. simpl. unfold attrib_at, element. rewrite Ht.
      unfold WeightProps.xpath_of in Hx. rewrite Hx. simpl. exact Hs.
Qed.

Lemma xpath_loop_ok (t : XmlElement) (l : list (Path * nat))
    (m0 : gmap string Path) :
  (forall ed, ed ∈ l -> is_Some (WeightProps.xpath_of t ed)) ->
  exists m,
    for_each
      (fun (ed : Path * nat) (m : gmap string Path) =>
         xpath ← attrib_at (default no_attrs (get_attrs t (fst ed))) "xpath";
         Ok (<[xpath := fst ed]> m)) l m0 = Ok m.
Proof.
  revert m0. induction l as [|ed l IH]; intros m0 Hl.
  - exists m0. reflexivity.
  - destruct (Hl ed) as [x Hx]; [apply elem_of_cons; now left|].
    destruct (IH (<[x := fst ed]> m0)) as [m Hm].
    + intros ed' Hed'. apply Hl. apply elem_of_cons. now right.
    + exists m. simpl. unfold attrib_at.
      unfold WeightProps.xpath_of in Hx. rewrite Hx. simpl. exact Hm.
Qed.

Section WithHost.
Context `{Host}.

(** Every key element that the constructor lists carries an [xpath]. *)
Definition keys_have_xpath (xml_tree : XmlElement) : Prop :=
  forall ed, ed ∈ get_elements_disable_weight (init_element_tree xml_tree) ->
             is_Some (WeightProps.xpath_of (init_element_tree xml_tree) ed).

(** [Status.__init__] returns exactly on such trees, whatever the Activity,
    the step count and the level. *)
Lemma Status_init_returns (activity : Activity.t) (xml : string)
    (xml_tree : XmlElement) (step_count : Z) (status_level : StatusLevel)
    (from_status : option nat) :
  keys_have_xpath xml_tree ->
  exists s,
    Status__init__ activity xml xml_tree step_count status_level from_status
    = Ok s.
Proof.
  intros Hkeys. unfold Status__init__.
  rewrite HashProps.calc_hash_with_activity. simpl.
  destruct (xpath_loop_ok (init_element_tree xml_tree)
              (get_elements_disable_weight (init_element_tree xml_tree)) ∅ Hkeys)
    as [m Hm].
  rewrite Hm. simpl. unfold _init_element_weights.
  match goal with
  | |- context [for_each ?body ?l ?s0] =>
      destruct (init_loop_ok (init_element_tree xml_tree) l s0 eq_refl Hkeys)
        as [s1 Hs1]
  end.
  simpl in Hs1 |- *. rewrite Hs1. simpl. eexists. reflexivity.
Qed.

Lemma Status_init_keys (activity : Activity.t) (xml : string)
    (xml_tree : XmlElement) (step_count : Z) (status_level : StatusLevel)
    (from_status : option nat) (s : Status.t) :
  Status__init__ activity xml xml_tree step_count status_level from_status = Ok s ->
  keys_have_xpath xml_tree.
Proof.
  intros Hinit ed Hed. unfold Status__init__ in Hinit.
  apply WeightProps.bind_Ok in Hinit as (hash & _ & Hinit).
  apply WeightProps.bind_Ok in Hinit as (x2e & _ & Hinit).
  apply WeightProps.bind_Ok in Hinit as (s1 & Hw & _).
  unfold _init_element_weights in Hw.
  apply WeightProps.bind_Ok in Hw as (s2 & Hloop & _).
  apply WeightProps.init_loop_spec in Hloop as (_ & _ & _ & Hin & _).
  - simpl in Hin. destruct (Hin ed Hed) as (x & Hx & _). eauto.
  - intros p w Hp. simpl in Hp. rewrite lookup_empty in Hp. discriminate.
Qed.

End WithHost.

(** The first element of a list that [g] accepts is [n] when [g] accepts
    [n], rejects every other element, and [n] is in the list. *)
Lemma find_the_only (g : nat -> bool) (l : list nat) (n : nat) :
  (forall x, x ∈ l -> x ≠ n -> g x = false) ->
  g n = true -> n ∈ l -> List.find g l = Some n.
Proof.
  induction l as [|x l IH]; intros Hrej Hacc Hin.
  - inversion Hin.
  - simpl. destruct (decide (x = n)) as [->|Hne].
    + now rewrite Hacc.
    + rewrite (Hrej x); [|apply elem_of_cons; now left|exact Hne].
      apply IH; [|exact Hacc|].
      * intros y Hy. apply Hrej. apply elem_of_cons. now right.
      * apply elem_of_cons in Hin as [Heq|Hin]; [congruence|exact Hin].
Qed.

Lemma find_none_rejects (g : nat -> bool) (l : list nat) (x : nat) :
  List.find g l = None -> x ∈ l -> g x = false.
Proof.
  intros Hnone Hin. apply list_elem_of_In in Hin.
  exact (List.find_none g l Hnone x Hin).
Qed.

Lemma find_some_elem (g : nat -> bool) (l : list nat) (x : nat) :
  List.find g l = Some x -> x ∈ l /\ g x = true.
Proof.
  intros Hsome. apply List.find_some in Hsome as [Hin Hg].
  split; [now apply list_elem_of_In|exact Hg].
Qed.

Section Twice.
Context `{Host}.

Lemma Status_init_same_hash (a a' : Activity.t) (xml : string)
    (xml_tree : XmlElement) (step step' : Z) (from from' : option nat)
    (s s' : Status.t) :
  Activity.activity_name a' = Activity.activity_name a ->
  Activity.package_name a' = Activity.package_name a ->
  Status__init__ a xml xml_tree step (Activity.status_level a) from = Ok s ->
  Status__init__ a' xml xml_tree step' (Activity.status_level a) from' = Ok s' ->
  Status.hash s' = Status.hash s.
Proof.
  intros Hname Hpack Hs Hs'.
  apply WeightProps.Status_init_hash in Hs, Hs'.
  rewrite HashProps.calc_hash_with_activity in Hs, Hs'.
  injection Hs as Hs. injection Hs' as Hs'. rewrite <- Hs, <- Hs'. f_equal.
  destruct (Activity.status_level a); simpl; congruence.
Qed.

(** The scan of [_get_status] in an Activity that holds the Status [n],
    whose hash is the one looked for, where no other Status has it. *)
Lemma scan_finds (h : Heap) (hash : string) (ids : list nat) (n : nat)
    (s : Status.t) :
  objects h !! n = Some s -> Status.hash s = hash -> n ∈ ids ->
  (forall x st, x ∈ ids -> x ≠ n -> objects h !! x = Some st ->
                Status.hash st ≠ hash) ->
  status_with_hash h hash ids = Some n.
Proof.
  intros Hn Hh Hin Hothers. unfold status_with_hash.
  apply find_the_only; [|now rewrite Hn, Hh; apply bool_decide_eq_true|exact Hin].
  intros x Hx Hne. destruct (objects h !! x) as [st|] eqn:Ex; [|reflexivity].
  apply bool_decide_eq_false. now apply (Hothers x st).
Qed.

(** Two calls of [add_status] in succession with one tree whose key
    elements have paths. *)
Lemma add_status_twice_on_keys (a : Activity.t) (h : Heap)
    (xml : string) (xml_tree : XmlElement) (step1 step2 : Z) :
  keys_have_xpath xml_tree ->
  exists a1 h1 status,
    add_status a h xml xml_tree step1 = Ok (a1, h1, status)
    /\ add_status a1 h1 xml xml_tree step2
       = Ok (a1, MkHeap (objects h1) (S (next_oid h1)), status)
    /\ status ∈ Activity.statuses a1.
Proof.
  intros Hkeys.
  destruct (Status_init_returns a xml xml_tree step1 (Activity.status_level a)
              None Hkeys) as [c1 Hc1].
  unfold add_status at 1. unfold _get_status. rewrite Hc1. simpl.
  destruct (status_with_hash h (Status.hash c1) (Activity.statuses a))
    as [old|] eqn:Escan; simpl.
  - (* a Status of the Activity has the hash *)
    pose proof Escan as Hfound. unfold status_with_hash in Hfound.
    apply find_some_elem in Hfound as [Hin _].
    rewrite bool_decide_eq_true_2 by exact Hin.
    eexists _, _, _. split; [reflexivity|]. split; [|exact Hin].
    destruct (Status_init_returns a xml xml_tree step2 (Activity.status_level a)
                None Hkeys) as [c2 Hc2].
    unfold add_status, _get_status. rewrite Hc2. simpl.
    rewrite (Status_init_same_hash a a xml xml_tree step1 step2 None None c1 c2
               eq_refl eq_refl Hc1 Hc2).
    unfold status_with_hash in *. simpl. rewrite Escan. simpl.
    now rewrite bool_decide_eq_true_2 by exact Hin.
  - (* the candidate is new *)
    set (n := next_oid h).
    destruct (bool_decide (n ∈ Activity.statuses a)) eqn:Ein.
    + (* a reference to no object had the identity of the candidate *)
      apply bool_decide_eq_true in Ein.
      eexists _, _, _. split; [reflexivity|]. split; [|exact Ein].
      destruct (Status_init_returns a xml xml_tree step2 (Activity.status_level a)
                  None Hkeys) as [c2 Hc2].
      unfold add_status, _get_status. rewrite Hc2. simpl.
      rewrite (Status_init_same_hash a a xml xml_tree step1 step2 None None c1 c2
                 eq_refl eq_refl Hc1 Hc2).
      rewrite (scan_finds _ (Status.hash c1) (Activity.statuses a) n c1).
      * simpl. now rewrite bool_decide_eq_true_2 by exact Ein.
      * simpl. apply lookup_insert_eq.
      * reflexivity.
      * exact Ein.
      * intros x st Hx Hne Hst. simpl in Hst.
        rewrite lookup_insert_ne in Hst by congruence.
        pose proof (find_none_rejects _ _ x Escan Hx) as Hrej. simpl in Hrej.
        rewrite Hst in Hrej. now apply bool_decide_eq_false in Hrej.
    + apply bool_decide_eq_false in Ein.
      eexists _, _, _. split; [reflexivity|].
      split; [|apply elem_of_app; right; apply list_elem_of_singleton; reflexivity].
      match goal with
      | |- add_status ?a1 _ _ _ _ = _ =>
          destruct (Status_init_returns a1 xml xml_tree step2
                      (Activity.status_level a) None Hkeys) as [c2 Hc2];
          pose proof (Status_init_same_hash a a1 xml xml_tree step1 step2
                        None None c1 c2 eq_refl eq_refl Hc1 Hc2) as Hhash
      end.
      unfold add_status, _get_status. simpl. rewrite Hc2. simpl.
      rewrite Hhash.
      rewrite (scan_finds _ (Status.hash c1) (Activity.statuses a ++ [n]) n
                 (Status.with_from_status (_last_status a) c1)).
      * simpl. rewrite bool_decide_eq_true_2; [reflexivity|].
        apply elem_of_app; right; apply list_elem_of_singleton; reflexivity.
      * simpl. rewrite lookup_alter_eq, lookup_insert_eq. reflexivity.
      * reflexivity.
      * apply elem_of_app; right; apply list_elem_of_singleton; reflexivity.
      * intros x st Hx Hne Hst. simpl in Hst.
        rewrite lookup_alter_ne, lookup_insert_ne in Hst by congruence.
        apply elem_of_app in Hx as [Hx|Hx];
          [|apply list_elem_of_singleton in Hx; congruence].
        pose proof (find_none_rejects _ _ x Escan Hx) as Hrej. simpl in Hrej.
        rewrite Hst in Hrej. now apply bool_decide_eq_false in Hrej.
Qed.

End Twice.

End DedupProps.

(* ===================================================================== *)
(** ** Properties of the normaliser *)
(* ===================================================================== *)

Module NormaliserProps.

Import Xml XmlUtil.

(** *** References into a tree *)

Lemma get_attrs_on_attrs (f : Attrs -> Attrs) (t : XmlElement) (q : Path) :
  get_attrs (on_attrs f t) q
  = match q with
    | [] => Some (f (attrs t))
    | _ => get_attrs t q
    end.
Proof. destruct t as [a cs]. destruct q; reflexivity. Qed.

(** Rewriting the attributes of the element at [p] is seen at [p] and
    nowhere else. *)
Lemma get_attrs_update_attrs (f : Attrs -> Attrs) (p q : Path) (t : XmlElement) :
  get_attrs (update_attrs f p t) q
  = if decide (p = q) then f <$> get_attrs t q else get_attrs t q.
Proof.
  revert q t. induction p as [|i p IH]; intros q t.
  - unfold update_attrs. simpl. rewrite get_attrs_on_attrs.
    destruct q as [|j q].
    + rewrite decide_True by reflexivity. now destruct t.
    + rewrite decide_False by discriminate. reflexivity.
  - destruct t as [a cs]. unfold update_attrs in *. simpl.
    destruct (cs !! i) as [c|] eqn:Ec.
    + destruct q as [|j q].
      * rewrite decide_False by discriminate. reflexivity.
      * unfold get_attrs. simpl.
        destruct (decide (i = j)) as [->|Hij].
        -- rewrite list_lookup_insert_eq by (eapply lookup_lt_Some; eauto).
           rewrite Ec. specialize (IH q c). unfold get_attrs in IH. rewrite IH.
           clear IH. repeat case_decide; try reflexivity; congruence.
        -- rewrite list_lookup_insert_ne by assumption.
           case_decide; [congruence|reflexivity].
    + case_decide as Hpq; [|reflexivity].
      subst q. unfold get_attrs. simpl. now rewrite Ec.
Qed.

(** *** The last stage: [remove_duplicate_near_texts] *)

Lemma filter_near_texts_twice (all_texts : list string) (a : Attrs) :
  filter_near_texts all_texts (filter_near_texts all_texts a)
  = filter_near_texts all_texts a.
Proof.
  unfold filter_near_texts, set_near_texts, near_texts_of. simpl. f_equal. f_equal.
  induction (default [] (near_texts a)) as [|x l IH]; [reflexivity|].
  simpl. destruct (not_in all_texts x) eqn:E; simpl; [rewrite E|]; now rewrite IH.
Qed.

Lemma filter_loop_at (all_texts : list string) (elements : list Path)
    (t : XmlElement) (q : Path) :
  get_attrs
    (fold_left (fun t p => update_attrs (filter_near_texts all_texts) p t)
               elements t) q
  = if bool_decide (q ∈ elements)
    then filter_near_texts all_texts <$> get_attrs t q
    else get_attrs t q.
Proof.
  revert t. induction elements as [|p elements IH]; intros t; simpl.
  - reflexivity.
  - rewrite IH, get_attrs_update_attrs.
    destruct (decide (p = q)) as [->|Hne].
    + rewrite (bool_decide_eq_true_2 (q ∈ q :: elements))
        by (apply elem_of_cons; now left).
      destruct (bool_decide (q ∈ elements)); [|reflexivity].
      destruct (get_attrs t q); simpl; [|reflexivity].
      now rewrite filter_near_texts_twice.
    + destruct (bool_decide (q ∈ elements)) eqn:E.
      * apply bool_decide_eq_true in E.
        now rewrite bool_decide_eq_true_2 by (apply elem_of_cons; now right).
      * apply bool_decide_eq_false in E.
        rewrite bool_decide_eq_false_2; [reflexivity|].
        intros Hin. apply elem_of_cons in Hin as [Heq|Hin]; [congruence|auto].
Qed.

Lemma filter_out_all (all_texts l : list string) :
  (forall x, x ∈ l -> x ∈ all_texts) ->
  List.filter (not_in all_texts) l = [].
Proof.
  induction l as [|x l IH]; intros Hsub; [reflexivity|].
  simpl. unfold not_in at 1, Util.str_in.
  rewrite bool_decide_eq_true_2 by (apply Hsub, elem_of_cons; now left).
  simpl. apply IH. intros y Hy. apply Hsub, elem_of_cons. now right.
Qed.

(** Every element handed to [remove_duplicate_near_texts] ends with no near
    text at all: the list that each element is filtered by holds the
    element's own near texts. *)
Lemma remove_duplicate_near_texts_empties (t : XmlElement)
    (elements : list Path) (q : Path) (a : Attrs) :
  q ∈ elements -> get_attrs t q = Some a ->
  near_texts <$> get_attrs (remove_duplicate_near_texts t elements) q
  = Some (Some []).
Proof.
  intros Hin Hq. unfold remove_duplicate_near_texts.
  rewrite filter_loop_at, bool_decide_eq_true_2 by exact Hin.
  rewrite Hq. simpl. f_equal. f_equal.
  apply filter_out_all. intros x Hx.
  unfold all_direct_near_texts. apply list_elem_of_In, in_flat_map.
  exists q. split; [now apply list_elem_of_In|].
  rewrite Hq. now apply list_elem_of_In.
Qed.

(** *** Key-node detection: [_indent_xml] *)

Section Indent.
Context `{Host}.

(** The loop of [_indent_xml] over the children of an element, from the
    child at position [i] on. *)
Definition indent_children (root : XmlElement) (path : Path) (depth : nat)
  : nat -> list XmlElement -> list XmlElement * nat * list Path :=
  fix go (i : nat) (l : list XmlElement) {struct l} :=
    match l with
    | [] => ([], 0%nat, [])
    | c :: r =>
        let '(c', k, f) := _indent_xml root (path ++ [i]) r (S depth) c in
        let '(r', k', f') := go (S i) r in
        (c' :: r', (k + k')%nat, f ++ f')
    end.

Lemma indent_children_cons (root : XmlElement) (path : Path) (depth : nat)
    (i : nat) (c : XmlElement) (r : list XmlElement) :
  indent_children root path depth i (c :: r)
  = let '(c', k, f) := _indent_xml root (path ++ [i]) r (S depth) c in
    let '(r', k', f') := indent_children root path depth (S i) r in
    (c' :: r', (k + k')%nat, f ++ f').
Proof. reflexivity. Qed.

Lemma indent_xml_children (root : XmlElement) (path : Path)
    (following : list XmlElement) (depth : nat) (a : Attrs)
    (cs : list XmlElement) :
  children (_indent_xml root path following depth (Node a cs)).1.1
  = (indent_children root path depth 0 cs).1.1.
Proof.
  simpl. fold (indent_children root path depth).
  destruct (indent_children root path depth 0 cs) as [[cs' k] f].
  reflexivity.
Qed.

(** The near texts that [_indent_xml] writes on an element are read from
    the siblings it is given, the following ones, and from nothing else. *)
Lemma indent_xml_near_texts (root : XmlElement) (path : Path)
    (following : list XmlElement) (depth : nat) (t : XmlElement) :
  near_texts (attrs (_indent_xml root path following depth t).1.1)
  = Some (Util.make_list_unique_and_printable
            (flat_map (fun node => own_texts (attrs node)) following)).
Proof.
  destruct t as [a cs]. simpl. fold (indent_children root path depth).
  destruct (indent_children root path depth 0 cs) as [[cs' k] f].
  simpl. now destruct (detection_function_actionable _).
Qed.

Lemma indent_children_lookup (root : XmlElement) (path : Path) (depth : nat)
    (l : list XmlElement) (k i : nat) (c : XmlElement) :
  l !! i = Some c ->
  (indent_children root path depth k l).1.1 !! i
  = Some (_indent_xml root (path ++ [(k + i)%nat]) (drop (S i) l) (S depth) c).1.1.
Proof.
  revert k i. induction l as [|x l IH]; intros k i Hi; [discriminate|].
  rewrite indent_children_cons.
  destruct (_indent_xml root (path ++ [k]) l (S depth) x) as [[x' kx] fx] eqn:Ex.
  destruct (indent_children root path depth (S k) l) as [[l' kl] fl] eqn:El.
  destruct i as [|i]; simpl in *.
  - injection Hi as ->. rewrite Nat.add_0_r. unfold drop. rewrite Ex. reflexivity.
  - specialize (IH (S k) i Hi). rewrite El in IH. simpl in IH. rewrite IH.
    now replace (k + S i)%nat with (S (k + i)) by lia.
Qed.

(** The near texts of the child at position [i] after [_indent_xml]: the
    texts of the children after it, as they were before the visit; the
    children before it do not count. *)
Lemma indent_xml_child_near_texts (root : XmlElement) (path : Path)
    (following : list XmlElement) (depth : nat) (a : Attrs)
    (cs : list XmlElement) (i : nat) (c : XmlElement) :
  cs !! i = Some c ->
  exists c',
    children (_indent_xml root path following depth (Node a cs)).1.1 !! i = Some c'
    /\ near_texts (attrs c')
       = Some (Util.make_list_unique_and_printable
                 (flat_map (fun node => own_texts (attrs node)) (drop (S i) cs))).
Proof.
  intros Hi. rewrite indent_xml_children.
  rewrite (indent_children_lookup root path depth cs 0 i c Hi).
  eexists. split; [reflexivity|]. apply indent_xml_near_texts.
Qed.

End Indent.

End NormaliserProps.

(** C3, at a screen with one button followed by one label.  Key-node
    detection finds the button alone and gives it the near text [Hello],
    which is a near text of exactly one key node; after
    [remove_duplicate_near_texts], and so after the whole of
    [init_element_tree], the button has no near text. *)
Theorem single_near_text_is_removed :
  let '(t, found) :=
    @XmlUtil.indent_xml Sample.host
      (XmlUtil.pass_container_text_down
         (XmlUtil.pass_down_actionable Sample.button_then_label)) in
  found = [[0%nat]]
  /\ Xml.near_texts <$> Xml.get_attrs t [0%nat] = Some (Some ["Hello"])
  /\ Xml.near_texts
       <$> Xml.get_attrs (XmlUtil.remove_duplicate_near_texts t found) [0%nat]
     = Some (Some [])
  /\ Xml.near_texts
       <$> Xml.get_attrs
             (@Memory.init_element_tree Sample.host Sample.button_then_label)
             [0%nat]
     = Some (Some []).
Proof. vm_compute. repeat split; reflexivity. Qed.

(** C8, at a screen with a label followed by a button, and at the screen
    with the two in the other order.  The label's text is contentful.  With
    the label AFTER the button, the button's near texts are the label's
    text; with the label BEFORE the button, the button's near texts are
    empty. *)
Theorem preceding_sibling_text_is_not_near_text :
  Util.is_str_contentful (Xml.get (Xml.attrs (Sample.leaf "android.widget.TextView"
        [("class", "android.widget.TextView"); ("text", "Hello");
         ("displayed", "true")])) "text") = true
  /\ Xml.near_texts
       <$> Xml.get_attrs (@XmlUtil.indent_xml Sample.host Sample.button_then_label).1
             [0%nat]
     = Some (Some ["Hello"])
  /\ Xml.near_texts
       <$> Xml.get_attrs (@XmlUtil.indent_xml Sample.host Sample.label_then_button).1
             [1%nat]
     = Some (Some []).
Proof. vm_compute. repeat split; reflexivity. Qed.

(* ===================================================================== *)
(** ** Properties of [on_element_action] *)
(* ===================================================================== *)

Module ActionProps.

Import Xml Memory.

(** The global action weights and the persistent invalid actions of a
    manager. *)
Definition global_weights (m : ActivityManager.t) : gmap string Z :=
  ActivityManager.action_weights m.

Definition invalid (m : ActivityManager.t) : list string :=
  PersistKnowledge.invalid_actions (ActivityManager.persist_knowledge m).

(** From [m] to [m'] no ban was lifted and no invalid action forgotten. *)
Definition grows (m m' : ActivityManager.t) : Prop :=
  (forall k, global_weights m !! k = Some Weight.DISABLED_FOREVER ->
             global_weights m' !! k = Some Weight.DISABLED_FOREVER)
  /\ (forall k, k ∈ invalid m -> k ∈ invalid m').

Lemma grows_refl (m : ActivityManager.t) : grows m m.
Proof. split; auto. Qed.

Lemma grows_trans (m1 m2 m3 : ActivityManager.t) :
  grows m1 m2 -> grows m2 m3 -> grows m1 m3.
Proof. intros [H1 H2] [H3 H4]. split; auto. Qed.

Section WithHost.
Context `{Host}.

Lemma set_action_weight_same (k : string) (w : Z) (m : ActivityManager.t) :
  global_weights (_set_action_weight k w m) !! k
  = Some (new_weight_for
            (Some (default Weight.DEFAULT (global_weights m !! k))) w).
Proof. unfold _set_action_weight, global_weights. simpl. apply lookup_insert_eq. Qed.

Lemma set_action_weight_other (k k' : string) (w : Z) (m : ActivityManager.t) :
  k ≠ k' ->
  global_weights (_set_action_weight k w m) !! k' = global_weights m !! k'.
Proof.
  intros Hne. unfold _set_action_weight, global_weights. simpl.
  now apply lookup_insert_ne.
Qed.

Lemma set_action_weight_invalid (k : string) (w : Z) (m : ActivityManager.t) :
  invalid (_set_action_weight k w m) = invalid m.
Proof. reflexivity. Qed.

Lemma set_action_weight_grows (k : string) (w : Z) (m : ActivityManager.t) :
  grows m (_set_action_weight k w m).
Proof.
  split; [|auto]. intros k' Hk'. destruct (decide (k = k')) as [->|Hne].
  - rewrite set_action_weight_same, Hk'. simpl.
    now rewrite WeightProps.new_weight_for_sticky.
  - now rewrite set_action_weight_other.
Qed.

Lemma get_action_key_ok (el : Attrs) (command xpath : string) :
  get el "xpath" = Some xpath ->
  exists key, get_action_key el command = Ok key.
Proof.
  intros Hx. unfold get_action_key, attrib_at. rewrite Hx. simpl. eauto.
Qed.

Lemma update_action_weight_spec (el : Attrs) (command key : string) (w : Z)
    (m : ActivityManager.t) :
  get_action_key el command = Ok key ->
  update_action_weight el command w m = Ok (_set_action_weight key w m).
Proof. intros Hk. unfold update_action_weight. now rewrite Hk. Qed.

Lemma add_action_weight_spec (el : Attrs) (command key : string) (w : Z)
    (m : ActivityManager.t) :
  get_action_key el command = Ok key ->
  exists m',
    add_action_weight el command w m = Ok m'
    /\ grows m m' /\ invalid m' = invalid m.
Proof.
  intros Hk. unfold add_action_weight. rewrite Hk. simpl.
  rewrite (update_action_weight_spec _ _ key) by exact Hk.
  eexists. split; [reflexivity|]. split; [|reflexivity].
  eapply grows_trans; [|apply set_action_weight_grows].
  split; [|auto]. intros k Hdf. unfold global_weights in *. simpl.
  destruct (decide (key = k)) as [->|Hne].
  - rewrite lookup_insert_eq, Hdf. reflexivity.
  - now rewrite lookup_insert_ne.
Qed.

Lemma on_action_non_action_spec (el : Attrs) (command key : string)
    (m : ActivityManager.t) :
  get_action_key el command = Ok key ->
  exists m',
    on_action_non_action el command m = Ok m'
    /\ grows m m' /\ invalid m' = invalid m.
Proof.
  intros Hk. unfold on_action_non_action. rewrite Hk. simpl.
  destruct (ActivityManager.action_weights m !! key).
  - now apply (add_action_weight_spec _ _ key).
  - exists m. split; [reflexivity|]. split; [apply grows_refl|reflexivity].
Qed.

Lemma elem_of_add_invalid_action (k key : string) (p : PersistKnowledge.t) :
  k ∈ PersistKnowledge.invalid_actions (add_invalid_action key p)
  <-> k ∈ PersistKnowledge.invalid_actions p \/ k = key.
Proof.
  unfold add_invalid_action, Util.str_in. case_bool_decide as Hin; simpl.
  - split; [now left|]. intros [Hk|Hk]; [assumption|now subst k].
  - rewrite elem_of_app, list_elem_of_singleton. reflexivity.
Qed.

(** A ban sets the weight of the action key to DISABLED_FOREVER and records
    the key as invalid. *)
Lemma global_ban_command_spec (el : Attrs) (command key : string)
    (m : ActivityManager.t) :
  get_action_key el command = Ok key ->
  exists m',
    global_ban_action el (Some command) m = Ok m'
    /\ grows m m'
    /\ global_weights m' !! key = Some Weight.DISABLED_FOREVER
    /\ (forall k, k ∈ invalid m' <-> k ∈ invalid m \/ k = key).
Proof.
  intros Hk. unfold global_ban_action, global_ban_command. rewrite Hk. simpl.
  rewrite (update_action_weight_spec _ _ key) by exact Hk.
  eexists. split; [reflexivity|]. repeat split.
  - intros k Hdf.
    match goal with
    | |- global_weights (_set_action_weight _ _ ?m1) !! _ = _ =>
        apply (set_action_weight_grows key Weight.DISABLED_FOREVER m1)
    end.
    exact Hdf.
  - intros k Hin. rewrite set_action_weight_invalid. unfold invalid. simpl.
    apply elem_of_add_invalid_action. now left.
  - rewrite set_action_weight_same. reflexivity.
  - rewrite set_action_weight_invalid. unfold invalid. simpl.
    apply elem_of_add_invalid_action.
  - rewrite set_action_weight_invalid. unfold invalid. simpl.
    apply elem_of_add_invalid_action.
Qed.

(** *** The weight table during the group update *)

(** Every weight is the ban or lies in the range. *)
Definition sane (W : gmap string Z) : Prop :=
  forall x w, W !! x = Some w ->
              w = Weight.DISABLED_FOREVER \/ Weight.MIN <= w <= Weight.MAX.

(** Two tables with the same keys and the same bans. *)
Definition same_bans (W W' : gmap string Z) : Prop :=
  (forall x, is_Some (W !! x) <-> is_Some (W' !! x))
  /\ (forall x, W !! x = Some Weight.DISABLED_FOREVER
                <-> W' !! x = Some Weight.DISABLED_FOREVER).

Lemma same_bans_refl (W : gmap string Z) : same_bans W W.
Proof. split; intros x; reflexivity. Qed.

Lemma same_bans_trans (W1 W2 W3 : gmap string Z) :
  same_bans W1 W2 -> same_bans W2 W3 -> same_bans W1 W3.
Proof.
  intros [H1 H2] [H3 H4]. split; intros x.
  - now rewrite H1, H3.
  - now rewrite H2, H4.
Qed.

Abbreviation el_at t ed := (default no_attrs (get_attrs t (fst ed))) (only parsing).

(** The element has a path, the path has a weight, and unless it is banned
    the element has a prompt. *)
Definition keyed (t : XmlElement) (W : gmap string Z) (ed : Path * nat) : Prop :=
  exists x w,
    get (el_at t ed) "xpath" = Some x
    /\ W !! x = Some w
    /\ (w ≠ Weight.DISABLED_FOREVER -> is_Some (get (el_at t ed) "prompt")).

Lemma keyed_same_bans (t : XmlElement) (W W' : gmap string Z) (ed : Path * nat) :
  same_bans W W' -> keyed t W ed -> keyed t W' ed.
Proof.
  intros [Hdom Hban] (x & w & Hx & Hw & Hp).
  destruct (proj1 (Hdom x) (ex_intro _ w Hw)) as [w' Hw'].
  exists x, w'. repeat split; try assumption.
  intros Hne. apply Hp. intros ->. apply Hne.
  apply Hban in Hw. congruence.
Qed.

(** An addition of at most 100 either way to an entry of a sane table. *)
Lemma add_element_weight_sane (s : Status.t) (x : string) (w d : Z) :
  sane (Status.element_weights s) ->
  Status.element_weights s !! x = Some w ->
  -100 <= d <= 100 ->
  exists s',
    add_element_weight x d s = Ok s'
    /\ s' = update_element_weight x (w + d) s
    /\ Status.xml_tree s' = Status.xml_tree s
    /\ Status._all_elements s' = Status._all_elements s
    /\ sane (Status.element_weights s')
    /\ same_bans (Status.element_weights s) (Status.element_weights s').
Proof.
  intros Hsane Hw Hd.
  exists (update_element_weight x (w + d) s).
  split; [now apply WeightProps.add_element_weight_ok|].
  split; [reflexivity|]. split; [reflexivity|]. split; [reflexivity|].
  assert (Hnew : new_weight_for (Some w) (w + d) = Weight.DISABLED_FOREVER
                 <-> w = Weight.DISABLED_FOREVER).
  { split.
    - intros Hn. destruct (Hsane x w Hw) as [Hdf|Hr]; [exact Hdf|].
      rewrite WeightProps.new_weight_for_clamp in Hn.
      + now apply WeightProps.clamp_not_ban in Hn.
      + unfold Weight.MIN, Weight.MAX, Weight.DISABLED_FOREVER in *. lia.
      + intros c Hc. injection Hc as <-.
        unfold Weight.MIN, Weight.MAX, Weight.DISABLED_FOREVER in *. lia.
    - intros ->. apply WeightProps.new_weight_for_sticky. }
  split.
  - intros y v. destruct (decide (x = y)) as [->|Hne].
    + rewrite WeightProps.update_lookup_same, Hw. intros Hv. injection Hv as <-.
      destruct (Hsane y w Hw) as [Hdf|Hr].
      * left. now apply Hnew.
      * right. rewrite WeightProps.new_weight_for_clamp.
        -- apply WeightProps.clamp_range.
        -- unfold Weight.MIN, Weight.MAX, Weight.DISABLED_FOREVER in *. lia.
        -- intros c Hc. injection Hc as <-.
           unfold Weight.MIN, Weight.MAX, Weight.DISABLED_FOREVER in *. lia.
    + rewrite WeightProps.update_lookup_other by assumption. apply Hsane.
  - split; intros y; destruct (decide (x = y)) as [->|Hne].
    + rewrite WeightProps.update_lookup_same, Hw. split; eauto.
    + now rewrite WeightProps.update_lookup_other.
    + rewrite WeightProps.update_lookup_same, Hw.
      split; intros Hv; injection Hv as Hv; f_equal; now apply Hnew.
    + now rewrite WeightProps.update_lookup_other.
Qed.

(** *** The group update *)

(** The key element [ed] is one that a useless action bans: it is not
    banned in the table [W], its prompt is [prompt], and its action key for
    [command] is [key]. *)
Definition banned_by (t : XmlElement) (W : gmap string Z)
    (prompt command : string) (ed : Path * nat) (key : string) : Prop :=
  exists x w,
    get (el_at t ed) "xpath" = Some x
    /\ W !! x = Some w /\ w ≠ Weight.DISABLED_FOREVER
    /\ get (el_at t ed) "prompt" = Some prompt
    /\ get_action_key (el_at t ed) command = Ok key.

Lemma banned_by_same_bans (t : XmlElement) (W W' : gmap string Z)
    (prompt command : string) (ed : Path * nat) (key : string) :
  same_bans W W' ->
  banned_by t W prompt command ed key -> banned_by t W' prompt command ed key.
Proof.
  intros [Hdom Hban] (x & w & Hx & Hw & Hne & Hp & Hk).
  destruct (proj1 (Hdom x) (ex_intro _ w Hw)) as [w' Hw'].
  exists x, w'. repeat split; try assumption.
  intros ->. apply Hban in Hw'. congruence.
Qed.

(** One turn of the loop. *)
Lemma group_step_spec (prompt command : string) (useful : bool)
    (ed : Path * nat) (s : Status.t) (m : ActivityManager.t) :
  sane (Status.element_weights s) ->
  keyed (Status.xml_tree s) (Status.element_weights s) ed ->
  exists s' m',
    group_step prompt command useful ed (s, m) = Ok (s', m')
    /\ Status.xml_tree s' = Status.xml_tree s
    /\ Status._all_elements s' = Status._all_elements s
    /\ sane (Status.element_weights s')
    /\ same_bans (Status.element_weights s) (Status.element_weights s')
    /\ grows m m'
    /\ (useful = false ->
        forall key,
          banned_by (Status.xml_tree s) (Status.element_weights s)
                    prompt command ed key ->
          global_weights m' !! key = Some Weight.DISABLED_FOREVER
          /\ key ∈ invalid m')
    /\ (forall k, k ∈ invalid m' ->
          k ∈ invalid m
          \/ (useful = false
              /\ banned_by (Status.xml_tree s) (Status.element_weights s)
                           prompt command ed k)).
Proof.
  intros Hsane (x & w & Hx & Hw & Hp).
  unfold group_step, element.
  unfold attrib_at. rewrite Hx. simpl. rewrite Hw. simpl.
  destruct (skip_check w) eqn:Eskip.
  - (* the entry is banned: the element is passed over *)
    apply WeightProps.skip_check_true in Eskip.
    exists s, m.
    split; [reflexivity|]. split; [reflexivity|]. split; [reflexivity|].
    split; [exact Hsane|]. split; [apply same_bans_refl|].
    split; [apply grows_refl|]. split.
    + intros _ key (x' & w' & Hx' & Hw' & Hne' & _). congruence.
    + intros k Hk. now left.
  - apply WeightProps.skip_check_false in Eskip.
    destruct (Hp Eskip) as [p Hprompt]. rewrite Hprompt. simpl.
    destruct (get_action_key_ok (el_at (Status.xml_tree s) ed) command x Hx)
      as [key Hkey].
    destruct (Util.str_eqb p prompt) eqn:Eprompt.
    + apply bool_decide_eq_true in Eprompt. subst p.
      destruct useful.
      * (* chosen group, useful action *)
        destruct (add_element_weight_sane s x w Weight.EACH_ACTION Hsane Hw)
          as (s' & Hadd & _ & Htree & Hels & Hsane' & Hbans);
          [unfold Weight.EACH_ACTION; lia|].
        destruct (add_action_weight_spec _ _ key Weight.EACH_ACTION_ON_GLOBAL m Hkey)
          as (m' & Hm' & Hgrows & Hinv).
        exists s', m'. rewrite Hadd. simpl. unfold on_action_action.
        rewrite Hm'. simpl.
        split; [reflexivity|]. split; [exact Htree|]. split; [exact Hels|].
        split; [exact Hsane'|]. split; [exact Hbans|].
        split; [exact Hgrows|]. split.
        -- discriminate.
        -- intros k Hk. left. now rewrite Hinv in Hk.
      * (* chosen group, useless action: the ban *)
        destruct (global_ban_command_spec _ _ key m Hkey)
          as (m' & Hm' & Hgrows & Hdf & Hinv).
        exists s, m'. unfold global_ban_action in Hm'. rewrite Hm'. simpl.
        split; [reflexivity|]. split; [reflexivity|]. split; [reflexivity|].
        split; [exact Hsane|]. split; [apply same_bans_refl|].
        split; [exact Hgrows|]. split.
        -- intros _ key' (x' & w' & _ & _ & _ & _ & Hk').
           rewrite Hkey in Hk'. injection Hk' as <-.
           split; [exact Hdf|]. apply Hinv. now right.
        -- intros k Hk. apply Hinv in Hk as [Hk|Hk]; [now left|right].
           subst k. split; [reflexivity|]. exists x, w. repeat split; assumption.
    + (* another element *)
      apply bool_decide_eq_false in Eprompt.
      destruct (add_element_weight_sane s x w Weight.EACH_NON_ACTION Hsane Hw)
        as (s' & Hadd & _ & Htree & Hels & Hsane' & Hbans);
        [unfold Weight.EACH_NON_ACTION; lia|].
      destruct (on_action_non_action_spec _ _ key m Hkey)
        as (m' & Hm' & Hgrows & Hinv).
      exists s', m'. rewrite Hadd. simpl. rewrite Hm'. simpl.
      split; [reflexivity|]. split; [exact Htree|]. split; [exact Hels|].
      split; [exact Hsane'|]. split; [exact Hbans|].
      split; [exact Hgrows|]. split.
      * intros _ key' (x' & w' & _ & _ & _ & Hp' & _). congruence.
      * intros k Hk. left. now rewrite Hinv in Hk.
Qed.

Lemma same_bans_sym (W W' : gmap string Z) : same_bans W W' -> same_bans W' W.
Proof. intros [H1 H2]. split; intros x; [now rewrite H1|now rewrite H2]. Qed.

(** The whole loop. *)
Lemma group_loop_spec (prompt command : string) (useful : bool)
    (l : list (Path * nat)) (s : Status.t) (m : ActivityManager.t) :
  sane (Status.element_weights s) ->
  (forall ed, ed ∈ l -> keyed (Status.xml_tree s) (Status.element_weights s) ed) ->
  exists s' m',
    for_each (group_step prompt command useful) l (s, m) = Ok (s', m')
    /\ Status.xml_tree s' = Status.xml_tree s
    /\ Status._all_elements s' = Status._all_elements s
    /\ sane (Status.element_weights s')
    /\ same_bans (Status.element_weights s) (Status.element_weights s')
    /\ grows m m'
    /\ (useful = false ->
        forall ed key,
          ed ∈ l ->
          banned_by (Status.xml_tree s) (Status.element_weights s)
                    prompt command ed key ->
          global_weights m' !! key = Some Weight.DISABLED_FOREVER
          /\ key ∈ invalid m')
    /\ (forall k, k ∈ invalid m' ->
          k ∈ invalid m
          \/ (useful = false
              /\ exists ed,
                   ed ∈ l
                   /\ banned_by (Status.xml_tree s) (Status.element_weights s)
                                prompt command ed k)).
Proof.
  revert s m. induction l as [|ed l IH]; intros s m Hsane Hkeyed.
  - exists s, m.
    split; [reflexivity|]. split; [reflexivity|]. split; [reflexivity|].
    split; [exact Hsane|]. split; [apply same_bans_refl|].
    split; [apply grows_refl|]. split.
    + intros _ ed key Hin. inversion Hin.
    + intros k Hk. now left.
  - destruct (group_step_spec prompt command useful ed s m Hsane)
      as (s1 & m1 & Hstep & Htree1 & Hels1 & Hsane1 & Hbans1 & Hgrows1
          & Hban1 & Hinv1).
    { apply Hkeyed. apply elem_of_cons. now left. }
    destruct (IH s1 m1 Hsane1)
      as (s' & m' & Hloop & Htree & Hels & Hsane' & Hbans & Hgrows
          & Hban & Hinv).
    { intros ed' Hed'. rewrite Htree1.
      apply (keyed_same_bans _ _ _ _ Hbans1).
      apply Hkeyed. apply elem_of_cons. now right. }
    exists s', m'.
    split; [rewrite WeightProps.for_each_cons, Hstep; exact Hloop|].
    split; [congruence|]. split; [congruence|].
    split; [exact Hsane'|].
    split; [exact (same_bans_trans _ _ _ Hbans1 Hbans)|].
    split; [exact (grows_trans _ _ _ Hgrows1 Hgrows)|]. split.
    + intros Huse ed' key Hed' Hb.
      apply elem_of_cons in Hed' as [->|Hed'].
      * destruct (Hban1 Huse key Hb) as [Hdf Hin].
        split; [now apply Hgrows|now apply Hgrows].
      * apply (Hban Huse ed' key Hed'). rewrite Htree1.
        exact (banned_by_same_bans _ _ _ _ _ _ _ Hbans1 Hb).
    + intros k Hk. destruct (Hinv k Hk) as [Hk1|(Huse & ed' & Hed' & Hb)].
      * destruct (Hinv1 k Hk1) as [Hk0|(Huse & Hb)]; [now left|right].
        split; [exact Huse|]. exists ed. split; [apply elem_of_cons; now left|exact Hb].
      * right. split; [exact Huse|]. exists ed'.
        split; [apply elem_of_cons; now right|].
        rewrite Htree1 in Hb.
        exact (banned_by_same_bans _ _ _ _ _ _ _ (same_bans_sym _ _ Hbans1) Hb).
Qed.

(** *** Recording the action *)

Lemma record_action_spec (self : nat) (elem : Path) (step_number : Z)
    (command xpath : string) (extra : gmap string string) (e : Engine)
    (s : Status.t) :
  heap e !! self = Some s ->
  get (element s elem) "xpath" = Some xpath ->
  (command = "input" -> is_Some (extra !! "text")) ->
  exists s1 m1,
    record_action self elem step_number command extra e
    = Ok (MkEngine (<[self := s1]> (heap e)) m1)
    /\ Status.xml_tree s1 = Status.xml_tree s
    /\ Status._all_elements s1 = Status._all_elements s
    /\ Status.element_weights s1 = Status.element_weights s
    /\ Status.step_count s1 = Status.step_count s
    /\ Status.element_depths s1
       = dict_set xpath step_number (Status.element_depths s)
    /\ global_weights m1 = global_weights (manager e)
    /\ invalid m1 = invalid (manager e).
Proof.
  intros Hs Hx Hextra. unfold record_action, deref. rewrite Hs. simpl.
  destruct (Util.str_eqb command "input") eqn:Ecmd.
  - apply bool_decide_eq_true in Ecmd. destruct (Hextra Ecmd) as [text Htext].
    rewrite Htext. simpl. unfold attrib_at. rewrite Hx. simpl.
    eexists _, _. split; [reflexivity|].
    destruct (bool_decide (elem ∈ Status.elements_to_this s)); repeat split.
  - simpl. unfold attrib_at. rewrite Hx. simpl.
    eexists _, _. split; [reflexivity|].
    destruct (bool_decide (elem ∈ Status.elements_to_this s)); repeat split.
Qed.


(** *** The weights that the group update leaves *)

(** The paths of the key elements of a list. *)
Definition xpaths (t : XmlElement) (l : list (Path * nat))
  : list (option string) :=
  map (fun ed => get (el_at t ed) "xpath") l.

(** What the loop adds to the weight of a key element whose prompt is [p]:
    [Weight.EACH_ACTION] in the chosen group when the action was useful,
    nothing there when it was not, [Weight.EACH_NON_ACTION] elsewhere. *)
Definition group_delta (prompt : string) (useful : bool) (p : string) : Z :=
  if Util.str_eqb p prompt then (if useful then Weight.EACH_ACTION else 0)
  else Weight.EACH_NON_ACTION.

Lemma sane_entry (W : gmap string Z) (x : string) (w : Z) :
  sane W -> W !! x = Some w -> w ≠ Weight.DISABLED_FOREVER -> 0 <= w <= 100.
Proof.
  intros Hsane Hw Hne. destruct (Hsane x w Hw) as [Hdf|Hr]; [contradiction|].
  exact Hr.
Qed.

(** An addition to an entry that is not banned, in numbers. *)
Lemma add_element_weight_value (s : Status.t) (x : string) (w d : Z) :
  Status.element_weights s !! x = Some w ->
  0 <= w <= 100 -> -100 <= d <= 100 ->
  add_element_weight x d s = Ok (update_element_weight x (w + d) s)
  /\ Status.element_weights (update_element_weight x (w + d) s) !! x
     = Some (Z.min 100 (Z.max 0 (w + d)))
  /\ (forall y, y ≠ x ->
        Status.element_weights (update_element_weight x (w + d) s) !! y
        = Status.element_weights s !! y).
Proof.
  intros Hw Hr Hd. split; [now apply WeightProps.add_element_weight_ok|]. split.
  - rewrite WeightProps.update_lookup_same, Hw.
    rewrite WeightProps.new_weight_for_clamp; [reflexivity| |].
    + unfold Weight.DISABLED_FOREVER. lia.
    + intros c Hc. injection Hc as <-. unfold Weight.DISABLED_FOREVER. lia.
  - intros y Hy. apply WeightProps.update_lookup_other. congruence.
Qed.

(** One turn of the loop, in numbers. *)
Lemma group_step_weights (prompt command : string) (useful : bool)
    (ed : Path * nat) (s s' : Status.t) (m m' : ActivityManager.t)
    (x : string) (w : Z) :
  sane (Status.element_weights s) ->
  get (el_at (Status.xml_tree s) ed) "xpath" = Some x ->
  Status.element_weights s !! x = Some w ->
  group_step prompt command useful ed (s, m) = Ok (s', m') ->
  (forall y, y ≠ x ->
     Status.element_weights s' !! y = Status.element_weights s !! y)
  /\ (w = Weight.DISABLED_FOREVER -> Status.element_weights s' !! x = Some w)
  /\ (w ≠ Weight.DISABLED_FOREVER ->
      forall p, get (el_at (Status.xml_tree s) ed) "prompt" = Some p ->
        Status.element_weights s' !! x
        = Some (Z.min 100 (Z.max 0 (w + group_delta prompt useful p)))).
Proof.
  intros Hsane Hx Hw Hstep.
  unfold group_step, element, attrib_at in Hstep.
  rewrite Hx in Hstep. cbn [subscript] in Hstep.
  rewrite WeightProps.ret_bind, Hw in Hstep. cbn [subscript] in Hstep.
  rewrite WeightProps.ret_bind in Hstep.
  destruct (skip_check w) eqn:Eskip.
  - injection Hstep as <- <-. apply WeightProps.skip_check_true in Eskip.
    split; [reflexivity|]. split; [intros _; exact Hw|]. intros Hne. contradiction.
  - apply WeightProps.skip_check_false in Eskip.
    pose proof (sane_entry _ _ _ Hsane Hw Eskip) as Hr.
    apply WeightProps.bind_Ok in Hstep as (p & Hp & Hstep).
    assert (Hprompt : get (el_at (Status.xml_tree s) ed) "prompt" = Some p).
    { destruct (get (el_at (Status.xml_tree s) ed) "prompt"); [|discriminate].
      now injection Hp as ->. }
    unfold group_delta.
    destruct (Util.str_eqb p prompt) eqn:Eprompt.
    + destruct useful.
      * destruct (add_element_weight_value s x w Weight.EACH_ACTION Hw Hr)
          as (Hadd & Hsame & Hother); [unfold Weight.EACH_ACTION; lia|].
        rewrite Hadd, WeightProps.ret_bind in Hstep.
        apply WeightProps.bind_Ok in Hstep as (m1 & _ & Hstep).
        injection Hstep as <- <-.
        split; [exact Hother|]. split; [intros Hdf; contradiction|].
        intros _ p' Hp'. rewrite Hprompt in Hp'. injection Hp' as <-.
        rewrite Eprompt. exact Hsame.
      * apply WeightProps.bind_Ok in Hstep as (m1 & _ & Hstep).
        injection Hstep as <- <-.
        split; [reflexivity|]. split; [intros Hdf; contradiction|].
        intros _ p' Hp'. rewrite Hprompt in Hp'. injection Hp' as <-.
        rewrite Eprompt, Hw. f_equal. lia.
    + destruct (add_element_weight_value s x w Weight.EACH_NON_ACTION Hw Hr)
        as (Hadd & Hsame & Hother); [unfold Weight.EACH_NON_ACTION; lia|].
      rewrite Hadd, WeightProps.ret_bind in Hstep.
      apply WeightProps.bind_Ok in Hstep as (m1 & _ & Hstep).
      injection Hstep as <- <-.
      split; [exact Hother|]. split; [intros Hdf; contradiction|].
      intros _ p' Hp'. rewrite Hprompt in Hp'. injection Hp' as <-.
      rewrite Eprompt. exact Hsame.
Qed.

(** The loop leaves alone the entries that are the path of none of its
    key elements. *)
Lemma group_loop_untouched (prompt command : string) (useful : bool)
    (l : list (Path * nat)) :
  forall (s s' : Status.t) (m m' : ActivityManager.t),
    sane (Status.element_weights s) ->
    (forall ed, ed ∈ l ->
       keyed (Status.xml_tree s) (Status.element_weights s) ed) ->
    for_each (group_step prompt command useful) l (s, m) = Ok (s', m') ->
    forall y, Some y ∉ xpaths (Status.xml_tree s) l ->
      Status.element_weights s' !! y = Status.element_weights s !! y.
Proof.
  induction l as [|ed l IH]; intros s s' m m' Hsane Hkeyed Hloop y Hy.
  - injection Hloop as <- <-. reflexivity.
  - apply WeightProps.for_each_cons_Ok in Hloop as ([s1 m1] & Hstep & Hloop).
    destruct (Hkeyed ed) as (x & w & Hx & Hw & Hp); [apply elem_of_cons; now left|].
    destruct (group_step_spec prompt command useful ed s m Hsane)
      as (s1' & m1' & Hstep' & Htree1 & _ & Hsane1 & Hbans1 & _).
    { exists x, w. now repeat split. }
    rewrite Hstep in Hstep'. injection Hstep' as <- <-.
    destruct (group_step_weights _ _ _ _ _ _ _ _ x w Hsane Hx Hw Hstep)
      as (Hother & _ & _).
    rewrite (IH s1 s' m1 m' Hsane1).
    + apply Hother. intros ->. apply Hy. unfold xpaths. cbn [map].
      rewrite Hx. apply elem_of_cons. now left.
    + intros ed' Hed'. rewrite Htree1. apply (keyed_same_bans _ _ _ _ Hbans1).
      apply Hkeyed. apply elem_of_cons. now right.
    + exact Hloop.
    + rewrite Htree1. intros Hin. apply Hy. unfold xpaths. cbn [map].
      apply elem_of_cons. now right.
Qed.

(** The loop over key elements with distinct paths, in numbers: a banned
    entry stays, and every other entry of a key element gets the delta of
    its group once, within [0, 100]. *)
Lemma group_loop_weights (prompt command : string) (useful : bool)
    (l : list (Path * nat)) :
  forall (s s' : Status.t) (m m' : ActivityManager.t),
    sane (Status.element_weights s) ->
    (forall ed, ed ∈ l ->
       keyed (Status.xml_tree s) (Status.element_weights s) ed) ->
    NoDup (xpaths (Status.xml_tree s) l) ->
    for_each (group_step prompt command useful) l (s, m) = Ok (s', m') ->
    forall ed x w,
      ed ∈ l ->
      get (el_at (Status.xml_tree s) ed) "xpath" = Some x ->
      Status.element_weights s !! x = Some w ->
      (w = Weight.DISABLED_FOREVER -> Status.element_weights s' !! x = Some w)
      /\ (w ≠ Weight.DISABLED_FOREVER ->
          forall p, get (el_at (Status.xml_tree s) ed) "prompt" = Some p ->
            Status.element_weights s' !! x
            = Some (Z.min 100 (Z.max 0 (w + group_delta prompt useful p)))).
Proof.
  induction l as [|ed0 l IH];
    intros s s' m m' Hsane Hkeyed Hnodup Hloop ed x w Hed Hx Hw.
  - inversion Hed.
  - apply WeightProps.for_each_cons_Ok in Hloop as ([s1 m1] & Hstep & Hloop).
    destruct (Hkeyed ed0) as (x0 & w0 & Hx0 & Hw0 & Hp0);
      [apply elem_of_cons; now left|].
    destruct (group_step_spec prompt command useful ed0 s m Hsane)
      as (s1' & m1' & Hstep' & Htree1 & _ & Hsane1 & Hbans1 & _).
    { exists x0, w0. now repeat split. }
    rewrite Hstep in Hstep'. injection Hstep' as <- <-.
    destruct (group_step_weights _ _ _ _ _ _ _ _ x0 w0 Hsane Hx0 Hw0 Hstep)
      as (Hother & Hban0 & Hval0).
    assert (Hkeyed1 : forall ed', ed' ∈ l ->
              keyed (Status.xml_tree s1) (Status.element_weights s1) ed').
    { intros ed' Hed'. rewrite Htree1. apply (keyed_same_bans _ _ _ _ Hbans1).
      apply Hkeyed. apply elem_of_cons. now right. }
    unfold xpaths in Hnodup. cbn [map] in Hnodup.
    apply NoDup_cons in Hnodup as [Hfresh Hnodup].
    rewrite Hx0 in Hfresh.
    apply elem_of_cons in Hed as [->|Hed].
    + (* the head: no later turn writes its entry *)
      rewrite Hx0 in Hx. injection Hx as ->. rewrite Hw0 in Hw. injection Hw as ->.
      assert (Hkeep : Status.element_weights s' !! x
                      = Status.element_weights s1 !! x).
      { apply (group_loop_untouched prompt command useful l s1 s' m1 m'
                 Hsane1 Hkeyed1 Hloop).
        now rewrite Htree1. }
      rewrite Hkeep. split; [exact Hban0|exact Hval0].
    + (* a later element: the head's turn left its entry alone *)
      assert (Hne : x ≠ x0).
      { intros ->. apply Hfresh. rewrite <- Hx.
        apply (list_elem_of_fmap_2 (fun ed => get (el_at (Status.xml_tree s) ed) "xpath")).
        exact Hed. }
      rewrite <- Htree1 in Hx |- *.
      apply (IH s1 s' m1 m' Hsane1 Hkeyed1); try assumption.
      * now rewrite Htree1.
      * rewrite (Hother x Hne). exact Hw.
Qed.

(** *** The global table after a useless action *)

(** The key element [ed] is one to which a useless action on [prompt]
    gives the global on-not-chosen update under the action key [k]: it is
    not banned in [W], its prompt is another one, and its action key for
    [command] is [k]. *)
Definition bumped_by (t : XmlElement) (W : gmap string Z)
    (prompt command k : string) (ed : Path * nat) : bool :=
  match get (el_at t ed) "xpath", get (el_at t ed) "prompt",
        get_action_key (el_at t ed) command with
  | Some x, Some p, Ok key =>
      match W !! x with
      | Some w =>
          negb (skip_check w) && negb (Util.str_eqb p prompt)
          && Util.str_eqb key k
      | None => false
      end
  | _, _, _ => false
  end.

(** How many key elements of [l] are such. *)
Definition bumps (t : XmlElement) (W : gmap string Z)
    (prompt command k : string) (l : list (Path * nat)) : Z :=
  Z.of_nat (length (List.filter (bumped_by t W prompt command k) l)).

Lemma bumps_cons (t : XmlElement) (W : gmap string Z)
    (prompt command k : string) (ed : Path * nat) (l : list (Path * nat)) :
  bumps t W prompt command k (ed :: l)
  = (if bumped_by t W prompt command k ed then 1 else 0)
    + bumps t W prompt command k l.
Proof.
  unfold bumps. cbn [List.filter].
  destruct (bumped_by t W prompt command k ed); cbn [length]; lia.
Qed.

Lemma bumps_nonneg (t : XmlElement) (W : gmap string Z)
    (prompt command k : string) (l : list (Path * nat)) :
  0 <= bumps t W prompt command k l.
Proof. unfold bumps. lia. Qed.

Lemma skip_check_same_bans (W W' : gmap string Z) (x : string) (w w' : Z) :
  same_bans W W' -> W !! x = Some w -> W' !! x = Some w' ->
  skip_check w = skip_check w'.
Proof.
  intros [_ Hban] Hw Hw'.
  destruct (skip_check w) eqn:E; symmetry.
  - apply WeightProps.skip_check_true in E. subst w.
    apply Hban in Hw. rewrite Hw in Hw'. injection Hw' as <-.
    now apply WeightProps.skip_check_true.
  - apply WeightProps.skip_check_false in E.
    apply WeightProps.skip_check_false. intros ->.
    apply Hban in Hw'. rewrite Hw' in Hw. injection Hw as <-. now apply E.
Qed.

Lemma bumped_by_same_bans (t : XmlElement) (W W' : gmap string Z)
    (prompt command k : string) (ed : Path * nat) :
  same_bans W W' ->
  bumped_by t W prompt command k ed = bumped_by t W' prompt command k ed.
Proof.
  intros Hbans. unfold bumped_by.
  destruct (get (el_at t ed) "xpath") as [x|]; [|reflexivity].
  destruct (get (el_at t ed) "prompt") as [p|]; [|reflexivity].
  destruct (get_action_key (el_at t ed) command) as [key|]; [|reflexivity].
  destruct (W !! x) as [w|] eqn:Ew, (W' !! x) as [w'|] eqn:Ew'.
  - now rewrite (skip_check_same_bans W W' x w w' Hbans Ew Ew').
  - destruct Hbans as [Hdom _].
    destruct (proj1 (Hdom x)) as [? Hc]; [eauto|]. congruence.
  - destruct Hbans as [Hdom _].
    destruct (proj2 (Hdom x)) as [? Hc]; [eauto|]. congruence.
  - reflexivity.
Qed.

Lemma bumps_same_bans (t : XmlElement) (W W' : gmap string Z)
    (prompt command k : string) (l : list (Path * nat)) :
  same_bans W W' ->
  bumps t W prompt command k l = bumps t W' prompt command k l.
Proof.
  intros Hbans. induction l as [|ed l IH]; [reflexivity|].
  rewrite !bumps_cons, IH.
  now rewrite (bumped_by_same_bans t W W' prompt command k ed Hbans).
Qed.

Lemma sane_insert (G : gmap string Z) (k : string) (v : Z) :
  sane G -> v = Weight.DISABLED_FOREVER \/ Weight.MIN <= v <= Weight.MAX ->
  sane (<[k := v]> G).
Proof.
  intros HG Hv x w. destruct (decide (k = x)) as [->|Hne].
  - rewrite lookup_insert_eq. intros Hw. injection Hw as <-. exact Hv.
  - rewrite lookup_insert_ne by exact Hne. apply HG.
Qed.

(** The global on-not-chosen update of a key that exists. *)
Lemma add_action_weight_value (el : Attrs) (command key : string) (d v : Z)
    (m m' : ActivityManager.t) :
  get_action_key el command = Ok key ->
  global_weights m !! key = Some v ->
  add_action_weight el command d m = Ok m' ->
  global_weights m' = <[key := new_weight_for (Some v) (v + d)]> (global_weights m)
  /\ invalid m' = invalid m.
Proof.
  intros Hk Hv Hadd. unfold add_action_weight in Hadd.
  rewrite Hk, WeightProps.ret_bind in Hadd. cbv zeta in Hadd.
  unfold global_weights in Hv. rewrite Hv in Hadd. cbn [default] in Hadd.
  rewrite (update_action_weight_spec _ _ key) in Hadd by exact Hk.
  injection Hadd as <-. split; [|reflexivity].
  unfold _set_action_weight, with_action_weights, global_weights.
  cbn [ActivityManager.action_weights].
  rewrite lookup_insert_eq. cbn [default].
  now rewrite insert_insert_eq.
Qed.

(** One turn of the loop after a useless action: the global table. *)
Lemma group_step_global (prompt command : string) (ed : Path * nat)
    (s s' : Status.t) (m m' : ActivityManager.t) :
  sane (Status.element_weights s) ->
  keyed (Status.xml_tree s) (Status.element_weights s) ed ->
  sane (global_weights m) ->
  group_step prompt command false ed (s, m) = Ok (s', m') ->
  sane (global_weights m')
  /\ forall k,
       ~ banned_by (Status.xml_tree s) (Status.element_weights s)
                   prompt command ed k ->
       global_weights m' !! k
       = match global_weights m !! k with
         | None => None
         | Some v =>
             Some (if bumped_by (Status.xml_tree s) (Status.element_weights s)
                                prompt command k ed
                   then if decide (v = Weight.DISABLED_FOREVER)
                        then Weight.DISABLED_FOREVER
                        else Z.min 100 (v + 6)
                   else v)
         end.
Proof.
  intros Hsane (x & w & Hx & Hw & Hp) HG Hstep.
  destruct (get_action_key_ok (el_at (Status.xml_tree s) ed) command x Hx)
    as [key Hkey].
  unfold banned_by, bumped_by. rewrite Hx, Hkey, Hw.
  unfold group_step, element, attrib_at in Hstep.
  rewrite Hx in Hstep. cbn [subscript] in Hstep.
  rewrite WeightProps.ret_bind, Hw in Hstep. cbn [subscript] in Hstep.
  rewrite WeightProps.ret_bind in Hstep.
  destruct (skip_check w) eqn:Eskip.
  - injection Hstep as <- <-. split; [exact HG|]. intros k _.
    destruct (get (el_at (Status.xml_tree s) ed) "prompt");
      now destruct (global_weights m !! k).
  - apply WeightProps.skip_check_false in Eskip.
    destruct (Hp Eskip) as [p Hprompt]. rewrite Hprompt in Hstep |- *.
    cbn [subscript] in Hstep. rewrite WeightProps.ret_bind in Hstep.
    destruct (Util.str_eqb p prompt) eqn:Eprompt; cbn [negb andb].
    + (* the chosen group: the ban *)
      apply bool_decide_eq_true in Eprompt. subst p.
      apply WeightProps.bind_Ok in Hstep as (m1 & Hban & Hstep).
      injection Hstep as <- <-.
      unfold global_ban_action, global_ban_command in Hban.
      rewrite Hkey, WeightProps.ret_bind in Hban. cbv zeta in Hban.
      rewrite (update_action_weight_spec _ _ key) in Hban by exact Hkey.
      injection Hban as <-.
      unfold _set_action_weight, with_action_weights, global_weights.
      cbn [ActivityManager.action_weights]. split.
      * apply sane_insert; [exact HG|]. left. reflexivity.
      * intros k Hnot. destruct (decide (key = k)) as [->|Hne].
        -- exfalso. apply Hnot. exists x, w. now repeat split.
        -- rewrite lookup_insert_ne by exact Hne.
           now destruct (ActivityManager.action_weights m !! k).
    + (* another element: the bookkeeping *)
      destruct (add_element_weight_value s x w Weight.EACH_NON_ACTION Hw)
        as (Hadd & _); [exact (sane_entry _ _ _ Hsane Hw Eskip)|
                        unfold Weight.EACH_NON_ACTION; lia|].
      rewrite Hadd, WeightProps.ret_bind in Hstep.
      apply WeightProps.bind_Ok in Hstep as (m1 & Hnon & Hstep).
      injection Hstep as <- <-.
      unfold on_action_non_action in Hnon.
      rewrite Hkey, WeightProps.ret_bind in Hnon.
      destruct (ActivityManager.action_weights m !! key) as [v|] eqn:Ev.
      * destruct (add_action_weight_value _ _ key _ v m m1 Hkey Ev Hnon)
          as [HG1 _].
        assert (Hnew : new_weight_for (Some v) (v + Weight.EACH_NON_ACTION_ON_GLOBAL)
                       = if decide (v = Weight.DISABLED_FOREVER)
                         then Weight.DISABLED_FOREVER
                         else Z.min 100 (v + 6)).
        { destruct (decide (v = Weight.DISABLED_FOREVER)) as [->|Hv].
          - apply WeightProps.new_weight_for_sticky.
          - destruct (HG key v Ev) as [Hdf|Hr]; [contradiction|].
            unfold Weight.MIN, Weight.MAX in Hr.
            rewrite WeightProps.new_weight_for_clamp.
            + unfold clamp, Weight.MIN, Weight.MAX,
                Weight.EACH_NON_ACTION_ON_GLOBAL. lia.
            + unfold Weight.DISABLED_FOREVER, Weight.EACH_NON_ACTION_ON_GLOBAL. lia.
            + intros c Hc. now injection Hc as <-. }
        rewrite HG1, Hnew. split.
        -- apply sane_insert; [exact HG|].
           destruct (decide (v = Weight.DISABLED_FOREVER)); [now left|right].
           destruct (HG key v Ev) as [Hdf|Hr]; [contradiction|].
           unfold Weight.MIN, Weight.MAX in *. lia.
        -- intros k _. unfold Util.str_eqb. unfold global_weights.
           destruct (decide (key = k)) as [->|Hne].
           ++ rewrite lookup_insert_eq, Ev.
              now rewrite bool_decide_eq_true_2 by reflexivity.
           ++ rewrite lookup_insert_ne by exact Hne.
              rewrite bool_decide_eq_false_2 by exact Hne.
              now destruct (ActivityManager.action_weights m !! k).
      * injection Hnon as <-. split; [exact HG|]. intros k _.
        unfold Util.str_eqb, global_weights.
        destruct (decide (key = k)) as [->|Hne].
        -- now rewrite Ev.
        -- rewrite bool_decide_eq_false_2 by exact Hne.
           now destruct (ActivityManager.action_weights m !! k).
Qed.

(** The whole loop after a useless action: a key under which no key
    element is banned is not created, stays banned if it was, and has
    otherwise gained 6 for each key element with another prompt that has
    it, up to 100. *)
Lemma group_loop_global (prompt command : string) (l : list (Path * nat)) :
  forall (s s' : Status.t) (m m' : ActivityManager.t),
    sane (Status.element_weights s) ->
    (forall ed, ed ∈ l ->
       keyed (Status.xml_tree s) (Status.element_weights s) ed) ->
    sane (global_weights m) ->
    for_each (group_step prompt command false) l (s, m) = Ok (s', m') ->
    forall k,
      (forall ed, ed ∈ l ->
         ~ banned_by (Status.xml_tree s) (Status.element_weights s)
                     prompt command ed k) ->
      global_weights m' !! k
      = match global_weights m !! k with
        | None => None
        | Some v =>
            Some (if decide (v = Weight.DISABLED_FOREVER)
                  then Weight.DISABLED_FOREVER
                  else Z.min 100
                         (v + 6 * bumps (Status.xml_tree s)
                                        (Status.element_weights s)
                                        prompt command k l))
        end.
Proof.
  induction l as [|ed l IH]; intros s s' m m' Hsane Hkeyed HG Hloop k Hnot.
  - injection Hloop as <- <-. destruct (global_weights m !! k) as [v|] eqn:Ev;
      [|reflexivity].
    f_equal. destruct (decide (v = Weight.DISABLED_FOREVER)); [assumption|].
    destruct (HG k v Ev) as [Hdf|Hr]; [contradiction|].
    unfold bumps, Weight.MIN, Weight.MAX in *. cbn. lia.
  - apply WeightProps.for_each_cons_Ok in Hloop as ([s1 m1] & Hstep & Hloop).
    assert (Hk0 : keyed (Status.xml_tree s) (Status.element_weights s) ed)
      by (apply Hkeyed, elem_of_cons; now left).
    destruct (group_step_spec prompt command false ed s m Hsane Hk0)
      as (s1' & m1' & Hstep' & Htree1 & _ & Hsane1 & Hbans1 & _).
    rewrite Hstep in Hstep'. injection Hstep' as <- <-.
    destruct (group_step_global prompt command ed s s1 m m1 Hsane Hk0 HG Hstep)
      as [HG1 Hval1].
    rewrite (IH s1 s' m1 m' Hsane1).
    + rewrite Hval1 by (apply Hnot, elem_of_cons; now left).
      rewrite Htree1, <- (bumps_same_bans _ _ _ _ _ _ _ Hbans1), bumps_cons.
      pose proof (bumps_nonneg (Status.xml_tree s) (Status.element_weights s)
                    prompt command k l) as Hn.
      destruct (global_weights m !! k) as [v|] eqn:Ev; [|reflexivity]. f_equal.
      destruct (decide (v = Weight.DISABLED_FOREVER)) as [->|Hv].
      * destruct (bumped_by _ _ _ _ _ _); now rewrite decide_True by reflexivity.
      * destruct (HG k v Ev) as [Hdf|Hr]; [contradiction|].
        unfold Weight.MIN, Weight.MAX, Weight.DISABLED_FOREVER in *.
        destruct (bumped_by _ _ _ _ _ _).
        -- rewrite decide_False by lia. lia.
        -- rewrite decide_False by exact Hv. lia.
    + intros ed' Hed'. rewrite Htree1. apply (keyed_same_bans _ _ _ _ Hbans1).
      apply Hkeyed. apply elem_of_cons. now right.
    + exact HG1.
    + exact Hloop.
    + intros ed' Hed' Hb. apply (Hnot ed'); [apply elem_of_cons; now right|].
      rewrite Htree1 in Hb.
      exact (banned_by_same_bans _ _ _ _ _ _ _ (same_bans_sym _ _ Hbans1) Hb).
Qed.

(** *** A useless action *)

(** C1, as the code has it.  When [on_element_action] is called with
    [useful = False] on a Status whose key elements are in its (sane) weight
    table, it returns, and
    - every key element whose prompt is the chosen element's and whose
      weight is not DISABLED_FOREVER has been handed to
      [global_ban_action]: its action key holds DISABLED_FOREVER in the
      global table and is in the persistent store of invalid actions; the
      store gains no other key, and no earlier ban is lifted;
    - in the weight table of the Status (the paths of its key elements
      being distinct), such an element keeps its weight, and a key element
      with another prompt whose weight [w] is not DISABLED_FOREVER ends at
      [min(100, w + 15)]; banned entries stay banned, and an entry that is
      the path of no key element (such as [back]) is as it was;
    - in the global table (its weights being bans or within [0, 100]), a
      key under which no element was banned by this call is not created,
      stays DISABLED_FOREVER if it was, and has otherwise gained 6 for each
      key element with another prompt and a weight other than
      DISABLED_FOREVER that has this action key, up to 100;
    - every other Status is as it was. *)
Theorem useless_action_bans_the_group (e : Engine) (self new_status : nat)
    (s : Status.t) (elem : Path) (step_number : Z) (command xpath prompt : string)
    (extra : gmap string string) :
  heap e !! self = Some s ->
  sane (Status.element_weights s) ->
  (forall ed, ed ∈ Status._all_elements s ->
              keyed (Status.xml_tree s) (Status.element_weights s) ed) ->
  get (element s elem) "xpath" = Some xpath ->
  get (element s elem) "prompt" = Some prompt ->
  (command = "input" -> is_Some (extra !! "text")) ->
  exists e' s',
    on_element_action self elem step_number new_status command false extra e
    = Ok e'
    /\ heap e' !! self = Some s'
    /\ (forall ed key,
          ed ∈ Status._all_elements s ->
          banned_by (Status.xml_tree s) (Status.element_weights s)
                    prompt command ed key ->
          global_weights (manager e') !! key = Some Weight.DISABLED_FOREVER
          /\ key ∈ invalid (manager e'))
    /\ (forall k, k ∈ invalid (manager e') ->
          k ∈ invalid (manager e)
          \/ exists ed,
               ed ∈ Status._all_elements s
               /\ banned_by (Status.xml_tree s) (Status.element_weights s)
                            prompt command ed k)
    /\ grows (manager e) (manager e')
    /\ (NoDup (xpaths (Status.xml_tree s) (Status._all_elements s)) ->
        forall ed x w p,
          ed ∈ Status._all_elements s ->
          get (el_at (Status.xml_tree s) ed) "xpath" = Some x ->
          Status.element_weights s !! x = Some w ->
          w ≠ Weight.DISABLED_FOREVER ->
          get (el_at (Status.xml_tree s) ed) "prompt" = Some p ->
          Status.element_weights s' !! x
          = Some (if decide (p = prompt) then w else Z.min 100 (w + 15)))
    /\ (forall x, Status.element_weights s !! x = Some Weight.DISABLED_FOREVER ->
                  Status.element_weights s' !! x = Some Weight.DISABLED_FOREVER)
    /\ (forall x, Some x ∉ xpaths (Status.xml_tree s) (Status._all_elements s) ->
                  Status.element_weights s' !! x = Status.element_weights s !! x)
    /\ (sane (global_weights (manager e)) ->
        forall k,
          (forall ed, ed ∈ Status._all_elements s ->
             ~ banned_by (Status.xml_tree s) (Status.element_weights s)
                         prompt command ed k) ->
          global_weights (manager e') !! k
          = match global_weights (manager e) !! k with
            | None => None
            | Some v =>
                Some (if decide (v = Weight.DISABLED_FOREVER)
                      then Weight.DISABLED_FOREVER
                      else Z.min 100
                             (v + 6 * bumps (Status.xml_tree s)
                                            (Status.element_weights s)
                                            prompt command k
                                            (Status._all_elements s)))
            end)
    /\ (forall o, o ≠ self -> heap e' !! o = heap e !! o).
Proof.
  intros Hs Hsane Hkeyed Hx Hprompt Hextra.
  destruct (record_action_spec self elem step_number command xpath extra e s
              Hs Hx Hextra)
    as (s1 & m1 & Hrec & Htree & Hels & Hw & _ & _ & Hgw & Hinv).
  assert (Hderef : forall m, deref (MkEngine (<[self := s1]> (heap e)) m) self = Ok s1).
  { intros m. unfold deref. simpl. now rewrite lookup_insert_eq. }
  assert (Hx1 : attrib_at (element s1 elem) "xpath" = Ok xpath).
  { unfold attrib_at, element in *. now rewrite Htree, Hx. }
  assert (Hp1 : attrib_at (element s1 elem) "prompt" = Ok prompt).
  { unfold attrib_at, element in *. now rewrite Htree, Hprompt. }
  assert (Hsane1 : sane (Status.element_weights s1)) by now rewrite Hw.
  assert (Hkeyed1 : forall ed, ed ∈ Status._all_elements s1 ->
            keyed (Status.xml_tree s1) (Status.element_weights s1) ed).
  { intros ed Hed. rewrite Htree, Hw. apply Hkeyed. now rewrite <- Hels. }
  unfold on_element_action.
  rewrite Hrec, WeightProps.ret_bind, Hderef, WeightProps.ret_bind.
  rewrite Hx1, WeightProps.ret_bind.
  unfold punish_circle. rewrite WeightProps.ret_bind, Hderef, WeightProps.ret_bind.
  rewrite Hp1, WeightProps.ret_bind.
  unfold update_group. rewrite Hderef, WeightProps.ret_bind.
  destruct (group_loop_spec prompt command false (Status._all_elements s1) s1 m1
              Hsane1 Hkeyed1)
    as (s' & m' & Hloop & _ & _ & _ & Hbans & Hgrows & Hban & Hinv').
  pose proof (group_loop_weights prompt command false (Status._all_elements s1)
                s1 s' m1 m' Hsane1 Hkeyed1) as Hlocal.
  pose proof (group_loop_untouched prompt command false (Status._all_elements s1)
                s1 s' m1 m' Hsane1 Hkeyed1 Hloop) as Hrest.
  pose proof (group_loop_global prompt command (Status._all_elements s1)
                s1 s' m1 m' Hsane1 Hkeyed1) as Hglobal.
  cbn [manager].
  rewrite Hloop. simpl. exists (MkEngine (<[self := s']> (<[self := s1]> (heap e))) m'), s'.
  split; [reflexivity|]. cbn [heap manager].
  rewrite Htree, Hw, Hels in *.
  split; [apply lookup_insert_eq|].
  split; [|split; [|split; [|split; [|split; [|split; [|split]]]]]].
  - intros ed key Hed Hb. exact (Hban eq_refl ed key Hed Hb).
  - intros k Hk. destruct (Hinv' k Hk) as [Hold|(_ & Hnew)].
    + left. unfold invalid in *. now rewrite <- Hinv.
    + now right.
  - destruct Hgrows as [Hg1 Hg2]. split.
    + intros k Hk. apply Hg1. unfold global_weights in *. now rewrite Hgw.
    + intros k Hk. apply Hg2. unfold invalid in *. now rewrite Hinv.
  - intros Hnodup ed x w p Hed Hxe Hwe Hne Hpe.
    destruct (Hlocal Hnodup Hloop ed x w Hed Hxe Hwe) as [_ Hval].
    rewrite (Hval Hne p Hpe). f_equal.
    pose proof (sane_entry _ _ _ Hsane Hwe Hne) as Hr.
    unfold group_delta, Util.str_eqb, Weight.EACH_NON_ACTION.
    destruct (decide (p = prompt)) as [Hp|Hp].
    + rewrite bool_decide_eq_true_2 by exact Hp. lia.
    + rewrite bool_decide_eq_false_2 by exact Hp. lia.
  - intros x Hdf. now apply Hbans.
  - exact Hrest.
  - intros HG k Hnot.
    assert (HG1 : sane (global_weights m1)) by now rewrite Hgw.
    rewrite (Hglobal HG1 Hloop k Hnot). now rewrite Hgw.
  - intros o Ho. now rewrite !lookup_insert_ne by congruence.
Qed.

(** *** Going back to an earlier status *)

(** What the search over [element_depths] ends with, from any state. *)
Lemma max_depth_fold (d : list (string * Z)) (acc : option string * Z) :
  snd acc <= snd (fold_left max_depth_step d acc)
  /\ (forall k v, (k, v) ∈ d -> v <= snd (fold_left max_depth_step d acc))
  /\ (fst (fold_left max_depth_step d acc) = fst acc
      /\ snd (fold_left max_depth_step d acc) = snd acc
      \/ exists me,
           fst (fold_left max_depth_step d acc) = Some me
           /\ (me, snd (fold_left max_depth_step d acc)) ∈ d
           /\ snd acc < snd (fold_left max_depth_step d acc)).
Proof.
  revert acc. induction d as [|[k v] d IH]; intros acc; simpl.
  - split; [lia|]. split; [|now left]. intros k v Hin. inversion Hin.
  - set (acc' := max_depth_step acc (k, v)).
    assert (Hstep : snd acc <= snd acc' /\ v <= snd acc'
                    /\ (acc' = acc \/ acc' = (Some k, v) /\ snd acc < v)).
    { unfold acc', max_depth_step. simpl.
      destruct (snd acc <? v) eqn:E;
        [apply Z.ltb_lt in E|apply Z.ltb_ge in E]; simpl.
      - split; [lia|]. split; [lia|]. right. now split.
      - split; [lia|]. split; [lia|]. now left. }
    destruct Hstep as (Hs1 & Hs2 & Hs3).
    destruct (IH acc') as (Hle & Hall & Hlast).
    split; [lia|]. split.
    + intros k' v' Hin. apply elem_of_cons in Hin as [Heq|Hin].
      * injection Heq as -> ->. lia.
      * now apply (Hall k').
    + destruct Hlast as [[Hf Hs]|(me & Hf & Hin & Hlt)].
      * destruct Hs3 as [Hsame|[Hnew Hlt]].
        -- left. rewrite Hf, Hs, Hsame. now split.
        -- right. exists k. rewrite Hf, Hs, Hnew. simpl.
           split; [reflexivity|]. split; [apply elem_of_cons; now left|exact Hlt].
      * right. exists me. split; [exact Hf|].
        split; [apply elem_of_cons; now right|lia].
Qed.

(** The entry that [on_element_action] penalises in the resulting status:
    one of greatest recorded depth; there is none only when no depth above
    -1 is recorded. *)
Lemma find_max_depth_spec (d : list (string * Z)) :
  match fst (find_max_depth d) with
  | Some me =>
      exists depth,
        (me, depth) ∈ d /\ (forall k v, (k, v) ∈ d -> v <= depth)
  | None => forall k v, (k, v) ∈ d -> v <= -1
  end.
Proof.
  unfold find_max_depth.
  destruct (max_depth_fold d (None, -1)) as (_ & Hall & Hlast).
  simpl in Hlast.
  destruct Hlast as [[Hf Hs]|(me & Hf & Hin & _)].
  - rewrite Hf. intros k v Hin. rewrite <- Hs. now apply (Hall k).
  - rewrite Hf. eexists. split; [exact Hin|exact Hall].
Qed.

(** Lines 286-296 on their own. *)
Lemma punish_circle_spec (self new_status : nat) (xpath : string)
    (useful : bool) (e : Engine) (s n : Status.t) (ws : Z) :
  heap e !! self = Some s ->
  heap e !! new_status = Some n ->
  Status.element_weights s !! xpath = Some ws ->
  (Status.step_count n < Status.step_count s ->
   forall me, fst (find_max_depth (Status.element_depths n)) = Some me ->
              is_Some (Status.element_weights n !! me)) ->
  exists e',
    punish_circle self xpath new_status useful e = Ok e'
    /\ manager e' = manager e
    /\ if useful && (Status.step_count n <? Status.step_count s) then
         self ≠ new_status
         /\ heap e' !! self = Some (update_element_weight xpath (ws - 40) s)
         /\ match fst (find_max_depth (Status.element_depths n)) with
            | Some me =>
                exists wn,
                  Status.element_weights n !! me = Some wn
                  /\ heap e' !! new_status
                     = Some (update_element_weight me (wn - 20) n)
            | None => heap e' !! new_status = Some n
            end
       else e' = e.
Proof.
  intros Hs Hn Hws Hmax. unfold punish_circle.
  assert (Hds : deref e self = Ok s) by (unfold deref; now rewrite Hs).
  assert (Hdn : deref e new_status = Ok n) by (unfold deref; now rewrite Hn).
  destruct useful; cbn [andb]; [|now exists e].
  destruct (Status.step_count n <? Status.step_count s) eqn:Elt.
  2:{ exists e. rewrite Hds, WeightProps.ret_bind, Hdn, WeightProps.ret_bind, Elt.
      now split. }
  apply Z.ltb_lt in Elt.
  assert (Hne : self ≠ new_status).
  { intros ->. rewrite Hs in Hn. injection Hn as ->. lia. }
  assert (Hlt : (Status.step_count n <? Status.step_count s) = true)
    by now apply Z.ltb_lt.
  destruct (fst (find_max_depth (Status.element_depths n))) as [me|] eqn:Emax.
  - destruct (Hmax Elt me eq_refl) as [wn Hwn].
    eexists. split.
    + rewrite Hds, WeightProps.ret_bind, Hdn, WeightProps.ret_bind, Hlt, Emax.
      rewrite (WeightProps.add_element_weight_ok n me Weight.ENTER_CIRCLE wn Hwn).
      rewrite !WeightProps.ret_bind.
      unfold deref, store. cbn [heap]. rewrite lookup_insert_ne by congruence.
      rewrite Hs, WeightProps.ret_bind.
      rewrite (WeightProps.add_element_weight_ok s xpath Weight.EXIT_CIRCLE ws Hws).
      rewrite WeightProps.ret_bind. reflexivity.
    + split; [reflexivity|]. split; [exact Hne|]. cbn [heap manager].
      split; [now rewrite lookup_insert_eq|].
      exists wn. split; [exact Hwn|].
      rewrite lookup_insert_ne by congruence. now rewrite lookup_insert_eq.
  - eexists. split.
    + rewrite Hds, WeightProps.ret_bind, Hdn, WeightProps.ret_bind, Hlt, Emax.
      rewrite !WeightProps.ret_bind. rewrite Hds, WeightProps.ret_bind.
      rewrite (WeightProps.add_element_weight_ok s xpath Weight.EXIT_CIRCLE ws Hws).
      rewrite WeightProps.ret_bind. reflexivity.
    + split; [reflexivity|]. split; [exact Hne|]. unfold store. cbn [heap manager].
      split; [now rewrite lookup_insert_eq|].
      now rewrite lookup_insert_ne by congruence.
Qed.

(** [on_element_action] in its three parts: the recording, the penalties
    for going back (with [looped := useful and new_status.step_count <
    self.step_count]), and the group update, which starts from the weight
    table that the penalties left. *)
Lemma on_element_action_unfolds (e : Engine)
    (self new_status : nat) (s n : Status.t) (elem : Path) (step_number : Z)
    (command xpath prompt : string) (useful : bool)
    (extra : gmap string string) (ws : Z) :
  heap e !! self = Some s ->
  heap e !! new_status = Some n ->
  sane (Status.element_weights s) ->
  (forall ed, ed ∈ Status._all_elements s ->
              keyed (Status.xml_tree s) (Status.element_weights s) ed) ->
  get (element s elem) "xpath" = Some xpath ->
  get (element s elem) "prompt" = Some prompt ->
  (command = "input" -> is_Some (extra !! "text")) ->
  Status.element_weights s !! xpath = Some ws ->
  (Status.step_count n < Status.step_count s ->
   forall me, fst (find_max_depth (Status.element_depths n)) = Some me ->
              is_Some (Status.element_weights n !! me)) ->
  exists e',
    on_element_action self elem step_number new_status command useful extra e
    = Ok e'
    /\ (if useful && (Status.step_count n <? Status.step_count s) then
          match fst (find_max_depth (Status.element_depths n)) with
          | Some me =>
              exists depth wn,
                (me, depth) ∈ Status.element_depths n
                /\ (forall k v, (k, v) ∈ Status.element_depths n -> v <= depth)
                /\ Status.element_weights n !! me = Some wn
                /\ heap e' !! new_status
                   = Some (update_element_weight me (wn - 20) n)
          | None =>
              (forall k v, (k, v) ∈ Status.element_depths n -> v <= -1)
              /\ heap e' !! new_status = Some n
          end
        else new_status ≠ self -> heap e' !! new_status = Some n)
    /\ exists s1 m1 s2 s',
         Status.xml_tree s1 = Status.xml_tree s
         /\ Status.element_weights s1 = Status.element_weights s
         /\ global_weights m1 = global_weights (manager e)
         /\ invalid m1 = invalid (manager e)
         /\ s2 = (if useful && (Status.step_count n <? Status.step_count s)
                  then update_element_weight xpath (ws - 40) s1
                  else s1)
         /\ sane (Status.element_weights s2)
         /\ same_bans (Status.element_weights s) (Status.element_weights s2)
         /\ for_each (group_step prompt command useful) (Status._all_elements s)
              (s2, m1)
            = Ok (s', manager e')
         /\ heap e' !! self = Some s'.
Proof.
  intros Hs Hn Hsane Hkeyed Hx Hprompt Hextra Hws Hmax.
  destruct (record_action_spec self elem step_number command xpath extra e s
              Hs Hx Hextra)
    as (s1 & m1 & Hrec & Htree & Hels & Hw & Hstep & _ & Hgw & Hinv).
  set (e1 := MkEngine (<[self := s1]> (heap e)) m1) in *.
  (* the resulting status, as the call finds it after the recording *)
  set (n1 := if decide (self = new_status) then s1 else n).
  assert (Hs1 : heap e1 !! self = Some s1) by apply lookup_insert_eq.
  assert (Hn1 : heap e1 !! new_status = Some n1).
  { unfold n1, e1. cbn [heap]. destruct (decide (self = new_status)) as [->|Hne].
    - apply lookup_insert_eq.
    - now rewrite lookup_insert_ne. }
  assert (Hsame : self = new_status -> n = s).
  { intros ->. rewrite Hs in Hn. now injection Hn. }
  assert (Hlt1 : (Status.step_count n1 <? Status.step_count s1)
                 = (Status.step_count n <? Status.step_count s)).
  { unfold n1. rewrite Hstep. destruct (decide (self = new_status)) as [Heq|Hne];
      [|reflexivity].
    rewrite (Hsame Heq), Hstep. reflexivity. }
  destruct (punish_circle_spec self new_status xpath useful e1 s1 n1 ws Hs1 Hn1)
    as (e2 & Hpun & Hman2 & Hcase).
  { now rewrite Hw. }
  { intros Hlt. unfold n1 in *. destruct (decide (self = new_status)) as [Heq|Hne].
    - lia.
    - apply Hmax. now rewrite <- Hstep. }
  rewrite Hlt1 in Hcase.
  (* the acting status after the penalties *)
  set (looped := useful && (Status.step_count n <? Status.step_count s)) in *.
  set (s2 := if looped then update_element_weight xpath (ws - 40) s1 else s1).
  assert (Hs2 : heap e2 !! self = Some s2).
  { unfold s2. destruct looped.
    - now destruct Hcase as (_ & Hself & _).
    - now rewrite Hcase. }
  assert (Htree2 : Status.xml_tree s2 = Status.xml_tree s).
  { unfold s2. now destruct looped. }
  assert (Hels2 : Status._all_elements s2 = Status._all_elements s).
  { unfold s2. now destruct looped. }
  assert (Hgood2 : sane (Status.element_weights s2)
                   /\ same_bans (Status.element_weights s)
                                (Status.element_weights s2)).
  { unfold s2. destruct looped.
    - destruct (add_element_weight_sane s1 xpath ws Weight.EXIT_CIRCLE)
        as (s3 & _ & Heq3 & _ & _ & Hsane3 & Hbans3).
      + now rewrite Hw.
      + now rewrite Hw.
      + unfold Weight.EXIT_CIRCLE. lia.
      + subst s3. rewrite Hw in Hbans3. now split.
    - rewrite Hw. split; [exact Hsane|apply same_bans_refl]. }
  destruct Hgood2 as [Hsane2 Hbans2].
  destruct (group_loop_spec prompt command useful (Status._all_elements s2) s2
              (manager e2) Hsane2)
    as (s' & m' & Hloop & _).
  { intros ed Hed. rewrite Htree2. apply (keyed_same_bans _ _ _ _ Hbans2).
    apply Hkeyed. now rewrite <- Hels2. }
  assert (Hd1 : deref e1 self = Ok s1) by (unfold deref; now rewrite Hs1).
  assert (Hd2 : deref e2 self = Ok s2) by (unfold deref; now rewrite Hs2).
  assert (Hx1 : attrib_at (element s1 elem) "xpath" = Ok xpath).
  { unfold attrib_at, element in *. now rewrite Htree, Hx. }
  assert (Hp2 : attrib_at (element s2 elem) "prompt" = Ok prompt).
  { unfold attrib_at, element in *. now rewrite Htree2, Hprompt. }
  exists (MkEngine (<[self := s']> (heap e2)) m'). split.
  { unfold on_element_action.
    rewrite Hrec, WeightProps.ret_bind. fold e1.
    rewrite Hd1, WeightProps.ret_bind, Hx1, WeightProps.ret_bind.
    rewrite Hpun, WeightProps.ret_bind, Hd2, WeightProps.ret_bind.
    rewrite Hp2, WeightProps.ret_bind.
    unfold update_group. rewrite Hd2, WeightProps.ret_bind, Hloop.
    reflexivity. }
  cbn [heap manager]. split.
  - destruct looped.
    + destruct Hcase as (Hne & _ & Hnew).
      assert (Hn1n : n1 = n).
      { unfold n1. destruct (decide (self = new_status)); [contradiction|reflexivity]. }
      rewrite Hn1n in Hnew.
      rewrite lookup_insert_ne by exact Hne.
      pose proof (find_max_depth_spec (Status.element_depths n)) as Hspec.
      destruct (fst (find_max_depth (Status.element_depths n))) as [me|].
      * destruct Hspec as (depth & Hin & Hall).
        destruct Hnew as (wn & Hwn & Hheap).
        exists depth, wn. repeat split; assumption.
      * split; assumption.
    + intros Hne. rewrite lookup_insert_ne by congruence.
      rewrite Hcase. unfold e1. cbn [heap].
      rewrite lookup_insert_ne by congruence. exact Hn.
  - exists s1, (manager e2), s2, s'. rewrite Hman2. unfold e1. cbn [manager].
    split; [exact Htree|]. split; [exact Hw|].
    split; [exact Hgw|]. split; [exact Hinv|]. split; [reflexivity|].
    split; [exact Hsane2|]. split; [exact Hbans2|]. split.
    + rewrite <- Hels2. rewrite Hman2 in Hloop. exact Hloop.
    + apply lookup_insert_eq.
Qed.

(** C7.  [on_element_action] on a Status whose key elements and chosen
    element are in its (sane) weight table returns, and, with
    [looped := useful and new_status.step_count < self.step_count]:
    - when [looped] holds, the entry of greatest recorded depth in the
      resulting status's [element_depths] (if the table has one above -1)
      gets the enter-loop delta in the resulting status, which is otherwise
      as it was: a weight [wn] other than DISABLED_FOREVER becomes
      [max(0, wn - 20)], and a ban stays; when [looped] does not hold, the
      resulting status (if it is another object than the acting one) is
      untouched;
    - in the acting status the chosen element, a key element at a weight
      [ws] other than DISABLED_FOREVER, ends at
      [max(0, ws - exit - chosen)], where [exit] is the exit-loop delta, 40,
      exactly when [looped] holds, and 0 otherwise, and [chosen] is the 40
      that the group update takes from the chosen group exactly when
      [useful] holds; a chosen element that is no key element of the status
      ends at [max(0, ws - 40)] when [looped] holds and at [ws] otherwise;
    - every other key element of the acting status ends at the weight that
      the group update alone gives it, and a banned chosen element stays
      banned, whether [looped] holds or not. *)
Theorem circle_penalties_exactly_when_going_back (e : Engine)
    (self new_status : nat) (s n : Status.t) (elem : Path) (step_number : Z)
    (command xpath prompt : string) (useful : bool)
    (extra : gmap string string) (ws : Z) :
  heap e !! self = Some s ->
  heap e !! new_status = Some n ->
  sane (Status.element_weights s) ->
  (forall ed, ed ∈ Status._all_elements s ->
              keyed (Status.xml_tree s) (Status.element_weights s) ed) ->
  get (element s elem) "xpath" = Some xpath ->
  get (element s elem) "prompt" = Some prompt ->
  (command = "input" -> is_Some (extra !! "text")) ->
  Status.element_weights s !! xpath = Some ws ->
  (Status.step_count n < Status.step_count s ->
   forall me, fst (find_max_depth (Status.element_depths n)) = Some me ->
              is_Some (Status.element_weights n !! me)) ->
  exists e' s',
    on_element_action self elem step_number new_status command useful extra e
    = Ok e'
    /\ heap e' !! self = Some s'
    /\ (if useful && (Status.step_count n <? Status.step_count s) then
          match fst (find_max_depth (Status.element_depths n)) with
          | Some me =>
              exists depth wn,
                (me, depth) ∈ Status.element_depths n
                /\ (forall k v, (k, v) ∈ Status.element_depths n -> v <= depth)
                /\ Status.element_weights n !! me = Some wn
                /\ (sane (Status.element_weights n) ->
                    heap e' !! new_status
                    = Some (Status.with_weights
                              (<[me := if decide (wn = Weight.DISABLED_FOREVER)
                                       then Weight.DISABLED_FOREVER
                                       else Z.max 0 (wn - 20)]>
                                 (Status.element_weights n))
                              n))
          | None =>
              (forall k v, (k, v) ∈ Status.element_depths n -> v <= -1)
              /\ heap e' !! new_status = Some n
          end
        else new_status ≠ self -> heap e' !! new_status = Some n)
    /\ (ws = Weight.DISABLED_FOREVER ->
        Status.element_weights s' !! xpath = Some Weight.DISABLED_FOREVER)
    /\ (ws ≠ Weight.DISABLED_FOREVER ->
        NoDup (xpaths (Status.xml_tree s) (Status._all_elements s)) ->
        (exists d, (elem, d) ∈ Status._all_elements s) ->
        Status.element_weights s' !! xpath
        = Some (Z.max 0
                  (ws
                   - (if useful && (Status.step_count n <? Status.step_count s)
                      then 40 else 0)
                   - (if useful then 40 else 0))))
    /\ (ws ≠ Weight.DISABLED_FOREVER ->
        Some xpath ∉ xpaths (Status.xml_tree s) (Status._all_elements s) ->
        Status.element_weights s' !! xpath
        = Some (if useful && (Status.step_count n <? Status.step_count s)
                then Z.max 0 (ws - 40) else ws))
    /\ (NoDup (xpaths (Status.xml_tree s) (Status._all_elements s)) ->
        forall ed x w p,
          ed ∈ Status._all_elements s ->
          get (el_at (Status.xml_tree s) ed) "xpath" = Some x ->
          x ≠ xpath ->
          Status.element_weights s !! x = Some w ->
          w ≠ Weight.DISABLED_FOREVER ->
          get (el_at (Status.xml_tree s) ed) "prompt" = Some p ->
          Status.element_weights s' !! x
          = Some (if decide (p = prompt)
                  then (if useful then Z.max 0 (w - 40) else w)
                  else Z.min 100 (w + 15))).
Proof.
  intros Hs Hn Hsane Hkeyed Hx Hprompt Hextra Hws Hmax.
  destruct (on_element_action_unfolds e self new_status s n elem step_number
              command xpath prompt useful extra ws
              Hs Hn Hsane Hkeyed Hx Hprompt Hextra Hws Hmax)
    as (e' & Hrun & Hnew & s1 & m1 & s2 & s' & Htree & Hw & _ & _ & Hs2
        & Hsane2 & Hbans2 & Hloop & Hself).
  set (looped := useful && (Status.step_count n <? Status.step_count s)) in *.
  assert (Htree2 : Status.xml_tree s2 = Status.xml_tree s).
  { rewrite Hs2. now destruct looped. }
  assert (Hkeyed2 : forall ed, ed ∈ Status._all_elements s ->
            keyed (Status.xml_tree s2) (Status.element_weights s2) ed).
  { intros ed Hed. rewrite Htree2. apply (keyed_same_bans _ _ _ _ Hbans2).
    now apply Hkeyed. }
  (* the table that the penalties leave *)
  assert (Hother2 : forall y, y ≠ xpath ->
            Status.element_weights s2 !! y = Status.element_weights s !! y).
  { intros y Hy. rewrite Hs2. destruct looped; [|now rewrite Hw].
    rewrite WeightProps.update_lookup_other by congruence. now rewrite Hw. }
  assert (Hchosen2 : ws ≠ Weight.DISABLED_FOREVER ->
            Status.element_weights s2 !! xpath
            = Some (if looped then Z.max 0 (ws - 40) else ws)).
  { intros Hne. pose proof (sane_entry _ _ _ Hsane Hws Hne) as Hr.
    rewrite Hs2. destruct looped; [|now rewrite Hw].
    rewrite WeightProps.update_lookup_same, Hw, Hws.
    rewrite WeightProps.new_weight_for_clamp.
    - unfold clamp, Weight.MIN, Weight.MAX. f_equal. lia.
    - unfold Weight.DISABLED_FOREVER. lia.
    - intros c Hc. now injection Hc as <-. }
  exists e', s'. split; [exact Hrun|]. split; [exact Hself|].
  split; [|split; [|split; [|split]]].
  - (* the resulting status *)
    destruct looped; [|exact Hnew].
    destruct (fst (find_max_depth (Status.element_depths n))) as [me|];
      [|exact Hnew].
    destruct Hnew as (depth & wn & Hin & Hall & Hwn & Hheap).
    exists depth, wn. split; [exact Hin|]. split; [exact Hall|].
    split; [exact Hwn|]. intros Hsanen. rewrite Hheap. f_equal.
    unfold update_element_weight. rewrite Hwn. f_equal. f_equal.
    destruct (decide (wn = Weight.DISABLED_FOREVER)) as [->|Hne].
    + apply WeightProps.new_weight_for_sticky.
    + pose proof (sane_entry _ _ _ Hsanen Hwn Hne) as Hr.
      rewrite WeightProps.new_weight_for_clamp.
      * unfold clamp, Weight.MIN, Weight.MAX. lia.
      * unfold Weight.DISABLED_FOREVER. lia.
      * intros c Hc. now injection Hc as <-.
  - (* a banned chosen element *)
    intros ->.
    assert (Hdf2 : Status.element_weights s2 !! xpath
                   = Some Weight.DISABLED_FOREVER) by now apply Hbans2.
    destruct (group_loop_spec prompt command useful (Status._all_elements s)
                s2 m1 Hsane2 Hkeyed2)
      as (s'' & m'' & Hloop' & _ & _ & _ & Hbans' & _).
    rewrite Hloop in Hloop'. injection Hloop' as <- _.
    now apply Hbans'.
  - (* the chosen element, a key element *)
    intros Hne Hnodup [d Hd].
    destruct (group_loop_weights prompt command useful (Status._all_elements s)
                s2 s' m1 (manager e') Hsane2 Hkeyed2) with
      (ed := (elem, d)) (x := xpath) (w := if looped then Z.max 0 (ws - 40) else ws)
      as [_ Hval].
    + now rewrite Htree2.
    + exact Hloop.
    + exact Hd.
    + rewrite Htree2. exact Hx.
    + now apply Hchosen2.
    + pose proof (sane_entry _ _ _ Hsane Hws Hne) as Hr.
      rewrite (Hval ltac:(unfold Weight.DISABLED_FOREVER; destruct looped; lia)
                 prompt ltac:(rewrite Htree2; exact Hprompt)).
      f_equal. unfold group_delta, Util.str_eqb.
      rewrite bool_decide_eq_true_2 by reflexivity.
      unfold Weight.EACH_ACTION. destruct looped, useful; lia.
  - (* the chosen element, no key element *)
    intros Hne Hnot.
    rewrite (group_loop_untouched prompt command useful (Status._all_elements s)
               s2 s' m1 (manager e') Hsane2 Hkeyed2 Hloop xpath).
    + now apply Hchosen2.
    + now rewrite Htree2.
  - (* the other key elements *)
    intros Hnodup ed x w p Hed Hxe Hxne Hwe Hne Hpe.
    destruct (group_loop_weights prompt command useful (Status._all_elements s)
                s2 s' m1 (manager e') Hsane2 Hkeyed2) with
      (ed := ed) (x := x) (w := w) as [_ Hval].
    + now rewrite Htree2.
    + exact Hloop.
    + exact Hed.
    + rewrite Htree2. exact Hxe.
    + now rewrite Hother2.
    + rewrite (Hval Hne p ltac:(rewrite Htree2; exact Hpe)). f_equal.
      pose proof (sane_entry _ _ _ Hsane Hwe Hne) as Hr.
      unfold group_delta, Util.str_eqb, Weight.EACH_ACTION, Weight.EACH_NON_ACTION.
      destruct (decide (p = prompt)) as [Hp|Hp].
      * rewrite bool_decide_eq_true_2 by exact Hp. destruct useful; lia.
      * rewrite bool_decide_eq_false_2 by exact Hp. lia.
Qed.

End WithHost.

End ActionProps.

(* ===================================================================== *)
(** ** A sample run *)
(* ===================================================================== *)

Module SampleRun.

Import Xml Memory.

(** A screen with two buttons, as the driver captures it. *)
Definition two_buttons : XmlElement :=
  Node (MkAttrs "hierarchy" [] None None)
    [ Sample.leaf "android.widget.Button"
        [("class", "android.widget.Button"); ("text", "OK");
         ("clickable", "true"); ("displayed", "true")];
      Sample.leaf "android.widget.Button"
        [("class", "android.widget.Button"); ("text", "Cancel");
         ("clickable", "true"); ("displayed", "true")] ].

(** The screen normalised, with the prompts that the test loop writes on
    the key elements before it asks for a choice. *)
Definition screen : XmlElement :=
  update_attrs (set "prompt" "a button OK") [0%nat]
    (update_attrs (set "prompt" "a button Cancel") [1%nat]
       (@init_element_tree Sample.host two_buttons)).

Definition ok_path : string := "/hierarchy/*[1]".
Definition cancel_path : string := "/hierarchy/*[2]".

Definition table : gmap string Z :=
  <[ok_path := 100]> (<[cancel_path := 100]> {[ "back" := 100 ]}).

(** The status discovered first (step 0), entered once through OK at
    step 1, and a status discovered at step 5. *)
Definition first_status : Status.t :=
  Status.Mk EmptyString screen DEFAULT_STATUS_LEVEL "1first" 0
    [([0%nat], 1%nat); ([1%nat], 1%nat)] ∅ table [(ok_path, 1)] [] None false.

Definition later_status : Status.t :=
  Status.Mk EmptyString screen DEFAULT_STATUS_LEVEL "1later" 5
    [([0%nat], 1%nat); ([1%nat], 1%nat)] ∅ table [] [] None false.

Definition engine : Memory.Engine :=
  MkEngine (<[0%nat := first_status]> {[ 1%nat := later_status ]}) Sample.manager0.

(** The first status later in a run: Cancel has dropped to 50 there, and
    the global table holds the click on Cancel at 50. *)
Definition worn_table : gmap string Z :=
  <[ok_path := 100]> (<[cancel_path := 50]> {[ "back" := 100 ]}).

Definition worn_status : Status.t :=
  Status.Mk EmptyString screen DEFAULT_STATUS_LEVEL "1first" 0
    [([0%nat], 1%nat); ([1%nat], 1%nat)] ∅ worn_table [(ok_path, 1)] [] None false.

Definition click_key (p : Path) : string :=
  match @get_action_key Sample.host
          (default no_attrs (get_attrs screen p)) "click" with
  | Ok key => key
  | Raise _ => EmptyString
  end.

Definition worn_manager : ActivityManager.t :=
  with_action_weights {[ click_key [1%nat] := 50 ]} Sample.manager0.

Definition worn_engine : Memory.Engine :=
  MkEngine {[ 0%nat := worn_status ]} worn_manager.

End SampleRun.

Module SampleFacts.

Import Xml Memory ActionProps SampleRun.

Lemma table_sane : sane table.
Proof.
  unfold sane, table. intros x w.
  rewrite !lookup_insert. repeat case_decide; try rewrite lookup_singleton;
    repeat case_decide; intros Hx; try discriminate; injection Hx as <-;
    right; unfold Weight.MIN, Weight.MAX; lia.
Qed.

Lemma screen_keyed (ed : Path * nat) :
  ed ∈ [([0%nat], 1%nat); ([1%nat], 1%nat)] -> keyed screen table ed.
Proof.
  intros Hed. apply elem_of_cons in Hed as [->|Hed];
    [|apply list_elem_of_singleton in Hed; subst ed].
  - exists ok_path, 100. split; [vm_compute; reflexivity|].
    split; [vm_compute; reflexivity|]. intros _. vm_compute. eauto.
  - exists cancel_path, 100. split; [vm_compute; reflexivity|].
    split; [vm_compute; reflexivity|]. intros _. vm_compute. eauto.
Qed.

Lemma worn_table_sane : sane worn_table.
Proof.
  unfold sane, worn_table. intros x w.
  rewrite !lookup_insert. repeat case_decide; try rewrite lookup_singleton;
    repeat case_decide; intros Hx; try discriminate; injection Hx as <-;
    right; unfold Weight.MIN, Weight.MAX; lia.
Qed.

Lemma screen_keyed_worn (ed : Path * nat) :
  ed ∈ [([0%nat], 1%nat); ([1%nat], 1%nat)] -> keyed screen worn_table ed.
Proof.
  intros Hed. apply elem_of_cons in Hed as [->|Hed];
    [|apply list_elem_of_singleton in Hed; subst ed].
  - exists ok_path, 100. split; [vm_compute; reflexivity|].
    split; [vm_compute; reflexivity|]. intros _. vm_compute. eauto.
  - exists cancel_path, 50. split; [vm_compute; reflexivity|].
    split; [vm_compute; reflexivity|]. intros _. vm_compute. eauto.
Qed.

Lemma screen_paths_distinct :
  NoDup (xpaths screen [([0%nat], 1%nat); ([1%nat], 1%nat)]).
Proof.
  apply NoDup_cons. split; [|apply NoDup_singleton].
  intros Hin. apply list_elem_of_singleton in Hin. vm_compute in Hin.
  discriminate.
Qed.

Lemma worn_manager_sane : sane (global_weights worn_manager).
Proof.
  intros k v Hk. unfold global_weights, worn_manager, with_action_weights in Hk.
  cbn [ActivityManager.action_weights] in Hk.
  apply lookup_singleton_Some in Hk as [_ <-].
  right. unfold Weight.MIN, Weight.MAX. lia.
Qed.

End SampleFacts.

(** The claim C1 as the specification has it: after the call no global
    action weight is newly DISABLED_FOREVER and the persistent store of
    invalid actions is as it was. *)
Definition only_bookkeeping (m m' : Memory.ActivityManager.t) : Prop :=
  (forall k,
     ActionProps.global_weights m' !! k = Some Memory.Weight.DISABLED_FOREVER ->
     ActionProps.global_weights m !! k = Some Memory.Weight.DISABLED_FOREVER)
  /\ ActionProps.invalid m' = ActionProps.invalid m.

(** C1 fails on the sample run: a click on OK that was not useful, on a
    status where OK is a key element at weight 100, leaves the action key of
    (OK, click) in the store of invalid actions. *)
Lemma useless_action_only_bookkeeping_counterexample :
  exists e',
    @Memory.on_element_action Sample.host 0%nat [0%nat] 2 0%nat "click" false ∅
      SampleRun.engine = Ok e'
    /\ ~ only_bookkeeping (Memory.manager SampleRun.engine) (Memory.manager e').
Proof.
  eexists. split; [vm_compute; reflexivity|].
  intros [_ Hinv]. vm_compute in Hinv. discriminate.
Qed.
(** C1 as amended, on a sample run: after a useless click on OK in the
    worn status, the click on OK is banned globally and recorded as invalid,
    Cancel (another prompt) has gone from 50 to 65 in the status while OK
    and [back] keep their 100, and the click on Cancel has gone from 50 to
    56 in the global table. *)
Lemma useless_action_bans_the_group_witness :
  Memory.heap SampleRun.worn_engine !! 0%nat = Some SampleRun.worn_status
  /\ exists e' s',
       @Memory.on_element_action Sample.host 0%nat [0%nat] 2 0%nat "click" false ∅
         SampleRun.worn_engine = Ok e'
       /\ Memory.heap e' !! 0%nat = Some s'
       /\ ActionProps.global_weights (Memory.manager e')
            !! SampleRun.click_key [0%nat]
          = Some Memory.Weight.DISABLED_FOREVER
       /\ SampleRun.click_key [0%nat] ∈ ActionProps.invalid (Memory.manager e')
       /\ Memory.Status.element_weights s' !! SampleRun.ok_path = Some 100
       /\ Memory.Status.element_weights s' !! SampleRun.cancel_path = Some 65
       /\ Memory.Status.element_weights s' !! "back" = Some 100
       /\ ActionProps.global_weights (Memory.manager e')
            !! SampleRun.click_key [1%nat]
          = Some 56.
Proof.
  split; [reflexivity|].
  destruct (@ActionProps.useless_action_bans_the_group Sample.host
              SampleRun.worn_engine 0%nat 0%nat SampleRun.worn_status [0%nat] 2
              "click" SampleRun.ok_path "a button OK" ∅)
    as (e' & s' & Hrun & Hself & Hban & _ & _ & Hlocal & _ & Hrest & Hglobal & _).
  - reflexivity.
  - exact SampleFacts.worn_table_sane.
  - exact SampleFacts.screen_keyed_worn.
  - vm_compute. reflexivity.
  - vm_compute. reflexivity.
  - discriminate.
  - exists e', s'. split; [exact Hrun|]. split; [exact Hself|].
    destruct (Hban ([0%nat], 1%nat) (SampleRun.click_key [0%nat])) as [Hdf Hinv].
    { apply elem_of_cons. now left. }
    { exists SampleRun.ok_path, 100. repeat split; try (vm_compute; reflexivity).
      discriminate. }
    split; [exact Hdf|]. split; [exact Hinv|].
    split; [|split; [|split]].
    + exact (Hlocal SampleFacts.screen_paths_distinct ([0%nat], 1%nat)
               SampleRun.ok_path 100 "a button OK"
               ltac:(apply elem_of_cons; now left) eq_refl eq_refl
               ltac:(discriminate) eq_refl).
    + exact (Hlocal SampleFacts.screen_paths_distinct ([1%nat], 1%nat)
               SampleRun.cancel_path 50 "a button Cancel"
               ltac:(apply elem_of_cons; right; apply elem_of_cons; now left)
               eq_refl eq_refl ltac:(discriminate) eq_refl).
    + rewrite (Hrest "back"); [reflexivity|].
      intros Hin. vm_compute in Hin.
      apply elem_of_cons in Hin as [Hin|Hin]; [discriminate|].
      apply list_elem_of_singleton in Hin. discriminate.
    + rewrite (Hglobal SampleFacts.worn_manager_sane (SampleRun.click_key [1%nat])).
      * vm_compute. reflexivity.
      * intros ed Hed (x & w & Hx & Hw & Hne & Hp & Hk).
        apply elem_of_cons in Hed as [->|Hed];
          [|apply list_elem_of_singleton in Hed; subst ed].
        -- vm_compute in Hk. discriminate.
        -- vm_compute in Hp. discriminate.
Defined.

(** C7 on the sample run: a useful click on Cancel in the status
    discovered at step 5 leads back to the status discovered at step 0.
    There the deepest recorded entry, OK, drops from 100 to 80 and nothing
    else changes; in the acting status Cancel drops from 100 to 20 (40 for
    leaving the loop, 40 as the chosen element) and OK stays at 100. *)
Lemma circle_penalties_exactly_when_going_back_witness :
  Memory.Status.step_count SampleRun.first_status
  < Memory.Status.step_count SampleRun.later_status
  /\ exists e' s',
       @Memory.on_element_action Sample.host 1%nat [1%nat] 6 0%nat "click" true ∅
         SampleRun.engine = Ok e'
       /\ Memory.heap e' !! 1%nat = Some s'
       /\ Memory.heap e' !! 0%nat
          = Some (Memory.Status.with_weights
                    (<[SampleRun.ok_path := 80]> SampleRun.table)
                    SampleRun.first_status)
       /\ Memory.Status.element_weights s' !! SampleRun.cancel_path = Some 20
       /\ Memory.Status.element_weights s' !! SampleRun.ok_path = Some 100.
Proof.
  split; [reflexivity|].
  destruct (@ActionProps.circle_penalties_exactly_when_going_back Sample.host
              SampleRun.engine 1%nat 0%nat SampleRun.later_status
              SampleRun.first_status [1%nat] 6 "click" SampleRun.cancel_path
              "a button Cancel" true ∅ 100)
    as (e' & s' & Hrun & Hself & Hnew & _ & Hchosen & _ & Hothers).
  - reflexivity.
  - reflexivity.
  - exact SampleFacts.table_sane.
  - exact SampleFacts.screen_keyed.
  - vm_compute. reflexivity.
  - vm_compute. reflexivity.
  - discriminate.
  - vm_compute. reflexivity.
  - intros _ me Hme. vm_compute in Hme. injection Hme as <-.
    exists 100. vm_compute. reflexivity.
  - exists e', s'. split; [exact Hrun|]. split; [exact Hself|].
    split; [|split].
    + cbn in Hnew. destruct Hnew as (depth & wn & _ & _ & Hwn & Hheap).
      vm_compute in Hwn. injection Hwn as <-.
      exact (Hheap SampleFacts.table_sane).
    + apply (Hchosen ltac:(discriminate) SampleFacts.screen_paths_distinct).
      exists 1%nat. apply elem_of_cons. right. apply elem_of_cons. now left.
    + exact (Hothers SampleFacts.screen_paths_distinct ([0%nat], 1%nat)
               SampleRun.ok_path 100 "a button OK"
               ltac:(apply elem_of_cons; now left) eq_refl ltac:(discriminate)
               eq_refl ltac:(discriminate) eq_refl).
Defined.

(* ===================================================================== *)
(** ** The constructor returns on every captured tree *)
(* ===================================================================== *)

Module PipelineProps.

Import Xml XmlUtil Memory.

(** Induction on trees, with the hypothesis for every child. *)
Lemma XmlElement_tree_ind (P : XmlElement -> Prop) :
  (forall a cs, Forall P cs -> P (Node a cs)) -> forall t, P t.
Proof.
  intros Hnode. fix IH 1. intros [a cs]. apply Hnode.
  induction cs as [|c cs IHcs]; constructor; [apply IH|exact IHcs].
Qed.

(** [P] holds of the attributes of every element of the tree. *)
Fixpoint tree_all (P : Attrs -> Prop) (t : XmlElement) : Prop :=
  match t with
  | Node a cs =>
      P a /\ (fix all (l : list XmlElement) : Prop :=
                match l with
                | [] => True
                | c :: r => tree_all P c /\ all r
                end) cs
  end.

Lemma tree_all_node (P : Attrs -> Prop) (a : Attrs) (cs : list XmlElement) :
  tree_all P (Node a cs) <-> P a /\ Forall (tree_all P) cs.
Proof.
  simpl. split; intros [Ha Hcs]; (split; [exact Ha|]).
  - induction cs as [|c cs IH]; constructor; [apply Hcs|apply IH, Hcs].
  - induction Hcs as [|c cs Hc Hcs IH]; [exact I|]. split; assumption.
Qed.

(** An element that carries [depth] carries [xpath]: true of every element
    of a tree as the driver captures it, which carries neither. *)
Definition depth_has_xpath (a : Attrs) : Prop :=
  has a "depth" = true -> is_Some (get a "xpath").

Lemma assoc_get_set_same (k v : string) (l : list (string * string)) :
  assoc_get (assoc_set k v l) k = Some v.
Proof.
  induction l as [|[k' v'] l IH]; simpl.
  - unfold Util.str_eqb. now rewrite bool_decide_eq_true_2.
  - destruct (Util.str_eqb k' k) eqn:E; simpl.
    + unfold Util.str_eqb. now rewrite bool_decide_eq_true_2.
    + now rewrite E.
Qed.

Lemma assoc_get_set_other (k k' v : string) (l : list (string * string)) :
  k ≠ k' -> assoc_get (assoc_set k v l) k' = assoc_get l k'.
Proof.
  intros Hne. induction l as [|[k0 v0] l IH]; simpl.
  - unfold Util.str_eqb. now rewrite bool_decide_eq_false_2.
  - destruct (Util.str_eqb k0 k) eqn:E; simpl.
    + apply bool_decide_eq_true in E. subst k0.
      unfold Util.str_eqb. now rewrite !bool_decide_eq_false_2.
    + now rewrite IH.
Qed.

Lemma set_keeps (k v : string) (a : Attrs) :
  k ≠ "depth" -> depth_has_xpath a -> depth_has_xpath (set k v a).
Proof.
  intros Hk Ha. unfold depth_has_xpath, has, get, set in *. simpl.
  rewrite assoc_get_set_other by exact Hk. intros Hd.
  destruct (decide (k = "xpath")) as [->|Hx].
  - rewrite assoc_get_set_same. eauto.
  - rewrite assoc_get_set_other by exact Hx. now apply Ha.
Qed.

Lemma fold_set_keeps (v : string) (keys : list string) (a : Attrs) :
  Forall (fun k => k ≠ "depth") keys ->
  depth_has_xpath a ->
  depth_has_xpath (fold_left (fun a attr => set attr v a) keys a).
Proof.
  intros Hkeys. revert a. induction Hkeys as [|k keys Hk Hkeys IH]; intros a Ha.
  - exact Ha.
  - simpl. apply IH. now apply set_keeps.
Qed.

Lemma set_child_texts_keeps (l : list string) (a : Attrs) :
  depth_has_xpath a -> depth_has_xpath (set_child_texts l a).
Proof. intros Ha. exact Ha. Qed.

Lemma set_near_texts_keeps (l : list string) (a : Attrs) :
  depth_has_xpath a -> depth_has_xpath (set_near_texts l a).
Proof. intros Ha. exact Ha. Qed.

Lemma tree_all_map_attrs (P : Attrs -> Prop) (f : Attrs -> Attrs) :
  (forall a, P a -> P (f a)) ->
  forall t, tree_all P t -> tree_all P (map_attrs f t).
Proof.
  intros Hf. induction t as [a cs IH] using XmlElement_tree_ind.
  intros Ht. apply tree_all_node in Ht as [Ha Hcs].
  simpl map_attrs. apply tree_all_node. split; [now apply Hf|].
  apply Forall_map. rewrite Forall_forall in IH, Hcs |- *.
  intros c Hc. apply IH; [exact Hc|now apply Hcs].
Qed.

Lemma tree_all_on_attrs (P : Attrs -> Prop) (f : Attrs -> Attrs) (t : XmlElement) :
  (forall a, P a -> P (f a)) -> tree_all P t -> tree_all P (on_attrs f t).
Proof.
  intros Hf Ht. destruct t as [a cs]. apply tree_all_node in Ht as [Ha Hcs].
  apply tree_all_node. split; [now apply Hf|exact Hcs].
Qed.

(** A pass over every element keeps what the function it applies keeps. *)
Lemma do_func_keeps (P : Attrs -> Prop) (func : XmlElement -> XmlElement) :
  (forall t, tree_all P t -> tree_all P (func t)) ->
  forall shape t, tree_all P t -> tree_all P (do_func_on_shape func shape t).
Proof.
  intros Hfunc. induction shape as [sa scs IH] using XmlElement_tree_ind.
  intros t Ht. simpl. specialize (Hfunc t Ht).
  destruct (func t) as [a cs]. apply tree_all_node in Hfunc as [Ha Hcs].
  apply tree_all_node. split; [exact Ha|].
  clear Ha Ht t. revert cs Hcs.
  induction IH as [|s ss Hs Hss IHss]; intros cs Hcs.
  - destruct cs; exact Hcs.
  - destruct cs as [|c cs]; [constructor|].
    apply Forall_cons in Hcs as [Hc Hcs].
    constructor; [now apply Hs|now apply IHss].
Qed.

Lemma filter_keys_not_depth (f : string -> bool) (keys : list string) :
  Forall (fun k => k ≠ "depth") keys ->
  Forall (fun k => k ≠ "depth") (List.filter f keys).
Proof.
  intros Hkeys. induction Hkeys as [|k keys Hk Hkeys IH]; simpl.
  - constructor.
  - destruct (f k); [constructor; assumption|exact IH].
Qed.

Lemma pass_down_attributes_not_depth :
  Forall (fun k => k ≠ "depth") Const.PASS_DOWN_ATTRIBUTES.
Proof. repeat constructor; discriminate. Qed.

Lemma pass_down_actionable_func_keeps (t : XmlElement) :
  tree_all depth_has_xpath t ->
  tree_all depth_has_xpath (pass_down_actionable_func t).
Proof.
  intros Ht. destruct t as [a cs]. unfold pass_down_actionable_func.
  destruct (negb _); [exact Ht|].
  destruct (length cs <? 2)%nat; [exact Ht|].
  pose proof (filter_keys_not_depth (fun i => Util.true_ (get a i)) _
                pass_down_attributes_not_depth) as Hkeys.
  destruct (List.filter (fun i => Util.true_ (get a i)) Const.PASS_DOWN_ATTRIBUTES)
    as [|k keys] eqn:Ekeys; [exact Ht|].
  apply tree_all_node in Ht as [Ha Hcs]. apply tree_all_node. split.
  - now apply fold_set_keeps.
  - apply Forall_map. rewrite Forall_forall in Hcs |- *. intros c Hc.
    specialize (Hcs c Hc).
    destruct (_ && _); [exact Hcs|].
    apply tree_all_on_attrs; [|exact Hcs].
    intros ca Hca. apply fold_set_keeps; [exact Hkeys|].
    apply set_keeps; [discriminate|]. apply set_keeps; [discriminate|exact Hca].
Qed.

Lemma pass_container_text_down_func_keeps (t : XmlElement) :
  tree_all depth_has_xpath t ->
  tree_all depth_has_xpath (pass_container_text_down_func t).
Proof.
  intros Ht. destruct t as [a cs]. unfold pass_container_text_down_func.
  destruct (negb _); [exact Ht|].
  set (element_attr := flat_map _ Const.TEXT_ATTRIBUTES).
  assert (Hkeys : Forall (fun kv : string * string => fst kv ≠ "depth") element_attr).
  { unfold element_attr, Const.TEXT_ATTRIBUTES. simpl.
    destruct (get a "text") as [v1|]; destruct (get a "content-desc") as [v2|];
      try destruct (Util.truthy v1); try destruct (Util.truthy v2);
      simpl; repeat constructor; discriminate. }
  destruct element_attr as [|kv rest] eqn:Eattr; [exact Ht|].
  apply tree_all_node in Ht as [Ha Hcs].
  assert (Hcs' : Forall (tree_all depth_has_xpath)
                   (map (map_attrs
                           (fun ca =>
                              if Util.str_eqb (get_d ca "content-desc") EmptyString
                              then set "content-desc"
                                     ("Description: "
                                      +:+ Util.join ", " (map snd (kv :: rest))) ca
                              else ca)) cs)).
  { apply Forall_map. rewrite Forall_forall in Hcs |- *. intros c Hc.
    apply tree_all_map_attrs; [|now apply Hcs].
    intros ca Hca. destruct (Util.str_eqb _ _); [|exact Hca].
    apply set_keeps; [discriminate|exact Hca]. }
  destruct (existsb _ cs); apply tree_all_node; (split; [|exact Hcs']).
  - apply set_keeps; [discriminate|].
    clear - Ha Hkeys. revert a Ha.
    induction Hkeys as [|kv' l Hk Hl IH]; intros a Ha; [exact Ha|].
    simpl. apply IH. now apply set_keeps.
  - exact Ha.
Qed.

Section Indent.
Context `{Host}.

(** Key-node detection leaves a tree in which every element that carries
    [depth] carries [xpath]. *)
Lemma indent_xml_keeps (root : XmlElement) :
  forall t path following depth,
    tree_all depth_has_xpath t ->
    tree_all depth_has_xpath (_indent_xml root path following depth t).1.1.
Proof.
  induction t as [a cs IH] using XmlElement_tree_ind.
  intros path following depth Ht. apply tree_all_node in Ht as [Ha Hcs].
  assert (Hchildren : forall i,
             Forall (tree_all depth_has_xpath)
                    (NormaliserProps.indent_children root path depth i cs).1.1).
  { clear Ha. induction cs as [|c cs IHcs]; intros i; [constructor|].
    apply Forall_cons in IH as [IHc IHrest].
    apply Forall_cons in Hcs as [Hc Hcs].
    rewrite NormaliserProps.indent_children_cons.
    specialize (IHc (path ++ [i]) cs (S depth) Hc).
    specialize (IHcs IHrest Hcs (S i)).
    destruct (_indent_xml root (path ++ [i]) cs (S depth) c) as [[c' k] f].
    destruct (NormaliserProps.indent_children root path depth (S i) cs)
      as [[r' k'] f'].
    constructor; assumption. }
  specialize (Hchildren 0%nat).
  simpl. fold (NormaliserProps.indent_children root path depth).
  destruct (NormaliserProps.indent_children root path depth 0 cs) as [[cs' k] f].
  simpl in *. apply tree_all_node. split; [|exact Hchildren].
  apply set_child_texts_keeps.
  destruct (detection_function_actionable _).
  - intros _. unfold get, set. simpl. rewrite assoc_get_set_same. eauto.
  - apply set_keeps; [discriminate|]. now apply set_near_texts_keeps.
Qed.

End Indent.

Lemma update_node_keeps (P : Attrs -> Prop) (f : XmlElement -> XmlElement) :
  (forall t, tree_all P t -> tree_all P (f t)) ->
  forall p t, tree_all P t -> tree_all P (update_node f p t).
Proof.
  intros Hf. induction p as [|i p IH]; intros t Ht; [now apply Hf|].
  destruct t as [a cs]. simpl.
  destruct (cs !! i) as [c|] eqn:Ec; [|exact Ht].
  apply tree_all_node in Ht as [Ha Hcs]. apply tree_all_node.
  split; [exact Ha|]. apply Forall_insert; [exact Hcs|].
  apply IH. rewrite Forall_forall in Hcs. apply Hcs.
  eapply list_elem_of_lookup_2. exact Ec.
Qed.

Lemma fold_update_keeps (P : Attrs -> Prop)
    (step : Path -> XmlElement -> XmlElement) :
  (forall p t, tree_all P t -> tree_all P (step p t)) ->
  forall l t, tree_all P t -> tree_all P (fold_left (fun t p => step p t) l t).
Proof.
  intros Hstep. induction l as [|p l IH]; intros t Ht; [exact Ht|].
  simpl. apply IH. now apply Hstep.
Qed.

Lemma pass_down_child_texts_keeps (t : XmlElement) (keys : list Path) :
  tree_all depth_has_xpath t ->
  tree_all depth_has_xpath (pass_down_child_texts t keys).
Proof.
  unfold pass_down_child_texts. revert t.
  apply (fold_update_keeps depth_has_xpath pass_down_child_texts_step).
  intros p t Ht. unfold pass_down_child_texts_step.
  destruct p as [|i p]; [exact Ht|].
  destruct (get_node t (removelast (i :: p))) as [parent|]; [|exact Ht].
  destruct (Util.truthy _); [exact Ht|].
  destruct (child_texts_of (attrs parent)) as [|x l]; [exact Ht|].
  apply update_node_keeps; [|exact Ht].
  intros [pa pcs] Hp. apply tree_all_node in Hp as [Hpa Hpcs].
  apply tree_all_node. split; [exact Hpa|].
  apply Forall_map. rewrite Forall_forall in Hpcs |- *. intros c Hc.
  apply tree_all_on_attrs; [|now apply Hpcs].
  intros ca Hca. destruct (bool_decide _); [exact Hca|].
  now apply set_child_texts_keeps.
Qed.

Lemma keep_only_one_res_id_keeps (t : XmlElement) (keys : list Path) :
  tree_all depth_has_xpath t ->
  tree_all depth_has_xpath (keep_only_one_res_id_in_child_texts t keys).
Proof.
  unfold keep_only_one_res_id_in_child_texts. revert t.
  apply (fold_update_keeps depth_has_xpath
           (fun p t => update_attrs keep_only_one_res_id p t)).
  intros p t Ht. apply update_node_keeps; [|exact Ht].
  intros t' Ht'. apply tree_all_on_attrs; [|exact Ht'].
  intros a Ha. unfold keep_only_one_res_id.
  destruct (_ <=? _)%nat; [exact Ha|now apply set_child_texts_keeps].
Qed.

Lemma remove_duplicate_near_texts_keeps (t : XmlElement) (keys : list Path) :
  tree_all depth_has_xpath t ->
  tree_all depth_has_xpath (remove_duplicate_near_texts t keys).
Proof.
  unfold remove_duplicate_near_texts.
  generalize (all_direct_near_texts t keys). intros all_texts. revert t.
  apply (fold_update_keeps depth_has_xpath
           (fun p t => update_attrs (filter_near_texts all_texts) p t)).
  intros p t Ht. apply update_node_keeps; [|exact Ht].
  intros t' Ht'. apply tree_all_on_attrs; [|exact Ht'].
  intros a Ha. now apply set_near_texts_keeps.
Qed.

Lemma tree_all_at (P : Attrs -> Prop) (p : Path) (t : XmlElement) (a : Attrs) :
  tree_all P t -> get_attrs t p = Some a -> P a.
Proof.
  revert t. induction p as [|i p IH]; intros [a0 cs] Ht Hget.
  - apply tree_all_node in Ht as [Ha _]. unfold get_attrs in Hget. simpl in Hget.
    now injection Hget as <-.
  - apply tree_all_node in Ht as [_ Hcs]. unfold get_attrs in *. simpl in Hget.
    destruct (cs !! i) as [c|] eqn:Ec; [|discriminate].
    apply (IH c); [|exact Hget].
    rewrite Forall_forall in Hcs. apply Hcs. eapply list_elem_of_lookup_2. exact Ec.
Qed.

(** The loop of [_traverse_xml] over the children of an element. *)
Definition traverse_children (path : Path) (key_depth : nat)
  : nat -> list XmlElement -> list (Path * nat) :=
  fix go (i : nat) (l : list XmlElement) {struct l} :=
    match l with
    | [] => []
    | c :: r => _traverse_xml (path ++ [i]) key_depth c ++ go (S i) r
    end.

(** Every reference that [_traverse_xml] returns leads to an element that
    carries [depth]. *)
Lemma traverse_xml_refs :
  forall t path key_depth q d,
    (q, d) ∈ _traverse_xml path key_depth t ->
    exists rel a,
      q = path ++ rel /\ get_attrs t rel = Some a /\ has a "depth" = true.
Proof.
  induction t as [a0 cs IH] using XmlElement_tree_ind.
  intros path key_depth q d Hin. simpl in Hin.
  set (kd := if has a0 "depth" then S key_depth else key_depth) in *.
  fold (traverse_children path kd) in Hin.
  assert (Hbelow : forall l i,
             (forall j c, l !! j = Some c -> cs !! (i + j)%nat = Some c) ->
             Forall (fun c => forall path key_depth q d,
                         (q, d) ∈ _traverse_xml path key_depth c ->
                         exists rel a,
                           q = path ++ rel /\ get_attrs c rel = Some a
                           /\ has a "depth" = true) l ->
             (q, d) ∈ traverse_children path kd i l ->
             exists rel a,
               q = path ++ rel /\ get_attrs (Node a0 cs) rel = Some a
               /\ has a "depth" = true).
  { clear Hin IH. induction l as [|c l IHl]; intros i Hl Hall Hin.
    - inversion Hin.
    - apply Forall_cons in Hall as [Hc Hall].
      change (traverse_children path kd i (c :: l))
        with (_traverse_xml (path ++ [i]) kd c ++ traverse_children path kd (S i) l)
        in Hin.
      apply elem_of_app in Hin as [Hin|Hin].
      + destruct (Hc _ _ _ _ Hin) as (rel & a & Hq & Hget & Hd).
        exists (i :: rel), a. split; [now rewrite Hq, <- app_assoc|].
        split; [|exact Hd]. unfold get_attrs in *. simpl.
        specialize (Hl 0%nat c eq_refl). rewrite Nat.add_0_r in Hl.
        now rewrite Hl.
      + apply (IHl (S i)); [|exact Hall|exact Hin].
        intros j c' Hj. specialize (Hl (S j) c' Hj).
        now replace (S i + j)%nat with (i + S j)%nat by lia. }
  destruct (has a0 "depth") eqn:Edepth.
  - apply elem_of_app in Hin as [Hin|Hin].
    + apply (Hbelow cs 0%nat); [auto|exact IH|exact Hin].
    + apply list_elem_of_singleton in Hin. injection Hin as -> ->.
      exists [], a0. split; [now rewrite app_nil_r|]. split; [reflexivity|exact Edepth].
  - apply (Hbelow cs 0%nat); [auto|exact IH|exact Hin].
Qed.

Section Constructor.
Context `{Host}.

Lemma init_element_tree_keeps (t : XmlElement) :
  tree_all depth_has_xpath t ->
  tree_all depth_has_xpath (init_element_tree t).
Proof.
  intros Ht. unfold init_element_tree, indent_xml.
  set (t2 := pass_container_text_down (pass_down_actionable t)).
  assert (Ht2 : tree_all depth_has_xpath t2).
  { unfold t2, pass_container_text_down, pass_down_actionable,
      do_func_on_every_element.
    apply do_func_keeps; [exact pass_container_text_down_func_keeps|].
    apply do_func_keeps; [exact pass_down_actionable_func_keeps|exact Ht]. }
  pose proof (indent_xml_keeps t2 t2 [] [] 0%nat Ht2) as Hind.
  destruct (_indent_xml t2 [] [] 0 t2) as [[t3 k] found]. simpl in Hind.
  apply remove_duplicate_near_texts_keeps, keep_only_one_res_id_keeps,
    pass_down_child_texts_keeps. exact Hind.
Qed.

(** On a tree in which every element that carries [depth] carries [xpath],
    and so on every tree as the driver captures it, each key element that
    the constructor lists has a path. *)
Lemma captured_tree_keys_have_xpath (t : XmlElement) :
  tree_all depth_has_xpath t -> DedupProps.keys_have_xpath t.
Proof.
  intros Ht ed Hed. apply init_element_tree_keeps in Ht.
  assert (Hin : ed ∈ traverse_xml (init_element_tree t)).
  { unfold get_elements_disable_weight in Hed.
    destruct (negb filter_by_status_weight); [exact Hed|].
    apply list_elem_of_In, List.filter_In in Hed as [Hed _].
    now apply list_elem_of_In. }
  destruct ed as [q d]. unfold traverse_xml in Hin.
  apply traverse_xml_refs in Hin as (rel & a & Hq & Hget & Hd).
  simpl in Hq. subst q. unfold WeightProps.xpath_of. simpl. rewrite Hget. simpl.
  exact (tree_all_at _ _ _ _ Ht Hget Hd).
Qed.

(** [Status.__init__] returns on every such tree. *)
Lemma Status_init_total (activity : Activity.t) (xml : string)
    (xml_tree : XmlElement) (step_count : Z) (status_level : StatusLevel)
    (from_status : option nat) :
  tree_all depth_has_xpath xml_tree ->
  exists s,
    Status__init__ activity xml xml_tree step_count status_level from_status
    = Ok s.
Proof.
  intros Ht. apply DedupProps.Status_init_returns.
  now apply captured_tree_keys_have_xpath.
Qed.

End Constructor.

End PipelineProps.

(* ===================================================================== *)
(** ** Properties of a constructed Status *)
(* ===================================================================== *)

Module ConstructedProps.

Import Xml Memory Calls.

Section WithHost.
Context `{Host}.

(** C5.  On every tree as the driver captures it, [Status.__init__]
    returns a Status, every key element at 100, such that after any
    sequence of [add_element_weight] / [update_element_weight] calls none
    of which writes DISABLED_FOREVER every stored weight lies in
    [0, 100]. *)
Theorem weights_stay_in_bounds (activity : Activity.t) (xml : string)
    (xml_tree : XmlElement) (step_count : Z) (status_level : StatusLevel)
    (from_status : option nat) :
  PipelineProps.tree_all PipelineProps.depth_has_xpath xml_tree ->
  exists s,
    Status__init__ activity xml xml_tree step_count status_level from_status
    = Ok s
    /\ forall cs,
         no_ban_written cs s ->
         forall p w, Status.element_weights (after_calls cs s) !! p = Some w ->
                     0 <= w <= 100.
Proof.
  intros Ht.
  destruct (PipelineProps.Status_init_total activity xml xml_tree step_count
              status_level from_status Ht) as [s Hs].
  exists s. split; [exact Hs|]. intros cs Hcs.
  exact (WeightProps.weights_in_bounds_from _ _ _ _ _ _ s cs Hs Hcs).
Qed.

End WithHost.

End ConstructedProps.

Lemma label_then_button_captured :
  PipelineProps.tree_all PipelineProps.depth_has_xpath Sample.label_then_button.
Proof. cbv. repeat split; discriminate. Qed.

(** C5 at the sample screen, for a run of three calls. *)
Lemma weights_stay_in_bounds_witness :
  PipelineProps.tree_all PipelineProps.depth_has_xpath Sample.label_then_button
  /\ exists s,
       @Memory.Status__init__ Sample.host Sample.activity0 EmptyString
         Sample.label_then_button 0 Memory.DEFAULT_STATUS_LEVEL None = Ok s
       /\ forall p w,
            Memory.Status.element_weights
              (Calls.after_calls
                 [Calls.UpdateWeight "back" 500; Calls.UpdateWeight "back" (-40);
                  Calls.UpdateWeight "nowhere" 15] s) !! p = Some w ->
            0 <= w <= 100.
Proof.
  split; [exact label_then_button_captured|].
  destruct (@ConstructedProps.weights_stay_in_bounds Sample.host
              Sample.activity0 EmptyString Sample.label_then_button 0
              Memory.DEFAULT_STATUS_LEVEL None label_then_button_captured)
    as (s & Hs & Hbounds).
  exists s. split; [exact Hs|]. apply Hbounds.
  simpl. repeat split; discriminate.
Defined.


(* ===================================================================== *)
(** ** Trees and description lists as shared objects *)
(* ===================================================================== *)

(** [Status.__init__] keeps the lxml tree it is given, and
    [init_element_tree] rewrites that object in place: after the call the
    caller's tree is the normalised one, and so is the tree of every Status
    made of the same object.  [make_element_description_list] is memoised by
    [functools.lru_cache(maxsize=10)] on the element object and its keyword
    arguments; a call that the cache answers gets the list object that an
    earlier call returned, and [_indent_xml] extends the list object that it
    gets for the element it visits ([child_texts.extend]).

    Here the trees are objects in a store and the cache is part of the
    state.  [Memory.init_element_tree], [Memory.Status__init__] and
    [Memory.add_status] are what these functions do with the content of a
    tree object none of whose elements has a cached list, which is the case
    of every tree that was just parsed ([ObjectProps.Status_init_on_fresh]
    below). *)

Module Objects.

Import Xml Memory.

(** The key of a cached call: the element object, that is the tree object
    and the place of the element in it, and the keyword arguments in the
    order of the call. *)
Definition Key : Type := nat * Path * list (string * bool).

(** The cache of [make_element_description_list], the most recently used
    entry first.  An entry holds the list object that the call returned,
    with the content it has now. *)
Definition Cache : Type := list (Key * list string).

Definition maxsize : nat := 10.

Definition cache_lookup (k : Key) (c : Cache) : option (list string) :=
  snd <$> List.find (fun e => bool_decide (fst e = k)) c.

Definition cache_without (k : Key) (c : Cache) : Cache :=
  List.filter (fun e => negb (bool_decide (fst e = k))) c.

(** A call through [functools.lru_cache].  A hit returns the list object of
    the entry, which becomes the most recently used one; a miss computes
    the list and files it, and a full cache drops its least recently used
    entry for it. *)
Definition lru_call (k : Key) (computed : list string) (c : Cache)
  : list string * Cache :=
  match cache_lookup k c with
  | Some cached => (cached, (k, cached) :: cache_without k c)
  | None => (computed, (k, computed) :: take (maxsize - 1) c)
  end.

(** [l.extend(more)] on the list object that a call returned under [k]:
    the cache holds that object as long as it holds the entry. *)
Definition extend_in_place (k : Key) (more : list string) (c : Cache) : Cache :=
  map (fun e => if bool_decide (fst e = k) then (fst e, snd e ++ more) else e) c.

(** The keyword arguments of the two calls in [_indent_xml]. *)
Definition indent_kwargs : list (string * bool) :=
  [ ("ignore_common_attrs", true); ("no_wrap_child_texts", true);
    ("no_near_texts", true) ].

Section WithHost.
Context `{Host}.

(** A keyword argument of a call; the four options default to [False]. *)
Definition kwarg (kwargs : list (string * bool)) (name : string) : bool :=
  default false
    (snd <$> List.find (fun kv => Util.str_eqb (fst kv) name) kwargs).

(** [make_element_description_list], as it is called: on the element at
    [p] of the tree object [r], whose attributes are [a], with keyword
    arguments, through the cache.  [XmlUtil.make_element_description_list]
    is the body of the function, which runs when the cache has no entry
    for the call. *)
Definition make_element_description_list (r : nat) (p : Path) (a : Attrs)
    (kwargs : list (string * bool)) (c : Cache) : list string * Cache :=
  lru_call (r, p, kwargs)
    (XmlUtil.make_element_description_list a
       (kwarg kwargs "ignore_common_attrs")
       (kwarg kwargs "no_wrap_child_texts")
       (kwarg kwargs "ignore_text_for_inputable")
       (kwarg kwargs "no_near_texts"))
    c.

(** The call in [_indent_xml]. *)
Definition own_texts (r : nat) (p : Path) (a : Attrs) (c : Cache)
  : list string * Cache :=
  make_element_description_list r p a indent_kwargs c.

(** The loop over [xml_tree.itersiblings()]: the following siblings, which
    are the children [i], [i + 1], ... of the element at [parent]. *)
Fixpoint following_texts (r : nat) (parent : Path) (i : nat)
    (following : list XmlElement) (c : Cache) : list string * Cache :=
  match following with
  | [] => ([], c)
  | node :: rest =>
      let '(node_desc, c) := own_texts r (parent ++ [i]) (attrs node) c in
      let '(more, c) := following_texts r parent (S i) rest c in
      (node_desc ++ more, c)
  end.

(** [_indent_xml] on the element at [path] of the tree object [r]. *)
Fixpoint _indent_xml (r : nat) (root : XmlElement) (path : Path)
    (following : list XmlElement) (depth : nat) (t : XmlElement) (c : Cache)
  : XmlElement * nat * list Path * Cache :=
  match t with
  | Node a cs =>
      let '(cs', child_key_count, found, c) :=
        (fix go (i : nat) (l : list XmlElement) (c : Cache)
           : list XmlElement * nat * list Path * Cache :=
           match l with
           | [] => ([], 0%nat, [], c)
           | ch :: rest =>
               let '(ch', k, f, c) :=
                 _indent_xml r root (path ++ [i]) rest (S depth) ch c in
               let '(rest', k', f', c) := go (S i) rest c in
               (ch' :: rest', (k + k')%nat, f ++ f', c)
           end) 0%nat cs c in
      let '(child_texts0, c) := own_texts r path a c in
      let '(near_raw, c) :=
        following_texts r (removelast path) (S (List.last path 0%nat))
          following c in
      let near := Util.make_list_unique_and_printable near_raw in
      let a := set_near_texts near a in
      let is_this_important := XmlUtil.detection_function_actionable a in
      let a := set "child_key_count" (pretty child_key_count) a in
      let a :=
        if is_this_important
        then set "xpath" (etree_getpath root path) (set "depth" (pretty depth) a)
        else a in
      let total := if is_this_important then S child_key_count else child_key_count in
      let from_children :=
        flat_map (fun ch => if has (attrs ch) "depth" then []
                            else child_texts_of (attrs ch)) cs' in
      let c := extend_in_place (r, path, indent_kwargs) from_children c in
      let texts :=
        List.filter (XmlUtil.not_in near) (child_texts0 ++ from_children) in
      (Node (set_child_texts texts a) cs',
       total,
       (if is_this_important then found ++ [path] else found),
       c)
  end.

Definition indent_xml (r : nat) (t : XmlElement) (c : Cache)
  : XmlElement * list Path * Cache :=
  let '(t', _, found, c) := _indent_xml r t [] [] 0 t c in (t', found, c).

(** [Status.init_element_tree] on the tree object [r], which holds
    [xml_tree]: what the object holds afterwards, and the cache. *)
Definition init_element_tree (r : nat) (xml_tree : XmlElement) (c : Cache)
  : XmlElement * Cache :=
  let t := XmlUtil.pass_down_actionable xml_tree in
  let t := XmlUtil.pass_container_text_down t in
  let '(t, current_found_elements, c) := indent_xml r t c in
  let t := XmlUtil.merge_children_text_desc t in
  let t := XmlUtil.pass_down_child_texts t current_found_elements in
  let t := XmlUtil.keep_only_one_res_id_in_child_texts t current_found_elements in
  (XmlUtil.remove_duplicate_near_texts t current_found_elements, c).

(** The state: the tree objects, the cache, the Status objects, and for
    each Status object the tree object that its [xml_tree] is. *)
Record World : Type := MkWorld {
  trees : gmap nat XmlElement;
  descriptions : Cache;
  statuses : Heap;
  tree_of : gmap nat nat;
}.

Definition with_xml_tree (t : XmlElement) (s : Status.t) : Status.t :=
  Status.Mk (Status.xml s) t (Status.status_level s) (Status.hash s)
    (Status.step_count s) (Status._all_elements s) (Status._xpath_to_element s)
    (Status.element_weights s) (Status.element_depths s)
    (Status.elements_to_this s) (Status.from_status s) (Status.has_inputed s).

(** The tree object [r] is rewritten to [t]: every Status whose [xml_tree]
    is that object has the new content. *)
Definition rewrite_tree (r : nat) (t : XmlElement) (w : World) : World :=
  MkWorld (<[r := t]> (trees w)) (descriptions w)
    (MkHeap
       (map_imap
          (fun oid s =>
             Some (if bool_decide (tree_of w !! oid = Some r)
                   then with_xml_tree t s else s))
          (objects (statuses w)))
       (next_oid (statuses w)))
    (tree_of w).

(** [Status.__init__] on the tree object [xml_tree]: the hash is taken of
    what the object holds when the call starts, and then the object is
    normalised. *)
Definition Status__init__ (activity : Activity.t) (xml : string)
    (xml_tree : nat) (step_count : Z) (status_level : StatusLevel)
    (from_status : option nat) (w : World) : result (Status.t * World) :=
  content ← match trees w !! xml_tree with
            | Some content => Ok content
            | None => Raise Dangling
            end;
  hash ← calc_hash content status_level (Some activity);
  let '(tree, c) := init_element_tree xml_tree content (descriptions w) in
  let w :=
    rewrite_tree xml_tree tree (MkWorld (trees w) c (statuses w) (tree_of w)) in
  let all_elements := get_elements_disable_weight tree in
  xpath_to_element ←
    for_each
      (fun (ed : Path * nat) (m : gmap string Path) =>
         xpath ← attrib_at (default no_attrs (get_attrs tree (fst ed))) "xpath";
         Ok (<[xpath := fst ed]> m))
      all_elements ∅;
  s ← _init_element_weights
        (Status.Mk xml tree status_level hash step_count all_elements
           xpath_to_element ∅ [] [] None false);
  Ok (Status.with_from_status from_status s, w).

(** [Activity._get_status] *)
Definition _get_status (a : Activity.t) (w : World) (xml : string)
    (xml_tree : nat) (step_count : Z) : result (nat * World) :=
  '(this_status, w) ←
    Status__init__ a xml xml_tree step_count (Activity.status_level a) None w;
  let h := statuses w in
  let oid := next_oid h in
  match status_with_hash h (Status.hash this_status) (Activity.statuses a) with
  | Some status =>
      Ok (status,
          MkWorld (trees w) (descriptions w) (MkHeap (objects h) (S oid))
            (tree_of w))
  | None =>
      Ok (oid,
          MkWorld (trees w) (descriptions w)
            (MkHeap (<[oid := this_status]> (objects h)) (S oid))
            (<[oid := xml_tree]> (tree_of w)))
  end.

(** [Activity.add_status] *)
Definition add_status (a : Activity.t) (w : World) (xml : string)
    (xml_tree : nat) (step_count : Z) : result (Activity.t * World * nat) :=
  '(this_status, w) ← _get_status a w xml xml_tree step_count;
  if bool_decide (this_status ∈ Activity.statuses a) then Ok (a, w, this_status)
  else
    let h := statuses w in
    let h := MkHeap (alter (Status.with_from_status (_last_status a))
                           this_status (objects h))
                    (next_oid h) in
    Ok (Activity.Mk (Activity.package_name a) (Activity.activity_name a)
          (Activity.statuses a ++ [this_status]) (Activity.status_level a)
          (Activity.description a) (Activity.is_description_fixed a),
        MkWorld (trees w) (descriptions w) h (tree_of w), this_status).

End WithHost.

End Objects.

(* ===================================================================== *)
(** ** Properties of the shared objects *)
(* ===================================================================== *)

Module ObjectProps.

Import Xml Memory PipelineProps.

(** *** The cache *)

Lemma cache_lookup_elem (k : Objects.Key) (c : Objects.Cache) (v : list string) :
  Objects.cache_lookup k c = Some v -> (k, v) ∈ c.
Proof.
  unfold Objects.cache_lookup. intros Hv.
  destruct (List.find _ c) as [[k' v']|] eqn:Ef; [|discriminate].
  injection Hv as <-. apply List.find_some in Ef as [Hin Hk].
  apply bool_decide_eq_true in Hk. simpl in Hk. subst k'.
  now apply list_elem_of_In.
Qed.

Lemma lru_call_entries (k : Objects.Key) (computed : list string)
    (c : Objects.Cache) (e : Objects.Key * list string) :
  e ∈ (Objects.lru_call k computed c).2 ->
  e = (k, (Objects.lru_call k computed c).1) \/ e ∈ c.
Proof.
  unfold Objects.lru_call. destruct (Objects.cache_lookup k c) as [v|]; simpl.
  - intros [->|Hin]%elem_of_cons; [now left|right].
    unfold Objects.cache_without in Hin.
    apply list_elem_of_In, List.filter_In in Hin as [Hin _].
    now apply list_elem_of_In.
  - intros [->|Hin]%elem_of_cons; [now left|right].
    eapply subseteq_take. exact Hin.
Qed.

Lemma extend_in_place_entries (k : Objects.Key) (more : list string)
    (c : Objects.Cache) (e : Objects.Key * list string) :
  e ∈ Objects.extend_in_place k more c -> fst e = k \/ e ∈ c.
Proof.
  unfold Objects.extend_in_place.
  intros [e0 [-> Hin]]%list_elem_of_fmap.
  case_bool_decide as Hk; [now left|now right].
Qed.

Section WithHost.
Context `{Host}.

(** *** A run of [_indent_xml] that the cache cannot mislead *)

(** Every list that the cache holds for an element of the tree object [r]
    that [_indent_xml] has not visited yet ([done] are the visited ones) is
    the list of the element as it is ([orig] are the attributes of the
    elements before their visit). *)
Definition valid (r : nat) (orig : Path -> option Attrs) (done : Path -> Prop)
    (c : Objects.Cache) : Prop :=
  forall q v,
    ((r, q, Objects.indent_kwargs), v) ∈ c -> ~ done q ->
    exists a, orig q = Some a /\ v = XmlUtil.own_texts a.

Lemma valid_mono (r : nat) (orig : Path -> option Attrs)
    (done done' : Path -> Prop) (c : Objects.Cache) :
  (forall q, done q -> done' q) -> valid r orig done c -> valid r orig done' c.
Proof. intros Hsub Hc q v Hin Hq. apply (Hc q v Hin). auto. Qed.

Lemma own_texts_call (r : nat) (p : Path) (a : Attrs) (c : Objects.Cache) :
  Objects.own_texts r p a c
  = Objects.lru_call (r, p, Objects.indent_kwargs) (XmlUtil.own_texts a) c.
Proof. reflexivity. Qed.

Lemma own_texts_valid (r : nat) (orig : Path -> option Attrs)
    (done : Path -> Prop) (p : Path) (a : Attrs) (c : Objects.Cache) :
  valid r orig done c -> ~ done p -> orig p = Some a ->
  (Objects.own_texts r p a c).1 = XmlUtil.own_texts a
  /\ valid r orig done (Objects.own_texts r p a c).2.
Proof.
  intros Hc Hp Ha. rewrite own_texts_call.
  assert (Hval : (Objects.lru_call (r, p, Objects.indent_kwargs)
                    (XmlUtil.own_texts a) c).1 = XmlUtil.own_texts a).
  { unfold Objects.lru_call.
    destruct (Objects.cache_lookup _ c) as [v|] eqn:Ev; [|reflexivity].
    apply cache_lookup_elem in Ev. destruct (Hc p v Ev Hp) as (a' & Ha' & ->).
    simpl. congruence. }
  split; [exact Hval|].
  intros q v Hin Hq. apply lru_call_entries in Hin as [Heq|Hin].
  - injection Heq as -> ->. exists a. split; [exact Ha|exact Hval].
  - now apply (Hc q v).
Qed.

Lemma following_texts_valid (r : nat) (orig : Path -> option Attrs)
    (done : Path -> Prop) (parent : Path) (following : list XmlElement) :
  forall i c,
    valid r orig done c ->
    (forall j node, following !! j = Some node ->
       orig (parent ++ [(i + j)%nat]) = Some (attrs node)
       /\ ~ done (parent ++ [(i + j)%nat])) ->
    (Objects.following_texts r parent i following c).1
    = flat_map (fun node => XmlUtil.own_texts (attrs node)) following
    /\ valid r orig done (Objects.following_texts r parent i following c).2.
Proof.
  induction following as [|node rest IH]; intros i c Hc Hsib.
  - simpl. now split.
  - cbn [Objects.following_texts flat_map].
    destruct (Hsib 0%nat node eq_refl) as [Ho Hd]. rewrite Nat.add_0_r in Ho, Hd.
    destruct (own_texts_valid r orig done (parent ++ [i]) (attrs node) c Hc Hd Ho)
      as [Hv Hc1].
    destruct (Objects.own_texts r (parent ++ [i]) (attrs node) c) as [d c1].
    simpl in Hv, Hc1. subst d.
    destruct (IH (S i) c1 Hc1) as [Hv2 Hc2].
    { intros j n Hj. specialize (Hsib (S j) n Hj).
      now replace (S i + j)%nat with (i + S j)%nat by lia. }
    destruct (Objects.following_texts r parent (S i) rest c1) as [ds c2].
    simpl in *. subst ds. now split.
Qed.

Lemma extend_in_place_valid (r : nat) (orig : Path -> option Attrs)
    (done : Path -> Prop) (p : Path) (more : list string) (c : Objects.Cache) :
  valid r orig done c ->
  valid r orig (fun q => done q \/ q = p)
    (Objects.extend_in_place (r, p, Objects.indent_kwargs) more c).
Proof.
  intros Hc q v Hin Hq. apply extend_in_place_entries in Hin as [Hk|Hin].
  - simpl in Hk. injection Hk as ->. exfalso. apply Hq. now right.
  - apply (Hc q v Hin). intros Hd. apply Hq. now left.
Qed.


(** The loop of [Objects._indent_xml] over the children of an element,
    from the child at position [i] on. *)
Definition indent_children (r : nat) (root : XmlElement) (path : Path)
    (depth : nat)
  : nat -> list XmlElement -> Objects.Cache
    -> list XmlElement * nat * list Path * Objects.Cache :=
  fix go (i : nat) (l : list XmlElement) (c : Objects.Cache) {struct l} :=
    match l with
    | [] => ([], 0%nat, [], c)
    | ch :: rest =>
        let '(ch', k, f, c) :=
          Objects._indent_xml r root (path ++ [i]) rest (S depth) ch c in
        let '(rest', k', f', c) := go (S i) rest c in
        (ch' :: rest', (k + k')%nat, f ++ f', c)
    end.

Lemma cached_indent_children_cons (r : nat) (root : XmlElement) (path : Path)
    (depth i : nat) (ch : XmlElement) (rest : list XmlElement)
    (c : Objects.Cache) :
  indent_children r root path depth i (ch :: rest) c
  = let '(ch', k, f, c) :=
      Objects._indent_xml r root (path ++ [i]) rest (S depth) ch c in
    let '(rest', k', f', c) := indent_children r root path depth (S i) rest c in
    (ch' :: rest', (k + k')%nat, f ++ f', c).
Proof. reflexivity. Qed.

(** The visit of an element, given what the loop over its children
    returned. *)
Lemma indent_xml_node (r : nat) (root : XmlElement) (path : Path)
    (following : list XmlElement) (depth : nat) (a : Attrs)
    (cs : list XmlElement) (c : Objects.Cache) :
  Objects._indent_xml r root path following depth (Node a cs) c
  = let '(cs', child_key_count, found, c) :=
      indent_children r root path depth 0 cs c in
    let '(child_texts0, c) := Objects.own_texts r path a c in
    let '(near_raw, c) :=
      Objects.following_texts r (removelast path) (S (List.last path 0%nat))
        following c in
    let near := Util.make_list_unique_and_printable near_raw in
    let a := set_near_texts near a in
    let is_this_important := XmlUtil.detection_function_actionable a in
    let a := set "child_key_count" (pretty child_key_count) a in
    let a :=
      if is_this_important
      then set "xpath" (etree_getpath root path) (set "depth" (pretty depth) a)
      else a in
    let total := if is_this_important then S child_key_count else child_key_count in
    let from_children :=
      flat_map (fun ch => if has (attrs ch) "depth" then []
                          else child_texts_of (attrs ch)) cs' in
    let c := Objects.extend_in_place (r, path, Objects.indent_kwargs)
               from_children c in
    let texts :=
      List.filter (XmlUtil.not_in near) (child_texts0 ++ from_children) in
    (Node (set_child_texts texts a) cs',
     total,
     (if is_this_important then found ++ [path] else found),
     c).
Proof. reflexivity. Qed.

Lemma indent_xml_node_value (root : XmlElement) (path : Path)
    (following : list XmlElement) (depth : nat) (a : Attrs)
    (cs : list XmlElement) :
  XmlUtil._indent_xml root path following depth (Node a cs)
  = let '(cs', child_key_count, found) :=
      NormaliserProps.indent_children root path depth 0 cs in
    let child_texts0 := XmlUtil.own_texts a in
    let near :=
      Util.make_list_unique_and_printable
        (flat_map (fun node => XmlUtil.own_texts (attrs node)) following) in
    let a := set_near_texts near a in
    let is_this_important := XmlUtil.detection_function_actionable a in
    let a := set "child_key_count" (pretty child_key_count) a in
    let a :=
      if is_this_important
      then set "xpath" (etree_getpath root path) (set "depth" (pretty depth) a)
      else a in
    let total := if is_this_important then S child_key_count else child_key_count in
    let from_children :=
      flat_map (fun c => if has (attrs c) "depth" then []
                         else child_texts_of (attrs c)) cs' in
    let texts :=
      List.filter (XmlUtil.not_in near) (child_texts0 ++ from_children) in
    (Node (set_child_texts texts a) cs',
     total,
     if is_this_important then found ++ [path] else found).
Proof. reflexivity. Qed.

(** The place of the [j]-th following sibling of the element at [path]. *)
Definition sibling (path : Path) (j : nat) : Path :=
  removelast path ++ [(S (List.last path 0%nat) + j)%nat].

Lemma sibling_snoc (path : Path) (i j : nat) :
  sibling (path ++ [i]) j = path ++ [(S i + j)%nat].
Proof. unfold sibling. now rewrite removelast_last, last_last. Qed.

Lemma sibling_not_below (path : Path) (j : nat) (rel : Path) :
  path ≠ [] -> sibling path j ≠ path ++ rel.
Proof.
  intros Hne Heq. unfold sibling in Heq.
  rewrite (app_removelast_last 0%nat Hne) in Heq at 3.
  rewrite <- app_assoc in Heq. apply app_inv_head in Heq.
  simpl in Heq. injection Heq as Hi _. lia.
Qed.

(** On a tree object whose unvisited elements the cache cannot mislead,
    [Objects._indent_xml] returns what [XmlUtil._indent_xml] returns, and
    leaves such a cache for the elements that it did not visit. *)
Lemma indent_xml_on_fresh (r : nat) (root : XmlElement)
    (orig : Path -> option Attrs) :
  forall t path following depth c done,
    valid r orig done c ->
    (forall rel, orig (path ++ rel) = get_attrs t rel) ->
    (forall rel, ~ done (path ++ rel)) ->
    (forall j node, following !! j = Some node ->
       orig (sibling path j) = Some (attrs node) /\ ~ done (sibling path j)) ->
    (path = [] -> following = []) ->
    exists c',
      Objects._indent_xml r root path following depth t c
      = (XmlUtil._indent_xml root path following depth t, c')
      /\ valid r orig (fun q => done q \/ exists rel, q = path ++ rel) c'.
Proof.
  induction t as [a cs IH] using XmlElement_tree_ind.
  intros path following depth c done Hc Horig Hdone Hsib Hroot.
  (* the children *)
  assert (Hchildren : forall l i c done,
            Forall (fun t => forall path following depth c done,
                      valid r orig done c ->
                      (forall rel, orig (path ++ rel) = get_attrs t rel) ->
                      (forall rel, ~ done (path ++ rel)) ->
                      (forall j node, following !! j = Some node ->
                         orig (sibling path j) = Some (attrs node)
                         /\ ~ done (sibling path j)) ->
                      (path = [] -> following = []) ->
                      exists c',
                        Objects._indent_xml r root path following depth t c
                        = (XmlUtil._indent_xml root path following depth t, c')
                        /\ valid r orig
                             (fun q => done q \/ exists rel, q = path ++ rel) c') l ->
            valid r orig done c ->
            (forall k ch rel, l !! k = Some ch ->
               orig (path ++ (i + k)%nat :: rel) = get_attrs ch rel) ->
            (forall k rel, ~ done (path ++ (i + k)%nat :: rel)) ->
            exists c',
              indent_children r root path depth i l c
              = (NormaliserProps.indent_children root path depth i l, c')
              /\ valid r orig
                   (fun q => done q \/ exists k rel, q = path ++ k :: rel) c').
  { clear. induction l as [|ch rest IHl]; intros i c done Hall Hc Horig Hdone.
    - exists c. split; [reflexivity|].
      apply (valid_mono r orig done); [|exact Hc]. intros q Hq. now left.
    - apply Forall_cons in Hall as [Hch Hall].
      rewrite cached_indent_children_cons, NormaliserProps.indent_children_cons.
      destruct (Hch (path ++ [i]) rest (S depth) c done Hc) as (c1 & Hrun1 & Hc1).
      + intros rel. rewrite <- app_assoc. simpl.
        specialize (Horig 0%nat ch rel eq_refl). now rewrite Nat.add_0_r in Horig.
      + intros rel. rewrite <- app_assoc. simpl.
        specialize (Hdone 0%nat rel). now rewrite Nat.add_0_r in Hdone.
      + intros j node Hj. rewrite sibling_snoc. split.
        * specialize (Horig (S j) node [] Hj).
          replace (i + S j)%nat with (S i + j)%nat in Horig by lia.
          exact Horig.
        * specialize (Hdone (S j) []).
          now replace (i + S j)%nat with (S i + j)%nat in Hdone by lia.
      + intros Hnil. now apply app_eq_nil in Hnil as [_ Hnil].
      + rewrite Hrun1.
        destruct (XmlUtil._indent_xml root (path ++ [i]) rest (S depth) ch)
          as [[ch' k] f].
        destruct (IHl (S i) c1
                    (fun q => done q \/ exists rel, q = (path ++ [i]) ++ rel)
                    Hall Hc1) as (c2 & Hrun2 & Hc2).
        * intros k0 ch0 rel Hk0. specialize (Horig (S k0) ch0 rel Hk0).
          now replace (i + S k0)%nat with (S i + k0)%nat in Horig by lia.
        * intros k0 rel [Hd|[rel' Heq]].
          -- apply (Hdone (S k0) rel).
             now replace (i + S k0)%nat with (S i + k0)%nat by lia.
          -- rewrite <- app_assoc in Heq. apply app_inv_head in Heq.
             simpl in Heq. injection Heq as Hi _. lia.
        * rewrite Hrun2.
          destruct (NormaliserProps.indent_children root path depth (S i) rest)
            as [[rest' k'] f'].
          exists c2. split; [reflexivity|].
          refine (valid_mono r orig _ _ c2 _ Hc2).
          intros q [[Hd|[rel Heq]]|Hbelow]; [now left| |now right].
          right. rewrite <- app_assoc in Heq. simpl in Heq. eauto. }
  destruct (Hchildren cs 0%nat c done IH Hc) as (c1 & Hrun1 & Hc1).
  { intros k ch rel Hk. rewrite Horig. unfold get_attrs. simpl. now rewrite Hk. }
  { intros k rel. apply Hdone. }
  rewrite indent_xml_node, indent_xml_node_value, Hrun1.
  destruct (NormaliserProps.indent_children root path depth 0 cs)
    as [[cs' child_key_count] found].
  (* the element itself *)
  destruct (own_texts_valid r orig _ path a c1 Hc1) as [Hv2 Hc2].
  { intros [Hd|(k & rel & Heq)].
    - apply (Hdone []). now rewrite app_nil_r.
    - rewrite <- (app_nil_r path) in Heq at 1. apply app_inv_head in Heq.
      discriminate. }
  { specialize (Horig []). now rewrite app_nil_r in Horig. }
  destruct (Objects.own_texts r path a c1) as [child_texts0 c2].
  simpl in Hv2, Hc2. subst child_texts0.
  (* its following siblings *)
  destruct (following_texts_valid r orig _ (removelast path) following
              (S (List.last path 0%nat)) c2 Hc2) as [Hv3 Hc3].
  { intros j node Hj. destruct (Hsib j node Hj) as [Ho Hd].
    split; [exact Ho|]. intros [Hd'|(k & rel & Heq)]; [now apply Hd|].
    destruct path as [|i0 path0] eqn:Epath.
    - rewrite (Hroot eq_refl) in Hj. discriminate.
    - rewrite <- Epath in *. apply (sibling_not_below path j (k :: rel)).
      + rewrite Epath. discriminate.
      + exact Heq. }
  destruct (Objects.following_texts r (removelast path)
              (S (List.last path 0%nat)) following c2) as [near_raw c3].
  simpl in Hv3, Hc3. subst near_raw.
  cbv zeta. eexists. split; [reflexivity|].
  refine (valid_mono r orig _ _ _ _ (extend_in_place_valid r orig _ path _ c3 Hc3)).
  intros q [[Hd|(k & rel & Heq)]|Heq]; [now left|right|right].
  - now exists (k :: rel).
  - exists []. now rewrite app_nil_r.
Qed.


(** *** What any run of the normaliser keeps *)

(** Whatever the cache holds, key-node detection leaves a tree in which
    every element that carries [depth] carries [xpath]. *)
Lemma cached_indent_xml_keeps (r : nat) (root : XmlElement) :
  forall t path following depth c,
    tree_all depth_has_xpath t ->
    tree_all depth_has_xpath
      (Objects._indent_xml r root path following depth t c).1.1.1.
Proof.
  induction t as [a cs IH] using XmlElement_tree_ind.
  intros path following depth c Ht. apply tree_all_node in Ht as [Ha Hcs].
  assert (Hchildren : forall i c,
             Forall (tree_all depth_has_xpath)
                    (indent_children r root path depth i cs c).1.1.1).
  { clear Ha. induction cs as [|ch cs IHcs]; intros i c0; [constructor|].
    apply Forall_cons in IH as [IHc IHrest].
    apply Forall_cons in Hcs as [Hc Hcs].
    rewrite cached_indent_children_cons.
    specialize (IHc (path ++ [i]) cs (S depth) c0 Hc).
    destruct (Objects._indent_xml r root (path ++ [i]) cs (S depth) ch c0)
      as [[[ch' k] f] c1].
    specialize (IHcs IHrest Hcs (S i) c1).
    destruct (indent_children r root path depth (S i) cs c1)
      as [[[r' k'] f'] c2].
    constructor; assumption. }
  specialize (Hchildren 0%nat c).
  rewrite indent_xml_node.
  destruct (indent_children r root path depth 0 cs c) as [[[cs' k] f] c1].
  destruct (Objects.own_texts r path a c1) as [child_texts0 c2].
  destruct (Objects.following_texts r (removelast path)
              (S (List.last path 0%nat)) following c2) as [near_raw c3].
  cbv zeta. cbn [fst]. simpl in Hchildren.
  apply tree_all_node. split; [|exact Hchildren].
  apply set_child_texts_keeps.
  destruct (XmlUtil.detection_function_actionable _).
  - intros _. unfold get, set. simpl. rewrite assoc_get_set_same. eauto.
  - apply set_keeps; [discriminate|]. now apply set_near_texts_keeps.
Qed.

Lemma cached_init_element_tree_keeps (r : nat) (t : XmlElement) (c : Objects.Cache) :
  tree_all depth_has_xpath t ->
  tree_all depth_has_xpath (Objects.init_element_tree r t c).1.
Proof.
  intros Ht. unfold Objects.init_element_tree, Objects.indent_xml.
  set (t2 := XmlUtil.pass_container_text_down (XmlUtil.pass_down_actionable t)).
  assert (Ht2 : tree_all depth_has_xpath t2).
  { unfold t2, XmlUtil.pass_container_text_down, XmlUtil.pass_down_actionable,
      XmlUtil.do_func_on_every_element.
    apply do_func_keeps; [exact pass_container_text_down_func_keeps|].
    apply do_func_keeps; [exact pass_down_actionable_func_keeps|exact Ht]. }
  pose proof (cached_indent_xml_keeps r t2 t2 [] [] 0%nat c Ht2) as Hind.
  destruct (Objects._indent_xml r t2 [] [] 0 t2 c) as [[[t3 k] found] c1].
  simpl in Hind |- *.
  apply remove_duplicate_near_texts_keeps, keep_only_one_res_id_keeps,
    pass_down_child_texts_keeps. exact Hind.
Qed.

(** *** A tree that was just parsed *)

(** The cache holds no list for an element of the tree object [r]. *)
Definition fresh (r : nat) (c : Objects.Cache) : Prop :=
  forall k v, (k, v) ∈ c -> k.1.1 ≠ r.

(** On such a tree object the normaliser does what
    [Memory.init_element_tree] does with its content. *)
Lemma init_element_tree_on_fresh (r : nat) (t : XmlElement)
    (c : Objects.Cache) :
  fresh r c ->
  (Objects.init_element_tree r t c).1 = Memory.init_element_tree t.
Proof.
  intros Hfresh. unfold Objects.init_element_tree, Objects.indent_xml,
    Memory.init_element_tree, XmlUtil.indent_xml.
  set (t2 := XmlUtil.pass_container_text_down (XmlUtil.pass_down_actionable t)).
  destruct (indent_xml_on_fresh r t2 (get_attrs t2) t2 [] [] 0%nat c
              (fun _ => False)) as (c' & Hrun & _).
  - intros q v Hin _. exfalso. now apply (Hfresh _ _ Hin).
  - reflexivity.
  - intros rel Hf. exact Hf.
  - intros j node Hj. discriminate.
  - reflexivity.
  - rewrite Hrun.
    destruct (XmlUtil._indent_xml t2 [] [] 0 t2) as [[t3 k] found].
    reflexivity.
Qed.

(** *** The constructor on a tree object *)

Lemma listed_keys_have_xpath (tree : XmlElement) :
  tree_all depth_has_xpath tree ->
  forall ed, ed ∈ get_elements_disable_weight tree ->
             is_Some (WeightProps.xpath_of tree ed).
Proof.
  intros Ht ed Hed.
  assert (Hin : ed ∈ XmlUtil.traverse_xml tree).
  { unfold get_elements_disable_weight in Hed.
    destruct (negb filter_by_status_weight); [exact Hed|].
    apply list_elem_of_In, List.filter_In in Hed as [Hed _].
    now apply list_elem_of_In. }
  destruct ed as [q d]. unfold XmlUtil.traverse_xml in Hin.
  apply traverse_xml_refs in Hin as (rel & a & Hq & Hget & Hd).
  simpl in Hq. subst q. unfold WeightProps.xpath_of. simpl. rewrite Hget. simpl.
  exact (tree_all_at _ _ _ _ Ht Hget Hd).
Qed.

(** The part of [Status.__init__] that follows the normalisation. *)
Definition Status_of_tree (xml : string) (tree : XmlElement) (hash : string)
    (step_count : Z) (status_level : StatusLevel) (from_status : option nat)
  : result Status.t :=
  xpath_to_element ←
    for_each
      (fun (ed : Path * nat) (m : gmap string Path) =>
         xpath ← attrib_at (default no_attrs (get_attrs tree (fst ed))) "xpath";
         Ok (<[xpath := fst ed]> m))
      (get_elements_disable_weight tree) ∅;
  s ← _init_element_weights
        (Status.Mk xml tree status_level hash step_count
           (get_elements_disable_weight tree) xpath_to_element ∅ [] [] None false);
  Ok (Status.with_from_status from_status s).

Lemma Status_of_tree_returns (xml : string) (tree : XmlElement) (hash : string)
    (step_count : Z) (status_level : StatusLevel) (from_status : option nat) :
  tree_all depth_has_xpath tree ->
  exists s,
    Status_of_tree xml tree hash step_count status_level from_status = Ok s
    /\ Status.hash s = hash.
Proof.
  intros Ht. pose proof (listed_keys_have_xpath tree Ht) as Hkeys.
  unfold Status_of_tree.
  destruct (DedupProps.xpath_loop_ok tree (get_elements_disable_weight tree) ∅
              Hkeys) as [m Hm].
  rewrite Hm, WeightProps.ret_bind.
  set (s0 := Status.Mk xml tree status_level hash step_count
               (get_elements_disable_weight tree) m ∅ [] [] None false).
  destruct (DedupProps.init_loop_ok tree (get_elements_disable_weight tree) s0
              eq_refl Hkeys) as [s1 Hs1].
  assert (Hw : _init_element_weights s0
               = Ok (update_element_weight "back" Weight.DEFAULT s1)).
  { unfold _init_element_weights. change (Status._all_elements s0)
      with (get_elements_disable_weight tree). now rewrite Hs1. }
  rewrite Hw, WeightProps.ret_bind. eexists. split; [reflexivity|].
  apply WeightProps.init_element_weights_spec in Hw as (_ & _ & _ & Hh & _).
  - exact Hh.
  - intros p w Hp. simpl in Hp. rewrite lookup_empty in Hp. discriminate.
Qed.

Lemma Status_init_value (activity : Activity.t) (xml : string)
    (xml_tree : XmlElement) (step_count : Z) (status_level : StatusLevel)
    (from_status : option nat) :
  Memory.Status__init__ activity xml xml_tree step_count status_level from_status
  = (hash ← calc_hash xml_tree status_level (Some activity);
     Status_of_tree xml (Memory.init_element_tree xml_tree) hash step_count
       status_level from_status).
Proof. reflexivity. Qed.

Lemma Status_init_object (activity : Activity.t) (xml : string)
    (xml_tree : nat) (step_count : Z) (status_level : StatusLevel)
    (from_status : option nat) (w : Objects.World) (content : XmlElement) :
  Objects.trees w !! xml_tree = Some content ->
  Objects.Status__init__ activity xml xml_tree step_count status_level
    from_status w
  = (hash ← calc_hash content status_level (Some activity);
     s ← Status_of_tree xml
           (Objects.init_element_tree xml_tree content (Objects.descriptions w)).1
           hash step_count status_level from_status;
     Ok (s,
         Objects.rewrite_tree xml_tree
           (Objects.init_element_tree xml_tree content (Objects.descriptions w)).1
           (Objects.MkWorld (Objects.trees w)
              (Objects.init_element_tree xml_tree content
                 (Objects.descriptions w)).2
              (Objects.statuses w) (Objects.tree_of w)))).
Proof.
  intros Hr. unfold Objects.Status__init__. rewrite Hr, WeightProps.ret_bind.
  destruct (calc_hash content status_level (Some activity)) as [hash|e];
    [|reflexivity].
  rewrite !WeightProps.ret_bind.
  destruct (Objects.init_element_tree xml_tree content (Objects.descriptions w))
    as [tree c].
  unfold Status_of_tree. cbn [fst snd].
  destruct (for_each _ (get_elements_disable_weight tree) ∅) as [m|e];
    [|reflexivity].
  rewrite !WeightProps.ret_bind.
  destruct (_init_element_weights _) as [s|e]; reflexivity.
Qed.

(** On a tree object that was just parsed, [Objects.Status__init__] returns
    the Status that [Memory.Status__init__] makes of its content (or raises
    what it raises), and leaves the normalised tree in the object. *)
Lemma Status_init_on_fresh (activity : Activity.t) (xml : string)
    (xml_tree : nat) (step_count : Z) (status_level : StatusLevel)
    (from_status : option nat) (w : Objects.World) (content : XmlElement) :
  Objects.trees w !! xml_tree = Some content ->
  fresh xml_tree (Objects.descriptions w) ->
  match Memory.Status__init__ activity xml content step_count status_level
          from_status with
  | Ok s =>
      exists w',
        Objects.Status__init__ activity xml xml_tree step_count status_level
          from_status w = Ok (s, w')
        /\ Objects.trees w' !! xml_tree = Some (Memory.init_element_tree content)
        /\ Status.xml_tree s = Memory.init_element_tree content
  | Raise e =>
      Objects.Status__init__ activity xml xml_tree step_count status_level
        from_status w = Raise e
  end.
Proof.
  intros Hr Hfresh.
  rewrite (Status_init_object _ _ _ _ _ _ _ content Hr), Status_init_value.
  rewrite (init_element_tree_on_fresh _ _ _ Hfresh).
  destruct (calc_hash content status_level (Some activity)) as [hash|e];
    [|reflexivity].
  rewrite !WeightProps.ret_bind.
  destruct (Status_of_tree xml (Memory.init_element_tree content) hash step_count
              status_level from_status) as [s|e] eqn:Es; [|reflexivity].
  rewrite WeightProps.ret_bind. eexists. split; [reflexivity|]. split.
  - unfold Objects.rewrite_tree. cbn [Objects.trees]. apply lookup_insert_eq.
  - unfold Status_of_tree in Es.
    apply WeightProps.bind_Ok in Es as (m & _ & Es).
    apply WeightProps.bind_Ok in Es as (s1 & Hw & Hret). injection Hret as <-.
    apply WeightProps.init_element_weights_spec in Hw as (_ & Htree & _).
    + exact Htree.
    + intros p w0 Hp. simpl in Hp. rewrite lookup_empty in Hp. discriminate.
Qed.


(** *** Two calls of [add_status] *)

(** The hash of the Status object that [id] stands for. *)
Definition hash_at (h : Heap) (id : nat) : option string :=
  Status.hash <$> objects h !! id.

Lemma scan_test (h : Heap) (hash : string) (id : nat) :
  match objects h !! id with
  | Some status => Util.str_eqb (Status.hash status) hash
  | None => false
  end = bool_decide (hash_at h id = Some hash).
Proof.
  unfold hash_at, Util.str_eqb. destruct (objects h !! id) as [st|]; simpl.
  - apply bool_decide_ext. split; [now intros ->|now intros [= ->]].
  - first [reflexivity|symmetry; now apply bool_decide_eq_false_2].
Qed.

Lemma scan_by_hash (h h' : Heap) (hash : string) (ids : list nat) :
  (forall id, id ∈ ids -> hash_at h' id = hash_at h id) ->
  status_with_hash h' hash ids = status_with_hash h hash ids.
Proof.
  unfold status_with_hash. induction ids as [|x ids IH]; intros Hsame;
    [reflexivity|].
  cbn [List.find]. rewrite !scan_test.
  rewrite (Hsame x) by (apply elem_of_cons; now left).
  rewrite IH; [reflexivity|].
  intros id Hid. apply Hsame. apply elem_of_cons. now right.
Qed.

Lemma scan_finds_hash (h : Heap) (hash : string) (ids : list nat) (n : nat) :
  hash_at h n = Some hash -> n ∈ ids ->
  (forall x, x ∈ ids -> x ≠ n -> hash_at h x ≠ Some hash) ->
  status_with_hash h hash ids = Some n.
Proof.
  intros Hn Hin Hothers. unfold status_with_hash.
  apply DedupProps.find_the_only; [| |exact Hin].
  - intros x Hx Hne. rewrite scan_test. apply bool_decide_eq_false_2.
    now apply Hothers.
  - rewrite scan_test. now apply bool_decide_eq_true_2.
Qed.

Lemma scan_none_hash (h : Heap) (hash : string) (ids : list nat) (x : nat) :
  status_with_hash h hash ids = None -> x ∈ ids -> hash_at h x ≠ Some hash.
Proof.
  intros Hnone Hx. unfold status_with_hash in Hnone.
  pose proof (DedupProps.find_none_rejects _ _ x Hnone Hx) as Hrej.
  cbv beta in Hrej. rewrite scan_test in Hrej.
  now apply bool_decide_eq_false in Hrej.
Qed.

Lemma scan_some_elem (h : Heap) (hash : string) (ids : list nat) (x : nat) :
  status_with_hash h hash ids = Some x -> x ∈ ids.
Proof.
  intros Hsome. unfold status_with_hash in Hsome.
  now apply DedupProps.find_some_elem in Hsome as [Hin _].
Qed.

Lemma hash_at_rewrite_tree (r : nat) (t : XmlElement) (w : Objects.World)
    (id : nat) :
  hash_at (Objects.statuses (Objects.rewrite_tree r t w)) id
  = hash_at (Objects.statuses w) id.
Proof.
  unfold hash_at, Objects.rewrite_tree. cbn [Objects.statuses objects].
  rewrite map_lookup_imap.
  destruct (objects (Objects.statuses w) !! id) as [st|]; [|reflexivity].
  simpl. now destruct (bool_decide _).
Qed.

(** The hash at the two levels that do not read the tree, and at any level
    for one tree. *)
Lemma calc_hash_same (t t' : XmlElement) (a a' : Activity.t) :
  Activity.activity_name a' = Activity.activity_name a ->
  Activity.package_name a' = Activity.package_name a ->
  Activity.status_level a' = Activity.status_level a ->
  t' = t \/ Activity.status_level a = ACTIVITY_IGNORE_LAYOUT
  \/ Activity.status_level a = PACKAGE ->
  calc_hash t' (Activity.status_level a') (Some a')
  = calc_hash t (Activity.status_level a) (Some a).
Proof.
  intros Hname Hpack Hlevel Hcase.
  rewrite !HashProps.calc_hash_with_activity, Hlevel. do 2 f_equal.
  destruct Hcase as [->|[Hl|Hl]].
  - destruct (Activity.status_level a); simpl; congruence.
  - rewrite Hl. simpl. exact Hname.
  - rewrite Hl. simpl. exact Hpack.
Qed.

(** One call of [add_status] on a tree object. *)
Lemma add_status_spec (a : Activity.t) (w : Objects.World) (xml : string)
    (r : nat) (step_count : Z) (content : XmlElement) :
  Objects.trees w !! r = Some content ->
  tree_all depth_has_xpath content ->
  exists hash tree a1 w1 status,
    calc_hash content (Activity.status_level a) (Some a) = Ok hash
    /\ Objects.add_status a w xml r step_count = Ok (a1, w1, status)
    /\ tree_all depth_has_xpath tree
    /\ Objects.trees w1 = <[r := tree]> (Objects.trees w)
    /\ Activity.activity_name a1 = Activity.activity_name a
    /\ Activity.package_name a1 = Activity.package_name a
    /\ Activity.status_level a1 = Activity.status_level a
    /\ match status_with_hash (Objects.statuses w) hash (Activity.statuses a) with
       | Some old =>
           a1 = a /\ status = old
           /\ (forall id, hash_at (Objects.statuses w1) id
                          = hash_at (Objects.statuses w) id)
       | None =>
           status = next_oid (Objects.statuses w)
           /\ (forall id, hash_at (Objects.statuses w1) id
                          = if decide (id = status) then Some hash
                            else hash_at (Objects.statuses w) id)
           /\ Activity.statuses a1
              = (if bool_decide (status ∈ Activity.statuses a)
                 then Activity.statuses a
                 else Activity.statuses a ++ [status])
       end.
Proof.
  intros Hr Ht.
  set (norm := Objects.init_element_tree r content (Objects.descriptions w)).
  pose proof (cached_init_element_tree_keeps r content (Objects.descriptions w) Ht)
    as Htree.
  fold norm in Htree.
  destruct (Status_of_tree_returns xml norm.1
              (level_str (Activity.status_level a)
               +:+ HashProps.hash_body content (Activity.status_level a) a)
              step_count (Activity.status_level a) None Htree)
    as (s & Hs & Hhash).
  set (hash := level_str (Activity.status_level a)
               +:+ HashProps.hash_body content (Activity.status_level a) a) in *.
  set (w' := Objects.rewrite_tree r norm.1
               (Objects.MkWorld (Objects.trees w) norm.2 (Objects.statuses w)
                  (Objects.tree_of w))).
  assert (Hinit : Objects.Status__init__ a xml r step_count
                    (Activity.status_level a) None w = Ok (s, w')).
  { rewrite (Status_init_object _ _ _ _ _ _ _ content Hr).
    rewrite HashProps.calc_hash_with_activity, WeightProps.ret_bind.
    fold norm hash. rewrite Hs. reflexivity. }
  assert (Hsame : forall id, hash_at (Objects.statuses w') id
                             = hash_at (Objects.statuses w) id).
  { intros id. unfold w'. now rewrite hash_at_rewrite_tree. }
  assert (Hscan : status_with_hash (Objects.statuses w') (Status.hash s)
                    (Activity.statuses a)
                  = status_with_hash (Objects.statuses w) hash (Activity.statuses a)).
  { rewrite Hhash. apply scan_by_hash. intros id _. apply Hsame. }
  assert (Hnext : next_oid (Objects.statuses w') = next_oid (Objects.statuses w))
    by reflexivity.
  assert (Htrees : Objects.trees w' = <[r := norm.1]> (Objects.trees w))
    by reflexivity.
  exists hash, norm.1.
  unfold Objects.add_status, Objects._get_status.
  rewrite Hinit, WeightProps.ret_bind. cbv zeta. rewrite Hscan.
  destruct (status_with_hash (Objects.statuses w) hash (Activity.statuses a))
    as [old|] eqn:Eold.
  - rewrite WeightProps.ret_bind.
    rewrite bool_decide_eq_true_2 by exact (scan_some_elem _ _ _ _ Eold).
    eexists _, _, _. split; [apply HashProps.calc_hash_with_activity|].
    split; [reflexivity|]. split; [exact Htree|]. split; [exact Htrees|].
    split; [reflexivity|]. split; [reflexivity|]. split; [reflexivity|].
    split; [reflexivity|]. split; [reflexivity|].
    intros id. unfold hash_at. cbn [Objects.statuses objects]. apply Hsame.
  - rewrite WeightProps.ret_bind. rewrite Hnext.
    set (n := next_oid (Objects.statuses w)).
    destruct (bool_decide (n ∈ Activity.statuses a)) eqn:Ein.
    + eexists _, _, _. split; [apply HashProps.calc_hash_with_activity|].
      split; [reflexivity|]. split; [exact Htree|]. split; [exact Htrees|].
      split; [reflexivity|]. split; [reflexivity|]. split; [reflexivity|].
      split; [reflexivity|]. split; [|now rewrite Ein].
      intros id. unfold hash_at at 1. cbn [Objects.statuses objects].
      destruct (decide (id = n)) as [->|Hne].
      * rewrite lookup_insert_eq. simpl. now rewrite Hhash.
      * rewrite lookup_insert_ne by congruence. apply Hsame.
    + eexists _, _, _. split; [apply HashProps.calc_hash_with_activity|].
      split; [reflexivity|]. split; [exact Htree|]. split; [exact Htrees|].
      split; [reflexivity|]. split; [reflexivity|]. split; [reflexivity|].
      split; [reflexivity|]. split; [|now rewrite Ein].
      intros id. unfold hash_at at 1. cbn [Objects.statuses objects].
      destruct (decide (id = n)) as [->|Hne].
      * rewrite lookup_alter_eq, lookup_insert_eq. simpl. now rewrite Hhash.
      * rewrite lookup_alter_ne, lookup_insert_ne by congruence. apply Hsame.
Qed.

(** C2, as the code has it.  Two calls of [add_status] in succession on
    one Activity, each with a tree object that holds the captured tree [T]
    (no element carries [depth] without [xpath]) when the first call
    starts, return; and when the two calls get two tree objects, as every
    caller arranges by parsing the page source anew for each call, or when
    the level of the Activity is ACTIVITY_IGNORE_LAYOUT or PACKAGE, the
    second call returns the very Status object that the first returned and
    leaves the Activity (so its list of Statuses, and the length of that
    list) as the first call left it, and makes no Status object.  Whatever
    the cache of description lists holds, and whatever the step counts and
    page sources of the two calls are. *)
Theorem add_status_twice_returns_same_status (a : Activity.t)
    (w : Objects.World) (xml1 xml2 : string) (r1 r2 : nat) (T : XmlElement)
    (step1 step2 : Z) :
  Objects.trees w !! r1 = Some T ->
  Objects.trees w !! r2 = Some T ->
  tree_all depth_has_xpath T ->
  r1 ≠ r2 \/ Activity.status_level a = ACTIVITY_IGNORE_LAYOUT
  \/ Activity.status_level a = PACKAGE ->
  exists a1 w1 w2 status,
    Objects.add_status a w xml1 r1 step1 = Ok (a1, w1, status)
    /\ Objects.add_status a1 w1 xml2 r2 step2 = Ok (a1, w2, status)
    /\ status ∈ Activity.statuses a1
    /\ (forall oid, is_Some (objects (Objects.statuses w2) !! oid)
                    <-> is_Some (objects (Objects.statuses w1) !! oid)).
Proof.
  intros Hr1 Hr2 Ht Hcase.
  destruct (add_status_spec a w xml1 r1 step1 T Hr1 Ht)
    as (hash & tree1 & a1 & w1 & status & Hhash & Hrun1 & Htree1 & Htrees1
        & Hname & Hpack & Hlevel & Hcase1).
  (* what the second tree object holds when the second call starts *)
  assert (Hsecond : exists T2,
             Objects.trees w1 !! r2 = Some T2 /\ tree_all depth_has_xpath T2
             /\ (T2 = T \/ Activity.status_level a = ACTIVITY_IGNORE_LAYOUT
                 \/ Activity.status_level a = PACKAGE)).
  { rewrite Htrees1. destruct (decide (r1 = r2)) as [->|Hne].
    - exists tree1. rewrite lookup_insert_eq. split; [reflexivity|].
      split; [exact Htree1|]. right. destruct Hcase as [Hc|Hc]; [congruence|exact Hc].
    - exists T. rewrite lookup_insert_ne by exact Hne. split; [exact Hr2|].
      split; [exact Ht|]. now left. }
  destruct Hsecond as (T2 & Hr2' & Ht2 & Hcase2).
  destruct (add_status_spec a1 w1 xml2 r2 step2 T2 Hr2' Ht2)
    as (hash2 & tree2 & a2 & w2 & status2 & Hhash2 & Hrun2 & _ & _
        & _ & _ & _ & Hcase3).
  rewrite (calc_hash_same T T2 a a1 Hname Hpack Hlevel Hcase2), Hhash in Hhash2.
  injection Hhash2 as <-.
  assert (Hdom : forall h h' : Heap,
            (forall id, hash_at h' id = hash_at h id) ->
            forall oid, is_Some (objects h' !! oid) <-> is_Some (objects h !! oid)).
  { intros h h' Hsame oid. specialize (Hsame oid). unfold hash_at in Hsame.
    destruct (objects h' !! oid), (objects h !! oid); simpl in Hsame;
      try discriminate; split; intros [? ?]; eauto; discriminate. }
  destruct (status_with_hash (Objects.statuses w) hash (Activity.statuses a))
    as [old|] eqn:Eold.
  - (* a Status of the Activity had the hash *)
    destruct Hcase1 as (-> & -> & Hsame1).
    rewrite (scan_by_hash (Objects.statuses w) (Objects.statuses w1)), Eold
      in Hcase3 by (intros id _; apply Hsame1).
    destruct Hcase3 as (-> & -> & Hsame2).
    exists a, w1, w2, old. split; [exact Hrun1|]. split; [exact Hrun2|].
    split; [exact (scan_some_elem _ _ _ _ Eold)|]. now apply Hdom.
  - (* the first call made the Status *)
    destruct Hcase1 as (Hstatus & Hsame1 & Hlist).
    assert (Hin : status ∈ Activity.statuses a1).
    { rewrite Hlist.
      destruct (bool_decide (status ∈ Activity.statuses a)) eqn:Ed.
      - now apply bool_decide_eq_true in Ed.
      - apply elem_of_app. right. now apply list_elem_of_singleton. }
    rewrite (scan_finds_hash (Objects.statuses w1) hash (Activity.statuses a1)
               status) in Hcase3.
    + destruct Hcase3 as (-> & -> & Hsame2).
      exists a1, w1, w2, status. split; [exact Hrun1|]. split; [exact Hrun2|].
      split; [exact Hin|]. now apply Hdom.
    + rewrite Hsame1. now rewrite decide_True by reflexivity.
    + exact Hin.
    + intros x Hx Hne. rewrite Hsame1, decide_False by exact Hne.
      apply (scan_none_hash _ _ _ x Eold).
      rewrite Hlist in Hx.
      destruct (bool_decide (status ∈ Activity.statuses a)); [exact Hx|].
      apply elem_of_app in Hx as [Hx|Hx]; [exact Hx|].
      apply list_elem_of_singleton in Hx. contradiction.
Qed.

End WithHost.

End ObjectProps.

(* ===================================================================== *)
(** ** A sample run on tree objects *)
(* ===================================================================== *)

Module SampleObjects.

Import Xml Memory.

(** A serialiser that prints, as lxml's does, every element with its tag
    and its attributes, the two JSON-encoded ones included. *)
Definition attribute (k v : string) : string :=
  " " +:+ k +:+ "=" +:+ Util.dquote +:+ v +:+ Util.dquote.

Definition json_attribute (k : string) (v : option (list string)) : string :=
  match v with
  | Some l => attribute k ("[" +:+ Util.join ", " l +:+ "]")
  | None => EmptyString
  end.

Fixpoint tostring (t : XmlElement) : string :=
  match t with
  | Node a cs =>
      "<" +:+ tag a
      +:+ Util.join EmptyString (map (fun kv => attribute (fst kv) (snd kv)) (attrib a))
      +:+ json_attribute "near_texts" (near_texts a)
      +:+ json_attribute "child_texts" (child_texts a)
      +:+ ">" +:+ Util.join EmptyString (map tostring cs)
      +:+ "</" +:+ tag a +:+ ">"
  end.

(** A host as [Sample.host], with this serialiser. *)
#[local] Instance host : Host :=
  MkHost (fun s => s)
         tostring
         (fun _ p => "/hierarchy" +:+ Util.join EmptyString (map (fun i => "/*[" +:+ pretty (S i) +:+ "]") p))
         (fun l => "[" +:+ Util.join ", " l +:+ "]")
         true.

(** Two tree objects, each as the parser returns it for the sample screen,
    no Status, and an empty cache. *)
Definition world : Objects.World :=
  Objects.MkWorld
    (<[0%nat := Sample.label_then_button]> {[ 1%nat := Sample.label_then_button ]})
    [] empty_heap ∅.

End SampleObjects.

(** C2 fails when one tree object is passed to both calls: at the default
    level the second call hashes the tree that the first call normalised,
    finds no Status with that hash, and adds a second Status to the
    Activity. *)
Lemma same_tree_object_twice_counterexample :
  exists a1 w1 a2 w2,
    @Objects.add_status SampleObjects.host Sample.activity0 SampleObjects.world
      EmptyString 0%nat 0 = Ok (a1, w1, 0%nat)
    /\ @Objects.add_status SampleObjects.host a1 w1 EmptyString 0%nat 1
       = Ok (a2, w2, 1%nat)
    /\ Memory.Activity.statuses a1 = [0%nat]
    /\ Memory.Activity.statuses a2 = [0%nat; 1%nat].
Proof.
  eexists _, _, _, _. split; [vm_compute; reflexivity|].
  split; [vm_compute; reflexivity|]. split; reflexivity.
Qed.

(** After these two calls the cache holds, for the root of the tree
    object, a list that repeats an entry: the list object that the first
    visit of [_indent_xml] extended was handed out again and extended again
    at the second. *)
Lemma cached_list_repeats :
  exists a1 w1 a2 w2 s1 s2,
    @Objects.add_status SampleObjects.host Sample.activity0 SampleObjects.world
      EmptyString 0%nat 0 = Ok (a1, w1, s1)
    /\ @Objects.add_status SampleObjects.host a1 w1 EmptyString 0%nat 1
       = Ok (a2, w2, s2)
    /\ Objects.cache_lookup (0%nat, [], Objects.indent_kwargs)
         (Objects.descriptions w1) = Some ["Hello"]
    /\ Objects.cache_lookup (0%nat, [], Objects.indent_kwargs)
         (Objects.descriptions w2) = Some ["Hello"; "Hello"].
Proof.
  eexists _, _, _, _, _, _. split; [vm_compute; reflexivity|].
  split; [vm_compute; reflexivity|]. split; reflexivity.
Qed.

(** C2 as amended, on the sample run: the two calls get the two tree
    objects. *)
Lemma add_status_twice_returns_same_status_witness :
  Objects.trees SampleObjects.world !! 0%nat = Some Sample.label_then_button
  /\ Objects.trees SampleObjects.world !! 1%nat = Some Sample.label_then_button
  /\ exists a1 w1 w2 status,
       @Objects.add_status SampleObjects.host Sample.activity0
         SampleObjects.world EmptyString 0%nat 0 = Ok (a1, w1, status)
       /\ @Objects.add_status SampleObjects.host a1 w1 EmptyString 1%nat 1
          = Ok (a1, w2, status)
       /\ status ∈ Memory.Activity.statuses a1.
Proof.
  split; [reflexivity|]. split; [reflexivity|].
  destruct (@ObjectProps.add_status_twice_returns_same_status SampleObjects.host
              Sample.activity0 SampleObjects.world EmptyString EmptyString
              0%nat 1%nat Sample.label_then_button 0 1)
    as (a1 & w1 & w2 & status & Hrun1 & Hrun2 & Hin & _).
  - reflexivity.
  - reflexivity.
  - exact label_then_button_captured.
  - left. discriminate.
  - exists a1, w1, w2, status. repeat split; assumption.
Defined.
(* ===================================================================== *)
(** ** More of app/base/base/util.py *)
(* ===================================================================== *)

Module UtilMore.

(** [s[n:]] for [0 <= n]. *)
Fixpoint string_drop (n : nat) (s : string) : string :=
  match n, s with
  | O, _ => s
  | S n', String _ r => string_drop n' r
  | S _, EmptyString => EmptyString
  end.

(** [get_short_activity_name] *)
Definition get_short_activity_name (package_name activity_name : string)
  : string :=
  if String.prefix package_name activity_name
  then string_drop (String.length package_name) activity_name
  else activity_name.

End UtilMore.

Module UtilProps.

Import Util UtilMore.

(** *** Lists made unique *)

Lemma str_in_true (x : string) (l : list string) : str_in x l = true <-> x ∈ l.
Proof. unfold str_in. apply bool_decide_eq_true. Qed.

Lemma str_in_false (x : string) (l : list string) : str_in x l = false <-> x ∉ l.
Proof. unfold str_in. apply bool_decide_eq_false. Qed.

Lemma unique_from_elem (seen l : list string) (x : string) :
  x ∈ make_list_unique_from seen l <-> x ∈ l /\ x ∉ seen.
Proof.
  revert seen. induction l as [|y l IH]; intros seen; simpl.
  - split; [intros Hin; inversion Hin|intros [Hin _]; inversion Hin].
  - destruct (str_in y seen) eqn:E.
    + apply str_in_true in E. rewrite IH, elem_of_cons. split.
      * intros [Hin Hn]. split; [now right|exact Hn].
      * intros [[->|Hin] Hn]; [contradiction|now split].
    + apply str_in_false in E. rewrite !elem_of_cons, IH, elem_of_cons. split.
      * intros [->|[Hin Hn]]; [split; [now left|exact E]|].
        split; [now right|]. intros Hs. apply Hn. now right.
      * intros [[->|Hin] Hn]; [now left|].
        destruct (decide (x = y)) as [->|Hne]; [now left|right].
        split; [exact Hin|]. intros [Heq|Hs]; [congruence|contradiction].
Qed.

Lemma unique_from_NoDup (seen l : list string) :
  NoDup (make_list_unique_from seen l).
Proof.
  revert seen. induction l as [|y l IH]; intros seen; simpl.
  - constructor.
  - destruct (str_in y seen); [apply IH|].
    constructor; [|apply IH].
    rewrite unique_from_elem. intros [_ Hn]. apply Hn. now left.
Qed.

Lemma unique_from_fixed (seen l : list string) :
  NoDup l -> (forall x, x ∈ l -> x ∉ seen) ->
  make_list_unique_from seen l = l.
Proof.
  revert seen. induction l as [|y l IH]; intros seen Hnd Hdisj; simpl.
  - reflexivity.
  - apply NoDup_cons in Hnd as [Hy Hnd].
    rewrite (proj2 (str_in_false y seen)) by (apply Hdisj; now left).
    f_equal. apply IH; [exact Hnd|].
    intros x Hx [->|Hs]%elem_of_cons; [contradiction|].
    apply (Hdisj x); [now right|exact Hs].
Qed.

Lemma unique_NoDup (l : list string) : NoDup (make_list_unique l).
Proof. apply unique_from_NoDup. Qed.

Lemma unique_elem (l : list string) (x : string) :
  x ∈ make_list_unique l <-> x ∈ l.
Proof.
  unfold make_list_unique. rewrite unique_from_elem. split; [now intros [Hx _]|].
  intros Hx. split; [exact Hx|]. intros Hn. inversion Hn.
Qed.

Lemma unique_fixed (l : list string) : NoDup l -> make_list_unique l = l.
Proof.
  intros Hl. apply unique_from_fixed; [exact Hl|]. intros x _ Hx. inversion Hx.
Qed.

(** X1.  [make_list_unique] returns a list without repetition that has
    exactly the members of its argument, and leaves a list without
    repetition as it is (so applying it twice is applying it once). *)
Theorem make_list_unique_is_a_set (l : list string) :
  NoDup (make_list_unique l)
  /\ (forall x, x ∈ make_list_unique l <-> x ∈ l)
  /\ (NoDup l -> make_list_unique l = l)
  /\ make_list_unique (make_list_unique l) = make_list_unique l.
Proof.
  split; [apply unique_NoDup|]. split; [apply unique_elem|].
  split; [apply unique_fixed|]. apply unique_fixed, unique_NoDup.
Qed.

(** *** Printable text *)

Lemma string_filter_forall (p : ascii -> bool) (s : string) :
  string_forall p (string_filter p s) = true.
Proof.
  induction s as [|c s IH]; simpl; [reflexivity|].
  destruct (p c) eqn:E; simpl; [now rewrite E|exact IH].
Qed.

Lemma string_filter_fixed (p : ascii -> bool) (s : string) :
  string_forall p s = true -> string_filter p s = s.
Proof.
  induction s as [|c s IH]; simpl; [reflexivity|].
  intros [Hc Hs]%andb_true_iff. rewrite Hc. now rewrite IH.
Qed.

Lemma truthy_true (s : string) : truthy s = true <-> s ≠ EmptyString.
Proof.
  unfold truthy, str_eqb. rewrite negb_true_iff. apply bool_decide_eq_false.
Qed.

Lemma elem_of_filter_truthy (x : string) (l : list string) :
  x ∈ filter (fun i => truthy i = true) l <-> x ≠ EmptyString /\ x ∈ l.
Proof. rewrite list_elem_of_filter. now rewrite truthy_true. Qed.

Lemma unique_printable_elem (l : list string) (x : string) :
  x ∈ make_list_unique_and_printable l
  <-> x ≠ EmptyString /\ exists s, s ∈ l /\ x = make_str_printable s.
Proof.
  unfold make_list_unique_and_printable.
  rewrite elem_of_filter_truthy, unique_elem, list_elem_of_fmap. split.
  - intros [Hne (s & -> & Hs)]. split; [exact Hne|eauto].
  - intros [Hne (s & Hs & ->)]. split; [exact Hne|eauto].
Qed.

Lemma unique_printable_NoDup (l : list string) :
  NoDup (make_list_unique_and_printable l).
Proof.
  unfold make_list_unique_and_printable. apply NoDup_filter, unique_NoDup.
Qed.

Lemma unique_printable_forall (l : list string) (x : string) :
  x ∈ make_list_unique_and_printable l -> string_forall isprintable x = true.
Proof. intros (_ & s & _ & ->)%unique_printable_elem. apply string_filter_forall. Qed.

(** X2.  [make_list_unique_and_printable] returns a list without
    repetition, none of whose entries is empty and all of whose characters
    are printable; its entries are the non-empty printable forms of the
    entries of its argument; applied to its own result it changes
    nothing. *)
Theorem unique_and_printable_entries (l : list string) :
  NoDup (make_list_unique_and_printable l)
  /\ (forall x, x ∈ make_list_unique_and_printable l <->
                x ≠ EmptyString /\ exists s, s ∈ l /\ x = make_str_printable s)
  /\ (forall x, x ∈ make_list_unique_and_printable l ->
                string_forall isprintable x = true)
  /\ make_list_unique_and_printable (make_list_unique_and_printable l)
     = make_list_unique_and_printable l.
Proof.
  split; [apply unique_printable_NoDup|]. split; [apply unique_printable_elem|].
  split; [apply unique_printable_forall|].
  pose proof (unique_printable_forall l) as Hpr.
  pose proof (unique_printable_NoDup l) as Hnd.
  assert (Hall : forall x, x ∈ make_list_unique_and_printable l -> truthy x = true).
  { intros x Hx. apply truthy_true. now apply unique_printable_elem in Hx as [Hne _]. }
  set (r := make_list_unique_and_printable l) in *.
  unfold make_list_unique_and_printable at 1.
  assert (Hmap : map make_str_printable r = r).
  { clear - Hpr. induction r as [|x r IH]; [reflexivity|]. simpl. f_equal.
    - apply string_filter_fixed, Hpr. now left.
    - apply IH. intros y Hy. apply Hpr. now right. }
  rewrite Hmap, (unique_fixed r Hnd).
  clear - Hall. induction r as [|x r IH]; [reflexivity|].
  rewrite filter_cons_True by (apply Hall; now left).
  f_equal. apply IH. intros y Hy. apply Hall. now right.
Qed.

(** *** Names *)

Lemma prefix_app (p s : string) : String.prefix p (p +:+ s) = true.
Proof.
  induction p as [|c p IH]; simpl; [now destruct s|].
  destruct (ascii_dec c c); [exact IH|contradiction].
Qed.

Lemma string_drop_app (p s : string) : string_drop (String.length p) (p +:+ s) = s.
Proof. induction p as [|c p IH]; simpl; [reflexivity|exact IH]. Qed.

(** X3.  The short name of a full name: for an activity name written
    relative to the package (it starts with a dot), [get_full_activity_name]
    prefixes the package name and [get_short_activity_name] gives the
    relative name back; a name that does not start with a dot is its own
    full name. *)
Theorem short_name_of_full_name (package_name activity_name : string) :
  (String.prefix "." activity_name = true ->
   get_short_activity_name package_name
     (get_full_activity_name package_name activity_name) = activity_name)
  /\ (String.prefix "." activity_name = false ->
      get_full_activity_name package_name activity_name = activity_name).
Proof.
  unfold get_short_activity_name, get_full_activity_name. split; intros Hdot.
  - rewrite Hdot, prefix_app. apply string_drop_app.
  - now rewrite Hdot.
Qed.

(** *** Resource ids *)

Lemma after_first_app (sep : ascii) (a b : string) :
  string_forall (fun c => negb (Ascii.eqb c sep)) a = true ->
  after_first sep (a +:+ String sep b) = Some b.
Proof.
  induction a as [|c a IH]; simpl.
  - intros _. now rewrite Ascii.eqb_refl.
  - intros [Hc Ha]%andb_true_iff. apply negb_true_iff in Hc. rewrite Hc.
    now apply IH.
Qed.

Lemma after_first_none (sep : ascii) (a : string) :
  string_forall (fun c => negb (Ascii.eqb c sep)) a = true ->
  after_first sep a = None.
Proof.
  induction a as [|c a IH]; simpl; [reflexivity|].
  intros [Hc Ha]%andb_true_iff. apply negb_true_iff in Hc. rewrite Hc.
  now apply IH.
Qed.

(** X4.  [make_short_resource_id] cuts a resource id after its FIRST
    slash: for a package part without slash, the id [package/name] becomes
    [name], whatever slashes [name] holds; an id without slash is returned
    whole; [None] and the empty id give the empty string. *)
Theorem short_resource_id_cuts_at_first_slash (package name : string) :
  (string_forall (fun c => negb (Ascii.eqb c "/"%char)) package = true ->
   make_short_resource_id (Some (package +:+ String "/"%char name)) = name)
  /\ (string_forall (fun c => negb (Ascii.eqb c "/"%char)) name = true ->
      make_short_resource_id (Some name) = name)
  /\ make_short_resource_id None = EmptyString
  /\ make_short_resource_id (Some EmptyString) = EmptyString.
Proof.
  unfold make_short_resource_id. split; [|split; [|split; reflexivity]].
  - intros Hp. rewrite (after_first_app _ _ _ Hp).
    destruct (truthy (package +:+ String "/"%char name)) eqn:E; [reflexivity|].
    apply negb_false_iff, bool_decide_eq_true in E.
    destruct package; discriminate.
  - intros Hn. rewrite (after_first_none _ _ Hn). simpl.
    destruct (truthy name) eqn:E; [reflexivity|].
    now apply negb_false_iff, bool_decide_eq_true in E.
Qed.

End UtilProps.

(** X3 on a launcher activity. *)
Lemma short_name_of_full_name_witness :
  String.prefix "." ".Main" = true
  /\ UtilMore.get_short_activity_name "com.example"
       (Util.get_full_activity_name "com.example" ".Main") = ".Main".
Proof.
  split; [reflexivity|].
  apply (UtilProps.short_name_of_full_name "com.example" ".Main"). reflexivity.
Defined.

(** X4 on a resource id of the usual form. *)
Lemma short_resource_id_cuts_at_first_slash_witness :
  Util.string_forall (fun c => negb (Ascii.eqb c "/"%char)) "com.example:id" = true
  /\ Util.make_short_resource_id (Some ("com.example:id" +:+ String "/"%char "ok/2"))
     = "ok/2".
Proof.
  split; [reflexivity|].
  apply (UtilProps.short_resource_id_cuts_at_first_slash "com.example:id" "ok/2").
  reflexivity.
Defined.

(* ===================================================================== *)
(** ** More of app/base/core/xml_util.py *)
(* ===================================================================== *)

Module XmlUtilMore.

Import Xml.

Section WithHost.
Context `{Host}.

(** [is_element_same]: an argument is an element or a mixed element, whose
    [xml_element] is [None] for a global element. *)
Definition is_element_same (elem1 elem2 : option Attrs) : result bool :=
  match elem1, elem2 with
  | Some elem1, Some elem2 =>
      if negb (Util.str_eqb
                 (XmlUtil.make_element_description elem1 false false false)
                 (XmlUtil.make_element_description elem2 false false false))
      then Ok false
      else
        xpath1 ← Memory.attrib_at elem1 "xpath";
        xpath2 ← Memory.attrib_at elem2 "xpath";
        if negb (Util.str_eqb (XmlUtil.filter_xpath_remove_index xpath1)
                              (XmlUtil.filter_xpath_remove_index xpath2))
        then Ok false
        else Ok true
  | _, _ => Ok false
  end.

End WithHost.

(** [Bounds]: two corner points. *)
Definition Bounds : Type := (Z * Z) * (Z * Z).

(** [get_bound_center]; [//] is floor division. *)
Definition get_bound_center (bounds : Bounds) : Z * Z :=
  let '((x1, y1), (x2, y2)) := bounds in
  ((x1 + x2) / 2, (y1 + y2) / 2).

(** [get_side_centers]: the dict with the keys up, down, left, right, as a
    function of the key. *)
Inductive side : Type := up | down | left | right.

Definition get_side_centers (bounds : Bounds) (s : side) : Z * Z :=
  let '((x1, y1), (x2, y2)) := bounds in
  match s with
  | up => ((x1 + x2) / 2, y1)
  | down => ((x1 + x2) / 2, y2)
  | left => (x1, (y1 + y2) / 2)
  | right => (x2, (y1 + y2) / 2)
  end.

End XmlUtilMore.

Module DescriptionProps.

Import Xml XmlUtil Util.

Lemma remove_first_elem (x y : string) (l : list string) :
  y ∈ remove_first x l -> y ∈ l.
Proof.
  induction l as [|z l IH]; simpl; [auto|].
  destruct (str_eqb z x); intros Hy.
  - now right.
  - apply elem_of_cons in Hy as [->|Hy]; [now left|right; auto].
Qed.

Lemma remove_first_NoDup (x : string) (l : list string) :
  NoDup l -> NoDup (remove_first x l) /\ x ∉ remove_first x l.
Proof.
  induction l as [|z l IH]; simpl; intros Hnd.
  - split; [constructor|]. intros Hin. inversion Hin.
  - apply NoDup_cons in Hnd as [Hz Hnd].
    destruct (str_eqb z x) eqn:E.
    + apply bool_decide_eq_true in E. subst z. now split.
    + apply bool_decide_eq_false in E. destruct (IH Hnd) as [Hnd' Hx]. split.
      * constructor; [|exact Hnd']. intros Hin. apply Hz.
        now apply remove_first_elem in Hin.
      * intros [Heq|Hin]%elem_of_cons; [congruence|contradiction].
Qed.

Section WithHost.
Context `{Host}.

Lemma description_list_entries (a : Attrs)
    (ignore_common_attrs no_wrap_child_texts ignore_text_for_inputable
     no_near_texts : bool) (x : string) :
  x ∈ make_element_description_list a ignore_common_attrs no_wrap_child_texts
        ignore_text_for_inputable no_near_texts ->
  x ≠ EmptyString /\ string_forall isprintable x = true.
Proof.
  unfold make_element_description_list.
  set (content := if no_near_texts then _ else _).
  destruct ignore_common_attrs; [intros Hx%remove_first_elem|intros Hx];
    (split; [now apply UtilProps.unique_printable_elem in Hx
            |now apply UtilProps.unique_printable_forall in Hx]).
Qed.

(** The list that the body of [make_element_description_list] computes. *)
Lemma computed_list_is_clean (a : Attrs)
    (ignore_common_attrs no_wrap_child_texts ignore_text_for_inputable
     no_near_texts : bool) :
  let l := make_element_description_list a ignore_common_attrs
             no_wrap_child_texts ignore_text_for_inputable no_near_texts in
  NoDup l
  /\ (forall x, x ∈ l -> x ≠ EmptyString /\ string_forall isprintable x = true)
  /\ (ignore_common_attrs = true -> "(no text)" ∉ l).
Proof.
  cbv zeta. split; [|split; [apply description_list_entries|]];
    unfold make_element_description_list;
    set (content := if no_near_texts then _ else _);
    pose proof (UtilProps.unique_printable_NoDup content) as Hnd;
    destruct ignore_common_attrs; try discriminate.
  - now apply remove_first_NoDup.
  - exact Hnd.
  - intros _. now apply remove_first_NoDup.
Qed.

(** X5.  A call of [make_element_description_list] that the cache does not
    answer returns a list that has no repeated entry and no empty entry,
    in which every character is printable, and which with
    [ignore_common_attrs] does not hold the placeholder [(no text)].  A
    call that the cache answers returns the list of the cache entry as it
    is by then, whatever the element holds now ([cached_list_repeats] has
    an entry with a repeated text). *)
Theorem description_list_is_clean (r : nat) (p : Path) (a : Attrs)
    (kwargs : list (string * bool)) (c : Objects.Cache) :
  let l := (Objects.make_element_description_list r p a kwargs c).1 in
  (Objects.cache_lookup (r, p, kwargs) c = None ->
   NoDup l
   /\ (forall x, x ∈ l -> x ≠ EmptyString /\ string_forall isprintable x = true)
   /\ (Objects.kwarg kwargs "ignore_common_attrs" = true -> "(no text)" ∉ l))
  /\ (forall cached,
        Objects.cache_lookup (r, p, kwargs) c = Some cached -> l = cached).
Proof.
  cbv zeta. unfold Objects.make_element_description_list, Objects.lru_call.
  split.
  - intros ->. cbn [fst]. apply computed_list_is_clean.
  - intros cached ->. reflexivity.
Qed.

(** An element that [is_element_same] accepts beside another has the same
    global action key. *)
Lemma same_element_same_key (a1 a2 : Attrs) (command : string) :
  XmlUtilMore.is_element_same (Some a1) (Some a2) = Ok true ->
  exists key,
    Memory.get_action_key a1 command = Ok key
    /\ Memory.get_action_key a2 command = Ok key.
Proof.
  unfold XmlUtilMore.is_element_same, Memory.get_action_key.
  destruct (negb (str_eqb _ _)) eqn:Edesc; [discriminate|].
  apply negb_false_iff, bool_decide_eq_true in Edesc.
  destruct (Memory.attrib_at a1 "xpath") as [x1|]; [|discriminate].
  destruct (Memory.attrib_at a2 "xpath") as [x2|]; [|discriminate].
  rewrite !WeightProps.ret_bind.
  destruct (negb (str_eqb _ _)) eqn:Epath; [discriminate|].
  apply negb_false_iff, bool_decide_eq_true in Epath.
  intros _. rewrite Edesc, Epath. eauto.
Qed.

Lemma same_element_iff (a1 a2 : Attrs) :
  XmlUtilMore.is_element_same (Some a1) (Some a2) = Ok true
  <-> make_element_description a1 false false false
      = make_element_description a2 false false false
      /\ exists x1 x2,
           get a1 "xpath" = Some x1 /\ get a2 "xpath" = Some x2
           /\ filter_xpath_remove_index x1 = filter_xpath_remove_index x2.
Proof.
  unfold XmlUtilMore.is_element_same, str_eqb, Memory.attrib_at.
  set (d1 := make_element_description a1 false false false).
  set (d2 := make_element_description a2 false false false).
  destruct (decide (d1 = d2)) as [Hd|Hd].
  - rewrite bool_decide_eq_true_2 by exact Hd. simpl.
    destruct (get a1 "xpath") as [x1|], (get a2 "xpath") as [x2|]; simpl.
    + destruct (decide (filter_xpath_remove_index x1 = filter_xpath_remove_index x2))
        as [Hx|Hx].
      * rewrite bool_decide_eq_true_2 by exact Hx. simpl.
        split; [|reflexivity]. intros _. split; [exact Hd|]. now exists x1, x2.
      * rewrite bool_decide_eq_false_2 by exact Hx. simpl.
        split; [discriminate|]. intros (_ & y1 & y2 & Hy1 & Hy2 & Hy). congruence.
    + split; [discriminate|]. intros (_ & y1 & y2 & _ & Hy2 & _). discriminate.
    + split; [discriminate|]. intros (_ & y1 & y2 & Hy1 & _). discriminate.
    + split; [discriminate|]. intros (_ & y1 & y2 & Hy1 & _). discriminate.
  - rewrite bool_decide_eq_false_2 by exact Hd. simpl.
    split; [discriminate|]. intros [Heq _]. contradiction.
Qed.

(** X7.  [is_element_same] is symmetric (in its result and in its error),
    holds of an element with a path and itself, is transitive, is false
    when either side is a global element, and two elements it accepts have
    the same global action key for every command. *)
Theorem is_element_same_is_an_equivalence (a1 a2 a3 : Attrs) (command : string) :
  XmlUtilMore.is_element_same (Some a1) (Some a2)
  = XmlUtilMore.is_element_same (Some a2) (Some a1)
  /\ (is_Some (get a1 "xpath") ->
      XmlUtilMore.is_element_same (Some a1) (Some a1) = Ok true)
  /\ (XmlUtilMore.is_element_same (Some a1) (Some a2) = Ok true ->
      XmlUtilMore.is_element_same (Some a2) (Some a3) = Ok true ->
      XmlUtilMore.is_element_same (Some a1) (Some a3) = Ok true)
  /\ XmlUtilMore.is_element_same None (Some a1) = Ok false
  /\ XmlUtilMore.is_element_same (Some a1) None = Ok false
  /\ (XmlUtilMore.is_element_same (Some a1) (Some a2) = Ok true ->
      exists key,
        Memory.get_action_key a1 command = Ok key
        /\ Memory.get_action_key a2 command = Ok key).
Proof.
  split; [|split; [|split; [|split; [|split]]]];
    try reflexivity; [| | |apply same_element_same_key].
  - unfold XmlUtilMore.is_element_same.
    set (d1 := make_element_description a1 false false false).
    set (d2 := make_element_description a2 false false false).
    unfold str_eqb.
    destruct (decide (d1 = d2)) as [Hd|Hd].
    + rewrite !bool_decide_eq_true_2 by congruence. simpl.
      unfold Memory.attrib_at.
      destruct (get a1 "xpath") as [x1|], (get a2 "xpath") as [x2|];
        simpl; try reflexivity.
      destruct (decide (filter_xpath_remove_index x1 = filter_xpath_remove_index x2))
        as [Hx|Hx].
      * now rewrite !bool_decide_eq_true_2 by congruence.
      * now rewrite !bool_decide_eq_false_2 by congruence.
    + now rewrite !bool_decide_eq_false_2 by congruence.
  - intros [x Hx]. unfold XmlUtilMore.is_element_same, str_eqb, Memory.attrib_at.
    rewrite bool_decide_eq_true_2 by reflexivity. rewrite Hx. simpl.
    now rewrite bool_decide_eq_true_2 by reflexivity.
  - intros H12%same_element_iff H23%same_element_iff. apply same_element_iff.
    destruct H12 as (Hd12 & x1 & x2 & Hx1 & Hx2 & Hp12).
    destruct H23 as (Hd23 & x2' & x3 & Hx2' & Hx3 & Hp23).
    split; [congruence|]. exists x1, x3. repeat split; congruence.
Qed.

End WithHost.

End DescriptionProps.

Module XpathProps.

Import Util XmlUtil.

(** A text without the character [c]. *)
Definition free_of (c : ascii) (s : string) : bool :=
  string_forall (fun d => negb (Ascii.eqb d c)) s.

(** What [filter_xpath_remove_index] makes of one part of the path. *)
Definition cut (part : string) : string :=
  slice_to part (find_char "["%char part).

Lemma split_on_free (sep : ascii) (s : string) :
  free_of sep s = true -> split_on sep s = [s].
Proof.
  induction s as [|c s IH]; simpl; [reflexivity|].
  intros [Hc Hs]%andb_true_iff. apply negb_true_iff in Hc. rewrite Hc.
  now rewrite (IH Hs).
Qed.

Lemma split_on_app (sep : ascii) (p s : string) :
  free_of sep p = true ->
  split_on sep (p +:+ String sep s) = p :: split_on sep s.
Proof.
  induction p as [|c p IH]; simpl.
  - intros _. now rewrite Ascii.eqb_refl.
  - intros [Hc Hp]%andb_true_iff. apply negb_true_iff in Hc. rewrite Hc.
    now rewrite (IH Hp).
Qed.

(** Splitting at slashes what was joined with slashes gives the parts
    back. *)
Lemma split_join (parts : list string) :
  parts ≠ [] -> Forall (fun p => free_of "/"%char p = true) parts ->
  split_on "/"%char (join "/" parts) = parts.
Proof.
  intros Hne Hall. induction Hall as [|p parts Hp Hall IH]; [contradiction|].
  destruct parts as [|q parts].
  - simpl. now apply split_on_free.
  - change (join "/" (p :: q :: parts))
      with (p +:+ String "/"%char (join "/" (q :: parts))).
    rewrite split_on_app by exact Hp. f_equal. apply IH. discriminate.
Qed.

Lemma find_char_app (c : ascii) (t i : string) :
  free_of c t = true ->
  find_char c (t +:+ String c i) = Z.of_nat (String.length t).
Proof.
  induction t as [|d t IH]; simpl.
  - intros _. now rewrite Ascii.eqb_refl.
  - intros [Hd Ht]%andb_true_iff. apply negb_true_iff in Hd. rewrite Hd.
    rewrite (IH Ht). rewrite (proj2 (Z.ltb_ge _ 0)) by lia. lia.
Qed.

Lemma find_char_free (c : ascii) (t : string) :
  free_of c t = true -> find_char c t = -1.
Proof.
  induction t as [|d t IH]; simpl; [reflexivity|].
  intros [Hd Ht]%andb_true_iff. apply negb_true_iff in Hd. rewrite Hd.
  now rewrite (IH Ht).
Qed.

Lemma substring_app (t s : string) :
  substring 0 (String.length t) (t +:+ s) = t.
Proof.
  induction t as [|d t IH]; simpl; [now destruct s|]. now rewrite IH.
Qed.

Lemma cut_indexed (tag index : string) :
  free_of "["%char tag = true -> cut (tag +:+ String "["%char index) = tag.
Proof.
  intros Ht. unfold cut, slice_to. rewrite (find_char_app _ _ _ Ht).
  cbv zeta. rewrite (proj2 (Z.ltb_ge _ 0)) by lia.
  rewrite Z.min_l.
  - rewrite Nat2Z.id. apply substring_app.
  - apply Nat2Z.inj_le. clear. induction tag; simpl; lia.
Qed.

Lemma cut_plain (part : string) :
  free_of "["%char part = true ->
  cut part = substring 0 (String.length part - 1) part.
Proof.
  intros Ht. unfold cut, slice_to. rewrite (find_char_free _ _ Ht). cbv zeta.
  change (-1 <? 0) with true. cbv iota. f_equal. lia.
Qed.

(** X8.  [filter_xpath_remove_index] works part by part: on a path joined
    with slashes from parts that hold no slash, the result is the parts cut
    and joined again.  A part [tag[index]] is cut to [tag]; a part without
    bracket LOSES ITS LAST CHARACTER ([s.find] returns -1 and [s[:-1]] is
    taken).  So two paths whose parts are the same tags under whatever
    indices have the same result. *)
Theorem filter_xpath_forgets_indices (parts parts' : list string) :
  parts ≠ [] ->
  Forall (fun p => free_of "/"%char p = true) parts ->
  filter_xpath_remove_index (join "/" parts) = join "/" (map cut parts)
  /\ (forall tag index,
        free_of "["%char tag = true ->
        cut (tag +:+ String "["%char index) = tag)
  /\ (forall part,
        free_of "["%char part = true ->
        cut part = substring 0 (String.length part - 1) part)
  /\ (Forall (fun p => free_of "/"%char p = true) parts' ->
      Forall2 (fun p p' =>
                 exists tag index index',
                   free_of "["%char tag = true
                   /\ p = tag +:+ String "["%char index
                   /\ p' = tag +:+ String "["%char index') parts parts' ->
      filter_xpath_remove_index (join "/" parts)
      = filter_xpath_remove_index (join "/" parts')).
Proof.
  intros Hne Hall.
  assert (Hform : forall ps, ps ≠ [] ->
             Forall (fun p => free_of "/"%char p = true) ps ->
             filter_xpath_remove_index (join "/" ps) = join "/" (map cut ps)).
  { intros ps Hps Hfree. unfold filter_xpath_remove_index.
    now rewrite (split_join ps Hps Hfree). }
  split; [now apply Hform|]. split; [exact cut_indexed|].
  split; [exact cut_plain|].
  intros Hall' Hsame.
  rewrite (Hform parts Hne Hall), (Hform parts').
  - f_equal. clear - Hsame.
    induction Hsame as [|p p' ps ps' (tag & i & i' & Ht & -> & ->) _ IH];
      [reflexivity|].
    simpl. now rewrite !cut_indexed, IH.
  - destruct Hsame; [contradiction|discriminate].
  - exact Hall'.
Qed.

End XpathProps.

(** X8 on the paths of the second and of the third button of a row. *)
Lemma filter_xpath_forgets_indices_witness :
  ["row[1]"; "button[2]"] ≠ []
  /\ XmlUtil.filter_xpath_remove_index (Util.join "/" ["row[1]"; "button[2]"])
     = XmlUtil.filter_xpath_remove_index (Util.join "/" ["row[1]"; "button[3]"]).
Proof.
  split; [discriminate|].
  apply (XpathProps.filter_xpath_forgets_indices
           ["row[1]"; "button[2]"] ["row[1]"; "button[3]"]).
  - discriminate.
  - repeat constructor.
  - repeat constructor.
  - constructor; [exists "row", "1]", "1]"; repeat split|].
    constructor; [exists "button", "2]", "3]"; repeat split|]. constructor.
Defined.

Module GeometryProps.

Import XmlUtilMore.

(** X9.  On a rectangle with [x1 <= x2] and [y1 <= y2] (negative
    coordinates included: [//] rounds down) the centre that
    [get_bound_center] returns lies in the rectangle, and so does each of
    the four points of [get_side_centers], which lies on the side it is
    named after and shares the other coordinate with the centre. *)
Theorem centers_lie_in_the_bounds (x1 y1 x2 y2 : Z) :
  x1 <= x2 -> y1 <= y2 ->
  let bounds := ((x1, y1), (x2, y2)) in
  let inside (p : Z * Z) := x1 <= fst p <= x2 /\ y1 <= snd p <= y2 in
  let c := get_bound_center bounds in
  inside c
  /\ (forall s, inside (get_side_centers bounds s))
  /\ get_side_centers bounds up = (fst c, y1)
  /\ get_side_centers bounds down = (fst c, y2)
  /\ get_side_centers bounds left = (x1, snd c)
  /\ get_side_centers bounds right = (x2, snd c).
Proof.
  intros Hx Hy. cbv zeta. unfold get_bound_center, get_side_centers. simpl.
  assert (Hcx : x1 <= (x1 + x2) / 2 <= x2).
  { split; [apply Z.div_le_lower_bound|apply Z.div_le_upper_bound]; lia. }
  assert (Hcy : y1 <= (y1 + y2) / 2 <= y2).
  { split; [apply Z.div_le_lower_bound|apply Z.div_le_upper_bound]; lia. }
  split; [now split|]. split; [|now repeat split].
  intros []; simpl; (split; [first [exact Hcx|lia]|first [exact Hcy|lia]]).
Qed.

End GeometryProps.

(** X9 on a rectangle that reaches left of and above the origin. *)
Lemma centers_lie_in_the_bounds_witness :
  XmlUtilMore.get_bound_center ((-3, -8), (4, 1)) = (0, -4)
  /\ -3 <= fst (XmlUtilMore.get_bound_center ((-3, -8), (4, 1))) <= 4.
Proof.
  split; [reflexivity|].
  apply (GeometryProps.centers_lie_in_the_bounds (-3) (-8) 4 1); lia.
Defined.

Module CommandProps.

Import Xml Commands XmlUtil.

(** X10.  The detection function of [Status.init_element_tree] takes an
    element for a key element exactly when it is clickable, scrollable or a
    text field; [long-clickable] alone does not make one.  The commands
    [input] and [submit] are offered together or not at all. *)
Theorem key_element_iff (a : Attrs) :
  (detection_function_actionable a = true
   <-> get a "clickable" = Some "true" \/ get a "scrollable" = Some "true"
       \/ (exists c, get a "class" = Some c /\ c ∈ Const.TEXT_VIEW))
  /\ ("input" ∈ get_available_commands_for_xml_element a
      <-> "submit" ∈ get_available_commands_for_xml_element a).
Proof.
  assert (Htrue : forall x, Util.true_ x = true <-> x = Some "true").
  { intros [s|]; unfold Util.true_, Util.str_eqb; simpl.
    - rewrite bool_decide_eq_true. split; congruence.
    - split; discriminate. }
  assert (Hinp : is_element_inputable a = true
                 <-> exists c, get a "class" = Some c /\ c ∈ Const.TEXT_VIEW).
  { unfold is_element_inputable. destruct (get a "class") as [c|].
    - unfold Util.str_in. rewrite bool_decide_eq_true. split.
      + intros Hc. now exists c.
      + intros (c' & Hc & Hin). now injection Hc as ->.
    - split; [discriminate|]. intros (c & Hc & _). discriminate. }
  split.
  - rewrite <- (Htrue (get a "clickable")), <- (Htrue (get a "scrollable")),
      <- Hinp.
    unfold detection_function_actionable, any_str,
      get_available_commands_for_xml_element.
    destruct (Util.true_ (get a "clickable")),
      (Util.true_ (get a "scrollable")), (is_element_inputable a);
      simpl; intuition discriminate.
  - unfold get_available_commands_for_xml_element.
    destruct (Util.true_ (get a "clickable")),
      (Util.true_ (get a "scrollable")), (is_element_inputable a);
      simpl; split; intros Hin;
      repeat (apply elem_of_cons in Hin as [Hin|Hin]; [discriminate Hin|]);
      try (inversion Hin; fail);
      repeat (first [apply list_elem_of_here | apply list_elem_of_further]).
Qed.

End CommandProps.

Module ManagerProps.

Import Xml Memory ActionProps.

(** The calls that write the global action weights of a manager. *)
Inductive manager_call : Type :=
| UpdateActionWeight (el : Attrs) (command : string) (weight : Z)
| AddActionWeight (el : Attrs) (command : string) (weight : Z)
| OnActionAction (el : Attrs) (command : string)
| OnActionNonAction (el : Attrs) (command : string)
| GlobalBanAction (el : Attrs) (command : option string).

Definition call_element (c : manager_call) : Attrs :=
  match c with
  | UpdateActionWeight el _ _ | AddActionWeight el _ _ | OnActionAction el _
  | OnActionNonAction el _ | GlobalBanAction el _ => el
  end.

Section WithHost.
Context `{Host}.

Definition run_call (c : manager_call) (m : ActivityManager.t)
  : result ActivityManager.t :=
  match c with
  | UpdateActionWeight el command weight => update_action_weight el command weight m
  | AddActionWeight el command weight => add_action_weight el command weight m
  | OnActionAction el command => on_action_action el command m
  | OnActionNonAction el command => on_action_non_action el command m
  | GlobalBanAction el command => global_ban_action el command m
  end.

Lemma init_loop_table (l : list string) (m : ActivityManager.t) (k : string) :
  global_weights
    (fold_left (fun m invalid_action =>
                  _set_action_weight invalid_action Weight.DISABLED_FOREVER m)
               l m) !! k
  = if bool_decide (k ∈ l) then Some Weight.DISABLED_FOREVER
    else global_weights m !! k.
Proof.
  revert m. induction l as [|x l IH]; intros m; cbn [fold_left].
  - now rewrite bool_decide_eq_false_2 by apply not_elem_of_nil.
  - rewrite IH. destruct (decide (k = x)) as [->|Hne].
    + rewrite (bool_decide_eq_true_2 (x ∈ x :: l)) by apply list_elem_of_here.
      rewrite set_action_weight_same, WeightProps.new_weight_for_ban.
      now destruct (bool_decide (x ∈ l)).
    + rewrite set_action_weight_other by congruence.
      destruct (decide (k ∈ l)) as [Hin|Hout].
      * now rewrite !bool_decide_eq_true_2 by (try apply list_elem_of_further; exact Hin).
      * rewrite !bool_decide_eq_false_2; [reflexivity| |exact Hout].
        intros [?|?]%elem_of_cons; contradiction.
Qed.

Lemma init_loop_knowledge (l : list string) (m : ActivityManager.t) :
  let m' := fold_left (fun m invalid_action =>
                         _set_action_weight invalid_action Weight.DISABLED_FOREVER m)
                      l m in
  ActivityManager.persist_knowledge m' = ActivityManager.persist_knowledge m
  /\ ActivityManager.package_name m' = ActivityManager.package_name m.
Proof.
  revert m. induction l as [|x l IH]; intros m; simpl; [now split|].
  destruct (IH (_set_action_weight x Weight.DISABLED_FOREVER m)) as [-> ->].
  now split.
Qed.

(** X11.  A manager made by [ActivityManager.__init__] knows exactly the
    invalid actions of the knowledge store, each of them banned: the weight
    table holds DISABLED_FOREVER at every invalid action and no other entry,
    and the store itself is kept as given. *)
Theorem new_manager_bans_the_invalid_actions
    (persist_knowledge : PersistKnowledge.t) (package_name k : string) :
  let m := ActivityManager__init__ persist_knowledge package_name in
  ActivityManager.persist_knowledge m = persist_knowledge
  /\ ActivityManager.package_name m = package_name
  /\ (k ∈ PersistKnowledge.invalid_actions persist_knowledge ->
      ActivityManager.action_weights m !! k = Some Weight.DISABLED_FOREVER)
  /\ (k ∉ PersistKnowledge.invalid_actions persist_knowledge ->
      ActivityManager.action_weights m !! k = None).
Proof.
  cbv zeta. unfold ActivityManager__init__.
  destruct (init_loop_knowledge
              (PersistKnowledge.invalid_actions persist_knowledge)
              (ActivityManager.Mk package_name persist_knowledge ∅ ∅ ∅))
    as [Hk Hp].
  split; [exact Hk|]. split; [exact Hp|].
  pose proof (init_loop_table
                (PersistKnowledge.invalid_actions persist_knowledge)
                (ActivityManager.Mk package_name persist_knowledge ∅ ∅ ∅) k)
    as Ht.
  unfold global_weights in Ht. split; intros Hin; rewrite Ht.
  - now rewrite bool_decide_eq_true_2.
  - now rewrite bool_decide_eq_false_2.
Qed.

Lemma ban_loop_spec (el : Attrs) (xpath : string) (cmds : list string)
    (m : ActivityManager.t) :
  get el "xpath" = Some xpath ->
  exists m',
    for_each (global_ban_command el) cmds m = Ok m'
    /\ grows m m'
    /\ (forall c, c ∈ cmds ->
          exists key, get_action_key el c = Ok key
                      /\ global_weights m' !! key = Some Weight.DISABLED_FOREVER
                      /\ key ∈ invalid m')
    /\ (forall k, k ∈ invalid m' ->
          k ∈ invalid m \/ exists c, c ∈ cmds /\ get_action_key el c = Ok k).
Proof.
  intros Hx. revert m. induction cmds as [|c cmds IH]; intros m.
  - exists m. split; [reflexivity|]. split; [apply grows_refl|].
    split; [intros c Hc; inversion Hc|]. intros k Hk. now left.
  - destruct (get_action_key_ok el c xpath Hx) as [key Hkey].
    destruct (global_ban_command_spec el c key m Hkey)
      as (m1 & Hm1 & Hg1 & Hw1 & Hi1).
    destruct (IH m1) as (m' & Hm' & Hg' & Hall & Honly).
    exists m'. rewrite WeightProps.for_each_cons.
    unfold global_ban_action in Hm1. rewrite Hm1. simpl.
    split; [exact Hm'|]. split; [exact (grows_trans _ _ _ Hg1 Hg')|]. split.
    + intros c' [->|Hc']%elem_of_cons.
      * exists key. split; [exact Hkey|]. split.
        -- now apply Hg'.
        -- apply Hg'. apply Hi1. now right.
      * now apply Hall.
    + intros k Hk. destruct (Honly k Hk) as [Hk1|(c' & Hc' & Hk')].
      * apply Hi1 in Hk1 as [Hk1| ->]; [now left|].
        right. exists c. split; [apply list_elem_of_here|exact Hkey].
      * right. exists c'. split; [now apply list_elem_of_further|exact Hk'].
Qed.


Lemma set_action_weight_sane (k : string) (w : Z) (m : ActivityManager.t) :
  sane (global_weights m) -> sane (global_weights (_set_action_weight k w m)).
Proof.
  intros Hs x v Hx. destruct (decide (k = x)) as [->|Hne].
  - rewrite set_action_weight_same in Hx. injection Hx as <-.
    unfold new_weight_for. destruct (skip_check w) eqn:Ew.
    + left. now apply WeightProps.skip_check_true.
    + destruct (skip_check (default Weight.DEFAULT (global_weights m !! x)))
        eqn:Ec.
      * left. now apply WeightProps.skip_check_true.
      * right. apply WeightProps.clamp_range.
  - rewrite set_action_weight_other in Hx by exact Hne. exact (Hs x v Hx).
Qed.

Lemma add_action_weight_sane (el : Attrs) (command : string) (w : Z)
    (m m' : ActivityManager.t) :
  add_action_weight el command w m = Ok m' ->
  sane (global_weights m) -> sane (global_weights m').
Proof.
  unfold add_action_weight. intros Hadd Hs.
  apply WeightProps.bind_Ok in Hadd as (key & Hkey & Hadd).
  rewrite (update_action_weight_spec _ _ key) in Hadd by exact Hkey.
  injection Hadd as <-. apply set_action_weight_sane.
  intros x v Hx. unfold global_weights in Hx. simpl in Hx.
  destruct (decide (key = x)) as [->|Hne].
  - rewrite lookup_insert_eq in Hx. injection Hx as <-.
    destruct (ActivityManager.action_weights m !! x) as [v|] eqn:Ev; simpl.
    + exact (Hs x v Ev).
    + right. unfold Weight.DEFAULT, Weight.MIN, Weight.MAX. lia.
  - rewrite lookup_insert_ne in Hx by exact Hne. exact (Hs x v Hx).
Qed.

Lemma run_call_spec (c : manager_call) (m : ActivityManager.t) :
  is_Some (get (call_element c) "xpath") ->
  exists m',
    run_call c m = Ok m'
    /\ grows m m'
    /\ (sane (global_weights m) -> sane (global_weights m')).
Proof.
  intros [xpath Hx]. destruct c as [el cmd w|el cmd w|el cmd|el cmd|el [cmd|]];
    simpl in Hx; simpl.
  - destruct (get_action_key_ok el cmd xpath Hx) as [key Hkey].
    rewrite (update_action_weight_spec _ _ key) by exact Hkey.
    eexists. split; [reflexivity|].
    split; [apply set_action_weight_grows|apply set_action_weight_sane].
  - destruct (get_action_key_ok el cmd xpath Hx) as [key Hkey].
    destruct (add_action_weight_spec el cmd key w m Hkey) as (m' & Hm' & Hg & _).
    exists m'. split; [exact Hm'|]. split; [exact Hg|].
    exact (add_action_weight_sane _ _ _ _ _ Hm').
  - destruct (get_action_key_ok el cmd xpath Hx) as [key Hkey].
    destruct (add_action_weight_spec el cmd key Weight.EACH_ACTION_ON_GLOBAL m Hkey)
      as (m' & Hm' & Hg & _).
    exists m'. split; [exact Hm'|]. split; [exact Hg|].
    exact (add_action_weight_sane _ _ _ _ _ Hm').
  - destruct (get_action_key_ok el cmd xpath Hx) as [key Hkey].
    destruct (on_action_non_action_spec el cmd key m Hkey) as (m' & Hm' & Hg & _).
    exists m'. split; [exact Hm'|]. split; [exact Hg|].
    unfold on_action_non_action in Hm'. rewrite Hkey in Hm'. simpl in Hm'.
    destruct (ActivityManager.action_weights m !! key).
    + exact (add_action_weight_sane _ _ _ _ _ Hm').
    + now injection Hm' as <-.
  - destruct (get_action_key_ok el cmd xpath Hx) as [key Hkey].
    destruct (global_ban_command_spec el cmd key m Hkey) as (m' & Hm' & Hg & _).
    exists m'. split; [exact Hm'|]. split; [exact Hg|].
    unfold global_ban_action, global_ban_command in Hm'. rewrite Hkey in Hm'.
    simpl in Hm'. rewrite (update_action_weight_spec _ _ key) in Hm' by exact Hkey.
    injection Hm' as <-. intros Hs. apply set_action_weight_sane. exact Hs.
  - destruct (ban_loop_spec el xpath all_command_names m Hx)
      as (m' & Hm' & Hg & _).
    exists m'. split; [exact Hm'|]. split; [exact Hg|].
    clear Hg. revert m m' Hm'. generalize all_command_names as cmds.
    induction cmds as [|c cmds IH]; intros m m' Hm' Hs.
    + now injection Hm' as <-.
    + apply WeightProps.for_each_cons_Ok in Hm' as (m1 & Hm1 & Hm').
      apply (IH m1 m' Hm').
      destruct (get_action_key_ok el c xpath Hx) as [key Hkey].
      unfold global_ban_command in Hm1. rewrite Hkey in Hm1. simpl in Hm1.
      rewrite (update_action_weight_spec _ _ key) in Hm1 by exact Hkey.
      injection Hm1 as <-. apply set_action_weight_sane. exact Hs.
Qed.

(** X13.  The global action weights obey the rules of the per-status
    weights under every sequence of calls of the manager
    ([update_action_weight], [add_action_weight], [on_action_action],
    [on_action_non_action], [global_ban_action]) on elements that have a
    path: the sequence returns, a key that held DISABLED_FOREVER holds it
    afterwards, no invalid action is forgotten, and a table whose weights
    were the ban or within [MIN, MAX] is such a table afterwards. *)
Theorem global_bans_are_permanent (calls : list manager_call)
    (m : ActivityManager.t) :
  Forall (fun c => is_Some (get (call_element c) "xpath")) calls ->
  exists m',
    for_each run_call calls m = Ok m'
    /\ (forall k, ActivityManager.action_weights m !! k = Some Weight.DISABLED_FOREVER ->
                  ActivityManager.action_weights m' !! k = Some Weight.DISABLED_FOREVER)
    /\ (forall k, k ∈ invalid m -> k ∈ invalid m')
    /\ ((forall k w, ActivityManager.action_weights m !! k = Some w ->
                     w = Weight.DISABLED_FOREVER \/ Weight.MIN <= w <= Weight.MAX) ->
        forall k w, ActivityManager.action_weights m' !! k = Some w ->
                    w = Weight.DISABLED_FOREVER \/ Weight.MIN <= w <= Weight.MAX).
Proof.
  intros Hall. revert m. induction Hall as [|c calls Hc Hall IH]; intros m.
  - exists m. split; [reflexivity|]. auto.
  - destruct (run_call_spec c m Hc) as (m1 & Hm1 & [Hb1 Hi1] & Hs1).
    destruct (IH m1) as (m' & Hm' & Hb' & Hi' & Hs').
    exists m'. rewrite WeightProps.for_each_cons, Hm1. simpl.
    split; [exact Hm'|]. split; [|split].
    + intros k Hk. apply Hb', Hb1, Hk.
    + intros k Hk. apply Hi', Hi1, Hk.
    + intros Hs. apply Hs'. apply Hs1. exact Hs.
Qed.

End WithHost.

End ManagerProps.

(** X13 on a ban of [back] on the first button of the sample screen,
    followed by a reward and a weight written to the same action. *)
Lemma global_bans_are_permanent_witness :
  exists m',
    for_each (@ManagerProps.run_call Sample.host)
      [ManagerProps.GlobalBanAction
         (Xml.set "xpath" "/hierarchy/*[1]" Memory.no_attrs) (Some "back");
       ManagerProps.OnActionNonAction
         (Xml.set "xpath" "/hierarchy/*[1]" Memory.no_attrs) "back";
       ManagerProps.UpdateActionWeight
         (Xml.set "xpath" "/hierarchy/*[1]" Memory.no_attrs) "back" 70]
      Sample.manager0 = Ok m'.
Proof.
  destruct (@ManagerProps.global_bans_are_permanent Sample.host
              [ManagerProps.GlobalBanAction
                 (Xml.set "xpath" "/hierarchy/*[1]" Memory.no_attrs) (Some "back");
               ManagerProps.OnActionNonAction
                 (Xml.set "xpath" "/hierarchy/*[1]" Memory.no_attrs) "back";
               ManagerProps.UpdateActionWeight
                 (Xml.set "xpath" "/hierarchy/*[1]" Memory.no_attrs) "back" 70]
              Sample.manager0) as (m' & Hm' & _).
  - repeat constructor; simpl; eauto.
  - exists m'. exact Hm'.
Defined.

Module HashLevelProps.

Import Xml XmlUtil Memory PipelineProps.

Lemma assoc_set_set (k v v' : string) (l : list (string * string)) :
  assoc_set k v' (assoc_set k v l) = assoc_set k v' l.
Proof.
  induction l as [|[k0 v0] l IH]; simpl.
  - unfold Util.str_eqb. now rewrite bool_decide_eq_true_2.
  - destruct (Util.str_eqb k0 k) eqn:E; simpl.
    + unfold Util.str_eqb. now rewrite bool_decide_eq_true_2.
    + now rewrite E, IH.
Qed.

(** Writing a key that is there and then another key gives the same list as
    writing them the other way round. *)
Lemma assoc_set_comm (k k' v v' : string) (l : list (string * string)) :
  k ≠ k' -> is_Some (assoc_get l k) ->
  assoc_set k' v' (assoc_set k v l) = assoc_set k v (assoc_set k' v' l).
Proof.
  intros Hne.
  assert (Hkk' : Util.str_eqb k k' = false)
    by (unfold Util.str_eqb; now rewrite bool_decide_eq_false_2).
  assert (Hk'k : Util.str_eqb k' k = false)
    by (unfold Util.str_eqb; rewrite bool_decide_eq_false_2; congruence).
  assert (Hrefl : forall x, Util.str_eqb x x = true)
    by (intros x; unfold Util.str_eqb; now rewrite bool_decide_eq_true_2).
  induction l as [|[k0 v0] l IH]; intros [x Hx]; simpl in Hx; [discriminate|].
  simpl. destruct (Util.str_eqb k0 k) eqn:E1, (Util.str_eqb k0 k') eqn:E2; simpl.
  - apply bool_decide_eq_true in E1, E2. congruence.
  - apply bool_decide_eq_true in E1. subst k0. now rewrite Hkk', Hrefl.
  - apply bool_decide_eq_true in E2. subst k0. now rewrite Hk'k, Hrefl.
  - rewrite E1, E2. rewrite IH by eauto. reflexivity.
Qed.

Lemma has_set (k k' v : string) (a : Attrs) :
  has a k = true -> has (set k v a) k' = has a k'.
Proof.
  unfold has, get, set. simpl. intros Hk.
  destruct (decide (k = k')) as [<-|Hne].
  - rewrite assoc_get_set_same. exact (eq_sym Hk).
  - now rewrite assoc_get_set_other.
Qed.

(** One turn of the loop of [remove_attr_on_every_element]. *)
Definition blank (a : Attrs) (attr : string) : Attrs :=
  if has a attr then set attr EmptyString a else a.

Lemma blank_set_same (k v : string) (a : Attrs) :
  has a k = true -> blank (set k v a) k = blank a k.
Proof.
  intros Hk. unfold blank. rewrite has_set, Hk by exact Hk.
  unfold set. simpl. now rewrite assoc_set_set.
Qed.

Lemma blank_set_other (k attr v : string) (a : Attrs) :
  has a k = true -> attr ≠ k ->
  blank (set k v a) attr = set k v (blank a attr)
  /\ has (blank a attr) k = true.
Proof.
  intros Hk Hne. unfold blank. rewrite has_set by exact Hk.
  destruct (has a attr) eqn:Ea; [|now split]. split.
  - unfold set. simpl. f_equal. apply assoc_set_comm; [congruence|].
    unfold has, get in Hk. destruct (assoc_get (attrib a) k); [eauto|discriminate].
  - rewrite has_set; assumption.
Qed.

Lemma remove_attr_set (attrs_ : list string) (k v : string) (a : Attrs) :
  k ∈ attrs_ -> has a k = true ->
  remove_attr attrs_ (set k v a) = remove_attr attrs_ a.
Proof.
  unfold remove_attr. fold blank. revert a.
  induction attrs_ as [|attr attrs_ IH]; intros a Hin Hk; [inversion Hin|].
  cbn [fold_left]. destruct (decide (attr = k)) as [->|Hne].
  - now rewrite blank_set_same.
  - destruct (blank_set_other k attr v a Hk Hne) as [-> Hk'].
    apply IH; [|exact Hk'].
    apply elem_of_cons in Hin as [Hin|Hin]; [congruence|exact Hin].
Qed.

Lemma get_blank_other (k attr : string) (a : Attrs) :
  attr ≠ k -> get (blank a attr) k = get a k.
Proof.
  intros Hne. unfold blank. destruct (has a attr); [|reflexivity].
  unfold get, set. simpl. now apply assoc_get_set_other.
Qed.

Lemma get_remove_attr_other (attrs_ : list string) (k : string) (a : Attrs) :
  k ∉ attrs_ -> get (remove_attr attrs_ a) k = get a k.
Proof.
  unfold remove_attr. fold blank. revert a.
  induction attrs_ as [|attr attrs_ IH]; intros a Hout; [reflexivity|].
  cbn [fold_left]. apply not_elem_of_cons in Hout as [Hne Hout].
  rewrite IH by exact Hout. apply get_blank_other. congruence.
Qed.

(** The pass of [remove_attr_on_every_element] rewrites every element of
    the tree and nothing else. *)
Lemma do_func_on_attrs (f : Attrs -> Attrs) (t : XmlElement) :
  do_func_on_every_element t (on_attrs f) = map_attrs f t.
Proof.
  unfold do_func_on_every_element.
  induction t as [a cs IH] using XmlElement_tree_ind. simpl. f_equal.
  induction IH as [|c cs Hc Hcs IHcs]; [reflexivity|].
  simpl. now rewrite Hc, IHcs.
Qed.

Lemma map_insert_same {A B : Type} (h : A -> B) (l : list A) (i : nat) (x y : A) :
  l !! i = Some x -> h y = h x -> map h (<[i := y]> l) = map h l.
Proof.
  revert i. induction l as [|z l IH]; intros [|i] Hi Hh; try discriminate.
  - simpl in Hi. injection Hi as ->. simpl. now rewrite Hh.
  - simpl. f_equal. now apply IH.
Qed.

Lemma map_attrs_update_attrs (f g : Attrs -> Attrs) (p : Path) (t : XmlElement) :
  (forall a, get_attrs t p = Some a -> f (g a) = f a) ->
  map_attrs f (update_attrs g p t) = map_attrs f t.
Proof.
  revert t. induction p as [|i p IH]; intros [a cs] Hfg.
  - unfold update_attrs. simpl. now rewrite (Hfg a eq_refl).
  - unfold update_attrs in *. simpl.
    destruct (cs !! i) as [c|] eqn:Ec; [|reflexivity].
    simpl. f_equal. apply (map_insert_same _ _ _ c); [exact Ec|].
    apply IH. intros a' Ha'. apply Hfg. unfold get_attrs in *. simpl.
    now rewrite Ec.
Qed.

Lemma get_attrs_map_attrs (f : Attrs -> Attrs) (p : Path) (t : XmlElement) :
  get_attrs (map_attrs f t) p = f <$> get_attrs t p.
Proof.
  revert t. induction p as [|i p IH]; intros [a cs]; [reflexivity|].
  unfold get_attrs in *. simpl.
  change (map (map_attrs f) cs) with (map_attrs f <$> cs).
  rewrite list_lookup_fmap. destruct (cs !! i) as [c|]; [apply IH|reflexivity].
Qed.

Section WithHost.
Context `{Host}.

Lemma blanked_tree_after_set (attrs_ : list string) (k v : string) (p : Path)
    (t : XmlElement) (a : Attrs) :
  get_attrs t p = Some a -> has a k = true -> k ∈ attrs_ ->
  remove_attr_on_every_element (update_attrs (set k v) p t) attrs_
  = remove_attr_on_every_element t attrs_.
Proof.
  intros Ha Hk Hin. unfold remove_attr_on_every_element.
  rewrite !do_func_on_attrs. apply map_attrs_update_attrs.
  intros a' Ha'. rewrite Ha in Ha'. injection Ha' as <-.
  now apply remove_attr_set.
Qed.

(** X14.  What each hash level is blind to.  Let the element at [p] have
    the attribute [k], and let [t'] be the tree with another value [v]
    written there.  Then the hash of level ATTRIBUTE_IGNORE_TEXT is the same
    for both trees when [k] is [text], [index] or [bounds]; that of
    ATTRIBUTE_IGNORE_TEXT_AND_DESC when [k] is one of these or
    [content-desc]; that of LAYOUT_IGNORE_ATTRIBUTE when [k] is one of
    ALL_ATTRIBUTES.  The levels ACTIVITY_IGNORE_LAYOUT and PACKAGE give every
    tree the same hash.  ALL_ATTRIBUTES does not list [content-desc]: under
    LAYOUT_IGNORE_ATTRIBUTE a changed [content-desc] is still seen in the
    tree that is hashed. *)
Theorem hash_is_blind_to_blanked_attributes (t : XmlElement) (p : Path)
    (a : Attrs) (k v : string) (activity : option Activity.t) :
  get_attrs t p = Some a -> has a k = true ->
  let t' := update_attrs (set k v) p t in
  (k ∈ ["text"; "index"; "bounds"] ->
   calc_hash t' ATTRIBUTE_IGNORE_TEXT activity
   = calc_hash t ATTRIBUTE_IGNORE_TEXT activity)
  /\ (k ∈ ["text"; "content-desc"; "index"; "bounds"] ->
      calc_hash t' ATTRIBUTE_IGNORE_TEXT_AND_DESC activity
      = calc_hash t ATTRIBUTE_IGNORE_TEXT_AND_DESC activity)
  /\ (k ∈ Const.ALL_ATTRIBUTES ->
      calc_hash t' LAYOUT_IGNORE_ATTRIBUTE activity
      = calc_hash t LAYOUT_IGNORE_ATTRIBUTE activity)
  /\ (forall other : XmlElement,
        calc_hash other ACTIVITY_IGNORE_LAYOUT activity
        = calc_hash t ACTIVITY_IGNORE_LAYOUT activity
        /\ calc_hash other PACKAGE activity = calc_hash t PACKAGE activity)
  /\ (k = "content-desc" -> get a k ≠ Some v ->
      remove_attr_on_every_element t' Const.ALL_ATTRIBUTES
      ≠ remove_attr_on_every_element t Const.ALL_ATTRIBUTES).
Proof.
  intros Ha Hk t'. split; [|split; [|split; [|split]]].
  - intros Hin. unfold calc_hash. unfold t'.
    now rewrite (blanked_tree_after_set
                   ("text" :: Const.MUST_DIFFERENT_ATTRIBUTES) k v p t a Ha Hk Hin).
  - intros Hin. unfold calc_hash. unfold t'.
    now rewrite (blanked_tree_after_set
                   (Const.TEXT_ATTRIBUTES ++ Const.MUST_DIFFERENT_ATTRIBUTES)
                   k v p t a Ha Hk Hin).
  - intros Hin. unfold calc_hash. unfold t'.
    now rewrite (blanked_tree_after_set Const.ALL_ATTRIBUTES k v p t a Ha Hk Hin).
  - intros other. split; reflexivity.
  - intros -> Hv Heq. apply (f_equal (fun x => get_attrs x p)) in Heq.
    unfold t', remove_attr_on_every_element in Heq.
    rewrite !do_func_on_attrs, !get_attrs_map_attrs in Heq.
    rewrite NormaliserProps.get_attrs_update_attrs in Heq.
    rewrite decide_True in Heq by reflexivity. rewrite Ha in Heq.
    cbn [fmap option_fmap option_map] in Heq.
    apply (inj Some) in Heq.
    apply (f_equal (fun x => get x "content-desc")) in Heq.
    rewrite !get_remove_attr_other in Heq
      by (unfold Const.ALL_ATTRIBUTES; rewrite !not_elem_of_cons;
          repeat split; try discriminate; apply not_elem_of_nil).
    rewrite <- Heq in Hv. apply Hv. unfold get, set. cbn [attrib].
    apply assoc_get_set_same.
Qed.

End WithHost.

End HashLevelProps.

(** X14 on the sample screen, with another text on its first element. *)
Lemma hash_is_blind_to_blanked_attributes_witness :
  @Memory.calc_hash Sample.host
    (Xml.update_attrs (Xml.set "text" "Confirm") [0%nat] SampleRun.screen)
    Memory.ATTRIBUTE_IGNORE_TEXT None
  = @Memory.calc_hash Sample.host SampleRun.screen Memory.ATTRIBUTE_IGNORE_TEXT None.
Proof.
  refine (proj1 (@HashLevelProps.hash_is_blind_to_blanked_attributes Sample.host
                   SampleRun.screen [0%nat]
                   (default Memory.no_attrs (Xml.get_attrs SampleRun.screen [0%nat]))
                   "text" "Confirm" None _ _) _).
  - reflexivity.
  - reflexivity.
  - apply list_elem_of_here.
Defined.

Module ResourceIdProps.

Import Xml XmlUtil Util.

(** The test of [keep_only_one_res_id_in_child_texts]:
    [child_text.startswith("resource_id: ")]. *)
Definition is_res_id (child_text : string) : bool :=
  String.prefix "resource_id: " child_text.

Lemma filter_remove_first_other (x : string) (l : list string) :
  is_res_id x = true ->
  List.filter (fun i => negb (is_res_id i)) (remove_first x l)
  = List.filter (fun i => negb (is_res_id i)) l.
Proof.
  intros Hx. induction l as [|y l IH]; simpl; [reflexivity|].
  destruct (str_eqb y x) eqn:E.
  - apply bool_decide_eq_true in E. subst y. now rewrite Hx.
  - simpl. now rewrite IH.
Qed.

Lemma filter_remove_first_res (x : string) (l : list string) :
  is_res_id x = true ->
  List.filter is_res_id (remove_first x l)
  = remove_first x (List.filter is_res_id l).
Proof.
  intros Hx. induction l as [|y l IH]; simpl; [reflexivity|].
  destruct (str_eqb y x) eqn:E.
  - apply bool_decide_eq_true in E. subst y. rewrite Hx. simpl.
    unfold str_eqb. now rewrite bool_decide_eq_true_2.
  - simpl. destruct (is_res_id y); simpl; [now rewrite E, IH|exact IH].
Qed.

Lemma remove_first_perm (x : string) (l : list string) :
  x ∈ l -> l ≡ₚ x :: remove_first x l.
Proof.
  induction l as [|y l IH]; simpl; intros Hin; [inversion Hin|].
  destruct (str_eqb y x) eqn:E.
  - apply bool_decide_eq_true in E. now subst y.
  - apply bool_decide_eq_false in E.
    apply elem_of_cons in Hin as [Hin|Hin]; [congruence|].
    rewrite (IH Hin) at 1. apply Permutation_swap.
Qed.

(** Removing, one after the other, entries that the list holds. *)
Lemma remove_all_perm (rest l k : list string) :
  l ≡ₚ rest ++ k ->
  fold_left (fun cur x => remove_first x cur) rest l ≡ₚ k.
Proof.
  revert l. induction rest as [|x rest IH]; intros l Hl; simpl; [exact Hl|].
  apply IH. simpl in Hl.
  assert (Hin : x ∈ l) by (rewrite Hl; apply list_elem_of_here).
  rewrite (remove_first_perm x l Hin) in Hl.
  now apply Permutation_cons_inv in Hl.
Qed.

(** The loop once a resource id has been met: every later one is taken out
    of the list. *)
Lemma drop_later_true (copy child_texts : list string) :
  drop_later_res_ids copy true child_texts
  = fold_left (fun cur x => remove_first x cur)
              (List.filter is_res_id copy) child_texts.
Proof.
  revert child_texts. induction copy as [|x copy IH]; intros child_texts; simpl;
    [reflexivity|].
  fold (is_res_id x). destruct (is_res_id x); simpl; apply IH.
Qed.

Lemma drop_later_false (copy child_texts : list string) :
  drop_later_res_ids copy false child_texts
  = fold_left (fun cur x => remove_first x cur)
              (tail (List.filter is_res_id copy)) child_texts.
Proof.
  revert child_texts. induction copy as [|x copy IH]; intros child_texts; simpl;
    [reflexivity|].
  fold (is_res_id x). destruct (is_res_id x); simpl; [apply drop_later_true|apply IH].
Qed.

Lemma fold_remove_other (rest l : list string) :
  Forall (fun x => is_res_id x = true) rest ->
  List.filter (fun i => negb (is_res_id i))
    (fold_left (fun cur x => remove_first x cur) rest l)
  = List.filter (fun i => negb (is_res_id i)) l.
Proof.
  intros Hrest. revert l. induction Hrest as [|x rest Hx Hrest IH]; intros l;
    simpl; [reflexivity|].
  now rewrite IH, filter_remove_first_other.
Qed.

Lemma fold_remove_res (rest l : list string) :
  Forall (fun x => is_res_id x = true) rest ->
  List.filter is_res_id (fold_left (fun cur x => remove_first x cur) rest l)
  = fold_left (fun cur x => remove_first x cur) rest (List.filter is_res_id l).
Proof.
  intros Hrest. revert l. induction Hrest as [|x rest Hx Hrest IH]; intros l;
    simpl; [reflexivity|].
  now rewrite IH, filter_remove_first_res.
Qed.

Lemma filter_all_res (l : list string) :
  Forall (fun x => is_res_id x = true) (List.filter is_res_id l).
Proof.
  apply Forall_forall. intros x Hx.
  apply list_elem_of_In, List.filter_In in Hx. apply Hx.
Qed.

Lemma drop_later_spec (texts : list string) :
  List.filter is_res_id (drop_later_res_ids texts false texts)
  = take 1 (List.filter is_res_id texts)
  /\ List.filter (fun i => negb (is_res_id i))
       (drop_later_res_ids texts false texts)
     = List.filter (fun i => negb (is_res_id i)) texts.
Proof.
  rewrite drop_later_false.
  pose proof (filter_all_res texts) as Hall.
  destruct (List.filter is_res_id texts) as [|u rest] eqn:Eres.
  - simpl. now rewrite Eres.
  - apply Forall_cons in Hall as [Hu Hrest]. simpl tail. split.
    + rewrite (fold_remove_res _ _ Hrest), Eres. simpl.
      apply Permutation_singleton_r. apply remove_all_perm.
      apply Permutation_cons_append.
    + apply (fold_remove_other _ _ Hrest).
Qed.

(** X15.  [keep_only_one_res_id_in_child_texts] does to the child texts of
    a key element what its name says, whatever the list holds, repeated
    entries included: of the entries that start with [resource_id: ] the
    result holds one, with the value of the first of them, when there was
    any; every other entry stays, in its order; and the other attributes and
    the near texts of the element are left alone. *)
Theorem one_resource_id_is_kept (a : Attrs) :
  let a' := keep_only_one_res_id a in
  List.filter is_res_id (child_texts_of a')
  = take 1 (List.filter is_res_id (child_texts_of a))
  /\ List.filter (fun i => negb (is_res_id i)) (child_texts_of a')
     = List.filter (fun i => negb (is_res_id i)) (child_texts_of a)
  /\ attrib a' = attrib a /\ tag a' = tag a /\ near_texts a' = near_texts a.
Proof.
  cbv zeta. unfold keep_only_one_res_id.
  destruct (length (child_texts_of a) <=? 1)%nat eqn:Elen.
  - apply Nat.leb_le in Elen. split; [|now repeat split].
    destruct (child_texts_of a) as [|x [|y l]]; simpl in *; [reflexivity| |lia].
    now destruct (is_res_id x).
  - destruct (drop_later_spec (child_texts_of a)) as [Hres Hother].
    split; [exact Hres|]. split; [exact Hother|]. now repeat split.
Qed.

End ResourceIdProps.

Module TraverseProps.

Import Xml XmlUtil PipelineProps.

(** The number of elements that carry [depth] on the way from the root of
    [t] to the element that [rel] refers to, both included. *)
Fixpoint keys_on_way (t : XmlElement) (rel : Path) : nat :=
  ((if has (attrs t) "depth" then 1 else 0)
   + match rel with
     | [] => 0
     | i :: rel' =>
         match children t !! i with
         | Some c => keys_on_way c rel'
         | None => 0
         end
     end)%nat.

(** [qd] refers to an element of [t] that carries [depth], by its place
    below [path], with the count of such elements above it. *)
Definition listed (path : Path) (key_depth : nat) (t : XmlElement)
    (qd : Path * nat) : Prop :=
  exists rel a,
    fst qd = path ++ rel /\ get_attrs t rel = Some a /\ has a "depth" = true
    /\ snd qd = (key_depth + keys_on_way t rel)%nat.

Lemma listed_node (path : Path) (key_depth : nat) (a0 : Attrs)
    (cs : list XmlElement) (qd : Path * nat) :
  listed path key_depth (Node a0 cs) qd
  <-> (exists j c,
         cs !! j = Some c
         /\ listed (path ++ [j])
              (if has a0 "depth" then S key_depth else key_depth) c qd)
      \/ (has a0 "depth" = true /\ qd = (path, S key_depth)).
Proof.
  destruct qd as [q d]. unfold listed. cbn [fst snd]. split.
  - intros (rel & a & Hq & Hget & Hd & Hn). destruct rel as [|j rel].
    + right. unfold get_attrs in Hget. cbn [get_node fmap option_fmap option_map attrs] in Hget.
      injection Hget as <-.
      split; [exact Hd|]. cbn [keys_on_way attrs] in Hn. rewrite Hd in Hn.
      rewrite app_nil_r in Hq. subst q d. f_equal. lia.
    + left. unfold get_attrs in Hget. cbn [get_node children] in Hget.
      cbn [keys_on_way attrs children] in Hn.
      destruct (cs !! j) as [c|] eqn:Ec; [|discriminate].
      exists j, c. split; [exact Ec|]. exists rel, a.
      split; [now rewrite <- app_assoc|]. split; [exact Hget|].
      split; [exact Hd|]. destruct (has a0 "depth"); lia.
  - intros [(j & c & Hc & rel & a & Hq & Hget & Hd & Hn)|[Hd Heq]].
    + exists (j :: rel), a. split; [now rewrite Hq, <- app_assoc|].
      unfold get_attrs. cbn [get_node children keys_on_way attrs]. rewrite Hc.
      split; [exact Hget|]. split; [exact Hd|].
      destruct (has a0 "depth"); lia.
    + injection Heq as -> ->. exists [], a0. rewrite app_nil_r.
      cbn [keys_on_way attrs]. rewrite Hd.
      split; [reflexivity|]. split; [reflexivity|]. split; [reflexivity|]. lia.
Qed.

Lemma traverse_children_elem (path : Path) (key_depth : nat)
    (l : list XmlElement) :
  Forall (fun c => forall path key_depth qd,
              qd ∈ _traverse_xml path key_depth c <-> listed path key_depth c qd) l ->
  forall i qd,
    qd ∈ traverse_children path key_depth i l
    <-> exists j c, l !! j = Some c /\ listed (path ++ [(i + j)%nat]) key_depth c qd.
Proof.
  intros Hall. induction Hall as [|c l Hc Hall IH]; intros i qd.
  - split; [intros Hin; inversion Hin|]. intros (j & c & Hj & _). discriminate.
  - change (traverse_children path key_depth i (c :: l))
      with (_traverse_xml (path ++ [i]) key_depth c
            ++ traverse_children path key_depth (S i) l).
    rewrite elem_of_app, Hc, IH. split.
    + intros [Hl|(j & c' & Hj & Hl)].
      * exists 0%nat, c. split; [reflexivity|]. now rewrite Nat.add_0_r.
      * exists (S j), c'. split; [exact Hj|].
        now replace (i + S j)%nat with (S i + j)%nat by lia.
    + intros (j & c' & Hj & Hl). destruct j as [|j].
      * left. simpl in Hj. injection Hj as <-. now rewrite Nat.add_0_r in Hl.
      * right. exists j, c'. split; [exact Hj|].
        now replace (S i + j)%nat with (i + S j)%nat by lia.
Qed.

Lemma traverse_xml_elem (t : XmlElement) :
  forall path key_depth qd,
    qd ∈ _traverse_xml path key_depth t <-> listed path key_depth t qd.
Proof.
  induction t as [a0 cs IH] using XmlElement_tree_ind.
  intros path key_depth qd. rewrite listed_node. simpl.
  set (kd := if has a0 "depth" then S key_depth else key_depth).
  fold (traverse_children path kd).
  pose proof (traverse_children_elem path kd cs IH 0%nat qd) as Hbelow.
  simpl in Hbelow. destruct (has a0 "depth") eqn:Ed.
  - rewrite elem_of_app, Hbelow, list_elem_of_singleton. unfold kd.
    split; (intros [Hl|Hr]; [now left|right]); [now split|apply Hr].
  - rewrite Hbelow. split; [now left|]. intros [Hl|[Hr _]]; [exact Hl|discriminate].
Qed.

Lemma listed_prefix (path : Path) (key_depth : nat) (t : XmlElement)
    (qd : Path * nat) :
  listed path key_depth t qd -> exists rel, fst qd = path ++ rel.
Proof. intros (rel & _ & Hq & _). now exists rel. Qed.

Lemma traverse_children_NoDup (path : Path) (key_depth : nat)
    (l : list XmlElement) :
  Forall (fun c => forall path key_depth,
              NoDup (fst <$> _traverse_xml path key_depth c)) l ->
  forall i, NoDup (fst <$> traverse_children path key_depth i l).
Proof.
  intros Hall. induction Hall as [|c l Hc Hall IH]; intros i; [constructor|].
  change (traverse_children path key_depth i (c :: l))
    with (_traverse_xml (path ++ [i]) key_depth c
          ++ traverse_children path key_depth (S i) l).
  rewrite fmap_app. apply NoDup_app. split; [apply Hc|]. split; [|apply IH].
  intros q [[q1 d1] [-> Hin1]]%list_elem_of_fmap
           [[q2 d2] [Heq Hin2]]%list_elem_of_fmap.
  apply traverse_xml_elem, listed_prefix in Hin1 as [rel1 Hq1].
  assert (Hlater : forall l i qd,
             qd ∈ traverse_children path key_depth i l ->
             exists j rel, fst qd = path ++ (i + j)%nat :: rel).
  { clear. induction l as [|c l IHl]; intros i qd Hin; [inversion Hin|].
    change (traverse_children path key_depth i (c :: l))
      with (_traverse_xml (path ++ [i]) key_depth c
            ++ traverse_children path key_depth (S i) l) in Hin.
    apply elem_of_app in Hin as [Hin|Hin].
    - apply traverse_xml_elem, listed_prefix in Hin as [rel Hq].
      exists 0%nat, rel. etransitivity; [exact Hq|].
      now rewrite <- app_assoc, Nat.add_0_r.
    - destruct (IHl (S i) qd Hin) as (j & rel & Hq).
      exists (S j), rel. etransitivity; [exact Hq|].
      now replace (i + S j)%nat with (S i + j)%nat by lia. }
  destruct (Hlater _ _ _ Hin2) as (j & rel2 & Hq2).
  simpl in *. rewrite <- Heq, Hq1, <- app_assoc in Hq2.
  apply app_inv_head in Hq2. injection Hq2 as Hi _. lia.
Qed.

Lemma traverse_xml_NoDup (t : XmlElement) :
  forall path key_depth, NoDup (fst <$> _traverse_xml path key_depth t).
Proof.
  induction t as [a0 cs IH] using XmlElement_tree_ind.
  intros path key_depth. simpl.
  set (kd := if has a0 "depth" then S key_depth else key_depth).
  fold (traverse_children path kd).
  pose proof (traverse_children_NoDup path kd cs IH 0%nat) as Hbelow.
  destruct (has a0 "depth"); [|exact Hbelow].
  rewrite fmap_app. apply NoDup_app. split; [exact Hbelow|].
  split; [|apply NoDup_singleton].
  intros q [[q1 d1] [-> Hin1]]%list_elem_of_fmap Hq%list_elem_of_singleton.
  apply (traverse_children_elem path kd cs) in Hin1;
    [|apply Forall_forall; intros c _; apply traverse_xml_elem].
  destruct Hin1 as (j & c & _ & Hl). apply listed_prefix in Hl as [rel Hrel].
  simpl in *. rewrite Hq, <- app_assoc in Hrel.
  rewrite <- (app_nil_r path) in Hrel at 1. apply app_inv_head in Hrel.
  discriminate.
Qed.

(** X16.  [traverse_xml] lists the key elements of a tree exactly: a
    reference is in the list, with the number [d], if and only if it leads
    to an element that carries [depth] and [d] counts the elements that
    carry [depth] on the way from the root to it, itself included; no
    element is listed twice. *)
Theorem traverse_xml_lists_the_key_elements (t : XmlElement) (q : Path) (d : nat) :
  ((q, d) ∈ traverse_xml t
   <-> exists a, get_attrs t q = Some a /\ has a "depth" = true
                 /\ d = keys_on_way t q)
  /\ NoDup (map fst (traverse_xml t)).
Proof.
  split; [|exact (traverse_xml_NoDup t [] 0%nat)].
  unfold traverse_xml. rewrite traverse_xml_elem. unfold listed. simpl. split.
  - intros (rel & a & -> & Hget & Hd & ->). now exists a.
  - intros (a & Hget & Hd & ->). now exists q, a.
Qed.

End TraverseProps.

(* ===================================================================== *)
(** ** The weight table of a constructed Status *)
(* ===================================================================== *)

Module FreshStatusProps.

Import Xml Memory PipelineProps.

Section WithHost.
Context `{Host}.

(** The tree and the key elements that [Status.__init__] returns with. *)
Lemma Status_init_fields (activity : Activity.t) (xml : string)
    (xml_tree : XmlElement) (step_count : Z) (status_level : StatusLevel)
    (from_status : option nat) (s : Status.t) :
  Status__init__ activity xml xml_tree step_count status_level from_status = Ok s ->
  Status.xml_tree s = init_element_tree xml_tree
  /\ Status._all_elements s
     = get_elements_disable_weight (init_element_tree xml_tree).
Proof.
  intros Hinit. unfold Status__init__ in Hinit.
  apply WeightProps.bind_Ok in Hinit as (hash & _ & Hinit).
  apply WeightProps.bind_Ok in Hinit as (x2e & _ & Hinit).
  apply WeightProps.bind_Ok in Hinit as (s1 & Hw & Hret). injection Hret as <-.
  apply WeightProps.init_element_weights_spec in Hw as (_ & Htree & Hels & _).
  2:{ intros p w Hp. simpl in Hp. rewrite lookup_empty in Hp. discriminate. }
  simpl in *. now split.
Qed.

(** The key elements that [get_elements(disable_weight=True)] lists: those
    that carry [depth] and, when the configuration filters by status
    weight, are displayed. *)
Lemma get_elements_lists (t : XmlElement) (ed : Path * nat) :
  ed ∈ get_elements_disable_weight t
  <-> exists a,
        get_attrs t (fst ed) = Some a /\ has a "depth" = true
        /\ snd ed = TraverseProps.keys_on_way t (fst ed)
        /\ (filter_by_status_weight = false
            \/ Util.true_ (get a "displayed") = true).
Proof.
  assert (Hlisted : ed ∈ XmlUtil.traverse_xml t
                    <-> exists a, get_attrs t (fst ed) = Some a
                                  /\ has a "depth" = true
                                  /\ snd ed = TraverseProps.keys_on_way t (fst ed)).
  { unfold XmlUtil.traverse_xml. rewrite TraverseProps.traverse_xml_elem.
    unfold TraverseProps.listed. simpl. split.
    - intros (rel & a & -> & Hget & Hd & ->). now exists a.
    - intros (a & Hget & Hd & Hn). now exists (fst ed), a. }
  unfold get_elements_disable_weight.
  destruct filter_by_status_weight; cbn [negb].
  - rewrite list_elem_of_In, List.filter_In, <- list_elem_of_In, Hlisted. split.
    + intros [(a & Hget & Hd & Hn) Hshown]. exists a. rewrite Hget in Hshown.
      repeat split; try assumption. now right.
    + intros (a & Hget & Hd & Hn & [Hoff|Hshown]); [discriminate|].
      split; [now exists a|]. now rewrite Hget.
  - rewrite Hlisted. split.
    + intros (a & Hget & Hd & Hn). exists a. repeat split; try assumption. now left.
    + intros (a & Hget & Hd & Hn & _). now exists a.
Qed.

(** C10, as the code has it.  On every tree as the driver captures it (no
    element carries [depth] without [xpath]), [Status.__init__] returns a
    Status on the normalised tree whose weight table holds an entry at 100
    (MAX) under the key [back], an entry at 100 under the path of every key
    element (element of the tree that carries [depth]) that is displayed,
    or of every key element when the configuration does not filter by
    status weight, and no other entry; so a weight query for [back] returns
    100 without error, and [single_ban_element "back"] turns that entry
    into DISABLED_FOREVER (-990). *)
Theorem fresh_status_has_back_entry (activity : Activity.t) (xml : string)
    (xml_tree : XmlElement) (step_count : Z) (status_level : StatusLevel)
    (from_status : option nat) :
  tree_all depth_has_xpath xml_tree ->
  exists s,
    Status__init__ activity xml xml_tree step_count status_level from_status
    = Ok s
    /\ Status.xml_tree s = init_element_tree xml_tree
    /\ Status.element_weights s !! "back" = Some 100
    /\ (forall q a,
          get_attrs (Status.xml_tree s) q = Some a ->
          has a "depth" = true ->
          filter_by_status_weight = false
          \/ Util.true_ (get a "displayed") = true ->
          exists xpath, get a "xpath" = Some xpath
                        /\ Status.element_weights s !! xpath = Some 100)
    /\ (forall p, is_Some (Status.element_weights s !! p) ->
          p = "back"
          \/ exists q a,
               get_attrs (Status.xml_tree s) q = Some a
               /\ has a "depth" = true
               /\ (filter_by_status_weight = false
                   \/ Util.true_ (get a "displayed") = true)
               /\ get a "xpath" = Some p)
    /\ get_weight s (inl "back") = Ok 100
    /\ Status.element_weights (single_ban_element "back" s) !! "back"
       = Some (-990).
Proof.
  intros Ht.
  destruct (Status_init_total activity xml xml_tree step_count status_level
              from_status Ht) as [s Hs].
  destruct (Status_init_fields _ _ _ _ _ _ _ Hs) as [Htree Hels].
  destruct (WeightProps.fresh_status_table _ _ _ _ _ _ _ Hs)
    as (Hback & Hin & Hdom & Hget & Hban).
  exists s. split; [exact Hs|]. split; [exact Htree|]. split; [exact Hback|].
  split; [|split; [|split; [exact Hget|exact Hban]]].
  - intros q a Hq Hd Hshown.
    destruct (Hin (q, TraverseProps.keys_on_way (Status.xml_tree s) q))
      as (xpath & Hx & Hw).
    + rewrite Hels, <- Htree. apply get_elements_lists. exists a.
      now repeat split.
    + exists xpath. unfold element in Hx. cbn [fst] in Hx. rewrite Hq in Hx.
      now split.
  - intros p Hp. destruct (Hdom p Hp) as [Hb|(ed & Hed & Hx)]; [now left|right].
    rewrite Hels, <- Htree in Hed.
    apply get_elements_lists in Hed as (a & Hq & Hd & _ & Hshown).
    exists (fst ed), a. unfold element in Hx. rewrite Hq in Hx.
    now repeat split.
Qed.

End WithHost.

End FreshStatusProps.

(** A screen with a button that is not displayed. *)
Definition hidden_button : Xml.XmlElement :=
  Xml.Node (Xml.MkAttrs "hierarchy" [] None None)
    [ Sample.leaf "android.widget.Button"
        [("class", "android.widget.Button"); ("text", "Later");
         ("clickable", "true"); ("displayed", "false")] ].

(** The claim C10 as the specification has it: every key element of the
    Status (element of its tree that carries [depth]) has an entry in the
    weight table. *)
Definition one_entry_per_key_element (s : Memory.Status.t) : Prop :=
  forall q a,
    Xml.get_attrs (Memory.Status.xml_tree s) q = Some a ->
    Xml.has a "depth" = true ->
    exists xpath, Xml.get a "xpath" = Some xpath
                  /\ is_Some (Memory.Status.element_weights s !! xpath).

(** C10 fails for a key element that is not displayed: under the default
    configuration (which filters by status weight) the Status constructed
    from [hidden_button] has the button as a key element, with a path, and
    no weight entry for it. *)
Lemma hidden_key_element_has_no_entry_counterexample :
  exists s,
    @Memory.Status__init__ Sample.host Sample.activity0 EmptyString
      hidden_button 0 Memory.DEFAULT_STATUS_LEVEL None = Ok s
    /\ ~ one_entry_per_key_element s.
Proof.
  eexists. split; [vm_compute; reflexivity|].
  intros Hall.
  destruct (Hall [0%nat]
              (default Memory.no_attrs
                 (Xml.get_attrs
                    (@Memory.init_element_tree Sample.host hidden_button)
                    [0%nat])))
    as (xpath & Hx & Hw).
  - vm_compute. reflexivity.
  - vm_compute. reflexivity.
  - vm_compute in Hx. injection Hx as <-. vm_compute in Hw.
    destruct Hw as [w Hw]. discriminate.
Qed.

(** C10 as amended, at the sample screen: the label is no key element,
    the displayed button has its entry at 100, and so has [back]. *)
Lemma fresh_status_has_back_entry_witness :
  PipelineProps.tree_all PipelineProps.depth_has_xpath Sample.label_then_button
  /\ exists s,
       @Memory.Status__init__ Sample.host Sample.activity0 EmptyString
         Sample.label_then_button 0 Memory.DEFAULT_STATUS_LEVEL None = Ok s
       /\ Memory.Status.element_weights s !! "back" = Some 100
       /\ Memory.Status.element_weights s !! "/hierarchy/*[2]" = Some 100
       /\ Memory.get_weight s (inl "back") = Ok 100.
Proof.
  split; [exact label_then_button_captured|].
  destruct (@FreshStatusProps.fresh_status_has_back_entry Sample.host
              Sample.activity0 EmptyString Sample.label_then_button 0
              Memory.DEFAULT_STATUS_LEVEL None label_then_button_captured)
    as (s & Hs & Htree & Hback & Hkeys & _ & Hget & _).
  exists s. split; [exact Hs|]. split; [exact Hback|]. split; [|exact Hget].
  destruct (Hkeys [1%nat]
              (default Memory.no_attrs
                 (Xml.get_attrs
                    (@Memory.init_element_tree Sample.host Sample.label_then_button)
                    [1%nat])))
    as (xpath & Hx & Hw).
  - rewrite Htree. vm_compute. reflexivity.
  - vm_compute. reflexivity.
  - right. vm_compute. reflexivity.
  - vm_compute in Hx. injection Hx as <-. exact Hw.
Defined.

Module ActivityProps.

Import Xml Memory PipelineProps DedupProps.

(** The hash of the Status object [id] stands for. *)
Definition hash_of (h : Heap) (id : nat) : option string :=
  Status.hash <$> objects h !! id.

(** The Activity refers to objects of the store only, and no two entries of
    its list have the same hash. *)
Definition distinct_statuses (a : Activity.t) (h : Heap) : Prop :=
  (forall id, id ∈ Activity.statuses a ->
              (id < next_oid h)%nat /\ is_Some (objects h !! id))
  /\ (forall i j id1 id2,
        Activity.statuses a !! i = Some id1 ->
        Activity.statuses a !! j = Some id2 ->
        hash_of h id1 = hash_of h id2 -> i = j).

Section WithHost.
Context `{Host}.

(** X17.  An Activity never holds two Statuses with one hash.  From a
    store and an Activity where this is so, [add_status] on a captured tree
    returns, and it is so afterwards; the Status returned is in the list;
    the list is the old one or the old one with the returned Status at its
    end, and then the new Status has the hash of the tree and the last
    Status of the old list as [from_status]; no Status the Activity held is
    changed or lost. *)
Theorem add_status_keeps_hashes_distinct (a : Activity.t) (h : Heap)
    (xml : string) (xml_tree : XmlElement) (step_count : Z) :
  tree_all depth_has_xpath xml_tree ->
  distinct_statuses a h ->
  exists a' h' status,
    add_status a h xml xml_tree step_count = Ok (a', h', status)
    /\ distinct_statuses a' h'
    /\ status ∈ Activity.statuses a'
    /\ calc_hash xml_tree (Activity.status_level a) (Some a)
       = Ok (default EmptyString (hash_of h' status))
    /\ (Activity.statuses a' = Activity.statuses a
        \/ (Activity.statuses a' = Activity.statuses a ++ [status]
            /\ (status ∉ Activity.statuses a)
            /\ (Status.from_status <$> (objects h' !! status))
               = Some (_last_status a)))
    /\ (forall id, id ∈ Activity.statuses a ->
                   objects h' !! id = objects h !! id).
Proof.
  intros Htree [Hrefs Hdist].
  destruct (Status_init_total a xml xml_tree step_count (Activity.status_level a)
              None Htree) as [c Hc].
  pose proof (WeightProps.Status_init_hash _ _ _ _ _ _ _ Hc) as Hhash.
  unfold add_status, _get_status. rewrite Hc. simpl.
  destruct (status_with_hash h (Status.hash c) (Activity.statuses a))
    as [old|] eqn:Escan; simpl.
  - (* a Status of the Activity has the hash *)
    pose proof Escan as Hfound. unfold status_with_hash in Hfound.
    apply find_some_elem in Hfound as [Hin Hsame].
    rewrite bool_decide_eq_true_2 by exact Hin.
    exists a, (MkHeap (objects h) (S (next_oid h))), old.
    split; [reflexivity|]. split; [|split; [exact Hin|split; [|split]]].
    + split; [|exact Hdist]. intros id Hid. destruct (Hrefs id Hid) as [Hlt Hobj].
      simpl. split; [lia|exact Hobj].
    + unfold hash_of. simpl. destruct (objects h !! old) as [st|]; [|discriminate].
      apply bool_decide_eq_true in Hsame. simpl. now rewrite Hsame.
    + now left.
    + reflexivity.
  - (* the candidate is new *)
    set (n := next_oid h).
    assert (Hfresh : n ∉ Activity.statuses a).
    { intros Hin. destruct (Hrefs n Hin) as [Hlt _]. unfold n in Hlt. lia. }
    rewrite bool_decide_eq_false_2 by exact Hfresh.
    eexists _, _, n. split; [reflexivity|]. simpl.
    assert (Hold : forall id, id ∈ Activity.statuses a ->
               alter (Status.with_from_status (_last_status a)) n
                     (<[n := c]> (objects h)) !! id
               = objects h !! id).
    { intros id Hid. assert (id ≠ n) by congruence.
      now rewrite lookup_alter_ne, lookup_insert_ne by congruence. }
    assert (Hnew : alter (Status.with_from_status (_last_status a)) n
                         (<[n := c]> (objects h)) !! n
                   = Some (Status.with_from_status (_last_status a) c)).
    { now rewrite lookup_alter_eq, lookup_insert_eq. }
    split; [|split; [|split; [|split]]].
    + split.
      * intros id [Hid|Hid]%elem_of_app; simpl.
        -- destruct (Hrefs id Hid) as [Hlt Hobj]. split; [lia|].
           now rewrite Hold.
        -- apply list_elem_of_singleton in Hid. subst id.
           split; [unfold n; lia|]. rewrite Hnew. eauto.
      * assert (Hother : forall i id, Activity.statuses a !! i = Some id ->
                   hash_of (MkHeap (alter (Status.with_from_status (_last_status a)) n
                                      (<[n := c]> (objects h))) (S n)) id
                   = hash_of h id
                   /\ hash_of h id ≠ Some (Status.hash c)).
        { intros i id Hi. assert (Hid : id ∈ Activity.statuses a)
            by (eapply list_elem_of_lookup_2; exact Hi).
          unfold hash_of. simpl. rewrite (Hold id Hid). split; [reflexivity|].
          pose proof (find_none_rejects _ _ id Escan Hid) as Hrej. simpl in Hrej.
          destruct (objects h !! id) as [st|]; [|discriminate].
          apply bool_decide_eq_false in Hrej. simpl. congruence. }
        assert (Hn : hash_of (MkHeap (alter (Status.with_from_status (_last_status a)) n
                                        (<[n := c]> (objects h))) (S n)) n
                     = Some (Status.hash c)).
        { unfold hash_of. simpl. now rewrite Hnew. }
        intros i j id1 id2 Hi Hj Heq. simpl in Hi, Hj.
        apply lookup_app_Some in Hi as [Hi|[Hli Hi]];
          apply lookup_app_Some in Hj as [Hj|[Hlj Hj]].
        -- destruct (Hother i id1 Hi) as [E1 _], (Hother j id2 Hj) as [E2 _].
           rewrite E1, E2 in Heq. exact (Hdist i j id1 id2 Hi Hj Heq).
        -- apply list_lookup_singleton_Some in Hj as [_ <-].
           destruct (Hother i id1 Hi) as [E1 N1]. rewrite E1, Hn in Heq.
           contradiction.
        -- apply list_lookup_singleton_Some in Hi as [_ <-].
           destruct (Hother j id2 Hj) as [E2 N2]. rewrite E2, Hn in Heq.
           symmetry in Heq. contradiction.
        -- apply list_lookup_singleton_Some in Hi as [Hi _].
           apply list_lookup_singleton_Some in Hj as [Hj _]. lia.
    + apply elem_of_app. right. now apply list_elem_of_singleton.
    + unfold hash_of. simpl. rewrite Hnew. simpl. exact Hhash.
    + right. split; [reflexivity|]. split; [exact Hfresh|].
      now rewrite Hnew.
    + exact Hold.
Qed.

End WithHost.

End ActivityProps.

(** X17 on a new Activity and the empty store. *)
Lemma add_status_keeps_hashes_distinct_witness :
  exists a' h' status,
    @Memory.add_status Sample.host Sample.activity0 Memory.empty_heap
      EmptyString Sample.label_then_button 0 = Ok (a', h', status)
    /\ ActivityProps.distinct_statuses a' h'.
Proof.
  destruct (@ActivityProps.add_status_keeps_hashes_distinct Sample.host
              Sample.activity0 Memory.empty_heap EmptyString
              Sample.label_then_button 0)
    as (a' & h' & status & Hadd & Hd & _).
  - exact label_then_button_captured.
  - split.
    + intros id Hid. inversion Hid.
    + intros i j id1 id2 Hi. discriminate Hi.
  - exists a', h', status. split; [exact Hadd|exact Hd].
Defined.

Module ShapeProps.

Import Xml XmlUtil Memory PipelineProps.

(** An element with nothing but its tag, and an element without its two
    lists of texts. *)
Definition bare (a : Attrs) : Attrs := MkAttrs (tag a) [] None None.

Definition without_texts (a : Attrs) : Attrs :=
  MkAttrs (tag a) (attrib a) None None.

Section Erase.

(** What is looked at in every element. *)
Variable proj : Attrs -> Attrs.

Definition erase (t : XmlElement) : XmlElement := map_attrs proj t.

Lemma erase_node (a : Attrs) (cs : list XmlElement) :
  erase (Node a cs) = Node (proj a) (map erase cs).
Proof. reflexivity. Qed.

Lemma erase_on_attrs (f : Attrs -> Attrs) (t : XmlElement) :
  (forall a, proj (f a) = proj a) -> erase (on_attrs f t) = erase t.
Proof.
  intros Hf. destruct t as [a cs]. simpl. rewrite !erase_node. now rewrite Hf.
Qed.

Lemma erase_map_attrs (f : Attrs -> Attrs) :
  (forall a, proj (f a) = proj a) ->
  forall t, erase (map_attrs f t) = erase t.
Proof.
  intros Hf. induction t as [a cs IH] using XmlElement_tree_ind.
  simpl map_attrs. rewrite !erase_node, Hf.
  f_equal. rewrite map_map. induction IH as [|c cs Hc Hcs IHcs]; [reflexivity|].
  simpl. now rewrite Hc, IHcs.
Qed.

(** A pass over every element keeps what the function it applies keeps. *)
Lemma erase_do_func (func : XmlElement -> XmlElement) :
  (forall t, erase (func t) = erase t) ->
  forall shape t, erase (do_func_on_shape func shape t) = erase t.
Proof.
  intros Hfunc. induction shape as [sa scs IH] using XmlElement_tree_ind.
  intros t. simpl. specialize (Hfunc t). destruct (func t) as [a cs].
  rewrite <- Hfunc, !erase_node. f_equal. clear Hfunc t. revert cs.
  induction IH as [|s ss Hs Hss IHss]; intros cs.
  - now destruct cs.
  - destruct cs as [|c cs]; [reflexivity|]. simpl. now rewrite Hs, IHss.
Qed.

Lemma erase_update_node (f : XmlElement -> XmlElement) :
  (forall t, erase (f t) = erase t) ->
  forall p t, erase (update_node f p t) = erase t.
Proof.
  intros Hf. induction p as [|i p IH]; intros t; [apply Hf|].
  destruct t as [a cs]. simpl.
  destruct (cs !! i) as [c|] eqn:Ec; [|reflexivity].
  rewrite !erase_node. f_equal.
  apply (HashLevelProps.map_insert_same _ _ _ c); [exact Ec|apply IH].
Qed.

Lemma erase_update_attrs (f : Attrs -> Attrs) (p : Path) (t : XmlElement) :
  (forall a, proj (f a) = proj a) -> erase (update_attrs f p t) = erase t.
Proof.
  intros Hf. apply erase_update_node. intros t'. now apply erase_on_attrs.
Qed.

Lemma erase_fold (step : Path -> XmlElement -> XmlElement) :
  (forall p t, erase (step p t) = erase t) ->
  forall l t, erase (fold_left (fun t p => step p t) l t) = erase t.
Proof.
  intros Hstep. induction l as [|p l IH]; intros t; [reflexivity|].
  simpl. now rewrite IH, Hstep.
Qed.

(** The stages of the normaliser after key-node detection write
    [child_texts] and [near_texts] only. *)
Hypothesis proj_child_texts : forall l a, proj (set_child_texts l a) = proj a.
Hypothesis proj_near_texts : forall l a, proj (set_near_texts l a) = proj a.

Lemma erase_pass_down_child_texts (t : XmlElement) (keys : list Path) :
  erase (pass_down_child_texts t keys) = erase t.
Proof.
  unfold pass_down_child_texts. revert t.
  apply (erase_fold pass_down_child_texts_step).
  intros p t. unfold pass_down_child_texts_step.
  destruct p as [|i p]; [reflexivity|].
  destruct (get_node t (removelast (i :: p))) as [parent|]; [|reflexivity].
  destruct (Util.truthy _); [reflexivity|].
  destruct (child_texts_of (attrs parent)) as [|x l]; [reflexivity|].
  apply erase_update_node. intros [pa pcs]. rewrite !erase_node. f_equal.
  rewrite map_map. apply map_ext. intros c. apply erase_on_attrs.
  intros ca. destruct (bool_decide _); [reflexivity|apply proj_child_texts].
Qed.

Lemma erase_after_detection (t : XmlElement) (keys : list Path) :
  erase (remove_duplicate_near_texts
           (keep_only_one_res_id_in_child_texts
              (pass_down_child_texts (merge_children_text_desc t) keys) keys)
           keys)
  = erase t.
Proof.
  unfold remove_duplicate_near_texts, keep_only_one_res_id_in_child_texts,
    merge_children_text_desc.
  rewrite (erase_fold (fun p t => update_attrs (filter_near_texts _) p t))
    by (intros q t'; apply erase_update_attrs; intros a; apply proj_near_texts).
  rewrite (erase_fold (fun p t => update_attrs keep_only_one_res_id p t)).
  - apply erase_pass_down_child_texts.
  - intros q t'. apply erase_update_attrs. intros a.
    unfold keep_only_one_res_id.
    destruct (_ <=? _)%nat; [reflexivity|apply proj_child_texts].
Qed.

End Erase.

Definition skeleton (t : XmlElement) : XmlElement := erase bare t.

Lemma skeleton_node (a : Attrs) (cs : list XmlElement) :
  skeleton (Node a cs) = Node (bare a) (map skeleton cs).
Proof. reflexivity. Qed.

Lemma tag_fold_set {A : Type} (key : A -> string) (val : A -> string)
    (l : list A) (a : Attrs) :
  tag (fold_left (fun a x => set (key x) (val x) a) l a) = tag a.
Proof. revert a. induction l as [|x l IH]; intros a; simpl; [reflexivity|]. now rewrite IH. Qed.

Lemma skeleton_pass_down_actionable_func (t : XmlElement) :
  skeleton (pass_down_actionable_func t) = skeleton t.
Proof.
  destruct t as [a cs]. unfold pass_down_actionable_func.
  destruct (negb _); [reflexivity|].
  destruct (length cs <? 2)%nat; [reflexivity|].
  destruct (List.filter (fun i => Util.true_ (get a i)) Const.PASS_DOWN_ATTRIBUTES)
    as [|k keys]; [reflexivity|].
  rewrite !skeleton_node. f_equal.
  - unfold bare. f_equal.
    apply (tag_fold_set (fun attr => attr) (fun _ => "false")).
  - rewrite map_map. apply map_ext. intros c.
    destruct (_ && _); [reflexivity|].
    apply (erase_on_attrs bare). intros ca. unfold bare. f_equal.
    now rewrite (tag_fold_set (fun attr => attr) (fun _ => "true")).
Qed.

Lemma skeleton_pass_container_text_down_func (t : XmlElement) :
  skeleton (pass_container_text_down_func t) = skeleton t.
Proof.
  destruct t as [a cs]. unfold pass_container_text_down_func.
  destruct (negb _); [reflexivity|].
  destruct (flat_map _ Const.TEXT_ATTRIBUTES) as [|kv rest]; [reflexivity|].
  assert (Hcs : forall text,
             map skeleton
               (map (map_attrs
                       (fun ca =>
                          if Util.str_eqb (get_d ca "content-desc") EmptyString
                          then set "content-desc" text ca
                          else ca)) cs)
             = map skeleton cs).
  { intros text. rewrite map_map. apply map_ext. intros c.
    apply (erase_map_attrs bare). intros ca. now destruct (Util.str_eqb _ _). }
  destruct (existsb _ cs); rewrite !skeleton_node, Hcs; [|reflexivity].
  f_equal. unfold bare. f_equal. simpl.
  now rewrite (tag_fold_set fst (fun _ => EmptyString)).
Qed.

Section WithHost.
Context `{Host}.

Lemma skeleton_indent_xml (root : XmlElement) :
  forall t path following depth,
    skeleton (_indent_xml root path following depth t).1.1 = skeleton t.
Proof.
  induction t as [a cs IH] using XmlElement_tree_ind.
  intros path following depth.
  assert (Hchildren : forall i,
             map skeleton (NormaliserProps.indent_children root path depth i cs).1.1
             = map skeleton cs).
  { induction cs as [|c cs IHcs]; intros i; [reflexivity|].
    apply Forall_cons in IH as [IHc IHrest].
    rewrite NormaliserProps.indent_children_cons.
    specialize (IHc (path ++ [i]) cs (S depth)).
    specialize (IHcs IHrest (S i)).
    destruct (_indent_xml root (path ++ [i]) cs (S depth) c) as [[c' k] f].
    destruct (NormaliserProps.indent_children root path depth (S i) cs)
      as [[r' k'] f'].
    simpl in *. now rewrite IHc, IHcs. }
  specialize (Hchildren 0%nat).
  simpl. fold (NormaliserProps.indent_children root path depth).
  destruct (NormaliserProps.indent_children root path depth 0 cs) as [[cs' k] f].
  simpl in *. rewrite !skeleton_node, Hchildren. f_equal.
  unfold bare. f_equal. now destruct (detection_function_actionable _).
Qed.

(** X18.  [Status.init_element_tree] rewrites attributes only: the
    normalised tree has the shape of the captured tree and the same tag at
    every place.  So a reference into one tree is a reference into the
    other: it leads to an element in both or in neither, and to elements
    with one tag. *)
Theorem normaliser_keeps_the_shape (xml_tree : XmlElement) (p : Path) :
  skeleton (init_element_tree xml_tree) = skeleton xml_tree
  /\ (tag <$> get_attrs (init_element_tree xml_tree) p)
     = (tag <$> get_attrs xml_tree p)
  /\ (is_Some (get_node (init_element_tree xml_tree) p)
      <-> is_Some (get_node xml_tree p)).
Proof.
  assert (Hskel : skeleton (init_element_tree xml_tree) = skeleton xml_tree).
  { unfold init_element_tree, indent_xml.
    set (t2 := pass_container_text_down (pass_down_actionable xml_tree)).
    assert (Ht2 : skeleton t2 = skeleton xml_tree).
    { unfold t2, pass_container_text_down, pass_down_actionable,
        do_func_on_every_element, skeleton.
      rewrite (erase_do_func bare _ skeleton_pass_container_text_down_func).
      apply (erase_do_func bare _ skeleton_pass_down_actionable_func). }
    pose proof (skeleton_indent_xml t2 t2 [] [] 0%nat) as Hind.
    destruct (_indent_xml t2 [] [] 0 t2) as [[t3 k] found]. simpl in Hind.
    unfold skeleton in *. rewrite erase_after_detection by reflexivity.
    now rewrite Hind. }
  split; [exact Hskel|].
  assert (Htag : (tag <$> get_attrs (init_element_tree xml_tree) p)
                 = (tag <$> get_attrs xml_tree p)).
  { apply (f_equal (fun t => tag <$> get_attrs t p)) in Hskel.
    unfold skeleton, erase in Hskel.
    rewrite !HashLevelProps.get_attrs_map_attrs in Hskel.
    destruct (get_attrs (init_element_tree xml_tree) p),
      (get_attrs xml_tree p); simpl in *; congruence. }
  split; [exact Htag|]. unfold get_attrs in Htag.
  destruct (get_node (init_element_tree xml_tree) p), (get_node xml_tree p);
    simpl in Htag; split; intros [y Hy]; try discriminate; eauto.
Qed.

End WithHost.

End ShapeProps.

Module KeyElementProps.

Import Xml XmlUtil Memory PipelineProps.

(** An element as the driver captures it carries no [depth]. *)
Definition no_depth (a : Attrs) : Prop := has a "depth" = false.

Lemma has_set_other (k k' v : string) (a : Attrs) :
  k ≠ k' -> has (set k v a) k' = has a k'.
Proof.
  intros Hne. unfold has, get, set. simpl. now rewrite assoc_get_set_other.
Qed.

Section Stable.

(** A property of elements that no write to an attribute other than
    [depth] destroys. *)
Variable P : Attrs -> Prop.
Hypothesis P_set : forall k v a, k ≠ "depth" -> P a -> P (set k v a).

Lemma stable_fold_set {A : Type} (key val : A -> string) (l : list A) (a : Attrs) :
  Forall (fun x => key x ≠ "depth") l ->
  P a -> P (fold_left (fun a x => set (key x) (val x) a) l a).
Proof.
  intros Hl. revert a. induction Hl as [|x l Hx Hl IH]; intros a Ha; [exact Ha|].
  simpl. apply IH. now apply P_set.
Qed.

Lemma stable_pass_down_actionable_func (t : XmlElement) :
  tree_all P t -> tree_all P (pass_down_actionable_func t).
Proof.
  intros Ht. destruct t as [a cs]. unfold pass_down_actionable_func.
  destruct (negb _); [exact Ht|].
  destruct (length cs <? 2)%nat; [exact Ht|].
  pose proof (filter_keys_not_depth (fun i => Util.true_ (get a i)) _
                pass_down_attributes_not_depth) as Hkeys.
  destruct (List.filter (fun i => Util.true_ (get a i)) Const.PASS_DOWN_ATTRIBUTES)
    as [|k keys] eqn:Ekeys; [exact Ht|].
  apply tree_all_node in Ht as [Ha Hcs]. apply tree_all_node. split.
  - now apply (stable_fold_set (fun attr => attr) (fun _ => "false")).
  - apply Forall_map. rewrite Forall_forall in Hcs |- *. intros c Hc.
    specialize (Hcs c Hc).
    destruct (_ && _); [exact Hcs|].
    apply tree_all_on_attrs; [|exact Hcs].
    intros ca Hca.
    apply (stable_fold_set (fun attr => attr) (fun _ => "true")); [exact Hkeys|].
    apply P_set; [discriminate|]. apply P_set; [discriminate|exact Hca].
Qed.

Lemma stable_pass_container_text_down_func (t : XmlElement) :
  tree_all P t -> tree_all P (pass_container_text_down_func t).
Proof.
  intros Ht. destruct t as [a cs]. unfold pass_container_text_down_func.
  destruct (negb _); [exact Ht|].
  set (element_attr := flat_map _ Const.TEXT_ATTRIBUTES).
  assert (Hkeys : Forall (fun kv : string * string => fst kv ≠ "depth") element_attr).
  { unfold element_attr, Const.TEXT_ATTRIBUTES. simpl.
    destruct (get a "text") as [v1|]; destruct (get a "content-desc") as [v2|];
      try destruct (Util.truthy v1); try destruct (Util.truthy v2);
      simpl; repeat constructor; discriminate. }
  destruct element_attr as [|kv rest] eqn:Eattr; [exact Ht|].
  apply tree_all_node in Ht as [Ha Hcs].
  assert (Hcs' : Forall (tree_all P)
                   (map (map_attrs
                           (fun ca =>
                              if Util.str_eqb (get_d ca "content-desc") EmptyString
                              then set "content-desc"
                                     ("Description: "
                                      +:+ Util.join ", " (map snd (kv :: rest))) ca
                              else ca)) cs)).
  { apply Forall_map. rewrite Forall_forall in Hcs |- *. intros c Hc.
    apply tree_all_map_attrs; [|now apply Hcs].
    intros ca Hca. destruct (Util.str_eqb _ _); [|exact Hca].
    apply P_set; [discriminate|exact Hca]. }
  destruct (existsb _ cs); apply tree_all_node; (split; [|exact Hcs']).
  - apply P_set; [discriminate|].
    now apply (stable_fold_set fst (fun _ => EmptyString)).
  - exact Ha.
Qed.

End Stable.

(** The detection function reads three attributes. *)
Lemma detection_ext (a a' : Attrs) :
  get a' "clickable" = get a "clickable" ->
  get a' "scrollable" = get a "scrollable" ->
  get a' "class" = get a "class" ->
  detection_function_actionable a' = detection_function_actionable a.
Proof.
  intros Hc Hs Hk.
  unfold detection_function_actionable,
    Commands.get_available_commands_for_xml_element,
    Commands.is_element_inputable.
  now rewrite Hc, Hs, Hk.
Qed.

Section WithHost.
Context `{Host}.

Lemma indent_children_lookup_None (root : XmlElement) (path : Path)
    (depth : nat) (l : list XmlElement) (k i : nat) :
  l !! i = None ->
  (NormaliserProps.indent_children root path depth k l).1.1 !! i = None.
Proof.
  revert k i. induction l as [|x l IH]; intros k i Hi; [reflexivity|].
  rewrite NormaliserProps.indent_children_cons.
  destruct (_indent_xml root (path ++ [k]) l (S depth) x) as [[x' kx] fx].
  specialize (IH (S k)).
  destruct (NormaliserProps.indent_children root path depth (S k) l)
    as [[l' kl] fl].
  destruct i as [|i]; [discriminate|]. simpl in *. now apply IH.
Qed.

(** What [_indent_xml] makes of the string attributes of the element at
    [path], [depth] levels below the root. *)
Definition indented (root : XmlElement) (path : Path) (depth : nat)
    (a a' : Attrs) : Prop :=
  if detection_function_actionable a then
    (forall k, k ∉ ["child_key_count"; "depth"; "xpath"] -> get a' k = get a k)
    /\ get a' "depth" = Some (pretty depth)
    /\ get a' "xpath" = Some (etree_getpath root path)
  else forall k, k ≠ "child_key_count" -> get a' k = get a k.

Lemma indent_xml_root_attrs (root : XmlElement) (path : Path)
    (following : list XmlElement) (depth : nat) (a : Attrs)
    (cs : list XmlElement) :
  indented root path depth a
    (attrs (_indent_xml root path following depth (Node a cs)).1.1).
Proof.
  simpl. fold (NormaliserProps.indent_children root path depth).
  destruct (NormaliserProps.indent_children root path depth 0 cs) as [[cs' k] f].
  cbn [fst attrs]. unfold indented.
  match goal with
  | |- context [detection_function_actionable (set_near_texts ?n a)] =>
      change (detection_function_actionable (set_near_texts n a))
        with (detection_function_actionable a)
  end.
  destruct (detection_function_actionable a).
  - split; [|split].
    + intros key Hkey. unfold get, set, set_child_texts, set_near_texts.
      cbn [attrib]. rewrite !not_elem_of_cons in Hkey.
      destruct Hkey as (H1 & H2 & H3 & _).
      rewrite !assoc_get_set_other by congruence. reflexivity.
    + unfold get, set, set_child_texts, set_near_texts. cbn [attrib].
      rewrite assoc_get_set_other by discriminate. apply assoc_get_set_same.
    + unfold get, set, set_child_texts, set_near_texts. cbn [attrib].
      apply assoc_get_set_same.
  - intros key Hkey. unfold get, set, set_child_texts, set_near_texts.
    cbn [attrib]. rewrite assoc_get_set_other by congruence. reflexivity.
Qed.

Lemma indent_xml_at (root : XmlElement) (rel : Path) :
  forall t path following depth a',
    get_attrs (_indent_xml root path following depth t).1.1 rel = Some a' ->
    exists a,
      get_attrs t rel = Some a
      /\ indented root (path ++ rel) (depth + length rel) a a'.
Proof.
  induction rel as [|i rel IH]; intros [a cs] path following depth a' Hget.
  - exists a. split; [reflexivity|]. rewrite app_nil_r, Nat.add_0_r.
    unfold get_attrs in Hget. cbn [get_node fmap option_fmap option_map] in Hget.
    injection Hget as <-. apply indent_xml_root_attrs.
  - unfold get_attrs in *. cbn [get_node] in *.
    rewrite NormaliserProps.indent_xml_children in Hget. cbn [children].
    destruct (cs !! i) as [c|] eqn:Ec.
    + rewrite (NormaliserProps.indent_children_lookup root path depth cs 0 i c Ec)
        in Hget.
      destruct (IH _ _ _ _ _ Hget) as (a0 & Ha0 & Hind).
      exists a0. split; [exact Ha0|].
      rewrite <- app_assoc in Hind. simpl in Hind.
      now replace (depth + length (i :: rel))%nat
        with (S (depth + length rel)) by (simpl; lia).
    + rewrite (indent_children_lookup_None root path depth cs 0 i Ec) in Hget.
      discriminate.
Qed.

(** X19.  The key elements of a normalised tree are the elements that
    offer a command.  In the tree that [Status.init_element_tree] makes of
    a captured tree (no element of which carries [depth]), an element
    carries [depth] exactly when the detection function holds of it; these
    are the elements that [traverse_xml] lists; and such an element carries
    its nesting depth as [depth] and, as [xpath], the path that lxml gives
    for its place in the tree as it was when the detection ran. *)
Theorem key_elements_are_the_actionable_elements (xml_tree : XmlElement)
    (p : Path) (a' : Attrs) :
  tree_all no_depth xml_tree ->
  get_attrs (init_element_tree xml_tree) p = Some a' ->
  has a' "depth" = detection_function_actionable a'
  /\ ((exists d, (p, d) ∈ traverse_xml (init_element_tree xml_tree))
      <-> detection_function_actionable a' = true)
  /\ (detection_function_actionable a' = true ->
      get a' "depth" = Some (pretty (length p))
      /\ get a' "xpath"
         = Some (etree_getpath
                   (pass_container_text_down (pass_down_actionable xml_tree)) p)).
Proof.
  intros Htree Hget.
  set (t2 := pass_container_text_down (pass_down_actionable xml_tree)).
  assert (Ht2 : tree_all no_depth t2).
  { assert (Hset : forall k v a, k ≠ "depth" -> no_depth a -> no_depth (set k v a)).
    { intros k v a Hk Ha. unfold no_depth. now rewrite has_set_other. }
    unfold t2, pass_container_text_down, pass_down_actionable,
      do_func_on_every_element.
    apply do_func_keeps;
      [exact (stable_pass_container_text_down_func no_depth Hset)|].
    apply do_func_keeps;
      [exact (stable_pass_down_actionable_func no_depth Hset)|exact Htree]. }
  assert (Hfinal : exists a2 a3,
             get_attrs t2 p = Some a2
             /\ indented t2 p (length p) a2 a3
             /\ attrib a' = attrib a3).
  { unfold init_element_tree, indent_xml in Hget. fold t2 in Hget.
    pose proof (indent_xml_at t2 p t2 [] [] 0%nat) as Hat.
    destruct (_indent_xml t2 [] [] 0 t2) as [[t3 k] found].
    pose proof (ShapeProps.erase_after_detection ShapeProps.without_texts
                  (fun _ _ => eq_refl) (fun _ _ => eq_refl) t3 found) as Herase.
    apply (f_equal (fun t => get_attrs t p)) in Herase.
    unfold ShapeProps.erase in Herase.
    rewrite !HashLevelProps.get_attrs_map_attrs, Hget in Herase.
    cbn [fst] in Hat.
    destruct (get_attrs t3 p) as [a3|] eqn:E3; [|discriminate].
    destruct (Hat a3 eq_refl) as (a2 & Ha2 & Hind).
    exists a2, a3. split; [exact Ha2|]. split; [exact Hind|].
    simpl in Herase. injection Herase as _ Hattrib. exact Hattrib. }
  destruct Hfinal as (a2 & a3 & Ha2 & Hind & Hattrib).
  assert (Hsame : forall k, get a' k = get a3 k)
    by (intros k; unfold get; now rewrite Hattrib).
  assert (Hraw : has a2 "depth" = false) by exact (tree_all_at _ _ _ _ Ht2 Ha2).
  assert (Hdet : detection_function_actionable a'
                 = detection_function_actionable a2).
  { unfold indented in Hind.
    destruct (detection_function_actionable a2) eqn:E2.
    - destruct Hind as (Hother & _ & _).
      rewrite <- E2. apply detection_ext; rewrite Hsame; apply Hother;
        rewrite !not_elem_of_cons; repeat split; try discriminate;
        apply not_elem_of_nil.
    - rewrite <- E2. apply detection_ext; rewrite Hsame; apply Hind; discriminate. }
  assert (Hdepth : has a' "depth" = detection_function_actionable a').
  { rewrite Hdet. unfold has. rewrite Hsame. unfold indented in Hind.
    destruct (detection_function_actionable a2).
    - destruct Hind as (_ & -> & _). reflexivity.
    - rewrite Hind by discriminate. exact Hraw. }
  split; [exact Hdepth|]. split.
  - rewrite <- Hdepth. unfold traverse_xml. split.
    + intros [d Hd]. apply TraverseProps.traverse_xml_elem in Hd
        as (rel & a & Hrel & Hrel_get & Hrel_d & _).
      simpl in Hrel. subst rel. rewrite Hget in Hrel_get. now injection Hrel_get as ->.
    + intros Hd. eexists. apply TraverseProps.traverse_xml_elem.
      exists p, a'. split; [reflexivity|]. split; [exact Hget|].
      split; [exact Hd|reflexivity].
  - rewrite Hdet. intros E2. unfold indented in Hind. rewrite E2 in Hind.
    destruct Hind as (_ & Hd & Hx). now rewrite !Hsame.
Qed.

End WithHost.

End KeyElementProps.

(** X19 at the button of the sample screen with a label and a button. *)
Lemma key_elements_are_the_actionable_elements_witness :
  Xml.get
    (default Memory.no_attrs
       (Xml.get_attrs
          (@Memory.init_element_tree Sample.host Sample.label_then_button)
          [1%nat]))
    "depth"
  = Some "1".
Proof.
  refine (proj1 (proj2 (proj2
            (@KeyElementProps.key_elements_are_the_actionable_elements
               Sample.host Sample.label_then_button [1%nat]
               (default Memory.no_attrs
                  (Xml.get_attrs
                     (@Memory.init_element_tree Sample.host
                        Sample.label_then_button) [1%nat])) _ _)) _)).
  - cbv. repeat split; reflexivity.
  - reflexivity.
  - reflexivity.
Defined.

Module ActionInvariantProps.

Import Xml Memory ActionProps.

Section WithHost.
Context `{Host}.

(** X20.  [on_element_action] changes weights, never the set of banned
    elements of the acting Status.  Called with either value of [useful] on
    a Status whose key elements and chosen element are in its (sane) weight
    table, it returns; the acting Status keeps its tree and its key
    elements; its weight table has the same paths, the same of them banned,
    and every other weight within [MIN, MAX]; no global ban is lifted and no
    invalid action forgotten; and a useful action adds no invalid action. *)
Theorem action_keeps_the_local_bans (e : Engine)
    (self new_status : nat) (s n : Status.t) (elem : Path) (step_number : Z)
    (command xpath prompt : string) (useful : bool)
    (extra : gmap string string) (ws : Z) :
  heap e !! self = Some s ->
  heap e !! new_status = Some n ->
  sane (Status.element_weights s) ->
  (forall ed, ed ∈ Status._all_elements s ->
              keyed (Status.xml_tree s) (Status.element_weights s) ed) ->
  get (element s elem) "xpath" = Some xpath ->
  get (element s elem) "prompt" = Some prompt ->
  (command = "input" -> is_Some (extra !! "text")) ->
  Status.element_weights s !! xpath = Some ws ->
  (Status.step_count n < Status.step_count s ->
   forall me, fst (find_max_depth (Status.element_depths n)) = Some me ->
              is_Some (Status.element_weights n !! me)) ->
  exists e' s',
    on_element_action self elem step_number new_status command useful extra e
    = Ok e'
    /\ heap e' !! self = Some s'
    /\ Status.xml_tree s' = Status.xml_tree s
    /\ Status._all_elements s' = Status._all_elements s
    /\ (forall x, is_Some (Status.element_weights s' !! x)
                  <-> is_Some (Status.element_weights s !! x))
    /\ (forall x, Status.element_weights s' !! x = Some Weight.DISABLED_FOREVER
                  <-> Status.element_weights s !! x = Some Weight.DISABLED_FOREVER)
    /\ (forall x w, Status.element_weights s' !! x = Some w ->
                    w = Weight.DISABLED_FOREVER \/ Weight.MIN <= w <= Weight.MAX)
    /\ (forall k, ActivityManager.action_weights (manager e) !! k
                  = Some Weight.DISABLED_FOREVER ->
                  ActivityManager.action_weights (manager e') !! k
                  = Some Weight.DISABLED_FOREVER)
    /\ (forall k, k ∈ invalid (manager e) -> k ∈ invalid (manager e'))
    /\ (useful = true ->
        forall k, k ∈ invalid (manager e') -> k ∈ invalid (manager e)).
Proof.
  intros Hs Hn Hsane Hkeyed Hx Hprompt Hextra Hws Hmax.
  destruct (record_action_spec self elem step_number command xpath extra e s
              Hs Hx Hextra)
    as (s1 & m1 & Hrec & Htree & Hels & Hw & Hstep & _ & Hgw & Hinv).
  set (e1 := MkEngine (<[self := s1]> (heap e)) m1) in *.
  set (n1 := if decide (self = new_status) then s1 else n).
  assert (Hs1 : heap e1 !! self = Some s1) by apply lookup_insert_eq.
  assert (Hn1 : heap e1 !! new_status = Some n1).
  { unfold n1, e1. cbn [heap]. destruct (decide (self = new_status)) as [->|Hne].
    - apply lookup_insert_eq.
    - now rewrite lookup_insert_ne. }
  assert (Hsame : self = new_status -> n = s).
  { intros ->. rewrite Hs in Hn. now injection Hn. }
  assert (Hlt1 : (Status.step_count n1 <? Status.step_count s1)
                 = (Status.step_count n <? Status.step_count s)).
  { unfold n1. rewrite Hstep. destruct (decide (self = new_status)) as [Heq|Hne];
      [|reflexivity].
    rewrite (Hsame Heq), Hstep. reflexivity. }
  destruct (punish_circle_spec self new_status xpath useful e1 s1 n1 ws Hs1 Hn1)
    as (e2 & Hpun & Hman2 & Hcase).
  { now rewrite Hw. }
  { intros Hlt. unfold n1 in *. destruct (decide (self = new_status)) as [Heq|Hne].
    - lia.
    - apply Hmax. now rewrite <- Hstep. }
  rewrite Hlt1 in Hcase.
  set (looped := useful && (Status.step_count n <? Status.step_count s)) in *.
  set (s2 := if looped then update_element_weight xpath (ws - 40) s1 else s1).
  assert (Hs2 : heap e2 !! self = Some s2).
  { unfold s2. destruct looped.
    - now destruct Hcase as (_ & Hself & _).
    - now rewrite Hcase. }
  assert (Htree2 : Status.xml_tree s2 = Status.xml_tree s).
  { unfold s2. now destruct looped. }
  assert (Hels2 : Status._all_elements s2 = Status._all_elements s).
  { unfold s2. now destruct looped. }
  assert (Hgood2 : sane (Status.element_weights s2)
                   /\ same_bans (Status.element_weights s)
                                (Status.element_weights s2)).
  { unfold s2. destruct looped.
    - destruct (add_element_weight_sane s1 xpath ws Weight.EXIT_CIRCLE)
        as (s3 & _ & Heq3 & _ & _ & Hsane3 & Hbans3).
      + now rewrite Hw.
      + now rewrite Hw.
      + unfold Weight.EXIT_CIRCLE. lia.
      + subst s3. rewrite Hw in Hbans3. now split.
    - rewrite Hw. split; [exact Hsane|apply same_bans_refl]. }
  destruct Hgood2 as [Hsane2 Hbans2].
  destruct (group_loop_spec prompt command useful (Status._all_elements s2) s2
              (manager e2) Hsane2)
    as (s' & m' & Hloop & Htree' & Hels' & Hsane' & Hbans' & Hgrows & _ & Hinv').
  { intros ed Hed. rewrite Htree2. apply (keyed_same_bans _ _ _ _ Hbans2).
    apply Hkeyed. now rewrite <- Hels2. }
  assert (Hd1 : deref e1 self = Ok s1) by (unfold deref; now rewrite Hs1).
  assert (Hd2 : deref e2 self = Ok s2) by (unfold deref; now rewrite Hs2).
  assert (Hx1 : attrib_at (element s1 elem) "xpath" = Ok xpath).
  { unfold attrib_at, element in *. now rewrite Htree, Hx. }
  assert (Hp2 : attrib_at (element s2 elem) "prompt" = Ok prompt).
  { unfold attrib_at, element in *. now rewrite Htree2, Hprompt. }
  exists (MkEngine (<[self := s']> (heap e2)) m'), s'. split.
  { unfold on_element_action.
    rewrite Hrec, WeightProps.ret_bind. fold e1.
    rewrite Hd1, WeightProps.ret_bind, Hx1, WeightProps.ret_bind.
    rewrite Hpun, WeightProps.ret_bind, Hd2, WeightProps.ret_bind.
    rewrite Hp2, WeightProps.ret_bind.
    unfold update_group. rewrite Hd2, WeightProps.ret_bind, Hloop.
    reflexivity. }
  cbn [heap manager].
  pose proof (same_bans_trans _ _ _ Hbans2 Hbans') as [Hdom Hban].
  rewrite Hman2 in Hgrows, Hinv'. unfold e1 in Hgrows, Hinv'.
  cbn [manager] in Hgrows, Hinv'. destruct Hgrows as [Hg1 Hg2].
  split; [apply lookup_insert_eq|].
  split; [now rewrite Htree'|]. split; [now rewrite Hels'|].
  split; [intros x; symmetry; apply Hdom|].
  split; [intros x; symmetry; apply Hban|].
  split; [exact Hsane'|]. split; [|split].
  - intros k Hk. apply Hg1. unfold global_weights in *. now rewrite Hgw.
  - intros k Hk. apply Hg2. unfold invalid in *. now rewrite Hinv.
  - intros Hu k Hk. destruct (Hinv' k Hk) as [Hold|[Hf _]].
    + unfold invalid in *. now rewrite <- Hinv.
    + congruence.
Qed.

End WithHost.

End ActionInvariantProps.

(** X20 on the sample run: a useful click on OK that leads from the first
    status to the status discovered later. *)
Lemma action_keeps_the_local_bans_witness :
  exists e' s',
    @Memory.on_element_action Sample.host 0%nat [0%nat] 6 1%nat "click" true ∅
      SampleRun.engine = Ok e'
    /\ Memory.heap e' !! 0%nat = Some s'
    /\ Memory.Status.xml_tree s' = SampleRun.screen.
Proof.
  destruct (@ActionInvariantProps.action_keeps_the_local_bans Sample.host
              SampleRun.engine 0%nat 1%nat SampleRun.first_status
              SampleRun.later_status [0%nat] 6 "click" SampleRun.ok_path
              "a button OK" true ∅ 100)
    as (e' & s' & Hrun & Hheap & Htree & _).
  - reflexivity.
  - reflexivity.
  - exact SampleFacts.table_sane.
  - exact SampleFacts.screen_keyed.
  - vm_compute. reflexivity.
  - vm_compute. reflexivity.
  - discriminate.
  - vm_compute. reflexivity.
  - intros Hlt. vm_compute in Hlt. discriminate.
  - exists e', s'. split; [exact Hrun|]. split; [exact Hheap|exact Htree].
Defined.

Module PassDownProps.

Import Xml XmlUtil PipelineProps.

(** The test on the class in [pass_down]. *)
Definition in_list_group (a : Attrs) : bool :=
  match get a "class" with
  | Some c => Util.str_in c ["android.widget.RelativeLayout"; "android.view.ViewGroup"]
  | None => false
  end.

(** A layout group of two or more children holds none of the
    PASS_DOWN_ATTRIBUTES as [true]. *)
Definition handed_down (t : XmlElement) : Prop :=
  match t with
  | Node a cs =>
      in_list_group a = true -> (2 <= length cs)%nat ->
      forall k, k ∈ Const.PASS_DOWN_ATTRIBUTES -> Util.true_ (get a k) = false
  end.

(** [Q] holds of every element of the tree, seen with its children. *)
Fixpoint every_node (Q : XmlElement -> Prop) (t : XmlElement) : Prop :=
  Q t
  /\ match t with
     | Node _ cs =>
         (fix all (l : list XmlElement) : Prop :=
            match l with
            | [] => True
            | c :: r => every_node Q c /\ all r
            end) cs
     end.

Lemma every_node_node (Q : XmlElement -> Prop) (a : Attrs) (cs : list XmlElement) :
  every_node Q (Node a cs) <-> Q (Node a cs) /\ Forall (every_node Q) cs.
Proof.
  simpl. split; intros [Ha Hcs]; (split; [exact Ha|]); clear Ha.
  - induction cs as [|c cs IH]; constructor; [apply Hcs|apply IH, Hcs].
  - induction Hcs as [|c cs Hc Hcs IH]; [exact I|]. split; assumption.
Qed.

Lemma filter_nil_rejects {A : Type} (f : A -> bool) (l : list A) (x : A) :
  List.filter f l = [] -> x ∈ l -> f x = false.
Proof.
  induction l as [|y l IH]; intros Hnil Hin; [inversion Hin|].
  simpl in Hnil. destruct (f y) eqn:Ey; [discriminate|].
  apply elem_of_cons in Hin as [->|Hin]; [exact Ey|now apply IH].
Qed.

Lemma get_fold_set_const (v : string) (keys : list string) (a : Attrs) (k : string) :
  get (fold_left (fun a attr => set attr v a) keys a) k
  = if bool_decide (k ∈ keys) then Some v else get a k.
Proof.
  revert a. induction keys as [|x keys IH]; intros a; cbn [fold_left].
  - now rewrite bool_decide_eq_false_2 by apply not_elem_of_nil.
  - rewrite IH. destruct (decide (k ∈ keys)) as [Hin|Hout].
    + rewrite !bool_decide_eq_true_2; [reflexivity| |exact Hin].
      now apply list_elem_of_further.
    + rewrite (bool_decide_eq_false_2 (k ∈ keys)) by exact Hout.
      unfold get, set. cbn [attrib].
      destruct (decide (k = x)) as [->|Hne].
      * rewrite bool_decide_eq_true_2 by apply list_elem_of_here.
        apply assoc_get_set_same.
      * rewrite bool_decide_eq_false_2
          by (intros [?|?]%elem_of_cons; contradiction).
        apply assoc_get_set_other. congruence.
Qed.

(** What [pass_down] leaves of the element it is called on. *)
Lemma pass_down_hands_down (t : XmlElement) :
  handed_down (pass_down_actionable_func t).
Proof.
  destruct t as [a cs]. unfold pass_down_actionable_func.
  fold (in_list_group a).
  destruct (in_list_group a) eqn:Egroup; cbn [negb];
    [|unfold handed_down; rewrite Egroup; discriminate].
  destruct (length cs <? 2)%nat eqn:Elen.
  { apply Nat.ltb_lt in Elen. unfold handed_down. intros _ Hlen. lia. }
  destruct (List.filter (fun i => Util.true_ (get a i)) Const.PASS_DOWN_ATTRIBUTES)
    as [|k keys] eqn:Ekeys.
  { unfold handed_down. intros _ _ k Hk.
    exact (filter_nil_rejects (fun i => Util.true_ (get a i)) _ k Ekeys Hk). }
  unfold handed_down. intros _ _ k0 Hk0.
  rewrite (get_fold_set_const "false" (k :: keys) a k0).
  destruct (decide (k0 ∈ k :: keys)) as [Hin|Hout].
  - now rewrite bool_decide_eq_true_2.
  - rewrite bool_decide_eq_false_2 by exact Hout.
    destruct (Util.true_ (get a k0)) eqn:Etrue; [|reflexivity].
    exfalso. apply Hout. rewrite <- Ekeys.
    apply list_elem_of_In, List.filter_In. split; [|exact Etrue].
    now apply list_elem_of_In.
Qed.

(** [pass_down] does nothing to an element that has nothing to hand down. *)
Lemma pass_down_fixed (t : XmlElement) :
  handed_down t -> pass_down_actionable_func t = t.
Proof.
  destruct t as [a cs]. unfold handed_down, pass_down_actionable_func.
  fold (in_list_group a). intros Hdone.
  destruct (in_list_group a); cbn [negb]; [|reflexivity].
  destruct (length cs <? 2)%nat eqn:Elen; [reflexivity|].
  apply Nat.ltb_ge in Elen. specialize (Hdone eq_refl Elen).
  destruct (List.filter (fun i => Util.true_ (get a i)) Const.PASS_DOWN_ATTRIBUTES)
    as [|k keys] eqn:Ekeys; [reflexivity|].
  assert (Hk : k ∈ List.filter (fun i => Util.true_ (get a i))
                     Const.PASS_DOWN_ATTRIBUTES)
    by (rewrite Ekeys; apply list_elem_of_here).
  apply list_elem_of_In, List.filter_In in Hk as [Hk Htrue].
  apply list_elem_of_In in Hk. rewrite (Hdone k Hk) in Htrue. discriminate.
Qed.

(** A pass over every element of a tree, by a function that keeps the
    shape, leaves at every element what the function leaves at the one it
    is called on, when that is a matter of the element's own attributes and
    the number of its children. *)
Lemma do_func_every (func : XmlElement -> XmlElement) (Q : XmlElement -> Prop) :
  (forall t, Q (func t)) ->
  (forall a cs cs', length cs' = length cs -> Q (Node a cs) -> Q (Node a cs')) ->
  (forall t, ShapeProps.skeleton (func t) = ShapeProps.skeleton t) ->
  forall shape t,
    ShapeProps.skeleton shape = ShapeProps.skeleton t ->
    every_node Q (do_func_on_shape func shape t).
Proof.
  intros Hfunc Hlen Hskel.
  induction shape as [sa scs IH] using XmlElement_tree_ind.
  intros t Hsame. simpl. specialize (Hfunc t). specialize (Hskel t).
  destruct (func t) as [a cs]. rewrite <- Hskel in Hsame.
  rewrite !ShapeProps.skeleton_node in Hsame. injection Hsame as _ Hchildren.
  clear Hskel t. apply every_node_node. split.
  - apply (Hlen a cs); [|exact Hfunc]. clear. revert cs.
    induction scs as [|s ss IHss]; intros cs; [now destruct cs|].
    destruct cs as [|c cs]; [reflexivity|]. simpl. now rewrite IHss.
  - clear Hfunc. revert cs Hchildren.
    induction IH as [|s ss Hs Hss IHss]; intros cs Hchildren.
    + destruct cs; [constructor|discriminate].
    + destruct cs as [|c cs]; [discriminate|].
      simpl in Hchildren. injection Hchildren as Hc Hcs.
      constructor; [now apply Hs|now apply IHss].
Qed.

Lemma do_func_fixed (func : XmlElement -> XmlElement) (Q : XmlElement -> Prop) :
  (forall t, Q t -> func t = t) ->
  forall t, every_node Q t -> do_func_on_shape func t t = t.
Proof.
  intros Hfix. induction t as [a cs IH] using XmlElement_tree_ind.
  intros [Hroot Hcs]%every_node_node. cbn [do_func_on_shape].
  rewrite (Hfix _ Hroot). f_equal. clear Hroot.
  induction IH as [|c cs Hc Hall IHcs]; [reflexivity|].
  apply Forall_cons in Hcs as [Hqc Hcs]. rewrite (Hc Hqc). f_equal.
  apply IHcs, Hcs.
Qed.

(** X21.  After [pass_down_actionable] no RelativeLayout or ViewGroup with
    two or more children is clickable, long-clickable or scrollable: each
    group has handed these attributes down.  A tree in which that is so is
    returned as it is, so passing twice is passing once. *)
Theorem groups_hand_their_actions_down (xml_tree : XmlElement) :
  every_node handed_down (pass_down_actionable xml_tree)
  /\ (every_node handed_down xml_tree -> pass_down_actionable xml_tree = xml_tree)
  /\ pass_down_actionable (pass_down_actionable xml_tree)
     = pass_down_actionable xml_tree.
Proof.
  assert (Hdone : forall t, every_node handed_down (pass_down_actionable t)).
  { intros t. unfold pass_down_actionable, do_func_on_every_element.
    apply do_func_every.
    - exact pass_down_hands_down.
    - intros a cs cs' Hlen Hq. unfold handed_down in *. now rewrite Hlen.
    - exact ShapeProps.skeleton_pass_down_actionable_func.
    - reflexivity. }
  assert (Hfixed : forall t, every_node handed_down t -> pass_down_actionable t = t).
  { intros t. unfold pass_down_actionable, do_func_on_every_element.
    apply do_func_fixed. exact pass_down_fixed. }
  split; [apply Hdone|]. split; [apply Hfixed|]. apply Hfixed, Hdone.
Qed.

End PassDownProps.

Module Similar.

Import Util.

(** [ch.isdigit()] on a character below 256: the ten digits and the
    superscripts two, three and one. *)
Definition isdigit_char (c : ascii) : bool :=
  let n := nat_of_ascii c in
  ((48 <=? n) && (n <=? 57) || (n =? 178) || (n =? 179) || (n =? 185))%nat.

(** [s.isdigit()]: every character is a digit and there is one at least. *)
Definition isdigit (s : string) : bool :=
  truthy s && string_forall isdigit_char s.

(** [s.endswith(suffix)] *)
Definition endswith (suffix s : string) : bool :=
  String.prefix (string_rev suffix) (string_rev s).

(** [is_desc_similar] *)
Definition is_desc_similar (desc1 desc2 prefix suffix : string) : bool :=
  if str_eqb desc1 desc2 then true
  else if str_eqb desc1 EmptyString || str_eqb desc2 EmptyString then false
  else if negb (String.prefix prefix desc1) || negb (String.prefix prefix desc2)
          || negb (endswith suffix desc1) || negb (endswith suffix desc2)
  then false
  else if isdigit desc1 && isdigit desc2
          && (Z.abs (Z.of_nat (String.length desc1) - Z.of_nat (String.length desc2))
              <? 2)
  then true
  else false.

(** The loop of [is_all_desc_similar] over the neighbours. *)
Fixpoint all_neighbours_similar (prefix suffix : string) (descs : list string)
  : bool :=
  match descs with
  | desc1 :: ((desc2 :: _) as rest) =>
      if negb (is_desc_similar desc1 desc2 prefix suffix) then false
      else all_neighbours_similar prefix suffix rest
  | _ => true
  end.

Section WithCommonPrefix.

(** [os.path.commonprefix] of the Python library. *)
Variable commonprefix : list string -> string.

(** [max_common_prefix] and [max_common_suffix] *)
Definition max_common_prefix (strings : list string) : string :=
  match strings with
  | [] => EmptyString
  | _ => commonprefix strings
  end.

Definition max_common_suffix (strings : list string) : string :=
  match strings with
  | [] => EmptyString
  | _ => string_rev (commonprefix (map string_rev strings))
  end.

(** [is_all_desc_similar] *)
Definition is_all_desc_similar (descs : list string) : bool :=
  if (length descs <=? 1)%nat then false
  else all_neighbours_similar (max_common_prefix descs) (max_common_suffix descs)
         descs.

End WithCommonPrefix.

End Similar.

Module SimilarProps.

Import Util Similar.

Lemma similar_refl (d prefix suffix : string) :
  is_desc_similar d d prefix suffix = true.
Proof. unfold is_desc_similar, str_eqb. now rewrite bool_decide_eq_true_2. Qed.

Lemma similar_sym (d1 d2 prefix suffix : string) :
  is_desc_similar d1 d2 prefix suffix = is_desc_similar d2 d1 prefix suffix.
Proof.
  unfold is_desc_similar, str_eqb.
  destruct (decide (d1 = d2)) as [->|Hne]; [reflexivity|].
  rewrite !(bool_decide_eq_false_2 (d1 = d2)), !(bool_decide_eq_false_2 (d2 = d1))
    by congruence.
  replace (Z.abs (Z.of_nat (String.length d2) - Z.of_nat (String.length d1)))
    with (Z.abs (Z.of_nat (String.length d1) - Z.of_nat (String.length d2)))
    by lia.
  destruct (bool_decide (d1 = EmptyString)), (bool_decide (d2 = EmptyString)),
    (String.prefix prefix d1), (String.prefix prefix d2),
    (endswith suffix d1), (endswith suffix d2), (isdigit d1), (isdigit d2);
    reflexivity.
Qed.

Lemma similar_different (d1 d2 prefix suffix : string) :
  is_desc_similar d1 d2 prefix suffix = true -> d1 ≠ d2 ->
  isdigit d1 = true /\ isdigit d2 = true
  /\ Z.abs (Z.of_nat (String.length d1) - Z.of_nat (String.length d2)) <= 1
  /\ String.prefix prefix d1 = true /\ String.prefix prefix d2 = true
  /\ endswith suffix d1 = true /\ endswith suffix d2 = true.
Proof.
  unfold is_desc_similar, str_eqb. intros Hsim Hne.
  rewrite (bool_decide_eq_false_2 (d1 = d2)) in Hsim by exact Hne.
  destruct (bool_decide (d1 = EmptyString) || bool_decide (d2 = EmptyString));
    [discriminate|].
  destruct (String.prefix prefix d1), (String.prefix prefix d2),
    (endswith suffix d1), (endswith suffix d2); try discriminate.
  cbn [negb orb] in Hsim.
  destruct (isdigit d1), (isdigit d2); try discriminate. cbn [andb] in Hsim.
  destruct (Z.abs _ <? 2) eqn:Elen; [|discriminate].
  apply Z.ltb_lt in Elen. repeat split; try reflexivity. lia.
Qed.

Lemma neighbours_all_same_or_digits (prefix suffix d : string) (l : list string) :
  all_neighbours_similar prefix suffix (d :: l) = true ->
  (forall x, x ∈ d :: l -> x = d) \/ (forall x, x ∈ d :: l -> isdigit x = true).
Proof.
  revert d. induction l as [|d2 l IH]; intros d Hall.
  - left. intros x Hx. now apply list_elem_of_singleton in Hx.
  - cbn [all_neighbours_similar] in Hall.
    destruct (is_desc_similar d d2 prefix suffix) eqn:Esim; [|discriminate].
    cbn [negb] in Hall. specialize (IH d2 Hall).
    destruct (decide (d = d2)) as [->|Hne].
    + destruct IH as [IH|IH]; [left|right];
        intros x [->|Hx]%elem_of_cons; try (now apply IH);
        [reflexivity|apply IH; apply list_elem_of_here].
    + destruct (similar_different _ _ _ _ Esim Hne) as (Hd & Hd2 & _).
      right. intros x [->|Hx]%elem_of_cons; [exact Hd|].
      destruct IH as [IH|IH]; [|now apply IH]. now rewrite (IH x Hx).
Qed.

Lemma neighbours_of_repeat (prefix suffix d : string) (n : nat) :
  all_neighbours_similar prefix suffix (repeat d n) = true.
Proof.
  induction n as [|[|n] IH]; [reflexivity|reflexivity|].
  change (repeat d (S (S n))) with (d :: d :: repeat d n).
  cbn [all_neighbours_similar]. rewrite similar_refl. exact IH.
Qed.

Section WithCommonPrefix.
Variable commonprefix : list string -> string.

(** X22.  [is_desc_similar] holds of a description and itself and does not
    depend on the order of the two; when it holds of two different
    descriptions, both are digit strings whose lengths differ by one at
    most, with the given prefix and suffix.  It is not transitive: 1 and 12
    are similar, 12 and 123 are, 1 and 123 are not.
    [is_all_desc_similar] looks at neighbours only: when it holds, the list
    has two entries at least, and they are all equal or all digit strings;
    it holds of every list of two or more equal descriptions, and of no list
    of fewer than two, whatever the library gives as common prefix. *)
Theorem similar_descriptions (d1 d2 prefix suffix : string)
    (descs : list string) (n : nat) :
  is_desc_similar d1 d1 prefix suffix = true
  /\ is_desc_similar d1 d2 prefix suffix = is_desc_similar d2 d1 prefix suffix
  /\ (is_desc_similar d1 d2 prefix suffix = true -> d1 ≠ d2 ->
      isdigit d1 = true /\ isdigit d2 = true
      /\ Z.abs (Z.of_nat (String.length d1) - Z.of_nat (String.length d2)) <= 1
      /\ String.prefix prefix d1 = true /\ String.prefix prefix d2 = true
      /\ endswith suffix d1 = true /\ endswith suffix d2 = true)
  /\ (is_desc_similar "1" "12" EmptyString EmptyString = true
      /\ is_desc_similar "12" "123" EmptyString EmptyString = true
      /\ is_desc_similar "1" "123" EmptyString EmptyString = false)
  /\ (is_all_desc_similar commonprefix descs = true ->
      (2 <= length descs)%nat
      /\ ((forall x, x ∈ descs -> Some x = head descs)
          \/ (forall x, x ∈ descs -> isdigit x = true)))
  /\ ((length descs <= 1)%nat -> is_all_desc_similar commonprefix descs = false)
  /\ ((2 <= n)%nat -> is_all_desc_similar commonprefix (repeat d1 n) = true).
Proof.
  split; [apply similar_refl|]. split; [apply similar_sym|].
  split; [apply similar_different|].
  split; [repeat split; reflexivity|]. split; [|split].
  - unfold is_all_desc_similar. destruct (length descs <=? 1)%nat eqn:Elen;
      [discriminate|].
    apply Nat.leb_gt in Elen. intros Hall. split; [lia|].
    destruct descs as [|d l]; [simpl in Elen; lia|].
    destruct (neighbours_all_same_or_digits _ _ _ _ Hall) as [Hsame|Hdigits].
    + left. intros x Hx. simpl. now rewrite (Hsame x Hx).
    + now right.
  - intros Hlen. unfold is_all_desc_similar.
    now rewrite (proj2 (Nat.leb_le _ _) Hlen).
  - intros Hn. unfold is_all_desc_similar. rewrite repeat_length.
    rewrite (proj2 (Nat.leb_gt _ _)) by lia. apply neighbours_of_repeat.
Qed.

End WithCommonPrefix.

End SimilarProps.

Module RecordProps.

Import Xml Memory ActionProps.

(** What [on_element_action] records about a Status, apart from weights,
    and what it records in the manager. *)
Definition book_s (s : Status.t) : list Path * list (string * Z) * bool :=
  (Status.elements_to_this s, Status.element_depths s, Status.has_inputed s).

Definition book_m (m : ActivityManager.t) : gmap string string * gset string :=
  (ActivityManager.filled_texts m, ActivityManager.operated_elements_description m).

Lemma add_element_weight_book (x : string) (d : Z) (s s' : Status.t) :
  add_element_weight x d s = Ok s' ->
  book_s s' = book_s s /\ Status.xml_tree s' = Status.xml_tree s.
Proof.
  unfold add_element_weight. intros Hadd.
  apply WeightProps.bind_Ok in Hadd as (w & _ & Hadd). injection Hadd as <-.
  now split.
Qed.

Section WithHost.
Context `{Host}.

Lemma update_action_weight_book (el : Attrs) (command : string) (w : Z)
    (m m' : ActivityManager.t) :
  update_action_weight el command w m = Ok m' -> book_m m' = book_m m.
Proof.
  unfold update_action_weight. intros Hup.
  apply WeightProps.bind_Ok in Hup as (key & _ & Hup). now injection Hup as <-.
Qed.

Lemma add_action_weight_book (el : Attrs) (command : string) (w : Z)
    (m m' : ActivityManager.t) :
  add_action_weight el command w m = Ok m' -> book_m m' = book_m m.
Proof.
  unfold add_action_weight. intros Hadd.
  apply WeightProps.bind_Ok in Hadd as (key & _ & Hadd).
  now apply update_action_weight_book in Hadd.
Qed.

Lemma on_action_non_action_book (el : Attrs) (command : string)
    (m m' : ActivityManager.t) :
  on_action_non_action el command m = Ok m' -> book_m m' = book_m m.
Proof.
  unfold on_action_non_action. intros Hon.
  apply WeightProps.bind_Ok in Hon as (key & _ & Hon).
  destruct (ActivityManager.action_weights m !! key).
  - now apply add_action_weight_book in Hon.
  - now injection Hon as <-.
Qed.

Lemma global_ban_command_book (el : Attrs) (command : string)
    (m m' : ActivityManager.t) :
  global_ban_command el command m = Ok m' -> book_m m' = book_m m.
Proof.
  unfold global_ban_command. intros Hban.
  apply WeightProps.bind_Ok in Hban as (key & _ & Hban).
  now apply update_action_weight_book in Hban.
Qed.

Lemma group_step_book (prompt command : string) (useful : bool)
    (ed : Path * nat) (s s' : Status.t) (m m' : ActivityManager.t) :
  group_step prompt command useful ed (s, m) = Ok (s', m') ->
  book_s s' = book_s s /\ Status.xml_tree s' = Status.xml_tree s
  /\ book_m m' = book_m m.
Proof.
  unfold group_step. intros Hstep.
  apply WeightProps.bind_Ok in Hstep as (x & _ & Hstep).
  apply WeightProps.bind_Ok in Hstep as (w & _ & Hstep).
  destruct (skip_check w); [now injection Hstep as <- <-|].
  apply WeightProps.bind_Ok in Hstep as (p & _ & Hstep).
  destruct (Util.str_eqb p prompt); [destruct useful|].
  - apply WeightProps.bind_Ok in Hstep as (s1 & Hs1 & Hstep).
    apply WeightProps.bind_Ok in Hstep as (m1 & Hm1 & Hstep).
    injection Hstep as <- <-.
    apply add_element_weight_book in Hs1 as [Hb Ht].
    apply add_action_weight_book in Hm1. now split.
  - apply WeightProps.bind_Ok in Hstep as (m1 & Hm1 & Hstep).
    injection Hstep as <- <-.
    apply global_ban_command_book in Hm1. now split.
  - apply WeightProps.bind_Ok in Hstep as (s1 & Hs1 & Hstep).
    apply WeightProps.bind_Ok in Hstep as (m1 & Hm1 & Hstep).
    injection Hstep as <- <-.
    apply add_element_weight_book in Hs1 as [Hb Ht].
    apply on_action_non_action_book in Hm1. now split.
Qed.

Lemma group_loop_book (prompt command : string) (useful : bool)
    (l : list (Path * nat)) (s s' : Status.t) (m m' : ActivityManager.t) :
  for_each (group_step prompt command useful) l (s, m) = Ok (s', m') ->
  book_s s' = book_s s /\ Status.xml_tree s' = Status.xml_tree s
  /\ book_m m' = book_m m.
Proof.
  revert s m. induction l as [|ed l IH]; intros s m Hloop.
  - now injection Hloop as <- <-.
  - apply WeightProps.for_each_cons_Ok in Hloop as ([s1 m1] & Hstep & Hloop).
    apply group_step_book in Hstep as (Hb1 & Ht1 & Hm1).
    apply IH in Hloop as (Hb & Ht & Hm).
    rewrite Hb, Ht, Hm. now split.
Qed.

(** The penalties change weights only. *)
Lemma punish_circle_book (self new_status : nat) (xpath : string)
    (useful : bool) (e e' : Engine) :
  punish_circle self xpath new_status useful e = Ok e' ->
  manager e' = manager e
  /\ forall oid s, heap e !! oid = Some s ->
       exists s', heap e' !! oid = Some s'
                  /\ book_s s' = book_s s
                  /\ Status.xml_tree s' = Status.xml_tree s.
Proof.
  assert (Hid : forall e0 : Engine,
             forall oid s, heap e0 !! oid = Some s ->
               exists s', heap e0 !! oid = Some s' /\ book_s s' = book_s s
                          /\ Status.xml_tree s' = Status.xml_tree s)
    by (intros e0 oid s Hs; now exists s).
  assert (Hstore : forall (e0 : Engine) target old new,
             heap e0 !! target = Some old ->
             book_s new = book_s old ->
             Status.xml_tree new = Status.xml_tree old ->
             forall oid s, heap e0 !! oid = Some s ->
               exists s', heap (store target new e0) !! oid = Some s'
                          /\ book_s s' = book_s s
                          /\ Status.xml_tree s' = Status.xml_tree s).
  { intros e0 target old new Hold Hb Ht oid s Hs. unfold store. cbn [heap].
    destruct (decide (target = oid)) as [->|Hne].
    - rewrite lookup_insert_eq. exists new. rewrite Hs in Hold.
      injection Hold as ->. now split.
    - rewrite lookup_insert_ne by exact Hne. now exists s. }
  unfold punish_circle. intros Hrun.
  destruct useful; [|injection Hrun as <-; split; [reflexivity|apply Hid]].
  apply WeightProps.bind_Ok in Hrun as (s0 & Hs0 & Hrun).
  apply WeightProps.bind_Ok in Hrun as (n0 & Hn0 & Hrun).
  destruct (Status.step_count n0 <? Status.step_count s0);
    [|injection Hrun as <-; split; [reflexivity|apply Hid]].
  apply WeightProps.bind_Ok in Hrun as (e1 & He1 & Hrun).
  apply WeightProps.bind_Ok in Hrun as (s1 & Hs1 & Hrun).
  apply WeightProps.bind_Ok in Hrun as (s2 & Hs2 & Hrun).
  injection Hrun as <-.
  assert (H1 : manager e1 = manager e
               /\ forall oid s, heap e !! oid = Some s ->
                    exists s', heap e1 !! oid = Some s' /\ book_s s' = book_s s
                               /\ Status.xml_tree s' = Status.xml_tree s).
  { destruct (fst (find_max_depth (Status.element_depths n0))) as [me|].
    - apply WeightProps.bind_Ok in He1 as (n1 & Hn1 & He1). injection He1 as <-.
      split; [reflexivity|].
      apply add_element_weight_book in Hn1 as [Hb Ht].
      apply (Hstore e new_status n0 n1); [|exact Hb|exact Ht].
      unfold deref in Hn0. destruct (heap e !! new_status); [|discriminate].
      now injection Hn0 as ->.
    - injection He1 as <-. split; [reflexivity|apply Hid]. }
  destruct H1 as [Hm1 Hh1]. split; [exact Hm1|].
  intros oid s Hs. destruct (Hh1 oid s Hs) as (s' & Hs' & Hb' & Ht').
  apply add_element_weight_book in Hs2 as [Hb2 Ht2].
  assert (Hself : heap e1 !! self = Some s1).
  { unfold deref in Hs1. destruct (heap e1 !! self); [|discriminate].
    now injection Hs1 as ->. }
  destruct (Hstore e1 self s1 s2 Hself Hb2 Ht2 oid s' Hs') as (s'' & Hs'' & Hb'' & Ht'').
  exists s''. split; [exact Hs''|]. split; congruence.
Qed.

(** What [on_element_action] has done, apart from the weights, when it
    returns. *)
Lemma on_element_action_book (e e' : Engine) (self new_status : nat)
    (s : Status.t) (elem : Path) (step_number : Z) (command : string)
    (useful : bool) (extra : gmap string string) :
  heap e !! self = Some s ->
  on_element_action self elem step_number new_status command useful extra e
  = Ok e' ->
  let desc := XmlUtil.make_element_description (element s elem) false false true in
  exists s' xpath,
    heap e' !! self = Some s'
    /\ Status.xml_tree s' = Status.xml_tree s
    /\ get (element s elem) "xpath" = Some xpath
    /\ Status.element_depths s'
       = dict_set xpath step_number (Status.element_depths s)
    /\ Status.elements_to_this s'
       = (if bool_decide (elem ∈ Status.elements_to_this s)
          then Status.elements_to_this s
          else Status.elements_to_this s ++ [elem])
    /\ ActivityManager.operated_elements_description (manager e')
       = {[ desc ]} ∪ ActivityManager.operated_elements_description (manager e)
    /\ (if Util.str_eqb command "input"
        then exists text,
               extra !! "text" = Some text
               /\ ActivityManager.filled_texts (manager e')
                  = <[desc := text]> (ActivityManager.filled_texts (manager e))
               /\ Status.has_inputed s' = true
        else ActivityManager.filled_texts (manager e')
             = ActivityManager.filled_texts (manager e)
             /\ Status.has_inputed s' = Status.has_inputed s).
Proof.
  intros Hs Hrun desc. unfold on_element_action in Hrun.
  apply WeightProps.bind_Ok in Hrun as (e1 & Hrec & Hrun).
  apply WeightProps.bind_Ok in Hrun as (s1 & Hs1 & Hrun).
  apply WeightProps.bind_Ok in Hrun as (xpath1 & _ & Hrun).
  apply WeightProps.bind_Ok in Hrun as (e2 & Hpun & Hrun).
  apply WeightProps.bind_Ok in Hrun as (s2 & Hs2 & Hrun).
  apply WeightProps.bind_Ok in Hrun as (prompt & _ & Hrun).
  (* the recording *)
  unfold record_action in Hrec.
  apply WeightProps.bind_Ok in Hrec as (s0 & Hs0 & Hrec).
  unfold deref in Hs0. rewrite Hs in Hs0. injection Hs0 as <-.
  apply WeightProps.bind_Ok in Hrec as ([m1 s1'] & Hinput & Hrec).
  apply WeightProps.bind_Ok in Hrec as (xpath & Hxpath & Hrec).
  injection Hrec as <-.
  unfold attrib_at, subscript in Hxpath.
  destruct (get (element s elem) "xpath") as [x|] eqn:Ex; [|discriminate].
  injection Hxpath as ->.
  unfold deref in Hs1. cbn [heap] in Hs1. rewrite lookup_insert_eq in Hs1.
  injection Hs1 as <-.
  (* the penalties and the group update *)
  apply punish_circle_book in Hpun as [Hman2 Hheap2]. cbn [manager heap] in *.
  destruct (Hheap2 self _ (lookup_insert_eq _ _ _)) as (s2' & Hs2' & Hb2 & Ht2).
  unfold deref in Hs2. rewrite Hs2' in Hs2. injection Hs2 as <-.
  unfold update_group in Hrun.
  apply WeightProps.bind_Ok in Hrun as (s3 & Hs3 & Hrun).
  unfold deref in Hs3. rewrite Hs2' in Hs3. injection Hs3 as <-.
  apply WeightProps.bind_Ok in Hrun as ([s' m'] & Hloop & Hrun).
  injection Hrun as <-. cbn [heap manager].
  apply group_loop_book in Hloop as (Hb' & Ht' & Hm'). rewrite Hman2 in Hm'.
  exists s', xpath. split; [apply lookup_insert_eq|].
  rewrite Hb2 in Hb'. rewrite Ht2 in Ht'. unfold book_s, book_m in Hb', Hm'.
  injection Hb' as Hto Hdepths Hinp. injection Hm' as Hfilled Hoper.
  cbn [Status.element_depths Status.elements_to_this Status.has_inputed
         Status.xml_tree Status.with_depths] in Hto, Hdepths, Hinp, Ht'.
  rewrite Hdepths, Hto, Hinp, Hfilled, Hoper, Ht'.
  clear Hdepths Hto Hinp Hfilled Hoper Ht' Hheap2 Hs2' Hb2 Ht2.
  fold desc in Hinput.
  destruct (Util.str_eqb command "input").
  - apply WeightProps.bind_Ok in Hinput as (text & Htext & Hinput).
    injection Hinput as <- <-.
    unfold subscript in Htext.
    destruct (extra !! "text") as [t|]; [|discriminate]. injection Htext as ->.
    cbn.
    destruct (bool_decide (elem ∈ Status.elements_to_this s));
      repeat (split; [reflexivity|]); exists text; repeat split.
  - injection Hinput as <- <-. cbn.
    destruct (bool_decide (elem ∈ Status.elements_to_this s));
      repeat (split; [reflexivity|]); reflexivity.
Qed.

(** X23.  What a call of [on_element_action] that returns has recorded,
    with either value of [useful] and whatever the weights: the chosen
    element is among [elements_to_this] of the acting Status, added at the
    end unless it was there; [element_depths] holds the step number at the
    path of the element, earlier entries keeping their place; the
    description of the element is among the operated elements of the
    manager; and after an [input] the text of [extra] is the filled text of
    that description and [has_inputed] holds, while any other command
    leaves both as they were. *)
Theorem action_is_recorded (e e' : Engine) (self new_status : nat)
    (s : Status.t) (elem : Path) (step_number : Z) (command : string)
    (useful : bool) (extra : gmap string string) :
  heap e !! self = Some s ->
  on_element_action self elem step_number new_status command useful extra e
  = Ok e' ->
  let desc := XmlUtil.make_element_description (element s elem) false false true in
  exists s' xpath,
    heap e' !! self = Some s'
    /\ get (element s elem) "xpath" = Some xpath
    /\ Status.element_depths s'
       = dict_set xpath step_number (Status.element_depths s)
    /\ elem ∈ Status.elements_to_this s'
    /\ (if bool_decide (elem ∈ Status.elements_to_this s)
        then Status.elements_to_this s' = Status.elements_to_this s
        else Status.elements_to_this s' = Status.elements_to_this s ++ [elem])
    /\ ActivityManager.operated_elements_description (manager e')
       = {[ desc ]} ∪ ActivityManager.operated_elements_description (manager e)
    /\ (if Util.str_eqb command "input"
        then exists text,
               extra !! "text" = Some text
               /\ filled_text_for desc (manager e') = Some text
               /\ (forall other, other ≠ desc ->
                     filled_text_for other (manager e')
                     = filled_text_for other (manager e))
               /\ Status.has_inputed s' = true
        else ActivityManager.filled_texts (manager e')
             = ActivityManager.filled_texts (manager e)
             /\ Status.has_inputed s' = Status.has_inputed s).
Proof.
  intros Hs Hrun desc.
  destruct (on_element_action_book e e' self new_status s elem step_number
              command useful extra Hs Hrun)
    as (s' & xpath & Hs' & _ & Hx & Hdepths & Hto & Hoper & Hinput).
  fold desc in Hoper, Hinput.
  exists s', xpath. split; [exact Hs'|]. split; [exact Hx|].
  split; [exact Hdepths|]. split; [|split; [|split; [exact Hoper|]]].
  - rewrite Hto. case_bool_decide as Hin; [exact Hin|].
    apply elem_of_app. right. now apply list_elem_of_singleton.
  - rewrite Hto. now destruct (bool_decide (elem ∈ Status.elements_to_this s)).
  - destruct (Util.str_eqb command "input"); [|exact Hinput].
    destruct Hinput as (text & Htext & Hfilled & Hinp).
    exists text. split; [exact Htext|]. unfold filled_text_for. rewrite Hfilled.
    split; [apply lookup_insert_eq|]. split; [|exact Hinp].
    intros other Hother. now apply lookup_insert_ne.
Qed.

End WithHost.

End RecordProps.

(** X23 on the sample run: a text typed into the first element. *)
Lemma action_is_recorded_witness :
  exists e',
    @Memory.on_element_action Sample.host 0%nat [0%nat] 6 1%nat "input" true
      {[ "text" := "hello" ]} SampleRun.engine = Ok e'
    /\ Memory.filled_text_for
         (@XmlUtil.make_element_description Sample.host
            (Memory.element SampleRun.first_status [0%nat]) false false true)
         (Memory.manager e')
       = Some "hello".
Proof.
  destruct (@Memory.on_element_action Sample.host 0%nat [0%nat] 6 1%nat "input"
              true {[ "text" := "hello" ]} SampleRun.engine) as [e'|ex] eqn:Hrun.
  - exists e'. split; [reflexivity|].
    destruct (@RecordProps.action_is_recorded Sample.host SampleRun.engine e'
                0%nat 1%nat SampleRun.first_status [0%nat] 6 "input" true
                {[ "text" := "hello" ]} eq_refl Hrun)
      as (s' & xpath & _ & _ & _ & _ & _ & _ & Hin).
    unfold Util.str_eqb in Hin. rewrite bool_decide_eq_true_2 in Hin by reflexivity.
    destruct Hin as (text & Htext & Hfilled & _).
    vm_compute in Htext. injection Htext as <-. exact Hfilled.
  - vm_compute in Hrun. discriminate.
Defined.

Module Registry.

Import Memory.

(** The part of the ActivityManager that keeps the Activity objects:
    [all_known_activity] by the pair of names given, [last_activities] in
    the order of making, [human_description] by full activity name.
    Activity objects have identity; [activities] holds them by it. *)
Record t : Type := Mk {
  manager : ActivityManager.t;
  all_known_activity : gmap (string * string) nat;
  last_activities : list nat;
  human_description : gmap string string;
  activities : gmap nat Activity.t;
  next_activity : nat;
}.

(** [ActivityManager.get_activity]; [status_level] is the keyword argument
    handed on to [Activity.__init__]. *)
Definition get_activity (package_name activity_name : string)
    (status_level : StatusLevel) (r : t) : nat * t :=
  let unique_tuple := (package_name, activity_name) in
  match all_known_activity r !! unique_tuple with
  | Some known => (known, r)
  | None =>
      let new_activity :=
        Activity__init__ package_name activity_name (manager r) status_level in
      let activity_name := Activity.activity_name new_activity in
      let new_activity :=
        if Util.truthy (default EmptyString (human_description r !! activity_name))
        then Activity.Mk (Activity.package_name new_activity)
               (Activity.activity_name new_activity)
               (Activity.statuses new_activity)
               (Activity.status_level new_activity)
               (human_description r !! activity_name) true
        else new_activity in
      let oid := next_activity r in
      (oid,
       Mk (manager r) (<[unique_tuple := oid]> (all_known_activity r))
          (last_activities r ++ [oid]) (human_description r)
          (<[oid := new_activity]> (activities r)) (S oid))
  end.

End Registry.

Module RegistryProps.

Import Memory Registry.

(** Every Activity that is known by a pair of names is an object of the
    store, made for that package, with the full form of that name; and the
    identities of the stored objects are below the next one. *)
Definition known_are_stored (r : Registry.t) : Prop :=
  (forall package_name activity_name oid,
     all_known_activity r !! (package_name, activity_name) = Some oid ->
     exists a,
       activities r !! oid = Some a
       /\ Activity.package_name a = package_name
       /\ Activity.activity_name a
          = Util.get_full_activity_name package_name activity_name)
  /\ (forall oid a, activities r !! oid = Some a -> (oid < next_activity r)%nat).

Lemma get_activity_stored (package_name activity_name : string)
    (status_level : StatusLevel) (r : Registry.t) :
  known_are_stored r ->
  known_are_stored (get_activity package_name activity_name status_level r).2.
Proof.
  intros [Hknown Hbelow]. unfold get_activity.
  destruct (all_known_activity r !! (package_name, activity_name)) eqn:Eknown;
    [now split|].
  unfold known_are_stored.
  cbn [snd all_known_activity activities next_activity]. split.
  - intros p n oid.
    destruct (decide ((package_name, activity_name) = (p, n))) as [Heq|Hne].
    + injection Heq as <- <-. rewrite lookup_insert_eq. intros Hoid.
      injection Hoid as <-. rewrite lookup_insert_eq.
      eexists. split; [reflexivity|]. now destruct (Util.truthy _).
    + rewrite lookup_insert_ne by exact Hne. intros Hoid.
      destruct (Hknown p n oid Hoid) as (a & Ha & Hp & Hn).
      exists a. specialize (Hbelow oid a Ha).
      rewrite lookup_insert_ne by lia. now split.
  - intros oid a. destruct (decide (next_activity r = oid)) as [<-|Hne].
    + intros _. lia.
    + rewrite lookup_insert_ne by exact Hne. intros Ha.
      specialize (Hbelow oid a Ha). lia.
Qed.

Lemma length_app_string (a b : string) :
  String.length (a +:+ b) = (String.length a + String.length b)%nat.
Proof. induction a as [|c a IH]; simpl; [reflexivity|now rewrite IH]. Qed.

Lemma prefix_one_cons (d c : ascii) (s s' : string) :
  String.prefix (String d EmptyString) (String c s)
  = String.prefix (String d EmptyString) (String c s').
Proof.
  cbn [String.prefix]. destruct (ascii_dec d c); [|reflexivity].
  now destruct s, s'.
Qed.

(** X25.  [ActivityManager.get_activity] keeps one Activity for each pair
    of names AS GIVEN.  Asked again with the same pair (whatever the status
    level asked for), it returns the same object and changes nothing; the
    object is made for the package, with the full form of the name; no
    object that was there is lost.  But the short form [.Name] and the full
    form [package.Name] of one activity name are two pairs: asked for both,
    a manager that knows neither makes two Activity objects with one
    [activity_name]. *)
Theorem activities_are_kept_by_the_names_given
    (package_name activity_name : string)
    (status_level status_level' : StatusLevel) (r : Registry.t) :
  known_are_stored r ->
  let first := get_activity package_name activity_name status_level r in
  let second :=
    get_activity package_name (package_name +:+ activity_name) status_level
      first.2 in
  get_activity package_name activity_name status_level' first.2 = first
  /\ known_are_stored first.2
  /\ (exists a,
        activities first.2 !! first.1 = Some a
        /\ Activity.package_name a = package_name
        /\ Activity.activity_name a
           = Util.get_full_activity_name package_name activity_name)
  /\ (forall other a, activities r !! other = Some a ->
                      activities first.2 !! other = Some a)
  /\ (String.prefix "." activity_name = true ->
      package_name ≠ EmptyString ->
      String.prefix "." package_name = false ->
      all_known_activity r !! (package_name, activity_name) = None ->
      all_known_activity r !! (package_name, package_name +:+ activity_name)
      = None ->
      first.1 ≠ second.1
      /\ exists x y,
           activities second.2 !! first.1 = Some x
           /\ activities second.2 !! second.1 = Some y
           /\ Activity.activity_name x = Activity.activity_name y).
Proof.
  intros Hr. cbv zeta.
  pose proof (get_activity_stored package_name activity_name status_level r Hr)
    as Hstored.
  destruct Hr as [Hknown Hbelow].
  destruct (all_known_activity r !! (package_name, activity_name)) as [known|]
    eqn:Eknown.
  - assert (Efirst : get_activity package_name activity_name status_level r
                     = (known, r))
      by (unfold get_activity; now rewrite Eknown).
    rewrite Efirst in *. cbn [fst snd] in *.
    split; [unfold get_activity; now rewrite Eknown|].
    split; [exact Hstored|]. split; [exact (Hknown _ _ _ Eknown)|].
    split; [auto|]. intros _ _ _ Hnone. discriminate.
  - set (new_activity :=
           if Util.truthy
                (default EmptyString
                   (human_description r
                    !! Activity.activity_name
                         (Activity__init__ package_name activity_name
                            (manager r) status_level)))
           then Activity.Mk package_name
                  (Util.get_full_activity_name package_name activity_name)
                  [] status_level
                  (human_description r
                   !! Util.get_full_activity_name package_name activity_name)
                  true
           else Activity__init__ package_name activity_name (manager r)
                  status_level).
    assert (Hname : Activity.package_name new_activity = package_name
                    /\ Activity.activity_name new_activity
                       = Util.get_full_activity_name package_name activity_name)
      by (unfold new_activity; now destruct (Util.truthy _)).
    set (r1 := Registry.Mk (manager r)
                 (<[(package_name, activity_name) := next_activity r]>
                    (all_known_activity r))
                 (last_activities r ++ [next_activity r]) (human_description r)
                 (<[next_activity r := new_activity]> (activities r))
                 (S (next_activity r))).
    assert (Efirst : get_activity package_name activity_name status_level r
                     = (next_activity r, r1))
      by (unfold get_activity; now rewrite Eknown).
    rewrite Efirst in *. cbn [fst snd] in *.
    split.
    { unfold get_activity, r1. cbn [all_known_activity].
      now rewrite lookup_insert_eq. }
    split; [exact Hstored|]. split.
    { unfold r1. cbn [activities]. rewrite lookup_insert_eq.
      exists new_activity. now split. }
    split.
    { intros other a Ha. unfold r1. cbn [activities].
      specialize (Hbelow other a Ha). now rewrite lookup_insert_ne by lia. }
    intros Hdot Hpkg Hpdot _ Hfull.
    assert (Hne : (package_name, activity_name)
                  ≠ (package_name, package_name +:+ activity_name)).
    { intros Heq. injection Heq as Heq.
      apply (f_equal String.length) in Heq. rewrite length_app_string in Heq.
      destruct package_name; [contradiction|simpl in Heq; lia]. }
    assert (Hfirst : Util.get_full_activity_name package_name activity_name
                     = package_name +:+ activity_name)
      by (unfold Util.get_full_activity_name; now rewrite Hdot).
    assert (Hsecond : Util.get_full_activity_name package_name
                        (package_name +:+ activity_name)
                      = package_name +:+ activity_name).
    { unfold Util.get_full_activity_name.
      replace (String.prefix "." (package_name +:+ activity_name)) with false;
        [reflexivity|].
      clear - Hpkg Hpdot. destruct package_name as [|c p]; [contradiction|].
      symmetry. etransitivity; [|exact Hpdot].
      apply (prefix_one_cons "." c (p +:+ activity_name) p). }
    assert (Hnone : all_known_activity r1
                      !! (package_name, package_name +:+ activity_name) = None).
    { unfold r1. cbn [all_known_activity].
      now rewrite lookup_insert_ne by exact Hne. }
    unfold get_activity. rewrite Hnone. cbn [fst snd activities].
    assert (Hnext : next_activity r1 = S (next_activity r)) by reflexivity.
    rewrite Hnext. split; [lia|].
    rewrite lookup_insert_eq. rewrite lookup_insert_ne by (clear; lia).
    unfold r1. cbn [activities]. rewrite lookup_insert_eq.
    eexists _, _. split; [reflexivity|]. split; [reflexivity|].
    destruct Hname as [_ ->]. rewrite Hfirst.
    assert (Hinit : forall m l,
               Activity.activity_name
                 (Activity__init__ package_name (package_name +:+ activity_name)
                    m l)
               = package_name +:+ activity_name)
      by (intros m l; unfold Activity__init__; cbn [Activity.activity_name];
          exact Hsecond).
    match goal with
    | |- _ = Activity.activity_name (if ?c then _ else _) => destruct c
    end; cbn [Activity.activity_name]; now rewrite Hinit.
Qed.

End RegistryProps.

(** X25 on a manager that knows no Activity yet. *)
Lemma activities_are_kept_by_the_names_given_witness :
  Registry.get_activity "com.example" ".Main" Memory.DEFAULT_STATUS_LEVEL
    (Registry.get_activity "com.example" ".Main" Memory.DEFAULT_STATUS_LEVEL
       (Registry.Mk Sample.manager0 ∅ [] ∅ ∅ 0)).2
  = Registry.get_activity "com.example" ".Main" Memory.DEFAULT_STATUS_LEVEL
      (Registry.Mk Sample.manager0 ∅ [] ∅ ∅ 0).
Proof.
  refine (proj1 (RegistryProps.activities_are_kept_by_the_names_given
                   "com.example" ".Main" Memory.DEFAULT_STATUS_LEVEL
                   Memory.DEFAULT_STATUS_LEVEL
                   (Registry.Mk Sample.manager0 ∅ [] ∅ ∅ 0) _)).
  split.
  - intros p n oid Hoid. cbn in Hoid. rewrite lookup_empty in Hoid. discriminate.
  - intros oid a Ha. cbn in Ha. rewrite lookup_empty in Ha. discriminate.
Defined.

Module TextProps.

Import Xml XmlUtil Memory PipelineProps.

(** A text that is not empty and has printable characters only. *)
Definition clean_text (x : string) : Prop :=
  x ≠ EmptyString /\ Util.string_forall Util.isprintable x = true.

(** The child texts of the element are clean, and none of them is one of
    its near texts. *)
Definition tidy (a : Attrs) : Prop :=
  forall x, x ∈ child_texts_of a -> clean_text x /\ x ∉ near_texts_of a.

Lemma elem_of_filter_not_in (near l : list string) (x : string) :
  x ∈ List.filter (not_in near) l <-> x ∈ l /\ x ∉ near.
Proof.
  rewrite list_elem_of_In, List.filter_In, <- list_elem_of_In.
  unfold not_in. rewrite negb_true_iff, UtilProps.str_in_false. reflexivity.
Qed.

(** Made unique and printable, a list of clean texts keeps its members. *)
Lemma unique_printable_of_clean (l : list string) (x : string) :
  (forall y, y ∈ l -> clean_text y) ->
  x ∈ Util.make_list_unique_and_printable l -> x ∈ l.
Proof.
  intros Hl (_ & s & Hs & ->)%UtilProps.unique_printable_elem.
  unfold Util.make_str_printable.
  rewrite UtilProps.string_filter_fixed; [exact Hs|]. now apply Hl.
Qed.

Lemma drop_later_res_ids_elem (copy : list string) (flag : bool)
    (child_texts : list string) (x : string) :
  x ∈ drop_later_res_ids copy flag child_texts -> x ∈ child_texts.
Proof.
  revert flag child_texts. induction copy as [|c copy IH];
    intros flag child_texts; simpl; [auto|].
  destruct (String.prefix "resource_id: " c); [destruct flag|]; intros Hx.
  - apply IH in Hx. now apply DescriptionProps.remove_first_elem in Hx.
  - now apply IH in Hx.
  - now apply IH in Hx.
Qed.

Section WithHost.
Context `{Host}.

Lemma own_texts_clean (a : Attrs) (x : string) :
  x ∈ own_texts a -> clean_text x.
Proof. apply DescriptionProps.description_list_entries. Qed.

(** Key-node detection leaves every element tidy, whatever it was given. *)
Lemma indent_xml_tidy (root : XmlElement) :
  forall t path following depth,
    tree_all tidy (_indent_xml root path following depth t).1.1.
Proof.
  induction t as [a cs IH] using XmlElement_tree_ind.
  intros path following depth.
  assert (Hchildren : forall i,
             Forall (tree_all tidy)
                    (NormaliserProps.indent_children root path depth i cs).1.1).
  { induction cs as [|c cs IHcs]; intros i; [constructor|].
    apply Forall_cons in IH as [IHc IHrest].
    rewrite NormaliserProps.indent_children_cons.
    specialize (IHc (path ++ [i]) cs (S depth)).
    specialize (IHcs IHrest (S i)).
    destruct (_indent_xml root (path ++ [i]) cs (S depth) c) as [[c' k] f].
    destruct (NormaliserProps.indent_children root path depth (S i) cs)
      as [[r' k'] f'].
    constructor; assumption. }
  specialize (Hchildren 0%nat).
  simpl. fold (NormaliserProps.indent_children root path depth).
  destruct (NormaliserProps.indent_children root path depth 0 cs) as [[cs' k] f].
  cbn [fst] in *. apply tree_all_node. split; [|exact Hchildren].
  set (near := Util.make_list_unique_and_printable _).
  assert (Hnear : forall texts b,
             near_texts b = Some near ->
             near_texts_of (set_child_texts texts b) = near)
    by (intros texts b Hb; unfold near_texts_of; simpl; now rewrite Hb).
  intros x Hx. unfold child_texts_of in Hx. cbn [child_texts set_child_texts] in Hx.
  simpl in Hx. apply elem_of_filter_not_in in Hx as [Hx Hout].
  split.
  - apply elem_of_app in Hx as [Hx|Hx]; [now apply own_texts_clean in Hx|].
    apply list_elem_of_In, in_flat_map in Hx as (c & Hc & Hx).
    destruct (has (attrs c) "depth"); [destruct Hx|].
    apply list_elem_of_In in Hc, Hx.
    rewrite Forall_forall in Hchildren. specialize (Hchildren c Hc).
    destruct c as [ca ccs]. apply tree_all_node in Hchildren as [Hca _].
    now apply Hca.
  - rewrite Hnear; [exact Hout|]. now destruct (detection_function_actionable _).
Qed.

Lemma pass_down_child_texts_tidy (t : XmlElement) (keys : list Path) :
  tree_all tidy t -> tree_all tidy (pass_down_child_texts t keys).
Proof.
  unfold pass_down_child_texts. revert t.
  apply (fold_update_keeps tidy pass_down_child_texts_step).
  intros p t Ht. unfold pass_down_child_texts_step.
  destruct p as [|i p]; [exact Ht|].
  destruct (get_node t (removelast (i :: p))) as [parent|] eqn:Eparent;
    [|exact Ht].
  destruct (Util.truthy _); [exact Ht|].
  assert (Hparent : tidy (attrs parent)).
  { apply (tree_all_at tidy (removelast (i :: p)) t); [exact Ht|].
    unfold get_attrs. now rewrite Eparent. }
  assert (Hptexts : forall y, y ∈ child_texts_of (attrs parent) -> clean_text y)
    by (intros y Hy; now apply Hparent).
  destruct (child_texts_of (attrs parent)) as [|x0 l0]; [exact Ht|].
  set (ptexts := x0 :: l0) in *. clearbody ptexts.
  apply update_node_keeps; [|exact Ht].
  intros [pa pcs] Hp. apply tree_all_node in Hp as [Hpa Hpcs].
  apply tree_all_node. split; [exact Hpa|].
  apply Forall_map. rewrite Forall_forall in Hpcs |- *. intros c Hc.
  apply tree_all_on_attrs; [|now apply Hpcs].
  intros ca Hca. destruct (bool_decide _); [exact Hca|].
  intros x Hx.
  assert (Hnear : near_texts_of
                    (set_child_texts
                       (Util.make_list_unique_and_printable
                          (List.filter (not_in (near_texts_of ca))
                                       (ptexts ++ child_texts_of ca))) ca)
                  = near_texts_of ca) by reflexivity.
  rewrite Hnear.
  change (x ∈ Util.make_list_unique_and_printable
                (List.filter (not_in (near_texts_of ca))
                             (ptexts ++ child_texts_of ca))) in Hx.
  apply unique_printable_of_clean in Hx.
  - apply elem_of_filter_not_in in Hx as [Hx Hout]. split; [|exact Hout].
    apply elem_of_app in Hx as [Hx|Hx]; [now apply Hptexts|now apply Hca].
  - intros y [Hy _]%elem_of_filter_not_in.
    apply elem_of_app in Hy as [Hy|Hy]; [now apply Hptexts|now apply Hca].
Qed.

Lemma keep_only_one_res_id_tidy (t : XmlElement) (keys : list Path) :
  tree_all tidy t -> tree_all tidy (keep_only_one_res_id_in_child_texts t keys).
Proof.
  unfold keep_only_one_res_id_in_child_texts. revert t.
  apply (fold_update_keeps tidy (fun p t => update_attrs keep_only_one_res_id p t)).
  intros p t Ht. apply update_node_keeps; [|exact Ht].
  intros t' Ht'. apply tree_all_on_attrs; [|exact Ht'].
  intros a Ha. unfold keep_only_one_res_id.
  destruct (_ <=? _)%nat; [exact Ha|].
  intros x Hx. unfold child_texts_of, near_texts_of in *. simpl in Hx |- *.
  apply drop_later_res_ids_elem in Hx. now apply Ha.
Qed.

Lemma remove_duplicate_near_texts_tidy (t : XmlElement) (keys : list Path) :
  tree_all tidy t -> tree_all tidy (remove_duplicate_near_texts t keys).
Proof.
  unfold remove_duplicate_near_texts.
  generalize (all_direct_near_texts t keys). intros all_texts. revert t.
  apply (fold_update_keeps tidy
           (fun p t => update_attrs (filter_near_texts all_texts) p t)).
  intros p t Ht. apply update_node_keeps; [|exact Ht].
  intros t' Ht'. apply tree_all_on_attrs; [|exact Ht'].
  intros a Ha x Hx. unfold filter_near_texts, child_texts_of, near_texts_of in *.
  simpl in Hx |- *. destruct (Ha x Hx) as [Hclean Hout]. split; [exact Hclean|].
  intros [Hin _]%elem_of_filter_not_in. contradiction.
Qed.

(** X26.  What a normalised tree says of the texts below an element.
    Whatever tree [Status.init_element_tree] is given, in the tree it makes
    every child text of every element is a non-empty text of printable
    characters, and no element lists one text both among its child texts
    and among its near texts. *)
Theorem child_texts_are_clean_and_not_near (xml_tree : XmlElement) :
  tree_all tidy (init_element_tree xml_tree)
  /\ forall p a x,
       get_attrs (init_element_tree xml_tree) p = Some a ->
       x ∈ child_texts_of a ->
       x ≠ EmptyString
       /\ Util.string_forall Util.isprintable x = true
       /\ x ∉ near_texts_of a.
Proof.
  assert (Hall : tree_all tidy (init_element_tree xml_tree)).
  { unfold init_element_tree, indent_xml.
    set (t2 := pass_container_text_down (pass_down_actionable xml_tree)).
    pose proof (indent_xml_tidy t2 t2 [] [] 0%nat) as Hind.
    destruct (_indent_xml t2 [] [] 0 t2) as [[t3 k] found]. cbn [fst] in Hind.
    apply remove_duplicate_near_texts_tidy, keep_only_one_res_id_tidy,
      pass_down_child_texts_tidy. exact Hind. }
  split; [exact Hall|]. intros p a x Hget Hx.
  destruct (tree_all_at tidy p _ a Hall Hget x Hx) as [[Hne Hpr] Hout].
  now split.
Qed.

End WithHost.

End TextProps.

Module Parents.

Import Xml.

(** [element.getparent()] on an element of one tree, by its reference: the
    root has no parent. *)
Definition getparent (e : Path) : option Path :=
  match e with
  | [] => None
  | _ => Some (removelast e)
  end.

(** [has_same_parent] on two elements of one tree ([None] is Python's
    [None]); [==] on elements is identity. *)
Fixpoint has_same_parent (element1 element2 : option Path) (max_depth : nat)
  : bool :=
  match max_depth with
  | O => false
  | S rest =>
      match element1, element2 with
      | None, None => true
      | None, Some _ | Some _, None => false
      | Some p1, Some p2 =>
          let element1 := getparent p1 in
          let element2 := getparent p2 in
          if bool_decide (element1 = element2) then true
          else has_same_parent element1 element2 rest
      end
  end.

End Parents.

Module ParentProps.

Import Xml Parents.

Lemma has_same_parent_one_None (q : Path) (n : nat) :
  has_same_parent None (Some q) n = false
  /\ has_same_parent (Some q) None n = false.
Proof. destruct n; now split. Qed.

Lemma length_removelast (p : Path) : length (removelast p) = (length p - 1)%nat.
Proof.
  rewrite removelast_firstn_len, length_take. lia.
Qed.

Lemma take_removelast (k : nat) (p : Path) :
  (k <= length p - 1)%nat -> take k (removelast p) = take k p.
Proof.
  intros Hk. rewrite removelast_firstn_len, take_take. f_equal. lia.
Qed.

Lemma same_parent_paths (n : nat) :
  forall p1 p2,
    has_same_parent (Some p1) (Some p2) n = true
    <-> (1 <= n)%nat /\ length p1 = length p2
        /\ take (length p1 - n) p1 = take (length p2 - n) p2.
Proof.
  induction n as [|n IH]; intros p1 p2.
  - simpl. split; [discriminate|]. intros [Hn _]. lia.
  - cbn [has_same_parent].
    destruct p1 as [|a1 q1], p2 as [|a2 q2]; cbn [getparent].
    + rewrite bool_decide_eq_true_2 by reflexivity.
      split; [|reflexivity]. intros _. split; [lia|]. now split.
    + rewrite bool_decide_eq_false_2 by discriminate.
      rewrite (proj1 (has_same_parent_one_None _ n)).
      split; [discriminate|]. intros (_ & Hlen & _). discriminate.
    + rewrite bool_decide_eq_false_2 by discriminate.
      rewrite (proj2 (has_same_parent_one_None _ n)).
      split; [discriminate|]. intros (_ & Hlen & _). discriminate.
    + set (p1 := a1 :: q1). set (p2 := a2 :: q2).
      assert (H1 : (1 <= length p1)%nat) by (simpl; lia).
      assert (H2 : (1 <= length p2)%nat) by (simpl; lia).
      clearbody p1 p2.
      assert (Hshift : forall p : Path, (1 <= length p)%nat ->
                take (length p - S n) p
                = take (length (removelast p) - n) (removelast p)).
      { intros p Hp. rewrite length_removelast.
        replace (length p - 1 - n)%nat with (length p - S n)%nat by lia.
        symmetry. apply take_removelast. lia. }
      rewrite (Hshift p1 H1), (Hshift p2 H2).
      assert (Hlen : length p1 = length p2
                     <-> length (removelast p1) = length (removelast p2))
        by (rewrite !length_removelast; lia).
      rewrite Hlen.
      destruct (decide (Some (removelast p1) = Some (removelast p2)))
        as [Heq|Hne].
      * rewrite bool_decide_eq_true_2 by exact Heq. apply (inj Some) in Heq.
        rewrite Heq. split; [|reflexivity]. intros _. split; [lia|]. now split.
      * rewrite bool_decide_eq_false_2 by exact Hne. rewrite IH.
        split.
        -- intros (_ & Hl & Ht). split; [lia|]. now split.
        -- intros (_ & Hl & Ht). destruct n as [|n].
           ++ exfalso. apply Hne. f_equal.
              rewrite !Nat.sub_0_r, !firstn_all in Ht. exact Ht.
           ++ split; [lia|]. now split.
Qed.

(** X27.  [has_same_parent] on two elements of one tree holds exactly when
    they lie at the same depth and have one ancestor [max_depth] levels up
    (or one root, when they lie less deep): with the default of 3, one
    great-grandparent.  Elements at different depths are never found to
    have the same parent, an element and its own parent included.  Without
    elements the answer is yes, with one element no, and with a
    [max_depth] of 0 always no. *)
Theorem same_parent_means_same_depth_and_ancestor (p1 p2 : Path)
    (max_depth : nat) :
  (has_same_parent (Some p1) (Some p2) max_depth = true
   <-> (1 <= max_depth)%nat /\ length p1 = length p2
       /\ take (length p1 - max_depth) p1 = take (length p2 - max_depth) p2)
  /\ (length p1 ≠ length p2 ->
      has_same_parent (Some p1) (Some p2) max_depth = false)
  /\ (p1 ≠ [] -> has_same_parent (Some p1) (getparent p1) max_depth = false)
  /\ has_same_parent (Some p1) (Some p1) (S max_depth) = true
  /\ has_same_parent None None (S max_depth) = true
  /\ has_same_parent None (Some p2) max_depth = false
  /\ has_same_parent (Some p1) None max_depth = false
  /\ has_same_parent (Some p1) (Some p2) 0 = false.
Proof.
  split; [apply same_parent_paths|].
  assert (Hdiff : forall q1 q2, length q1 ≠ length q2 ->
                    has_same_parent (Some q1) (Some q2) max_depth = false).
  { intros q1 q2 Hlen.
    destruct (has_same_parent (Some q1) (Some q2) max_depth) eqn:E;
      [|reflexivity].
    apply same_parent_paths in E as (_ & Hl & _). contradiction. }
  split; [apply Hdiff|]. split.
  - intros Hne. destruct p1 as [|a q]; [contradiction|]. cbn [getparent].
    apply Hdiff. rewrite length_removelast. simpl. lia.
  - split; [apply same_parent_paths; split; [lia|now split]|].
    split; [reflexivity|].
    split; [apply has_same_parent_one_None|].
    split; [apply has_same_parent_one_None|reflexivity].
Qed.

End ParentProps.

Module TextFields.

Import Xml Memory.

Section WithHost.
Context `{Host}.

(** [Status.is_all_text_filled], given the manager of the Status's
    Activity. *)
Definition is_all_text_filled (s : Status.t) (m : ActivityManager.t) : bool :=
  forallb
    (fun ed : Path * nat =>
       let el := element s (fst ed) in
       if bool_decide
            ("input" ∈ Commands.get_available_commands_for_xml_element el)
       then match filled_text_for
                    (XmlUtil.make_element_description el false false true) m with
            | None => false
            | Some _ => true
            end
       else true)
    (get_elements_disable_weight (Status.xml_tree s)).

End WithHost.

End TextFields.

Module TextFieldProps.

Import Xml Memory TextFields.

Section WithHost.
Context `{Host}.

(** The key element [ed] of [s] offers no [input], or its description has a
    filled text. *)
Definition filled_or_no_field (s : Status.t) (m : ActivityManager.t)
    (ed : Path * nat) : Prop :=
  "input" ∈ Commands.get_available_commands_for_xml_element (element s (fst ed)) ->
  is_Some (filled_text_for
             (XmlUtil.make_element_description (element s (fst ed))
                false false true) m).

Lemma all_text_filled_iff (s : Status.t) (m : ActivityManager.t) :
  is_all_text_filled s m = true
  <-> forall ed, ed ∈ get_elements_disable_weight (Status.xml_tree s) ->
                 filled_or_no_field s m ed.
Proof.
  unfold is_all_text_filled, filled_or_no_field. rewrite forallb_forall. split.
  - intros Hall ed Hed Hinput. apply list_elem_of_In in Hed.
    specialize (Hall ed Hed). cbv zeta in Hall.
    rewrite bool_decide_eq_true_2 in Hall by exact Hinput.
    destruct (filled_text_for _ m); [eauto|discriminate].
  - intros Hall ed Hed. apply list_elem_of_In in Hed. specialize (Hall ed Hed).
    cbv zeta. case_bool_decide as Hinput; [|reflexivity].
    now destruct (Hall Hinput) as [text ->].
Qed.

(** X28.  [Status.is_all_text_filled] holds exactly when every listed key
    element that offers [input] has a filled text under its description.
    A filled text is never taken back: [add_filled_text] keeps the answer
    yes.  Texts are kept by DESCRIPTION: after an [input] through
    [on_element_action], every text field of the acting Status with the
    description of the chosen element counts as filled, so the answer is
    yes as soon as the other text fields were filled. *)
Theorem text_fields_are_filled_by_description (s : Status.t)
    (m : ActivityManager.t) (description text : string)
    (e e' : Engine) (self new_status : nat) (elem : Path) (step_number : Z)
    (useful : bool) (extra : gmap string string) :
  (is_all_text_filled s m = true
   <-> forall ed, ed ∈ get_elements_disable_weight (Status.xml_tree s) ->
         "input" ∈ Commands.get_available_commands_for_xml_element
                     (element s (fst ed)) ->
         is_Some (filled_text_for
                    (XmlUtil.make_element_description (element s (fst ed))
                       false false true) m))
  /\ (is_all_text_filled s m = true ->
      is_all_text_filled s (add_filled_text description text m) = true)
  /\ (heap e !! self = Some s ->
      on_element_action self elem step_number new_status "input" useful extra e
      = Ok e' ->
      (forall ed, ed ∈ get_elements_disable_weight (Status.xml_tree s) ->
         "input" ∈ Commands.get_available_commands_for_xml_element
                     (element s (fst ed)) ->
         XmlUtil.make_element_description (element s (fst ed)) false false true
         = XmlUtil.make_element_description (element s elem) false false true
         \/ is_Some (filled_text_for
                       (XmlUtil.make_element_description (element s (fst ed))
                          false false true) (manager e))) ->
      exists s', heap e' !! self = Some s'
                 /\ is_all_text_filled s' (manager e') = true).
Proof.
  split; [apply all_text_filled_iff|]. split.
  - rewrite !all_text_filled_iff. intros Hall ed Hed Hinput.
    destruct (Hall ed Hed Hinput) as [old Hold].
    unfold filled_text_for, add_filled_text in *.
    cbn [ActivityManager.filled_texts].
    destruct (decide (description
                      = XmlUtil.make_element_description (element s (fst ed))
                          false false true)) as [->|Hne].
    + rewrite lookup_insert_eq. eauto.
    + rewrite lookup_insert_ne by exact Hne. eauto.
  - intros Hs Hrun Hothers.
    destruct (RecordProps.on_element_action_book e e' self new_status s elem
                step_number "input" useful extra Hs Hrun)
      as (s' & xpath & Hs' & Htree & _ & _ & _ & _ & Hinput).
    unfold Util.str_eqb in Hinput.
    rewrite bool_decide_eq_true_2 in Hinput by reflexivity.
    destruct Hinput as (typed & _ & Hfilled & _).
    assert (Hel : forall p, element s' p = element s p)
      by (intros p; unfold element; now rewrite Htree).
    exists s'. split; [exact Hs'|]. apply all_text_filled_iff.
    unfold filled_or_no_field, filled_text_for. rewrite Htree, Hfilled.
    intros ed Hed Hin. rewrite Hel in Hin |- *.
    destruct (Hothers ed Hed Hin) as [Hsame|[old Hold]].
    + rewrite Hsame, lookup_insert_eq. eauto.
    + unfold filled_text_for in Hold.
      destruct (decide (XmlUtil.make_element_description (element s elem)
                          false false true
                        = XmlUtil.make_element_description
                            (element s (fst ed)) false false true))
        as [Heq|Hne].
      * rewrite Heq, lookup_insert_eq. eauto.
      * rewrite lookup_insert_ne by exact Hne. eauto.
Qed.

End WithHost.

End TextFieldProps.
